(* ===== verification/_CoqProject ===== *)
-Q . S2P
Prelude.v
GoStd.v
Sql.v
Redis.v
Host.v
World.v
Config.v
Logging.v
Json.v
Monitoring.v
Broker.v
Concurrency.v
MonitoringWorkers.v
ManagementData.v
ManagementService.v
ManagementWorkers.v
ManagementOutbox.v
Access.v
Http.v
Crypto.v
Identity.v
IdentitySpec.v
IdentityApi.v
Calendar.v
ManagementApi.v
AgentHandler.v
Simulator.v
ObservationLogger.v
Reporting.v
ReportPool.v
ReportingSpec.v
Notification.v
System.v
Services.v
Gateway.v
MonitoringSystem.v
StatusFlow.v
Seed.v
Fleet.v
Startup.v
RegistryFlow.v
