(* ===== verification/Prelude.v ===== *)
(** * sms-microservices: the verification library

    The repository holds seven Go services that keep watch over a fleet of
    servers: sms-identity (users, sessions, forward authentication),
    sms-management (the registry of servers and its outbox), sms-monitoring (health
    checks and the health state machine), sms-agent-handler (heartbeats of
    agents), sms-reporting (a replica of the registry, reports),
    sms-notification (mail) and sms-simulator (a simulated fleet).  They meet in
    Redis (hashes, sorted sets, streams), in PostgreSQL schemas of their own and
    behind a reverse proxy.  This library models them as Rocq functions and
    proves what makes them correct.

    ** How code is modelled

    A Go function that talks to the outside is a [proc W A], a function from a
    world to a result and a world; [x <-- m; k] runs statements in order and
    [x <-? m; k] is [if err != nil { return err }] ([Prelude]).  The world is
    abstract.  What lies outside the repository is a [Service] with a
    specification of its documented commands: the clock, Redis and uuid.New
    ([Redis], [Host]), PostgreSQL through GORM with transactions ([Sql], [World]),
    the SMTP server ([Notification]), the packet filter ([Simulator]).
    [ServiceLaws] says that a command that answers did what the specification
    says and that one that fails did nothing or did its work before the answer
    was lost; [Reliable] adds that every command answers.  So a theorem without
    [Reliable] (or [Answers]) holds under any pattern of failures, and one with
    [SharedLaws] ([Sql]) whatever other clients of the database do meanwhile.
    Libraries are classes with laws (AES-GCM in [Crypto], bcrypt, JWT and random bytes in
    [Identity], the probes of [MonitoringWorkers], column types in
    [ManagementData] and [Reporting], the proxy in [System], the runtime of
    grpc-gateway in [Gateway], zap and slog in [Logging], Elasticsearch counts in
    [Reporting]) or arguments (html/template, excelize,
    mime/multipart).  Each specification comes with an executable service that
    satisfies it ([sure], [flaky] with a script of faults, [calm], [stormy]); the
    witnesses of the theorems run on these.  Statements about runs are total
    correctness, [wp m Q w].

    Strings are bytes; an int is a [Z] with [wrap64] or [wrap32] where it may
    overflow; a time is a number of nanoseconds; float64 is the Standard
    Library's IEEE model ([Calendar]); JSON is printed and parsed byte by byte
    ([Json]).  Maps are [gmap]s, read in an unspecified order where Go's order is
    unspecified.

    ** The files

    - [Prelude], [GoStd], [Json], [Calendar], [Http]: the language, its standard
      library, automation ([wp_step], hint database [go]) and shared lemmas.
    - [Redis], [Host], [Sql], [World]: the servers outside and their rules.
    - [Config]: config/ of all services.  [Logging]: infrastructure/logger/.  [Crypto]: infrastructure/security/crypto.go
      of sms-management and sms-monitoring.  [Access]: principals, roles, interceptors.
    - [Monitoring]: service/monitoring_service.go ([Evaluate], [next_state]) behind
      the interface [MonitoringDeps], and its Redis implementation.
      [MonitoringWorkers]: checkers, pool, producer, heartbeat and registry
      consumers, sweeper.  [ObservationLogger]: the buffered logger.
    - [Broker]: redis_subscriber.go, of which four services carry a copy.
    - [ManagementData], [ManagementService], [ManagementWorkers],
      [ManagementOutbox], [ManagementApi]: tables and repositories; the server
      service with import; relay and status consumer; what the steps of the
      tables preserve; gRPC and REST.
    - [Identity], [IdentitySpec], [IdentityApi]: repositories, tokens and service;
      their theorems; gRPC server, cookies, CSRF, forward authentication, seeding.
    - [AgentHandler]: the heartbeat endpoint.  [Reporting], [ReportingSpec],
      [ReportPool]: replica, reports, scheduler; their theorems; the pool of
      workers as a step relation.  [Notification]: consumer and mailer.
      [Simulator]: packet filter, control interface, flapper, push worker.
      [Seed]: seed/seed.go and its command, the seeding of a fleet.  [Fleet]: the
      settings and the SSH server of the simulator, and its fleet under the checkers.
    - [System]: services together.  [Services]: the copies of shared code and the
      wiring of the app packages.  [Gateway]: the .pb.gw.go files of three services (how
      a request is read, patterns, registration) and the HTTP servers with them.
    - [Concurrency]: goroutines that share Redis.  A goroutine is any [proc]; it is
      replayed on the answers it has had to find its next request ([replay],
      [next_request]), and a [step] serves the request of any one of them, or lets
      another program act.  [schema] says what keys may hold; code that only sends
      commands that respect it is [typed].  [MonitoringSystem]: the goroutines of
      app/run.go of sms-monitoring ([App_Run]), typed and interleaved.
      [StatusFlow]: sms-monitoring and the status consumer of sms-management,
      interleaved.  [RegistryFlow]: the handlers and the relay of sms-management
      and what follows them, a replica of sms-reporting or a cache of
      sms-monitoring, behind the interface [Reader].
    - [Startup]: app/app.go, app/run.go and cmd/ of the services and of the
      simulator, with their connections, as programs over the steps they take outside ([action]),
      whose answers are a function; a panic is a result of its own ([exit]).

    ** What is shown

    - The health state machine refines a reference (a function of the history
      of checks), each [Evaluate] does exactly one transition and at most one
      message, published statuses alternate (Monitoring).
    - The subscriber loses no message, recovers or provably does not, and its
      sweep of stale messages ends (Broker).
    - The workers around the state machine: who is swept, polled, synchronised,
      evaluated (MonitoringWorkers); no server is reported silent that was heard
      of in time (AgentHandler); accepted observations are flushed once, in order
      (ObservationLogger).
    - Creating, updating, deleting and importing servers takes effect in atomic
      steps of the tables, whatever statement fails and whatever other clients do
      between the statements (ManagementService); so the outbox tells all that
      happened to the registry (ManagementOutbox), and the relay delivers at least
      once, in order (ManagementWorkers); callers are told the truth, and pages
      partition the selection (ManagementApi).
    - What is revoked stays revoked, a logout is final, a refresh token works
      once (IdentitySpec); login, forward authentication, seeding (IdentityApi).
    - Requests for reports, what a worker makes of them, the shutdown of the pool
      under any interleaving (ReportingSpec, ReportPool); a report reaches the
      mailbox (Notification).
    - Configuration errors, role checks, the round trip of encrypted keys (Config,
      Access, Crypto); the addresses and the flaps of the simulator (Simulator).
    - Across services: a login opens exactly what the role allows (System), and
      the replica of sms-reporting and the cache of sms-monitoring follow the
      registry of sms-management although the relay may publish events again
      (RegistryFlow).
    - All goroutines of sms-monitoring together, in any number of replicas and
      interleaved request by request, keep the cache and the status stream
      well-formed, and the messages between sms-management and sms-monitoring
      are read as they were meant (MonitoringSystem).
    - However checks and the reading of the status stream interleave, the registry
      ends up with the status that the reference machine gives each server
      (StatusFlow).
    - The REST gateways of three services implement the HTTP rules of the .proto
      files, and whatever is asked of sms-management over HTTP (import and export
      have handlers of their own), nobody gets past the check of permissions (Gateway).
    - A seeding leaves the other servers alone and makes three services agree on
      the fleet (Seed), which the checkers then find up or down (Fleet).
    - When a service gets to serve, refuses or panics, and what its shutdown
      stops (Startup).

    Lemmas at the end of the files, under "Finding", show where the code does not
    do what it means to (a lost dead letter, a logout without effect, a report
    without a row, a panic at shutdown, checks that race and others).

    ** Fuel

    [recoverPendingMessages] and [claim_loop] (Broker) loop on what Redis answers
    and take fuel; [None] is "still running".  [recover_terminates_iff] says
    exactly when the first ends (more fuel than own pending messages is then
    enough), [claim_terminates] that the second always does (more fuel than
    pending entries).  Endless loops (consumers, pool workers, tickers) are run
    for any number of turns.  The JSON parser takes twice the length of the text,
    and [parse_fuel_enough] says that no other fuel reads more (likewise
    [unquote_fuel_enough]); string trimming takes the length of the string; goroutines are step relations or
    lists of turns in any order.

    ** Not modelled

    The protobuf messages and stubs (.pb.go files: records and forwarding calls),
    mocks, tests and fixtures; constructors that only store their arguments and
    the types of Go's dependency injection; the moment at which a signal arrives
    (except in [ReportPool]) and servers that fail after they started.
    These are plumbing or calls of libraries without logic of their own.
    Most theorems about one handler see the effects of its own commands only.
    Other clients of the same Redis are the subject of [MonitoringSystem] (and of
    the files that have goroutines take turns).  Other clients of PostgreSQL are
    part of the theorems on the handlers and workers of sms-management, on the
    requests and workers of sms-reporting, on logins, forward authentication
    and of [revoked_for_good] ([SharedLaws] in [Sql]: they act between the statements,
    while transactions, which here only write, are isolated); elsewhere they are
    not modelled. *)
From stdpp Require Export base tactics list gmap sets strings.
From Stdlib Require Export ZArith Lia.

(** ** Results and errors

    A Go function that returns [(T, error)] returns a [res T] here.  An error
    is a sentinel (a package variable made by [errors.New], known by its
    qualified name) or a wrapper made by [fmt.Errorf("...: %w", err)]. *)
Inductive err :=
  | ErrS (name : string)
  | ErrWrap (msg : string) (inner : err).

#[export] Instance err_eq_dec : EqDecision err.
Proof. solve_decision. Defined.

Inductive res (A : Type) :=
  | Ok (a : A)
  | Err (e : err).
Arguments Ok {A} a.
Arguments Err {A} e.

#[export] Instance res_eq_dec {A} `{EqDecision A} : EqDecision (res A).
Proof. solve_decision. Defined.

(** [errors.Is]: walk the wrapping chain looking for the target. *)
Fixpoint errors_Is (e target : err) : bool :=
  bool_decide (e = target) ||
  match e with
  | ErrS _ => false
  | ErrWrap _ inner => errors_Is inner target
  end.

Definition is_ok {A} (r : res A) : bool :=
  match r with Ok _ => true | Err _ => false end.

(** ** Effectful code

    A statement of the program is a function on the world [W]: everything
    outside the process (Redis, PostgreSQL, Elasticsearch, the clock, the
    source of random identifiers).  [W] is abstract; what the program may rely
    on is stated by [ServiceLaws] below. *)
Definition proc (W A : Type) : Type := W -> A * W.

#[export] Instance proc_ret W : MRet (proc W) := fun A a w => (a, w).
#[export] Instance proc_bind W : MBind (proc W) :=
  fun A B k m w => let '(a, w') := m w in k a w'.

(** [x <-? m; k]: Go's [x, err := m; if err != nil { return err }]. *)
Definition try_bind {W A B} (m : proc W (res A)) (k : A -> proc W (res B)) : proc W (res B) :=
  mbind (fun r => match r with Ok a => k a | Err e => mret (Err e) end) m.

Declare Scope go_scope.
Delimit Scope go_scope with go.
Notation "x <-? m ; k" := (try_bind m (fun x => k))
  (at level 100, m at next level, k at level 200, right associativity) : go_scope.
Notation "x <-- m ; k" := (mbind (M := proc _) (fun x => k) m)
  (at level 100, m at next level, k at level 200, right associativity) : go_scope.
Notation "m ;;- k" := (mbind (M := proc _) (fun _ => k) m)
  (at level 100, k at level 200, right associativity) : go_scope.
Open Scope go_scope.

(** Run a statement for every element, in order, ignoring the results. *)
Fixpoint for_each {W A B} (f : A -> proc W B) (l : list A) : proc W unit :=
  match l with
  | [] => mret tt
  | a :: l => f a ;;- for_each f l
  end.

(** The same, keeping the results. *)
Fixpoint collect {W A B} (f : A -> proc W B) (l : list A) : proc W (list B) :=
  match l with
  | [] => mret []
  | a :: l => b <-- f a; bs <-- collect f l; mret (b :: bs)
  end.

(** ** Weakest preconditions

    [wp m Q w]: run from [w], [m] yields a result and a world satisfying [Q].
    Every statement of the language is total, so [wp] is total correctness. *)
Definition wp {W A} (m : proc W A) (Q : A -> W -> Prop) (w : W) : Prop :=
  let '(a, w') := m w in Q a w'.

Section wp_rules.
Context {W : Type}.

Lemma wp_ret {A} (a : A) (Q : A -> W -> Prop) w : Q a w -> wp (mret a) Q w.
Proof. done. Qed.

Lemma wp_bind {A B} (m : proc W A) (k : A -> proc W B) (Q : B -> W -> Prop) w :
  wp m (fun a w' => wp (k a) Q w') w -> wp (mbind k m) Q w.
Proof. unfold wp, mbind, proc_bind. by destruct (m w). Qed.

Lemma wp_try {A B} (m : proc W (res A)) (k : A -> proc W (res B)) Q w :
  wp m (fun r w' => match r with Ok a => wp (k a) Q w' | Err e => Q (Err e) w' end) w ->
  wp (try_bind m k) Q w.
Proof.
  intros H. apply wp_bind. revert H. unfold wp. destruct (m w) as [[a|e] w']; done.
Qed.

Lemma wp_mono {A} (m : proc W A) (Q Q' : A -> W -> Prop) w :
  wp m Q w -> (forall a w', Q a w' -> Q' a w') -> wp m Q' w.
Proof. unfold wp. destruct (m w). auto. Qed.

Lemma wp_run {A} (m : proc W A) (Q : A -> W -> Prop) w :
  wp m Q w <-> Q (m w).1 (m w).2.
Proof. unfold wp. by destruct (m w). Qed.

Lemma wp_any {A} (m : proc W A) (Q : A -> W -> Prop) w : (forall a w', Q a w') -> wp m Q w.
Proof. intros HQ. apply wp_run, HQ. Qed.

(** Invariant rule for [for_each]. *)
Lemma wp_for_each {A B} (f : A -> proc W B) (I : list A -> W -> Prop) l w :
  I l w ->
  (forall a l' w, I (a :: l') w -> wp (f a) (fun _ w' => I l' w') w) ->
  wp (for_each f l) (fun _ w' => I [] w') w.
Proof.
  intros HI Hstep. revert w HI. induction l as [|a l IH]; intros w HI; cbn.
  - by apply wp_ret.
  - apply wp_bind. eapply wp_mono; [by apply Hstep|]. cbn. intros _ w' HI'. by apply IH.
Qed.

(** The results of [collect] come one by one. *)
Lemma wp_collect {A B} (f : A -> proc W B) (I : list A -> list B -> list A -> W -> Prop) l w :
  I [] [] l w ->
  (forall pre bs a l' w, I pre bs (a :: l') w ->
     wp (f a) (fun b w' => I (pre ++ [a]) (bs ++ [b]) l' w') w) ->
  wp (collect f l) (fun bs w' => I l bs [] w') w.
Proof.
  intros HI Hstep.
  assert (forall l pre acc w, I pre acc l w ->
    wp (collect f l) (fun bs w' => I (pre ++ l) (acc ++ bs) [] w') w) as H; [|by apply (H l [] [])].
  clear -Hstep. intros l. induction l as [|a l IH]; intros pre acc w HI; cbn.
  - apply wp_ret. by rewrite !app_nil_r.
  - apply wp_bind. eapply wp_mono; [by apply Hstep|]. cbn. intros b w' HI'.
    apply wp_bind. eapply wp_mono; [by apply IH|]. cbn. intros bs w'' H.
    apply wp_ret. by rewrite <- !app_assoc in H.
Qed.

(** A fact that depends on a hypothesis may be proved under it. *)
Lemma wp_under {A} (m : proc W A) (P : Prop) (Q : A -> W -> Prop) w :
  (P -> wp m Q w) -> wp m (fun a w' => P -> Q a w') w.
Proof. unfold wp. by destruct (m w). Qed.

Lemma wp_and {A} (m : proc W A) (Q Q' : A -> W -> Prop) w :
  wp m Q w -> wp m Q' w -> wp m (fun a w' => Q a w' /\ Q' a w') w.
Proof. unfold wp. by destruct (m w). Qed.
End wp_rules.

(** ** Services outside the process

    A service takes typed requests ([C A]: a request answered by an [A]) and
    keeps a state that the development observes through [view].  The program
    calls [request]; nothing is known about it but [ServiceLaws]: a request
    that succeeds does what the service documents ([spec]), and one that
    fails has either done nothing or done its work before the answer was lost
    ([fails]). *)
Class Service (W : Type) (C : Type -> Type) (S : Type) := {
  request : forall A, C A -> W -> res A * W;
  view : W -> S;
}.
Arguments request {W C S _ A} c w.
Arguments view {W C S _} w : simpl never.

Definition service_spec (C : Type -> Type) (S : Type) : Type := forall A, C A -> S -> A -> S -> Prop.
Definition service_fails (C : Type -> Type) (S : Type) : Type := forall A, C A -> S -> S -> Prop.

(** What a lost or refused request may have done, by default. *)
Definition lost_or_done {C S} (spec : service_spec C S) : service_fails C S :=
  fun A c s s' => s' = s \/ exists a, spec A c s a s'.

Class ServiceLaws {W C S} (srv : Service W C S)
    (spec : service_spec C S) (fails : service_fails C S) : Prop := {
  request_ok : forall A (c : C A) w a w',
    request c w = (Ok a, w') -> spec A c (view w) a (view w');
  request_err : forall A (c : C A) w e w',
    request c w = (Err e, w') -> fails A c (view w) (view w');
}.

(** A service that always answers. *)
Class Reliable {W C S} (srv : Service W C S) : Prop :=
  reliable : forall A (c : C A) w, exists a w', request c w = (Ok a, w').

Section request_rules.
Context {W C S} (srv : Service W C S) (spec : service_spec C S) (fails : service_fails C S).
Context `{!ServiceLaws srv spec fails}.

Lemma wp_request {A} (c : C A) (Q : res A -> W -> Prop) w :
  (forall a w', spec A c (view w) a (view w') -> Q (Ok a) w') ->
  (forall e w', fails A c (view w) (view w') -> Q (Err e) w') ->
  wp (request c) Q w.
Proof.
  intros Hok Herr. unfold wp. destruct (request c w) as [[a|e] w'] eqn:E.
  - eapply Hok, request_ok, E.
  - eapply Herr, request_err, E.
Qed.

Lemma wp_answers `{!Reliable srv} {A} (c : C A) w : wp (request c) (fun r _ => is_ok r = true) w.
Proof. destruct (reliable A c w) as (a & w' & E). apply wp_run. by rewrite E. Qed.

(** So an error refutes that the service always answers. *)
Lemma wp_refutes {A} (c : C A) w : wp (request c) (fun r _ => is_ok r = false -> ~ Reliable srv) w.
Proof.
  apply wp_run. intros H Hrel. pose proof (proj1 (wp_run _ _ _) (wp_answers c w)) as H'. congruence.
Qed.

Lemma wp_request_reliable `{!Reliable srv} {A} (c : C A) (Q : res A -> W -> Prop) w :
  (forall a w', spec A c (view w) a (view w') -> Q (Ok a) w') ->
  wp (request c) Q w.
Proof.
  intros Hok. destruct (reliable A c w) as (a & w' & E).
  unfold wp. rewrite E. eapply Hok, request_ok, E.
Qed.
End request_rules.

(** ** Reference services

    A service given by an executable function on its state.  [sure] never
    fails; [flaky] reads a script of faults, one per request, and fails before
    or after doing the work.  They show that [ServiceLaws] can hold, and the
    witnesses of the development run on them. *)
Definition executor (C : Type -> Type) (S : Type) : Type := forall A, C A -> S -> A * S.

Definition executes {C S} (exec : executor C S) (spec : service_spec C S) : Prop :=
  forall A (c : C A) s, spec A c s (exec A c s).1 (exec A c s).2.

Inductive fault := NoFault | FailBefore | FailAfter.

Definition fault_err : err := ErrS "connection lost".

Section reference.
Context {C : Type -> Type} {S : Type} (exec : executor C S).
Context (spec : service_spec C S) (fails : service_fails C S).
Context (Hexec : executes exec spec).
Context (Hfails : forall A (c : C A) s s', lost_or_done spec A c s s' -> fails A c s s').

Definition sure : Service S C S := {|
  request := fun A c s => let '(a, s') := exec A c s in (Ok a, s');
  view := fun s => s;
|}.

Lemma sure_laws : ServiceLaws sure spec fails.
Proof.
  split; cbn; intros A c s x s' E; destruct (exec A c s) as [a' s''] eqn:E'; simplify_eq.
  pose proof (Hexec A c s) as Hs. by rewrite E' in Hs.
Qed.

Lemma sure_reliable : Reliable sure.
Proof. intros A c s. cbn. destruct (exec A c s) as [a s']. by exists a, s'. Qed.

Definition flaky : Service (S * list fault) C S := {|
  request := fun A c w =>
    let '(a, s') := exec A c w.1 in
    match w.2 with
    | FailBefore :: fs => (Err fault_err, (w.1, fs))
    | FailAfter :: fs => (Err fault_err, (s', fs))
    | NoFault :: fs => (Ok a, (s', fs))
    | [] => (Ok a, (s', []))
    end;
  view := fst;
|}.

Lemma flaky_laws : ServiceLaws flaky spec fails.
Proof.
  split; cbn; intros A c [s fs] x [s' fs'] E; cbn in *;
    pose proof (Hexec A c s) as Hs; destruct (exec A c s) as [a s''];
    destruct fs as [|[] fs]; simplify_eq; unfold view; cbn; auto.
  - apply Hfails. by left.
  - apply Hfails. right. by exists a.
Qed.
End reference.

(** ** Frames

    [get] observes a part of the world that requests to [srv] do not touch:
    another service, or the state of another component. *)
Class Frame {W C S} (srv : Service W C S) {X} (get : W -> X) : Prop :=
  frame : forall A (c : C A) w, get (request c w).2 = get w.

Lemma wp_frame {W C S} (srv : Service W C S) {X} (get : W -> X) `{!Frame srv get} {A} (c : C A) w :
  wp (request c) (fun _ w' => get w' = get w) w.
Proof. apply wp_run, frame. Qed.

(** A service beside some other state. *)
Definition framed {W C S} (X : Type) (srv : Service W C S) : Service (W * X) C S := {|
  request := fun A c w => let '(r, w') := srv.(request) c w.1 in (r, (w', w.2));
  view := fun w => srv.(view) w.1;
|}.

Section framed.
Context {W C S} (srv : Service W C S) (spec : service_spec C S) (fails : service_fails C S) (X : Type).

#[global] Instance framed_laws `{!ServiceLaws srv spec fails} : ServiceLaws (framed X srv) spec fails.
Proof.
  split; intros A c w x w' E; cbn in E; unfold view; cbn;
    destruct (request c w.1) as [r w1] eqn:E'; simplify_eq; cbn.
  - by apply request_ok in E'.
  - by apply request_err in E'.
Qed.

#[global] Instance framed_reliable `{!Reliable srv} : Reliable (framed X srv).
Proof. intros A c w. cbn. destruct (reliable A c w.1) as (a & w' & ->). by eexists _, _. Qed.

#[global] Instance framed_frame : Frame (framed X srv) snd.
Proof. intros A c w. cbn. by destruct (request c w.1). Qed.
End framed.

(** The same with the service on the right. *)
Definition framed_r {W C S} (X : Type) (srv : Service W C S) : Service (X * W) C S := {|
  request := fun A c w => let '(r, w') := srv.(request) c w.2 in (r, (w.1, w'));
  view := fun w => srv.(view) w.2;
|}.

Section framed_r.
Context {W C S} (srv : Service W C S) (spec : service_spec C S) (fails : service_fails C S) (X : Type).

#[global] Instance framed_r_laws `{!ServiceLaws srv spec fails} : ServiceLaws (framed_r X srv) spec fails.
Proof.
  split; intros A c w x w' E; cbn in E; unfold view; cbn;
    destruct (request c w.2) as [r w1] eqn:E'; simplify_eq; cbn.
  - by apply request_ok in E'.
  - by apply request_err in E'.
Qed.

#[global] Instance framed_r_reliable `{!Reliable srv} : Reliable (framed_r X srv).
Proof. intros A c w. cbn. destruct (reliable A c w.2) as (a & w' & ->). by eexists _, _. Qed.
End framed_r.

(** What only looks at the other side is not touched. *)
Lemma framed_snd {W C S X Y} (srv : Service W C S) (get : X -> Y) :
  Frame (framed X srv) (fun w => get (snd w)).
Proof. intros A c w. cbn. by destruct (request c w.1). Qed.
Lemma framed_r_fst {W C S X Y} (srv : Service W C S) (get : X -> Y) :
  Frame (framed_r X srv) (fun w => get (fst w)).
Proof. intros A c w. cbn. by destruct (request c w.2). Qed.

(** ** Automation *)
Create HintDb go.
#[export] Hint Resolve wp_ret : go.

(** Step over the next statement of a [wp] goal. *)
Ltac wp_step :=
  lazymatch goal with
  | |- wp (mret _) _ _ => apply wp_ret
  | |- wp (mbind _ _) _ _ => apply wp_bind
  | |- wp (try_bind _ _) _ _ => apply wp_try
  end.
