(* ===== verification/GoStd.v ===== *)
(** What the services use of Go's standard library: [strings], [strconv],
    [time] (dates) and [net] (addresses).  A Go string is a [string] of bytes,
    an [int] a [Z] whose range is checked where the code parses it, a
    [time.Time] a number of nanoseconds since the Unix epoch (UTC). *)
From S2P Require Import Prelude.
From stdpp Require Import pretty.
From Stdlib Require Import Ascii.

Open Scope string_scope.
Open Scope list_scope.

(** ** Package strings *)
Fixpoint str_drop (n : nat) (s : string) : string :=
  match n, s with
  | O, _ => s
  | S n, String _ s => str_drop n s
  | S _, "" => ""
  end.

Definition HasPrefix (s p : string) : bool := String.prefix p s.

Definition TrimPrefix (s p : string) : string :=
  if HasPrefix s p then str_drop (String.length p) s else s.

Fixpoint Contains (s sub : string) : bool :=
  HasPrefix s sub ||
  match s with
  | "" => false
  | String _ s' => Contains s' sub
  end.

(** [strings.Split] on a one-byte separator. *)
Fixpoint Split (s : string) (sep : ascii) : list string :=
  match s with
  | "" => [""]
  | String c s' =>
    if Ascii.eqb c sep then "" :: Split s' sep
    else match Split s' sep with
         | [] => [String c ""]
         | x :: l => String c x :: l
         end
  end.

(** [strings.SplitN s sep 2] on a one-byte separator. *)
Fixpoint SplitN2 (s : string) (sep : ascii) : list string :=
  match s with
  | "" => [""]
  | String c s' =>
    if Ascii.eqb c sep then [""; s']
    else match SplitN2 s' sep with
         | [] => [String c ""]
         | x :: l => String c x :: l
         end
  end.

Fixpoint str_map (f : ascii -> ascii) (s : string) : string :=
  match s with
  | "" => ""
  | String c s => String (f c) (str_map f s)
  end.

Definition byte_of (c : ascii) : Z := Z.of_N (N_of_ascii c).
Definition of_byte (b : Z) : ascii := ascii_of_N (Z.to_N b).

Definition in_range (lo hi b : Z) : bool := (lo <=? b)%Z && (b <=? hi)%Z.

(** Letters outside ASCII keep their bytes: the code compares the results
    with ASCII words only. *)
Definition upper_byte (c : ascii) : ascii :=
  if in_range 97 122 (byte_of c) then of_byte (byte_of c - 32) else c.
Definition lower_byte (c : ascii) : ascii :=
  if in_range 65 90 (byte_of c) then of_byte (byte_of c + 32) else c.
Definition ToUpper : string -> string := str_map upper_byte.
Definition ToLower : string -> string := str_map lower_byte.

Fixpoint bytes (l : list Z) : string :=
  match l with [] => "" | b :: l => String (of_byte b) (bytes l) end.

(** The UTF-8 encodings of Unicode's white space ([unicode.IsSpace]). *)
Definition white_space : list string :=
  map bytes
    ([[9]; [10]; [11]; [12]; [13]; [32]; [194; 133]; [194; 160]; [225; 154; 128];
      [226; 128; 168]; [226; 128; 169]; [226; 128; 175]; [226; 129; 159]; [227; 128; 128]]
     ++ map (fun k => [226; 128; 128 + k]) [0; 1; 2; 3; 4; 5; 6; 7; 8; 9; 10])%Z.

Fixpoint str_rev_onto (s acc : string) : string :=
  match s with
  | "" => acc
  | String c s => str_rev_onto s (String c acc)
  end.
Definition str_rev (s : string) : string := str_rev_onto s "".

Fixpoint trim_left (fuel : nat) (ws : list string) (s : string) : string :=
  match fuel with
  | O => s
  | S fuel =>
    match List.find (fun w => HasPrefix s w) ws with
    | Some w => trim_left fuel ws (str_drop (String.length w) s)
    | None => s
    end
  end.

Definition TrimSpace (s : string) : string :=
  let l := trim_left (String.length s) white_space s in
  str_rev (trim_left (String.length l) (map str_rev white_space) (str_rev l)).

(** ** Package strconv *)
Definition Itoa (z : Z) : string := pretty z.

Definition digit_of (c : ascii) : option Z :=
  if in_range 48 57 (byte_of c) then Some (byte_of c - 48)%Z else None.

Fixpoint digits_onto (acc : Z) (s : string) : option Z :=
  match s with
  | "" => Some acc
  | String c s => d ← digit_of c; digits_onto (acc * 10 + d)%Z s
  end.

(** A non-empty run of decimal digits. *)
Definition digits (s : string) : option Z :=
  match s with "" => None | _ => digits_onto 0 s end.

Definition max_int64 : Z := 9223372036854775807.
Definition min_int64 : Z := -9223372036854775808.

(** [int] arithmetic wraps around. *)
Definition wrap64 (z : Z) : Z := ((z + 2 ^ 63) mod 2 ^ 64 - 2 ^ 63)%Z.

Definition wrap32 (z : Z) : Z := ((z + 2 ^ 31) mod 2 ^ 32 - 2 ^ 31)%Z.

Lemma wrap64_range z : (min_int64 <= wrap64 z <= max_int64)%Z.
Proof. unfold wrap64, min_int64, max_int64. pose proof (Z.mod_pos_bound (z + 2 ^ 63) (2 ^ 64)). lia. Qed.

Lemma wrap64_id z : (min_int64 <= z <= max_int64)%Z -> wrap64 z = z.
Proof. unfold wrap64, min_int64, max_int64. intros. rewrite Z.mod_small; lia. Qed.

Definition ErrSyntax : err := ErrS "strconv.ErrSyntax".
Definition ErrRange : err := ErrS "strconv.ErrRange".

(** [strconv.Atoi] yields a value beside the error: 0 for a syntax error, the
    nearest [int] for a value out of range. *)
Definition Atoi (s : string) : Z * option err :=
  let '(neg, body) :=
    match s with
    | String "-" s' => (true, s')
    | String "+" s' => (false, s')
    | _ => (false, s)
    end in
  match digits body with
  | None => (0%Z, Some ErrSyntax)
  | Some n =>
    let v := if neg then (- n)%Z else n in
    if (max_int64 <? v)%Z then (max_int64, Some ErrRange)
    else if (v <? min_int64)%Z then (min_int64, Some ErrRange)
    else (v, None)
  end.

Definition ParseBool (s : string) : res bool :=
  if bool_decide (s ∈ ["1"; "t"; "T"; "TRUE"; "true"; "True"]) then Ok true
  else if bool_decide (s ∈ ["0"; "f"; "F"; "FALSE"; "false"; "False"]) then Ok false
  else Err ErrSyntax.

(** ** Package time *)
Definition Nanosecond : Z := 1.
Definition Millisecond : Z := 1000000.
Definition Second : Z := 1000000000.
Definition Minute : Z := 60 * Second.
Definition Hour : Z := 60 * Minute.

(** Seconds since the epoch ([Time.Unix]); Go rounds towards minus infinity. *)
Definition Unix (t : Z) : Z := t / Second.

(** The zero [time.Time]: January 1, year 1. *)
Definition zero_time : Z := (-62135596800 * Second)%Z.
Definition IsZero (t : Z) : bool := (t =? zero_time)%Z.

(** [Duration.Round (time.Second)]: half away from zero. *)
Definition RoundSecond (d : Z) : Z :=
  if (d <? 0)%Z then (- ((- d + Second / 2) / Second * Second))%Z
  else ((d + Second / 2) / Second * Second)%Z.

Definition leap (y : Z) : bool :=
  ((y mod 4 =? 0)%Z && negb (y mod 100 =? 0)%Z) || (y mod 400 =? 0)%Z.

Definition days_in_month (y m : Z) : Z :=
  if (m =? 2)%Z then (if leap y then 29 else 28)%Z
  else if bool_decide (m ∈ [4; 6; 9; 11]%Z) then 30%Z else 31%Z.

(** Days from the epoch to a civil date (years from March). *)
Definition days_from_civil (y m d : Z) : Z :=
  (let y' := if m <=? 2 then y - 1 else y in
   let era := y' / 400 in
   let yoe := y' - era * 400 in
   let doy := (153 * (if 2 <? m then m - 3 else m + 9) + 2) / 5 + d - 1 in
   let doe := yoe * 365 + yoe / 4 - yoe / 100 + doy in
   era * 146097 + doe - 719468)%Z.

Definition day : Z := 24 * Hour.

Definition ErrParse : err := ErrS "time.ParseError".

(** [time.Parse "2006-01-02"]: four digits, two digits, two digits. *)
Definition ParseDate (s : string) : res Z :=
  match s with
  | String y1 (String y2 (String y3 (String y4 (String "-" (String m1 (String m2
      (String "-" (String d1 (String d2 ""))))))))) =>
    match digits (String y1 (String y2 (String y3 (String y4 "")))),
          digits (String m1 (String m2 "")), digits (String d1 (String d2 "")) with
    | Some y, Some m, Some d =>
      if in_range 1 12 m && in_range 1 (days_in_month y m) d
      then Ok (days_from_civil y m d * day)%Z
      else Err ErrParse
    | _, _, _ => Err ErrParse
    end
  | _ => Err ErrParse
  end.

(** ** Lemmas *)
Lemma digit_of_char (x : N) : (x < 10)%N -> digit_of (pretty_N_char x) = Some (Z.of_N x).
Proof.
  intros Hx.
  assert (x = 0 \/ x = 1 \/ x = 2 \/ x = 3 \/ x = 4 \/ x = 5 \/ x = 6 \/ x = 7 \/ x = 8
    \/ x = 9)%N as H by lia.
  by repeat (destruct H as [->|H]; [done|]); subst.
Qed.

(** Decimal text reads back as the number it was printed from. *)
Lemma digits_onto_pretty_go x s :
  exists y, forall acc', digits_onto acc' (pretty_N_go x s) = digits_onto (acc' * y + Z.of_N x)%Z s.
Proof.
  revert s. induction (N.lt_wf_0 x) as [x _ IH]. intros s.
  destruct (decide (0 < x)%N) as [Hx|Hx].
  - rewrite pretty_N_go_step by done.
    destruct (IH (x `div` 10)%N) with (s := String (pretty_N_char (x `mod` 10)) s) as [y Hy].
    { by apply N.div_lt. }
    exists (y * 10)%Z. intros acc'. rewrite Hy. cbn.
    rewrite digit_of_char by (by apply N.mod_lt). cbn. f_equal.
    rewrite N2Z.inj_div, N2Z.inj_mod. pose proof (Z.div_mod (Z.of_N x) 10). lia.
  - assert (x = 0%N) as -> by lia. exists 1%Z. intros acc'. rewrite pretty_N_go_0. f_equal. lia.
Qed.

Lemma pretty_N_nonempty (x : N) : pretty x <> "".
Proof.
  unfold pretty, pretty_N. case_decide as E; [done|].
  rewrite pretty_N_go_step by lia. intros H.
  assert (forall y s, s <> "" -> pretty_N_go y s <> "") as Hne.
  { intros y. induction (N.lt_wf_0 y) as [y _ IH]. intros s Hs.
    destruct (decide (0 < y)%N).
    - rewrite pretty_N_go_step by done. apply IH; [by apply N.div_lt|done].
    - assert (y = 0%N) as -> by lia. by rewrite pretty_N_go_0. }
  by apply Hne in H.
Qed.

Lemma digits_pretty_N (x : N) : digits (pretty x) = Some (Z.of_N x).
Proof.
  assert (digits (pretty x) = digits_onto 0 (pretty x)) as ->.
  { pose proof (pretty_N_nonempty x). by destruct (pretty x). }
  unfold pretty, pretty_N. case_decide as E; [by subst|].
  destruct (digits_onto_pretty_go x "") as [y Hy]. rewrite Hy. cbn. f_equal.
Qed.

Lemma pretty_N_digit (x : N) c s : pretty x = String c s -> is_Some (digit_of c).
Proof.
  intros E. pose proof (digits_pretty_N x) as H. rewrite E in H. cbn in H.
  destruct (digit_of c); [eauto|done].
Qed.

(** [strconv.Atoi (strconv.Itoa n)] is [n] on every [int]. *)
Lemma Atoi_Itoa (n : Z) : (min_int64 <= n <= max_int64)%Z -> Atoi (Itoa n) = (n, None).
Proof.
  intros Hn. unfold Itoa.
  assert (forall (b : bool) m, n = (if b then - m else m)%Z ->
    (let v := if b then (- m)%Z else m in
     if (max_int64 <? v)%Z then (max_int64, Some ErrRange)
     else if (v <? min_int64)%Z then (min_int64, Some ErrRange) else (v, None)) = (n, None)) as Hr.
  { intros b m ->. cbn. destruct (Z.ltb_spec max_int64 (if b then - m else m)); [lia|].
    destruct (Z.ltb_spec (if b then - m else m) min_int64); [lia|done]. }
  destruct n as [|p|p]; [done| |].
  - change (pretty (Z.pos p)) with (pretty (N.pos p)).
    destruct (pretty (N.pos p)) as [|c s] eqn:E; [by apply pretty_N_nonempty in E|].
    destruct (pretty_N_digit _ _ _ E) as [d Hd].
    pose proof (digits_pretty_N (N.pos p)) as Hdig. rewrite E in Hdig.
    assert (c <> "-"%char /\ c <> "+"%char) as [H1 H2] by (split; intros ->; done).
    unfold Atoi.
    assert ((match String c s with
             | String "-" s' => (true, s') | String "+" s' => (false, s')
             | _ => (false, String c s) end) = (false, String c s)) as ->.
    { destruct c as [[] [] [] [] [] [] [] []]; done. }
    rewrite Hdig. by apply (Hr false).
  - change (pretty (Z.neg p)) with (String "-" (pretty (N.pos p))).
    unfold Atoi. rewrite digits_pretty_N. by apply (Hr true).
Qed.

(** ** Strings *)
Lemma str_app_cons c s t : String c s +:+ t = String c (s +:+ t).
Proof. done. Qed.
Lemma str_app_nil_l t : "" +:+ t = t.
Proof. done. Qed.
Lemma str_app_nil_r s : s +:+ "" = s.
Proof. induction s as [|c s IH]; [done|]. by rewrite str_app_cons, IH. Qed.
Lemma str_app_assoc s t u : (s +:+ t) +:+ u = s +:+ (t +:+ u).
Proof. induction s as [|c s IH]; [done|]. by rewrite !str_app_cons, IH. Qed.
Lemma str_length_app s t : String.length (s +:+ t) = String.length s + String.length t.
Proof. induction s as [|c s IH]; [done|]. rewrite str_app_cons. cbn. lia. Qed.
Create Rewrite HintDb str.
#[export] Hint Rewrite str_app_cons str_app_nil_l str_app_nil_r str_app_assoc : str.

Lemma str_rev_onto_app s acc : str_rev_onto s acc = str_rev s +:+ acc.
Proof.
  unfold str_rev. revert acc. induction s as [|c s IH]; intros acc; [done|]. cbn.
  rewrite IH, (IH (String c "")). by rewrite str_app_assoc.
Qed.
Lemma str_rev_cons c s : str_rev (String c s) = str_rev s +:+ String c "".
Proof. unfold str_rev at 1. cbn. apply str_rev_onto_app. Qed.
Lemma str_rev_app s t : str_rev (s +:+ t) = str_rev t +:+ str_rev s.
Proof.
  induction s as [|c s IH]; [by rewrite str_app_nil_r|].
  by rewrite str_app_cons, !str_rev_cons, IH, str_app_assoc.
Qed.
Lemma str_rev_involutive s : str_rev (str_rev s) = s.
Proof. induction s as [|c s IH]; [done|]. by rewrite str_rev_cons, str_rev_app, IH. Qed.
Lemma str_rev_length s : String.length (str_rev s) = String.length s.
Proof. induction s as [|c s IH]; [done|]. rewrite str_rev_cons, str_length_app, IH. cbn. lia. Qed.

Lemma HasPrefix_split s p : HasPrefix s p = true <-> exists t, s = p +:+ t.
Proof.
  unfold HasPrefix. revert s. induction p as [|c p IH]; intros s.
  - split; [by exists s|by destruct s].
  - destruct s as [|d s]; cbn; [by split; [|intros [t Ht]]|].
    destruct (ascii_dec c d) as [->|Hne].
    + rewrite IH. split; intros [t Ht]; exists t; [by rewrite Ht|].
      rewrite str_app_cons in Ht. by injection Ht.
    + split; [done|]. intros [t Ht]. rewrite str_app_cons in Ht. congruence.
Qed.

Lemma str_drop_app p t : str_drop (String.length p) (p +:+ t) = t.
Proof. induction p as [|c p IH]; [done|]. exact IH. Qed.

(** *** Trimming twice is trimming once *)
Section trim.
Context (ws : list string) (Hws : Forall (fun w => w <> "") ws).

Definition trimmed_left (s : string) : Prop := Forall (fun w => HasPrefix s w = false) ws.

Lemma find_trimmed s : trimmed_left s -> List.find (fun w => HasPrefix s w) ws = None.
Proof.
  unfold trimmed_left. clear Hws. induction 1 as [|w l Hw _ IH]; [done|]. cbn. by rewrite Hw.
Qed.

Lemma trim_left_fix fuel s : trimmed_left s -> trim_left fuel ws s = s.
Proof. intros H. destruct fuel; [done|]. cbn. by rewrite find_trimmed. Qed.

Lemma trim_left_spec fuel s :
  String.length s <= fuel ->
  trimmed_left (trim_left fuel ws s) /\ exists p, s = p +:+ trim_left fuel ws s.
Proof.
  revert s. induction fuel as [|fuel IH]; intros s Hs; cbn [trim_left].
  - destruct s; [|cbn in Hs; lia]. split; [|by exists ""].
    apply Forall_forall. intros w Hw. rewrite Forall_forall in Hws. specialize (Hws w Hw).
    by destruct w.
  - destruct (List.find _ ws) as [w|] eqn:E.
    + apply List.find_some in E as [Hin Hp]. apply HasPrefix_split in Hp as [t ->].
      rewrite str_drop_app. rewrite Forall_forall in Hws.
      assert (0 < String.length w) as Hlen.
      { specialize (Hws w (proj2 (list_elem_of_In _ _) Hin)). destruct w; [done|cbn; lia]. }
      rewrite str_length_app in Hs. destruct (IH t ltac:(lia)) as [H1 [p Hp]]. split; [done|].
      exists (w +:+ p). rewrite str_app_assoc. by f_equal.
    + split; [|by exists ""]. apply Forall_forall. intros w Hw.
      by apply (List.find_none _ _ E), list_elem_of_In.
Qed.

Lemma trimmed_left_prefix s t : trimmed_left (s +:+ t) -> trimmed_left s.
Proof.
  intros H. eapply Forall_impl; [exact H|]. cbn. intros w Hw.
  destruct (HasPrefix s w) eqn:E; [|done]. apply HasPrefix_split in E as [u ->].
  rewrite <- Hw. symmetry. apply HasPrefix_split. exists (u +:+ t). by rewrite str_app_assoc.
Qed.
End trim.

Lemma white_space_nonempty : Forall (fun w => w <> "") white_space.
Proof. repeat constructor; done. Qed.
Lemma rev_white_space_nonempty : Forall (fun w => w <> "") (map str_rev white_space).
Proof. repeat constructor; done. Qed.

Lemma TrimSpace_idem s : TrimSpace (TrimSpace s) = TrimSpace s.
Proof.
  unfold TrimSpace at 2 3. cbv zeta.
  destruct (trim_left_spec white_space white_space_nonempty (String.length s) s) as [Hl _]; [done|].
  set (l := trim_left (String.length s) white_space s) in *. clearbody l. clear s.
  destruct (trim_left_spec (map str_rev white_space) rev_white_space_nonempty (String.length l) (str_rev l))
    as [Hr [p Hp]]; [by rewrite str_rev_length|].
  set (t := trim_left (String.length l) (map str_rev white_space) (str_rev l)) in *. clearbody t.
  unfold TrimSpace.
  assert (trim_left (String.length (str_rev t)) white_space (str_rev t) = str_rev t) as ->.
  { apply trim_left_fix. apply (trimmed_left_prefix _ _ (str_rev p)). rewrite <- str_rev_app, <- Hp.
    by rewrite str_rev_involutive. }
  rewrite str_rev_involutive. by rewrite trim_left_fix.
Qed.

#[global] Arguments TrimSpace s : simpl never.

Lemma Unix_mono a b : (a <= b)%Z -> (Unix a <= Unix b)%Z.
Proof. intros. by apply Z.div_le_mono. Qed.
