(* ===== verification/Sql.v ===== *)
(** A relational database as the services see it through GORM: statements,
    and transactions.  A statement is a function on the tables, translated from
    the query the code writes; it answers an error and changes nothing, or
    answers a result.  Inside a transaction the statements work on a copy that
    is published by the commit.  A program may have the database to itself
    ([DbLaws]) or share it with other clients ([SharedLaws]). *)
From S2P Require Import Prelude.

Inductive sqlcmd (S : Type) : Type -> Type :=
  | Stmt {A} (f : S -> res A * S) : sqlcmd S (res A)
  | Begin : sqlcmd S unit
  | Commit : sqlcmd S unit
  | Rollback : sqlcmd S unit.
Arguments Stmt {S A} f.
Arguments Begin {S}.
Arguments Commit {S}.
Arguments Rollback {S}.

(** [committed] is what other sessions see. *)
Record dview (S : Type) := DView { committed : S; working : option S }.
Arguments DView {S} committed working.
Arguments committed {S} d.
Arguments working {S} d.

Definition current {S} (d : dview S) : S := default (committed d) (working d).

Definition write {S} (x : S) (d : dview S) : dview S :=
  match working d with
  | Some _ => DView (committed d) (Some x)
  | None => DView x None
  end.

Definition run_stmt {S A} (f : S -> res A * S) (d : dview S) : res A * dview S :=
  match f (current d) with
  | (Ok a, x) => (Ok a, write x d)
  | (Err e, _) => (Err e, d)
  end.

Definition sql_exec S : executor (sqlcmd S) (dview S) := fun A c =>
  match c in sqlcmd _ A return dview S -> A * dview S with
  | Stmt f => run_stmt f
  | Begin => fun d => (tt, DView (committed d) (Some (committed d)))
  | Commit => fun d => (tt, DView (current d) None)
  | Rollback => fun d => (tt, DView (committed d) None)
  end.

(** What the database promises: to execute what it acknowledges. *)
Definition sql_spec S : service_spec (sqlcmd S) (dview S) := fun A c d a d' =>
  (a, d') = sql_exec S A c d.

(** When the connection fails: outside a transaction a statement was executed
    or not; inside one nothing is published, whatever became of the copy; a
    commit may have been executed; an interrupted transaction is rolled back. *)
Definition sql_fails S : service_fails (sqlcmd S) (dview S) := fun A c d d' =>
  match c with
  | Stmt f =>
    match working d with
    | None => d' = d \/ d' = (run_stmt f d).2
    | Some _ => committed d' = committed d /\ is_Some (working d')
    end
  | Begin => d' = d
  | Commit => d' = DView (committed d) None \/ d' = DView (current d) None
  | Rollback => d' = DView (committed d) None
  end.

Abbreviation Db W S := (Service W (sqlcmd S) (dview S)).
Abbreviation DbLaws db := (ServiceLaws db (sql_spec _) (sql_fails _)).

(** ** Reference databases *)
Lemma sql_exec_spec S : executes (sql_exec S) (sql_spec S).
Proof. intros A c d. unfold sql_spec. by destruct (sql_exec S A c d). Qed.

Definition sure_db S : Db (dview S) S := sure (sql_exec S).
#[export] Instance sure_db_laws S : DbLaws (sure_db S).
Proof. apply sure_laws, sql_exec_spec. Qed.
#[export] Instance sure_db_reliable S : Reliable (sure_db S).
Proof. apply sure_reliable. Qed.

(** A database that loses requests as a script says; a failed [Begin] opens
    nothing and an interrupted transaction is rolled back. *)
Definition flaky_sql S (f : fault) A (c : sqlcmd S A) (d : dview S) : dview S :=
  match c with
  | Begin => d
  | Rollback => DView (committed d) None
  | Commit => match f with FailAfter => DView (current d) None | _ => DView (committed d) None end
  | Stmt g => match f with FailAfter => (run_stmt g d).2 | _ => d end
  end.

Definition flaky_db S : Db (dview S * list fault) S := {|
  request := fun A c w =>
    match w.2 with
    | [] | NoFault :: _ => let '(a, d) := sql_exec S A c w.1 in (Ok a, (d, drop 1 w.2))
    | f :: fs => (Err fault_err, (flaky_sql S f A c w.1, fs))
    end;
  view := fst;
|}.

#[export] Instance flaky_db_laws S : DbLaws (flaky_db S).
Proof.
  split; intros A c [d fs] x [d' fs'] E; cbn in E; unfold view; cbn.
  - destruct fs as [|[] fs]; simplify_eq; unfold sql_spec;
      destruct (sql_exec S A c d) as [a d'']; by simplify_eq.
  - assert (forall f, sql_fails S A c d (flaky_sql S f A c d)) as H.
    { intros f. destruct c as [A g| | |]; cbn; [|done| |done].
      - clear. destruct d as [c [y|]]; cbn; [|by destruct f; auto].
        destruct f; cbn; eauto. unfold run_stmt. cbn. destruct (g y) as [[a|e'] y']; cbn; eauto.
      - destruct f; auto. }
    destruct fs as [|[] fs]; simplify_eq; try done; by destruct (sql_exec S A c d).
Qed.

(** ** Programs on a database *)
Section sql.
Context {W S : Type} {db : Db W S}.

(** One statement; a lost connection and an SQL error are both errors. *)
Definition exec {A} (f : S -> res A * S) : proc W (res A) :=
  r <-- request (Stmt f);
  mret (match r with Ok a => a | Err e => Err e end).

(** [gorm.DB.Transaction]: commit when the body succeeds, else roll back. *)
Definition Transaction {A} (body : proc W (res A)) : proc W (res A) :=
  b <-- request (C := sqlcmd S) Begin;
  match b with
  | Err e => mret (Err e)
  | Ok _ =>
    r <-- body;
    match r with
    | Ok a =>
      c <-- request (C := sqlcmd S) Commit;
      mret (match c with Ok _ => Ok a | Err e => Err e end)
    | Err e => request (C := sqlcmd S) Rollback ;;- mret (Err e)
    end
  end.

End sql.

(** ** Other clients of the database

    [R] is what they may do in one step.  They do it between the requests of
    the program; its transactions are isolated, so that nothing of theirs comes
    in between. *)
Definition shared_spec {S} (R : S -> S -> Prop) : service_spec (sqlcmd S) (dview S) := fun A c d a d' =>
  match working d with
  | Some _ => sql_spec S A c d a d'
  | None => exists x, rtc R (committed d) x /\ sql_spec S A c (DView x None) a d'
  end.

Definition shared_fails {S} (R : S -> S -> Prop) : service_fails (sqlcmd S) (dview S) := fun A c d d' =>
  match working d with
  | Some _ => sql_fails S A c d d'
  | None => exists x, rtc R (committed d) x /\ sql_fails S A c (DView x None) d'
  end.

Abbreviation SharedLaws db R := (ServiceLaws db (shared_spec R) (shared_fails R)).

Definition nobody {S} (x x' : S) : Prop := False.

Lemma rtc_nobody {S} (x x' : S) : rtc nobody x x' -> x' = x.
Proof. by inversion 1. Qed.

(** Without other clients. *)
#[export] Instance alone {W S} (db : Db W S) `{!DbLaws db} : SharedLaws db nobody.
Proof.
  split; intros A c w a w' E; [apply (request_ok (srv := db)) in E|apply (request_err (srv := db)) in E];
    unfold shared_spec, shared_fails; destruct (view w) as [x [y|]]; [done|by exists x|done|by exists x].
Qed.

(** A step that is done after moves of others. *)
Definition among {S} (R P : S -> S -> Prop) (x x' : S) : Prop := exists x1, rtc R x x1 /\ P x1 x'.

Lemma among_later {S} (R P : S -> S -> Prop) (x y z : S) : rtc R x y -> among R P y z -> among R P x z.
Proof. intros H1 (x1 & H2 & H3). exists x1. split; [by trans y|done]. Qed.

Lemma among_now {S} (R P : S -> S -> Prop) (x y : S) : P x y -> among R P x y.
Proof. intros H. by exists x. Qed.

Lemma among_nobody {S} (P : S -> S -> Prop) (x x' : S) : among nobody P x x' <-> P x x'.
Proof. split; [by intros (x1 & ->%rtc_nobody & H)|apply among_now]. Qed.

Section shared.
Context {W S : Type} {db : Db W S} {R : S -> S -> Prop} `{!SharedLaws db R}.

(** A statement outside a transaction. *)
Lemma wp_shared {A} (f : S -> res A * S) w x :
  view w = DView x None ->
  wp (exec f) (fun r w' => exists x1, rtc R x x1 /\
    match r with
    | Ok a => exists x', f x1 = (Ok a, x') /\ view w' = DView x' None
    | Err _ => view w' = DView x1 None \/ exists a x', f x1 = (Ok a, x') /\ view w' = DView x' None
    end /\ (Reliable db -> r = (f x1).1)) w.
Proof.
  intros Hv. apply wp_bind. eapply wp_mono; [apply wp_and; [apply (wp_refutes db)|
    apply (wp_request db (shared_spec R) (shared_fails R) _ (fun r w' => exists x1, rtc R x x1 /\
    match r with
    | Ok a => (a, view w') = run_stmt f (DView x1 None)
    | Err _ => view w' = DView x1 None \/ view w' = (run_stmt f (DView x1 None)).2
    end))]|].
  - intros a w'. unfold shared_spec. rewrite Hv. by intros (x1 & Hx & H); exists x1.
  - intros e w'. unfold shared_fails. rewrite Hv. by intros (x1 & Hx & H); exists x1.
  - cbn beta. intros r w' [Hrel (x1 & Hx & H)]. apply wp_ret. exists x1. split; [done|].
    unfold run_stmt in H. cbn [current committed working default] in H.
    destruct r as [a|e]; [|by split; [destruct (f x1) as [[b|e'] y]; naive_solver|intros Hr; by destruct (Hrel eq_refl)]].
    destruct (f x1) as [[b|e'] y]; injection H as -> H; cbn; split; [by eauto|done|by left|done].
Qed.

(** A query. *)
Lemma wp_shared_query {A} (f : S -> res A * S) w x :
  view w = DView x None -> (forall y, (f y).2 = y) ->
  wp (exec f) (fun r w' => exists x1, rtc R x x1 /\ view w' = DView x1 None /\
    (is_ok r = true \/ Reliable db -> r = (f x1).1)) w.
Proof.
  intros Hv Hf. eapply wp_mono; [by apply wp_shared|]. cbn beta. intros r w' (x1 & Hx & H & Hrel).
  exists x1. split; [done|]. specialize (Hf x1). destruct r as [a|e].
  - destruct H as (x' & E & Hv'). rewrite E in *. cbn in *. by subst.
  - destruct H as [H|(a & x' & E & Hv')]; [by split; [|intros [|]; [|auto]]|].
    rewrite E in *. cbn in *. subst. split; [done|]. intros [|]; [done|auto].
Qed.

(** A statement inside a transaction on [c], whose copy is [x]. *)
Lemma wp_exec_tx {A} (f : S -> res A * S) (Q : res A -> W -> Prop) w c x :
  view w = DView c (Some x) ->
  (forall a x' w', f x = (Ok a, x') -> view w' = DView c (Some x') -> Q (Ok a) w') ->
  (forall e w', committed (view w') = c -> Q (Err e) w') ->
  wp (exec f) Q w.
Proof.
  intros Hv Hok Herr. apply wp_bind, (wp_request db (shared_spec R) (shared_fails R)).
  - intros a w' H. apply wp_ret. unfold shared_spec, sql_spec in H. rewrite Hv in H. cbn in H. unfold run_stmt in H.
    cbn in H. destruct (f x) as [[b|e] x'] eqn:E; injection H as -> H.
    + by eapply Hok.
    + apply Herr. by rewrite H.
  - intros e w' H. apply wp_ret, Herr. unfold shared_fails in H. rewrite Hv in H. apply H.
Qed.

(** A transaction that begins at some [x1] and whose body turns the copy into
    some [x'] with [K x1 a x']: all of it or nothing is committed, all of it if
    it succeeds. *)
Lemma wp_shared_transaction {A} (body : proc W (res A)) (K : S -> A -> S -> Prop) (Q : res A -> W -> Prop) w x :
  view w = DView x None ->
  (forall w1 x1, view w1 = DView x1 (Some x1) -> rtc R x x1 ->
     wp body (fun r w2 => match r with
       | Ok a => exists x', view w2 = DView x1 (Some x') /\ K x1 a x'
       | Err _ => committed (view w2) = x1
       end) w1) ->
  (forall x1 a x' w', rtc R x x1 -> K x1 a x' -> view w' = DView x' None -> Q (Ok a) w') ->
  (forall x1 e w', rtc R x x1 -> view w' = DView x1 None \/ (exists a x', K x1 a x' /\ view w' = DView x' None) ->
     Q (Err e) w') ->
  wp (Transaction body) Q w.
Proof.
  intros Hv Hbody Hok Herr. apply wp_bind, (wp_request db (shared_spec R) (shared_fails R)).
  2:{ intros e w' H. unfold shared_fails in H. rewrite Hv in H. destruct H as (x1 & Hx & H).
      apply wp_ret, (Herr x1); [done|by left]. }
  intros u w1 H. unfold shared_spec, sql_spec in H. rewrite Hv in H. destruct H as (x1 & Hx & H). injection H as _ H.
  apply wp_bind. eapply wp_mono; [by apply (Hbody w1 x1)|]. clear Hbody.
  intros [a|e] w2; cbn.
  - intros (x' & Hv2 & HK). apply wp_bind, (wp_request db (shared_spec R) (shared_fails R)).
    + intros u' w3 H3. apply wp_ret. unfold shared_spec, sql_spec in H3. rewrite Hv2 in H3. injection H3 as _ H3.
      by apply (Hok x1 a x').
    + intros e w3 H3. apply wp_ret, (Herr x1); [done|]. unfold shared_fails in H3. rewrite Hv2 in H3.
      destruct H3 as [H3|H3]; [by left|right; by exists a, x'].
  - intros Hc. apply wp_bind.
    assert (forall w3, (exists x2, rtc R x1 x2 /\ view w3 = DView x2 None) -> Q (Err e) w3) as Hend.
    { intros w3 (x2 & Hx2 & H3). apply (Herr x2); [by trans x1|by left]. }
    apply (wp_request db (shared_spec R) (shared_fails R)).
    + intros u' w3 H3. apply wp_ret, Hend. unfold shared_spec, sql_spec in H3.
      destruct (view w2) as [c [y|]]; cbn in Hc, H3; subst c.
      * injection H3 as _ H3. by exists x1.
      * destruct H3 as (x2 & Hx2 & [= _ H3]). by exists x2.
    + intros e' w3 H3. apply wp_ret, Hend. unfold shared_fails in H3.
      destruct (view w2) as [c [y|]]; cbn in Hc, H3; subst c; [by exists x1|].
      destruct H3 as (x2 & Hx2 & H3). by exists x2.
Qed.
End shared.

(** A database that others use too, as a script says, between the requests
    outside of transactions. *)
Definition move {S} (R : S -> S -> Prop) : Type := { f : S -> S | forall x, rtc R x (f x) }.

Definition move_by {S} {R : S -> S -> Prop} (f : S -> S) (H : forall x, rtc R x (f x)) : move R := exist _ f H.
Definition stay {S} {R : S -> S -> Prop} : move R := move_by (fun x => x) (rtc_refl R).

Definition crowd_turn {S} {R : S -> S -> Prop} (w : (dview S * list fault) * list (move R)) :
    (dview S * list fault) * list (move R) :=
  match working w.1.1, w.2 with
  | None, m :: ms => ((DView (proj1_sig m (committed w.1.1)) None, w.1.2), ms)
  | _, _ => w
  end.

Definition crowd_db S (R : S -> S -> Prop) : Db ((dview S * list fault) * list (move R)) S := {|
  request := fun A c w =>
    let w := crowd_turn w in
    let '(a, w1) := (flaky_db S).(request) c w.1 in (a, (w1, w.2));
  view := fun w => w.1.1;
|}.

Lemma crowd_turn_moves {S} {R : S -> S -> Prop} (w : (dview S * list fault) * list (move R)) :
  match working w.1.1 with
  | Some _ => crowd_turn w = w
  | None => exists x, rtc R (committed w.1.1) x /\ (crowd_turn w).1.1 = DView x None
  end.
Proof.
  destruct w as [[[c [y|]] fs] [|[f Hf] ms]]; cbn; [done|done|by exists c|by exists (f c)].
Qed.

#[export] Instance crowd_db_laws S R : SharedLaws (crowd_db S R) R.
Proof.
  split; intros A c w a w' E; pose proof (crowd_turn_moves w) as Ht; cbn in E;
    destruct (match (crowd_turn w).1.2 with [] => _ | _ :: _ => _ end) as [r w1] eqn:E1; injection E as -> <-.
  - apply (request_ok (srv := flaky_db S) A c (crowd_turn w).1) in E1. unfold shared_spec, view in *. cbn in *.
    destruct (working w.1.1); [by rewrite <- Ht|]. destruct Ht as (x & Hx & Ht). exists x. by rewrite <- Ht.
  - apply (request_err (srv := flaky_db S) A c (crowd_turn w).1) in E1. unfold shared_fails, view in *. cbn in *.
    destruct (working w.1.1); [by rewrite <- Ht|]. destruct Ht as (x & Hx & Ht). exists x. by rewrite <- Ht.
Qed.

(** ** Alone on the database *)
Section alone.
Context {W S : Type} {db : Db W S} `{!DbLaws db}.

(** A statement outside a transaction. *)
Lemma wp_stmt {A} (f : S -> res A * S) w x :
  view w = DView x None ->
  wp (exec f) (fun r w' =>
    match r with
    | Ok a => exists x', f x = (Ok a, x') /\ view w' = DView x' None
    | Err _ => view w' = DView x None \/ exists a x', f x = (Ok a, x') /\ view w' = DView x' None
    end /\ (Reliable db -> r = (f x).1)) w.
Proof.
  intros Hv. eapply wp_mono; [by apply wp_shared|]. cbn beta. by intros r w' (x1 & ->%rtc_nobody & H).
Qed.

(** A query: the tables stay, and an answer is the answer of the query. *)
Lemma wp_query {A} (f : S -> res A * S) w x :
  view w = DView x None -> (forall y, (f y).2 = y) ->
  wp (exec f) (fun r w' => view w' = DView x None /\
    (is_ok r = true \/ Reliable db -> r = (f x).1)) w.
Proof.
  intros Hv Hf. eapply wp_mono; [by apply wp_shared_query|]. cbn beta. by intros r w' (x1 & ->%rtc_nobody & H).
Qed.

(** A transaction from [x] whose body turns the copy into some [x'] with
    [K a x']: all of it or nothing is committed, all of it if it succeeds. *)
Lemma wp_transaction {A} (body : proc W (res A)) (K : A -> S -> Prop) (Q : res A -> W -> Prop) w x :
  view w = DView x None ->
  (forall w1, view w1 = DView x (Some x) ->
     wp body (fun r w2 => match r with
       | Ok a => exists x', view w2 = DView x (Some x') /\ K a x'
       | Err _ => committed (view w2) = x
       end) w1) ->
  (forall a x' w', K a x' -> view w' = DView x' None -> Q (Ok a) w') ->
  (forall e w', view w' = DView x None \/ (exists a x', K a x' /\ view w' = DView x' None) -> Q (Err e) w') ->
  wp (Transaction body) Q w.
Proof.
  intros Hv Hbody Hok Herr. apply (wp_shared_transaction _ (fun _ => K) _ _ x); [done|..].
  - intros w1 x1 H1 ->%rtc_nobody. by apply Hbody.
  - intros x1 a x' w' ->%rtc_nobody. apply Hok.
  - intros x1 e w' ->%rtc_nobody. apply Herr.
Qed.

(** On a database that answers, an error commits nothing. *)
Lemma wp_transaction_reliable `{!Reliable db} {A} (body : proc W (res A)) (K : A -> S -> Prop)
    (Q : res A -> W -> Prop) w x :
  view w = DView x None ->
  (forall w1, view w1 = DView x (Some x) ->
     wp body (fun r w2 => match r with
       | Ok a => exists x', view w2 = DView x (Some x') /\ K a x'
       | Err _ => committed (view w2) = x
       end) w1) ->
  (forall a x' w', K a x' -> view w' = DView x' None -> Q (Ok a) w') ->
  (forall e w', view w' = DView x None -> Q (Err e) w') ->
  wp (Transaction body) Q w.
Proof.
  intros Hv Hbody Hok Herr. apply wp_bind, (wp_request_reliable db (sql_spec S) (sql_fails S)).
  intros u w1 H. unfold sql_spec in H. cbn in H. injection H as _ H.
  apply wp_bind. eapply wp_mono; [apply Hbody; rewrite H, Hv; done|]. clear Hbody.
  intros [a|e] w2; cbn.
  - intros (x' & Hv2 & HK). apply wp_bind, (wp_request_reliable db (sql_spec S) (sql_fails S)).
    intros u' w3 H3. apply wp_ret. unfold sql_spec in H3. cbn in H3. injection H3 as _ H3.
    eapply Hok; [done|]. by rewrite H3, Hv2.
  - intros Hc. apply wp_bind, (wp_request_reliable db (sql_spec S) (sql_fails S)).
    intros u' w3 H3. apply wp_ret, Herr. unfold sql_spec in H3. cbn in H3.
    injection H3 as _ H3. by rewrite H3, Hc.
Qed.
End alone.
