(* ===== verification/Redis.v ===== *)
(** The Redis server as the services see it.

    Redis is outside the repository: the development never runs it, it only
    states in [rspec] what the documentation promises for the commands the
    Go code sends.  Every theorem takes the server as a parameter
    ([Prelude.Service]) and [rspec] as the hypothesis on it.  [rexec] is one
    server that satisfies the hypothesis ([rexec_spec]). *)
From S2P Require Import Prelude GoStd.
From stdpp Require Import pretty.

(** ** The keyspace

    The code never uses one key with two types, so each type has its own map. *)
Record entry := Entry { e_id : N; e_fields : list (string * string) }.

(** A delivered message that has not been acknowledged. *)
Record pending := Pending { p_entry : entry; p_consumer : string; p_time : Z }.

(** A consumer group: what it has not been given yet, and its pending list. *)
Record group := Group { g_undelivered : list entry; g_pel : list pending }.

Record stream := Stream {
  s_last : N;                     (* last identifier issued *)
  s_entries : list entry;
  s_groups : gmap string group;
}.

Record rstate := RState {
  r_hash : gmap string (gmap string string);
  r_set : gmap string (gset string);
  r_zset : gmap string (gmap string Z);
  r_list : gmap string (list string);
  r_str : gmap string (string * Z);     (* value and expiry time *)
  r_stream : gmap string stream;
}.

#[export] Instance entry_eq_dec : EqDecision entry.
Proof. solve_decision. Defined.
#[export] Instance pending_eq_dec : EqDecision pending.
Proof. solve_decision. Defined.

Definition empty_stream : stream := Stream 0 [] ∅.
Definition empty_redis : rstate := RState ∅ ∅ ∅ ∅ ∅ ∅.

(** Identifiers travel as text; the rendering is injective. *)
Definition show_id (n : N) : string := pretty n.

Definition hash_at (s : rstate) (k : string) : gmap string string := default ∅ (r_hash s !! k).
Definition set_at (s : rstate) (k : string) : gset string := default ∅ (r_set s !! k).
Definition zset_at (s : rstate) (k : string) : gmap string Z := default ∅ (r_zset s !! k).
Definition list_at (s : rstate) (k : string) : list string := default [] (r_list s !! k).
Definition stream_at (s : rstate) (k : string) : stream := default empty_stream (r_stream s !! k).
Definition group_at (s : rstate) (k g : string) : option group := s_groups (stream_at s k) !! g.

Definition set_hash (k : string) (h : gmap string string) (s : rstate) : rstate :=
  RState (<[k := h]> (r_hash s)) (r_set s) (r_zset s) (r_list s) (r_str s) (r_stream s).
Definition set_set (k : string) (m : gset string) (s : rstate) : rstate :=
  RState (r_hash s) (<[k := m]> (r_set s)) (r_zset s) (r_list s) (r_str s) (r_stream s).
Definition set_zset (k : string) (m : gmap string Z) (s : rstate) : rstate :=
  RState (r_hash s) (r_set s) (<[k := m]> (r_zset s)) (r_list s) (r_str s) (r_stream s).
Definition set_list (k : string) (l : list string) (s : rstate) : rstate :=
  RState (r_hash s) (r_set s) (r_zset s) (<[k := l]> (r_list s)) (r_str s) (r_stream s).
Definition set_str (k : string) (v : string * Z) (s : rstate) : rstate :=
  RState (r_hash s) (r_set s) (r_zset s) (r_list s) (<[k := v]> (r_str s)) (r_stream s).
Definition set_stream (k : string) (st : stream) (s : rstate) : rstate :=
  RState (r_hash s) (r_set s) (r_zset s) (r_list s) (r_str s) (<[k := st]> (r_stream s)).
Definition del_key (k : string) (s : rstate) : rstate :=
  RState (delete k (r_hash s)) (delete k (r_set s)) (delete k (r_zset s))
         (delete k (r_list s)) (delete k (r_str s)) (delete k (r_stream s)).

(** ** Commands *)

(** The writes that the code sends in one pipeline. *)
Inductive pcmd :=
  | PHSet (k : string) (fvs : list (string * string))
  | PSAdd (k m : string)
  | PZAdd (k m : string) (score : Z).

Definition pipe_apply (c : pcmd) (s : rstate) : rstate :=
  match c with
  | PHSet k fvs => set_hash k (foldl (fun h fv => <[fv.1 := fv.2]> h) (hash_at s k) fvs) s
  | PSAdd k m => set_set k ({[m]} ∪ set_at s k) s
  | PZAdd k m score => set_zset k (<[m := score]> (zset_at s k)) s
  end.
Definition pipe_run (cs : list pcmd) (s : rstate) : rstate := foldl (fun s c => pipe_apply c s) s cs.

Inductive rcmd : Type -> Type :=
  | HGet (k f : string) : rcmd (option string)
  | HGetAll (k : string) : rcmd (gmap string string)
  | HSet (k : string) (fvs : list (string * string)) : rcmd unit
  | HDel (k f : string) : rcmd unit
  | HIncrBy (k f : string) (n : Z) : rcmd Z
  | Del (k : string) : rcmd unit
  | SAdd (k m : string) : rcmd unit
  | SRem (k m : string) : rcmd unit
  | SMembers (k : string) : rcmd (list string)
  | ZAdd (k m : string) (score : Z) : rcmd unit
  | ZRem (k m : string) : rcmd unit
  | ZRangeByScore (k : string) (max : Z) : rcmd (list string)   (* -inf .. max *)
  | LLen (k : string) : rcmd Z
  | RPush (k : string) (vs : list string) : rcmd unit
  | BLPop (k : string) : rcmd (option string)
  | SetEx (k v : string) (ttl : Z) : rcmd unit
  | SetNX (k v : string) (ttl : Z) : rcmd bool
  | ExistsKey (k : string) : rcmd bool
  | XAdd (k : string) (maxlen : option N) (fvs : list (string * string)) : rcmd unit
  | PipeXAdd (k : string) (maxlen : option N) (es : list (list (string * string))) : rcmd unit
  | PipeHGet (kfs : list (string * string)) : rcmd (list (option string))
  | Pipe (cs : list pcmd) : rcmd unit
  | DelKeys (ks : list string) : rcmd unit
  | XGroupCreate (k g : string) : rcmd bool
  | XReadNew (k g c : string) (count : nat) : rcmd (list entry)       (* ID ">" *)
  | XReadPending (k g c : string) (count : nat) : rcmd (list entry)   (* ID "0" *)
  | XAck (k g id : string) : rcmd unit
  | XAutoClaim (k g c : string) (minIdle : Z) (start : string) (count : nat)
      : rcmd (list entry * string).

(** ** Streams *)
Definition lastn {A} (n : nat) (l : list A) : list A := drop (length l - n) l.

Definition map_groups (f : group -> group) (st : stream) : stream :=
  Stream (s_last st) (s_entries st) (f <$> s_groups st).

(** Append one entry and keep the newest [keep]. *)
Definition append_entry (keep : nat) (fvs : list (string * string)) (st : stream) : stream :=
  let e := Entry (N.succ (s_last st)) fvs in
  Stream (e_id e) (lastn keep (s_entries st ++ [e]))
    ((fun g => Group (lastn keep (g_undelivered g ++ [e])) (g_pel g)) <$> s_groups st).

(** [MAXLEN ~ n] may trim, but never below [n] entries. *)
Definition may_keep (maxlen : option N) (st : stream) (keep : nat) : Prop :=
  S (length (s_entries st)) <= keep \/ exists n, maxlen = Some n /\ (n <= N.of_nat keep)%N.

Definition xadd_spec (maxlen : option N) (fvs : list (string * string)) (st st' : stream) : Prop :=
  exists keep, may_keep maxlen st keep /\ st' = append_entry keep fvs st.

Inductive xadds_spec (maxlen : option N) : list (list (string * string)) -> stream -> stream -> Prop :=
  | xadds_nil st : xadds_spec maxlen [] st st
  | xadds_cons e es st st1 st2 :
      xadd_spec maxlen e st st1 -> xadds_spec maxlen es st1 st2 -> xadds_spec maxlen (e :: es) st st2.

Definition update_group (g : string) (f : group -> group) (st : stream) : stream :=
  Stream (s_last st) (s_entries st) (alter f g (s_groups st)).

Definition deliver (c : string) (t : Z) (count : nat) (gr : group) : list entry * group :=
  let es := take count (g_undelivered gr) in
  (es, Group (drop count (g_undelivered gr)) (g_pel gr ++ map (fun e => Pending e c t) es)).

(** Reading one's own history: the first [count] pending entries of the
    consumer; their delivery time becomes [t]. *)
Fixpoint redeliver (c : string) (t : Z) (count : nat) (pel : list pending)
    : list entry * list pending :=
  match pel with
  | [] => ([], [])
  | p :: pel' =>
    match count with
    | O => ([], pel)
    | S n =>
      if bool_decide (p_consumer p = c)
      then let '(es, pel'') := redeliver c t n pel' in
           (p_entry p :: es, Pending (p_entry p) c t :: pel'')
      else let '(es, pel'') := redeliver c t (S n) pel' in (es, p :: pel'')
    end
  end.

(** Not acknowledged: every pending entry but [id]. *)
Definition ack (id : string) (gr : group) : group :=
  Group (g_undelivered gr)
    (List.filter (fun p => negb (String.eqb (show_id (e_id (p_entry p))) id)) (g_pel gr)).

(** An entry trimmed from the stream stays pending, but its fields are gone. *)
Definition present (st : stream) (e : entry) : bool := bool_decide (e ∈ s_entries st).
Definition read_back (st : stream) (e : entry) : entry :=
  if present st e then e else Entry (e_id e) [].

(** [XAUTOCLAIM]: walk the pending list, at most [tries] entries, claiming the
    idle ones until [count] are claimed and dropping those trimmed from the
    stream; the cursor is the next entry or ["0-0"] at the end. *)
Fixpoint claim_scan (st : stream) (c : string) (t minIdle : Z) (count tries : nat) (pel : list pending)
    : list entry * list pending * string :=
  match pel with
  | [] => ([], [], "0-0")
  | p :: pel' =>
    match count, tries with
    | O, _ | _, O => ([], pel, show_id (e_id (p_entry p)))
    | S n, S m =>
      if (minIdle <=? t - p_time p)%Z then
        if present st (p_entry p)
        then let '(es, pel'', next) := claim_scan st c t minIdle n m pel' in
             (p_entry p :: es, Pending (p_entry p) c t :: pel'', next)
        else claim_scan st c t minIdle (S n) m pel'
      else let '(es, pel'', next) := claim_scan st c t minIdle (S n) m pel' in (es, p :: pel'', next)
    end
  end.

Definition reached (start : string) (id : N) : bool :=
  String.eqb start "-" || match digits start with Some n => (n <=? Z.of_N id)%Z | None => false end.

(** Entries before the cursor are left alone. *)
Fixpoint claim_from (st : stream) (start : string) (c : string) (t minIdle : Z) (count : nat)
    (pel : list pending) : list entry * list pending * string :=
  match pel with
  | [] => ([], [], "0-0")
  | p :: pel' =>
    if reached start (e_id (p_entry p))
    then claim_scan st c t minIdle count (10 * count) pel
    else let '(es, pel'', next) := claim_from st start c t minIdle count pel' in (es, p :: pel'', next)
  end.

Definition autoclaim (st : stream) (start c : string) (t minIdle : Z) (count : nat) (gr : group)
    : list entry * group * string :=
  let '(es, pel, next) := claim_from st start c t minIdle count (g_pel gr) in
  (es, Group (g_undelivered gr) pel, next).

Definition live (t : Z) (v : option (string * Z)) : bool :=
  match v with Some (_, d) => (t <? d)%Z | None => false end.

Definition incr_value (v : option string) (n : Z) : Z :=
  match v with Some s => (Atoi s).1 + n | None => n end%Z.

(** ** What the commands promise, at server time [t] *)
Definition rspec (t : Z) {A} (c : rcmd A) : rstate -> A -> rstate -> Prop :=
  match c in rcmd A return rstate -> A -> rstate -> Prop with
  | HGet k f => fun s a s' => a = hash_at s k !! f /\ s' = s
  | HGetAll k => fun s a s' => a = hash_at s k /\ s' = s
  | HSet k fvs => fun s _ s' =>
      s' = set_hash k (foldl (fun h fv => <[fv.1 := fv.2]> h) (hash_at s k) fvs) s
  | HDel k f => fun s _ s' => s' = set_hash k (delete f (hash_at s k)) s
  | HIncrBy k f n => fun s a s' =>
      a = incr_value (hash_at s k !! f) n /\ s' = set_hash k (<[f := Itoa a]> (hash_at s k)) s
  | Del k => fun s _ s' => s' = del_key k s
  | SAdd k m => fun s _ s' => s' = set_set k ({[m]} ∪ set_at s k) s
  | SRem k m => fun s _ s' => s' = set_set k (set_at s k ∖ {[m]}) s
  | SMembers k => fun s a s' => Permutation a (elements (set_at s k)) /\ s' = s
  | ZAdd k m score => fun s _ s' => s' = set_zset k (<[m := score]> (zset_at s k)) s
  | ZRem k m => fun s _ s' => s' = set_zset k (delete m (zset_at s k)) s
  | ZRangeByScore k max => fun s a s' =>
      NoDup a /\ (forall m, m ∈ a <-> exists sc, zset_at s k !! m = Some sc /\ (sc <= max)%Z) /\ s' = s
  | LLen k => fun s a s' => a = Z.of_nat (length (list_at s k)) /\ s' = s
  | RPush k vs => fun s _ s' => s' = set_list k (list_at s k ++ vs) s
  | BLPop k => fun s a s' =>
      match list_at s k with
      | [] => a = None /\ s' = s
      | v :: l => a = Some v /\ s' = set_list k l s
      end
  | SetEx k v ttl => fun s _ s' => s' = set_str k (v, (t + ttl)%Z) s
  | SetNX k v ttl => fun s a s' =>
      if live t (r_str s !! k) then a = false /\ s' = s
      else a = true /\ s' = set_str k (v, (t + ttl)%Z) s
  | ExistsKey k => fun s a s' => a = live t (r_str s !! k) /\ s' = s
  | XAdd k maxlen fvs => fun s _ s' =>
      exists st, xadd_spec maxlen fvs (stream_at s k) st /\ s' = set_stream k st s
  | PipeXAdd k maxlen es => fun s _ s' =>
      exists st, xadds_spec maxlen es (stream_at s k) st /\ s' = set_stream k st s
  | PipeHGet kfs => fun s a s' => a = map (fun kf => hash_at s kf.1 !! kf.2) kfs /\ s' = s
  | Pipe cs => fun s _ s' => s' = pipe_run cs s
  | DelKeys ks => fun s _ s' => s' = foldr del_key s ks
  | XGroupCreate k g => fun s a s' =>
      match group_at s k g with
      | Some _ => a = false /\ s' = s
      | None => a = true /\
          s' = set_stream k (Stream (s_last (stream_at s k)) (s_entries (stream_at s k))
                 (<[g := Group (s_entries (stream_at s k)) []]> (s_groups (stream_at s k)))) s
      end
  | XReadNew k g c n => fun s a s' =>
      match group_at s k g with
      | None => a = [] /\ s' = s
      | Some gr => a = (deliver c t n gr).1 /\
          s' = set_stream k (update_group g (fun gr => (deliver c t n gr).2) (stream_at s k)) s
      end
  | XReadPending k g c n => fun s a s' =>
      match group_at s k g with
      | None => a = [] /\ s' = s
      | Some gr => a = map (read_back (stream_at s k)) (redeliver c t n (g_pel gr)).1 /\
          s' = set_stream k (update_group g
                 (fun gr => Group (g_undelivered gr) (redeliver c t n (g_pel gr)).2) (stream_at s k)) s
      end
  | XAck k g id => fun s _ s' => s' = set_stream k (update_group g (ack id) (stream_at s k)) s
  | XAutoClaim k g c minIdle start n => fun s a s' =>
      match group_at s k g with
      | None => a = ([], "0-0") /\ s' = s
      | Some gr => a = ((autoclaim (stream_at s k) start c t minIdle n gr).1.1, (autoclaim (stream_at s k) start c t minIdle n gr).2) /\
          s' = set_stream k (update_group g (fun gr => (autoclaim (stream_at s k) start c t minIdle n gr).1.2) (stream_at s k)) s
      end
  end.

(** A failed command did nothing or all of its work; a failed pipeline may
    have executed any number of its commands, from the first. *)
Definition rfails (t : Z) {A} (c : rcmd A) (s s' : rstate) : Prop :=
  s' = s \/ (exists a, rspec t c s a s') \/
  match c with
  | PipeXAdd k maxlen es => exists n st, xadds_spec maxlen (take n es) (stream_at s k) st /\ s' = set_stream k st s
  | Pipe cs => exists n, s' = pipe_run (take n cs) s
  | _ => False
  end.

(** ** A server that keeps the promises *)
Definition rexec (t : Z) {A} (c : rcmd A) : rstate -> A * rstate :=
  match c in rcmd A return rstate -> A * rstate with
  | HGet k f => fun s => (hash_at s k !! f, s)
  | HGetAll k => fun s => (hash_at s k, s)
  | HSet k fvs => fun s => (tt, set_hash k (foldl (fun h fv => <[fv.1 := fv.2]> h) (hash_at s k) fvs) s)
  | HDel k f => fun s => (tt, set_hash k (delete f (hash_at s k)) s)
  | HIncrBy k f n => fun s =>
      let a := incr_value (hash_at s k !! f) n in (a, set_hash k (<[f := Itoa a]> (hash_at s k)) s)
  | Del k => fun s => (tt, del_key k s)
  | SAdd k m => fun s => (tt, set_set k ({[m]} ∪ set_at s k) s)
  | SRem k m => fun s => (tt, set_set k (set_at s k ∖ {[m]}) s)
  | SMembers k => fun s => (elements (set_at s k), s)
  | ZAdd k m score => fun s => (tt, set_zset k (<[m := score]> (zset_at s k)) s)
  | ZRem k m => fun s => (tt, set_zset k (delete m (zset_at s k)) s)
  | ZRangeByScore k max => fun s =>
      (map fst (map_to_list (filter (fun kv => (kv.2 <= max)%Z) (zset_at s k))), s)
  | LLen k => fun s => (Z.of_nat (length (list_at s k)), s)
  | RPush k vs => fun s => (tt, set_list k (list_at s k ++ vs) s)
  | BLPop k => fun s => match list_at s k with [] => (None, s) | v :: l => (Some v, set_list k l s) end
  | SetEx k v ttl => fun s => (tt, set_str k (v, (t + ttl)%Z) s)
  | SetNX k v ttl => fun s =>
      if live t (r_str s !! k) then (false, s) else (true, set_str k (v, (t + ttl)%Z) s)
  | ExistsKey k => fun s => (live t (r_str s !! k), s)
  | XAdd k _ fvs => fun s =>
      (tt, set_stream k (append_entry (S (length (s_entries (stream_at s k)))) fvs (stream_at s k)) s)
  | PipeXAdd k _ es => fun s =>
      (tt, set_stream k (foldl (fun st e => append_entry (S (length (s_entries st))) e st) (stream_at s k) es) s)
  | PipeHGet kfs => fun s => (map (fun kf => hash_at s kf.1 !! kf.2) kfs, s)
  | Pipe cs => fun s => (tt, pipe_run cs s)
  | DelKeys ks => fun s => (tt, foldr del_key s ks)
  | XGroupCreate k g => fun s =>
      match group_at s k g with
      | Some _ => (false, s)
      | None => (true, set_stream k (Stream (s_last (stream_at s k)) (s_entries (stream_at s k))
                 (<[g := Group (s_entries (stream_at s k)) []]> (s_groups (stream_at s k)))) s)
      end
  | XReadNew k g c n => fun s =>
      match group_at s k g with
      | None => ([], s)
      | Some gr => ((deliver c t n gr).1,
          set_stream k (update_group g (fun gr => (deliver c t n gr).2) (stream_at s k)) s)
      end
  | XReadPending k g c n => fun s =>
      match group_at s k g with
      | None => ([], s)
      | Some gr => (map (read_back (stream_at s k)) (redeliver c t n (g_pel gr)).1,
          set_stream k (update_group g
            (fun gr => Group (g_undelivered gr) (redeliver c t n (g_pel gr)).2) (stream_at s k)) s)
      end
  | XAck k g id => fun s => (tt, set_stream k (update_group g (ack id) (stream_at s k)) s)
  | XAutoClaim k g c minIdle start n => fun s =>
      match group_at s k g with
      | None => (([], "0-0"), s)
      | Some gr => (((autoclaim (stream_at s k) start c t minIdle n gr).1.1, (autoclaim (stream_at s k) start c t minIdle n gr).2),
          set_stream k (update_group g (fun gr => (autoclaim (stream_at s k) start c t minIdle n gr).1.2) (stream_at s k)) s)
      end
  end.

Lemma append_all_spec maxlen es st :
  xadds_spec maxlen es st (foldl (fun st e => append_entry (S (length (s_entries st))) e st) st es).
Proof.
  revert st. induction es as [|e es IH]; intros st; cbn; [constructor|].
  econstructor; [|apply IH]. eexists. split; [|done]. left. lia.
Qed.

Lemma range_elem (z : gmap string Z) max m :
  m ∈ map fst (map_to_list (filter (fun kv => (kv.2 <= max)%Z) z)) <->
  exists sc, z !! m = Some sc /\ (sc <= max)%Z.
Proof.
  change (map fst ?l) with (l.*1). rewrite list_elem_of_fmap. split.
  - intros ([m' sc] & -> & H%elem_of_map_to_list). exists sc.
    by apply map_lookup_filter_Some in H.
  - intros (sc & Hm & Hle). exists (m, sc). split; [done|].
    apply elem_of_map_to_list, map_lookup_filter_Some. done.
Qed.

(** The reference server keeps every promise. *)
Lemma rexec_spec t {A} (c : rcmd A) s : rspec t c s (rexec t c s).1 (rexec t c s).2.
Proof.
  destruct c; cbn; try done.
  - split; [|split; [|done]].
    + apply NoDup_fst_map_to_list.
    + intros m. apply range_elem.
  - by destruct (list_at s k).
  - by destruct (live t (r_str s !! k)).
  - eexists. split; [|done]. eexists. split; [|done]. left. lia.
  - eexists. split; [apply append_all_spec|done].
  - by destruct (group_at s k g).
  - by destruct (group_at s k g).
  - by destruct (group_at s k g).
  - by destruct (group_at s k g).
Qed.

(** ** Reading back what was written *)
Lemma hash_at_set_hash s k h : hash_at (set_hash k h s) k = h.
Proof. unfold hash_at. cbn. by rewrite lookup_insert_eq. Qed.
Lemma hash_at_set_hash_ne s k k' h : k <> k' -> hash_at (set_hash k h s) k' = hash_at s k'.
Proof. intros. unfold hash_at. cbn. by rewrite lookup_insert_ne. Qed.
Lemma hash_at_set_set s k m k' : hash_at (set_set k m s) k' = hash_at s k'.
Proof. done. Qed.
Lemma hash_at_set_zset s k m k' : hash_at (set_zset k m s) k' = hash_at s k'.
Proof. done. Qed.
Lemma hash_at_set_stream s k m k' : hash_at (set_stream k m s) k' = hash_at s k'.
Proof. done. Qed.
Lemma set_at_set_set s k m : set_at (set_set k m s) k = m.
Proof. unfold set_at. cbn. by rewrite lookup_insert_eq. Qed.
Lemma set_at_set_hash s k h k' : set_at (set_hash k h s) k' = set_at s k'.
Proof. done. Qed.
Lemma set_at_set_zset s k h k' : set_at (set_zset k h s) k' = set_at s k'.
Proof. done. Qed.
Lemma zset_at_set_zset s k m : zset_at (set_zset k m s) k = m.
Proof. unfold zset_at. cbn. by rewrite lookup_insert_eq. Qed.
Lemma zset_at_set_hash s k h k' : zset_at (set_hash k h s) k' = zset_at s k'.
Proof. done. Qed.
Lemma zset_at_set_set s k h k' : zset_at (set_set k h s) k' = zset_at s k'.
Proof. done. Qed.
Lemma zset_at_set_stream s k h k' : zset_at (set_stream k h s) k' = zset_at s k'.
Proof. done. Qed.
Lemma list_at_set_list s k l : list_at (set_list k l s) k = l.
Proof. unfold list_at. cbn. by rewrite lookup_insert_eq. Qed.
Lemma stream_at_set_stream s k st : stream_at (set_stream k st s) k = st.
Proof. unfold stream_at. cbn. by rewrite lookup_insert_eq. Qed.
Lemma stream_at_set_stream_ne s k k' st : k <> k' -> stream_at (set_stream k st s) k' = stream_at s k'.
Proof. intros. unfold stream_at. cbn. by rewrite lookup_insert_ne. Qed.
Lemma stream_at_set_hash s k h k' : stream_at (set_hash k h s) k' = stream_at s k'.
Proof. done. Qed.
Lemma stream_at_set_zset s k h k' : stream_at (set_zset k h s) k' = stream_at s k'.
Proof. done. Qed.

Create Rewrite HintDb redis.
#[export] Hint Rewrite hash_at_set_hash hash_at_set_set hash_at_set_zset hash_at_set_stream
  set_at_set_set set_at_set_hash set_at_set_zset zset_at_set_zset zset_at_set_hash
  zset_at_set_set zset_at_set_stream list_at_set_list stream_at_set_stream stream_at_set_hash
  stream_at_set_zset : redis.

Lemma group_at_set_stream s k st g : group_at (set_stream k st s) k g = s_groups st !! g.
Proof. unfold group_at. by rewrite stream_at_set_stream. Qed.

Lemma show_id_inj n m : show_id n = show_id m -> n = m.
Proof. apply (inj pretty). Qed.

Lemma lastn_all {A} n (l : list A) : length l <= n -> lastn n l = l.
Proof. intros H. unfold lastn. by replace (length l - n) with 0 by lia. Qed.

(** Appending without trimming. *)
Lemma append_entry_all keep f st :
  S (length (s_entries st)) <= keep ->
  s_entries (append_entry keep f st) = s_entries st ++ [Entry (N.succ (s_last st)) f].
Proof. intros H. apply lastn_all. rewrite length_app. cbn. lia. Qed.
