(* ===== verification/Host.v ===== *)
(** The host of a service that talks to Redis: the clock and the Redis
    client.  [host_spec] is the hypothesis on them: time does not go back, and
    a command runs at some time between its request and its answer. *)
From S2P Require Import Prelude GoStd Redis.

Inductive hcmd : Type -> Type :=
  | Redis {A} (c : rcmd A) : hcmd A
  | Now : hcmd Z
  | NewUuid : hcmd string.                  (* uuid.New().String() *)

Record hview := HView { clock : Z; redis : rstate }.

Lemma hview_eta (v : hview) : v = HView (clock v) (redis v).
Proof. by destruct v. Qed.

Definition host_spec : service_spec hcmd hview := fun A c =>
  match c in hcmd A return hview -> A -> hview -> Prop with
  | Redis c => fun s a s' =>
      (clock s <= clock s')%Z /\ rspec (clock s') c (redis s) a (redis s')
  | Now => fun s a s' => (clock s <= a)%Z /\ clock s' = a /\ redis s' = redis s
  | NewUuid => fun s a s' => (clock s <= clock s')%Z /\ redis s' = redis s
  end.

Definition host_fails : service_fails hcmd hview := fun A c =>
  match c in hcmd A return hview -> hview -> Prop with
  | Redis c => fun s s' =>
      (clock s <= clock s')%Z /\ rfails (clock s') c (redis s) (redis s')
  | Now | NewUuid => fun s s' => False    (* reading the clock cannot fail *)
  end.

Abbreviation Host W := (Service W hcmd hview).
Abbreviation HostLaws srv := (ServiceLaws srv host_spec host_fails).

(** The reference host: its clock advances by one second per request. *)
Definition host_exec : executor hcmd hview := fun A c s =>
  match c in hcmd A return A * hview with
  | Redis c => let '(a, r) := rexec (clock s + Second)%Z c (redis s) in (a, HView (clock s + Second) r)
  | Now => ((clock s + Second)%Z, HView (clock s + Second) (redis s))
  | NewUuid => ("uuid-" +:+ Itoa (clock s), HView (clock s + Second) (redis s))
  end.

Lemma host_exec_spec : executes host_exec host_spec.
Proof.
  intros A c s. destruct c as [A c| |]; cbn.
  - pose proof (rexec_spec (clock s + Second) c (redis s)) as H.
    destruct (rexec _ _ _). cbn. split; [unfold Second; lia|done].
  - split; [unfold Second; lia|done].
  - split; [unfold Second; lia|done].
Qed.

(** A host that always answers: the witnesses of properties that assume a
    reliable Redis run on it. *)
Definition sure_host : Host hview := sure host_exec.

#[export] Instance sure_host_laws : HostLaws sure_host.
Proof. apply sure_laws, host_exec_spec. Qed.
#[export] Instance sure_host_reliable : Reliable sure_host.
Proof. apply sure_reliable. Qed.

(** A host that loses requests or answers as a script says; only the clock
    never fails. *)
Definition flaky_host : Host (hview * list fault) := {|
  request := fun A c w =>
    match c in hcmd A return res A * (hview * list fault) with
    | Now => let '(a, s) := host_exec _ Now w.1 in (Ok a, (s, w.2))
    | NewUuid => let '(a, s) := host_exec _ NewUuid w.1 in (Ok a, (s, w.2))
    | Redis c => (flaky host_exec).(request) (Redis c) w
    end;
  view := fst;
|}.

#[export] Instance flaky_host_laws : HostLaws flaky_host.
Proof.
  split; intros A c [s fs] x [s' fs'] E; destruct c as [A c| |]; cbn in E.
  - pose proof (host_exec_spec _ (Redis c) s) as Hs. cbn in Hs.
    destruct (rexec _ c (redis s)) as [a r]. cbn in *.
    destruct fs as [|[] fs]; simplify_eq; done.
  - simplify_eq. apply (host_exec_spec _ Now s).
  - simplify_eq. apply (host_exec_spec _ NewUuid s).
  - pose proof (host_exec_spec _ (Redis c) s) as Hs. cbn in Hs. unfold view; cbn.
    destruct (rexec _ c (redis s)) as [a r]. cbn in *.
    destruct fs as [|[] fs]; simplify_eq; cbn.
    + split; [lia|]. by left.
    + split; [apply Hs|]. right. left. exists a. apply Hs.
  - simplify_eq.
  - simplify_eq.
Qed.

Section host.
Context {W} {srv : Host W}.

Definition rdb {A} (c : rcmd A) : proc W (res A) := request (Redis c).

(** [time.Now ()]. *)
Definition time_Now : proc W Z :=
  r <-- request Now; mret (match r with Ok t => t | Err _ => 0%Z end).

Definition uuid_New : proc W string :=
  r <-- request NewUuid; mret (match r with Ok s => s | Err _ => "" end).

Context `{!HostLaws srv}.

Lemma wp_rdb {A} (c : rcmd A) (Q : res A -> W -> Prop) w :
  (forall a w' t s', (clock (view w) <= t)%Z -> view w' = HView t s' ->
     rspec t c (redis (view w)) a s' -> Q (Ok a) w') ->
  (forall e w' t s', (clock (view w) <= t)%Z -> view w' = HView t s' ->
     rfails t c (redis (view w)) s' -> Q (Err e) w') ->
  wp (rdb c) Q w.
Proof.
  intros Hok Herr. apply (wp_request srv host_spec host_fails).
  - intros a w' [Ht Hs]. eapply Hok; [done|apply hview_eta|done].
  - intros e w' [Ht Hs]. eapply Herr; [done|apply hview_eta|done].
Qed.

Lemma wp_rdb_reliable `{!Reliable srv} {A} (c : rcmd A) (Q : res A -> W -> Prop) w :
  (forall a w' t s', (clock (view w) <= t)%Z -> view w' = HView t s' ->
     rspec t c (redis (view w)) a s' -> Q (Ok a) w') ->
  wp (rdb c) Q w.
Proof.
  intros Hok. apply (wp_request_reliable srv host_spec host_fails).
  intros a w' [Ht Hs]. eapply Hok; [done|apply hview_eta|done].
Qed.

(** What every run of a command keeps, a failed one keeps too. *)
Lemma wp_rdb_keeps {A} (c : rcmd A) (I : rstate -> Prop) w :
  I (redis (view w)) ->
  (forall t a s', rspec t c (redis (view w)) a s' -> I s') ->
  (forall t s', rfails t c (redis (view w)) s' -> s' = redis (view w) \/ exists a, rspec t c (redis (view w)) a s') ->
  wp (rdb c) (fun _ w' => I (redis (view w'))) w.
Proof.
  intros HI Hok Hf. apply wp_rdb.
  - intros a w' t s' _ Hv Hs. rewrite Hv. by eapply Hok.
  - intros e w' t s' _ Hv Hs. rewrite Hv. cbn.
    destruct (Hf _ _ Hs) as [->|[a Ha]]; [done|]. by eapply Hok.
Qed.

Lemma wp_now (Q : Z -> W -> Prop) w :
  (forall t w', (clock (view w) <= t)%Z -> view w' = HView t (redis (view w)) -> Q t w') ->
  wp time_Now Q w.
Proof.
  intros H. apply wp_bind. apply (wp_request srv host_spec host_fails); [|done].
  intros t w' (Ht & Hc & Hr). apply wp_ret, H; [done|].
  destruct (view w') as [c r]. cbn in *. by subst.
Qed.
End host.

(** A single command either did nothing or all of its work. *)
Ltac all_or_nothing := by intros ? ? [?|[?|[]]]; auto.

(** Step over a Redis command, naming what is known afterwards. *)
Ltac wp_rdb_step :=
  first [apply wp_rdb_reliable | apply wp_rdb].
