(* ===== verification/World.v ===== *)
(** The world of a service that keeps tables in a database beside the clock
    and Redis: both are there, neither touches the other ([SharedWorld], and
    [World] if the database has no other clients); the rules that step over a
    statement of each; and three reference worlds: one that always answers, one
    that loses requests as scripts say, and one whose database is also shared. *)
From S2P Require Import Prelude GoStd Sql Redis Host.

Class SharedWorld (W S : Type) (R : S -> S -> Prop) := {
  #[global] world_host :: Host W;
  #[global] world_db :: Db W S;
  #[global] world_host_laws :: HostLaws world_host;
  #[global] world_db_laws :: SharedLaws world_db R;
  #[global] world_host_frame :: Frame world_host (view (Service := world_db));
  #[global] world_db_frame :: Frame world_db (view (Service := world_host));
}.

(** A database without other clients. *)
Abbreviation World W S := (SharedWorld W S nobody).

#[export] Instance world_db_alone {W S} {wo : World W S} : DbLaws world_db.
Proof.
  split; intros A c w a w' E; [apply (request_ok (srv := world_db)) in E|apply (request_err (srv := world_db)) in E];
    unfold shared_spec, shared_fails in E; destruct (view w) as [x [y|]]; try done; by destruct E as (x1 & ->%rtc_nobody & E).
Qed.

(** Every request is answered. *)
Class Answers {W S R} (wo : SharedWorld W S R) : Prop := {
  #[global] answers_host :: Reliable world_host;
  #[global] answers_db :: Reliable world_db;
}.

Definition tables {W S R} {wo : SharedWorld W S R} (w : W) : dview S := view w.
Definition host {W S R} {wo : SharedWorld W S R} (w : W) : hview := view w.
Arguments tables : simpl never.
Arguments host : simpl never.

Section rules.
Context {W S R} {wo : SharedWorld W S R}.

Lemma wp_time_Now (Q : Z -> W -> Prop) w :
  (forall t w', tables w' = tables w -> (clock (host w) <= t)%Z -> host w' = HView t (redis (host w)) -> Q t w') ->
  wp time_Now Q w.
Proof.
  intros HQ. assert (wp (W := W) time_Now (fun _ w' => tables w' = tables w) w) as Hf.
  { apply wp_bind. eapply wp_mono; [apply (wp_frame world_host (view (Service := world_db)))|].
    intros r w' Hw. by apply wp_ret. }
  eapply wp_mono; [apply wp_and; [exact Hf|]|].
  - apply (wp_now (fun t w' => (clock (host w) <= t)%Z /\ host w' = HView t (redis (host w)))). by intros.
  - cbn beta. intros t w' (H1 & H2 & H3). auto.
Qed.

Lemma wp_uuid_New (Q : string -> W -> Prop) w :
  (forall u w', tables w' = tables w -> (clock (host w) <= clock (host w'))%Z ->
     redis (host w') = redis (host w) -> Q u w') ->
  wp uuid_New Q w.
Proof.
  intros HQ. apply wp_bind. eapply wp_mono; [apply wp_and;
    [apply (wp_frame world_host (view (Service := world_db)))|]|].
  - apply (wp_request world_host host_spec host_fails
      NewUuid (fun r w' => (clock (host w) <= clock (host w'))%Z /\ redis (host w') = redis (host w))); [|done].
    intros a w' [H1 H2]. done.
  - cbn beta. intros r w' (H1 & H2 & H3). apply wp_ret. auto.
Qed.

Lemma wp_redis {A} (c : rcmd A) (Q : res A -> W -> Prop) w :
  (forall a w' t s', tables w' = tables w -> (clock (host w) <= t)%Z -> host w' = HView t s' ->
     rspec t c (redis (host w)) a s' -> Q (Ok a) w') ->
  (forall e w' t s', tables w' = tables w -> (clock (host w) <= t)%Z -> host w' = HView t s' ->
     rfails t c (redis (host w)) s' -> ~ Answers wo -> Q (Err e) w') ->
  wp (rdb c) Q w.
Proof.
  intros Hok Herr. eapply wp_mono; [apply wp_and; [apply (wp_frame world_host (view (Service := world_db)))|
    apply wp_and; [apply wp_refutes|apply (wp_rdb _ (fun r w' => match r with
    | Ok a => exists t s', (clock (host w) <= t)%Z /\ host w' = HView t s' /\ rspec t c (redis (host w)) a s'
    | Err _ => exists t s', (clock (host w) <= t)%Z /\ host w' = HView t s' /\ rfails t c (redis (host w)) s'
    end))]]|].
  - intros a w' t s' Ht Hv Hs. by exists t, s'.
  - intros e w' t s' Ht Hv Hs. by exists t, s'.
  - cbn beta. intros [a|e] w' (Hf & Hrel & t & s' & Ht & Hv & Hs); [by eapply Hok|].
    eapply Herr; try done. intros Hans. by apply Hrel; [|apply Hans].
Qed.

(** A statement, after what other clients do. *)
Lemma wp_sql_shared {A} (f : S -> res A * S) (Q : res A -> W -> Prop) w x :
  tables w = DView x None ->
  (forall a w' x1 x', rtc R x x1 -> f x1 = (Ok a, x') -> tables w' = DView x' None -> host w' = host w -> Q (Ok a) w') ->
  (forall e w' x1 x', rtc R x x1 -> (x' = x1 \/ exists a, f x1 = (Ok a, x')) -> tables w' = DView x' None ->
     host w' = host w -> (Answers wo -> x' = x1 /\ f x1 = (Err e, (f x1).2)) -> Q (Err e) w') ->
  wp (exec f) Q w.
Proof.
  intros Hv Hok Herr. assert (wp (exec f) (fun _ w' => host w' = host w) w) as Hf.
  { apply wp_bind. eapply wp_mono; [apply (wp_frame world_db (view (Service := world_host)))|].
    intros r w' Hw. by apply wp_ret. }
  eapply wp_mono; [apply wp_and; [exact Hf|apply (wp_shared _ _ x); exact Hv]|].
  cbn beta. intros [a|e] w' (Hh & x1 & Hx & Hr & Hrel).
  - destruct Hr as (x' & E & Hv'). by eapply Hok.
  - destruct Hr as [Hv'|(a & x' & E & Hv')].
    + eapply (Herr e w' x1 x1); [done|by left|done..|]. intros Hans. split; [done|].
      rewrite (surjective_pairing (f x1)) at 1. by rewrite <- (Hrel (answers_db)).
    + eapply (Herr e w' x1 x'); [done|right; by eexists|done..|]. intros Hans. specialize (Hrel answers_db).
      rewrite E in Hrel. done.
Qed.

(** A query tells the truth of that moment, or fails. *)
Lemma wp_sql_query_shared {A} (f : S -> res A) (Q : res A -> W -> Prop) w x :
  tables w = DView x None ->
  (forall r w' x1, rtc R x x1 -> tables w' = DView x1 None -> host w' = host w ->
     (is_ok r = true \/ Answers wo -> r = f x1) -> Q r w') ->
  wp (exec (fun y => (f y, y))) Q w.
Proof.
  intros Hv HQ. apply (wp_sql_shared _ _ _ x); [done| |].
  - intros a w' x1 x' Hx [= E <-] Hv' Hh. by apply (HQ _ _ x1).
  - intros e w' x1 x' Hx Hx' Hv' Hh Hans. assert (x' = x1) as -> by (destruct Hx' as [|[a [= ]]]; congruence).
    apply (HQ _ _ x1); [done..|]. intros [|Ha]; [done|]. destruct (Hans Ha) as [_ [= E]]. done.
Qed.
End rules.

Section alone_rules.
Context {W S} {wo : World W S}.

Lemma wp_sql {A} (f : S -> res A * S) (Q : res A -> W -> Prop) w x :
  tables w = DView x None ->
  (forall a w' x', f x = (Ok a, x') -> tables w' = DView x' None -> host w' = host w -> Q (Ok a) w') ->
  (forall e w' x', (x' = x \/ exists a, f x = (Ok a, x')) -> tables w' = DView x' None -> host w' = host w ->
     (Answers wo -> x' = x /\ f x = (Err e, (f x).2)) -> Q (Err e) w') ->
  wp (exec f) Q w.
Proof.
  intros Hv Hok Herr. apply (wp_sql_shared _ _ _ x); [done| |].
  - intros a w' x1 x' ->%rtc_nobody. apply Hok.
  - intros e w' x1 x' ->%rtc_nobody. apply Herr.
Qed.

(** A query tells the truth or fails. *)
Lemma wp_sql_query {A} (f : S -> res A) (Q : res A -> W -> Prop) w x :
  tables w = DView x None ->
  (forall r w', tables w' = DView x None -> host w' = host w -> (is_ok r = true \/ Answers wo -> r = f x) -> Q r w') ->
  wp (exec (fun y => (f y, y))) Q w.
Proof. intros Hv HQ. apply (wp_sql_query_shared _ _ _ x); [done|]. intros r w' x1 ->%rtc_nobody. apply HQ. Qed.
End alone_rules.

(** ** Reference worlds *)
Section reference.
Context (S : Type).

Definition calm_host : Host (hview * dview S) := framed (dview S) sure_host.
Definition calm_db : Db (hview * dview S) S := framed_r hview (sure_db S).
#[local] Instance calm_host_frame : Frame calm_host (view (Service := calm_db)).
Proof. intros A c w. unfold view. cbn. by destruct (host_exec A c w.1). Qed.
#[local] Instance calm_db_frame : Frame calm_db (view (Service := calm_host)).
Proof. intros A c w. unfold view. cbn. by destruct (sql_exec S A c w.2). Qed.
Definition calm : World (hview * dview S) S := {| world_host := calm_host; world_db := calm_db |}.
Lemma calm_answers : Answers calm.
Proof. split; typeclasses eauto. Qed.

Definition stormy_host : Host ((hview * list fault) * (dview S * list fault)) := framed _ flaky_host.
Definition stormy_db : Db ((hview * list fault) * (dview S * list fault)) S := framed_r _ (flaky_db S).
#[local] Instance stormy_host_frame : Frame stormy_host (view (Service := stormy_db)).
Proof. intros A c w. unfold view. cbn. by destruct (match c with Redis _ => _ | Now => _ | NewUuid => _ end). Qed.
#[local] Instance stormy_db_frame : Frame stormy_db (view (Service := stormy_host)).
Proof. intros A c w. unfold view. cbn. by destruct (match w.2.2 with [] => _ | _ :: _ => _ end). Qed.
Definition stormy : World ((hview * list fault) * (dview S * list fault)) S :=
  {| world_host := stormy_host; world_db := stormy_db |}.

(** Requests are lost, and the database is shared. *)
Context (R : S -> S -> Prop).
Definition crowded_host : Host ((hview * list fault) * ((dview S * list fault) * list (move R))) := framed _ flaky_host.
Definition crowded_db : Db ((hview * list fault) * ((dview S * list fault) * list (move R))) S := framed_r _ (crowd_db S R).
#[local] Instance crowded_host_frame : Frame crowded_host (view (Service := crowded_db)).
Proof. apply (framed_snd flaky_host (fun w => w.1.1)). Qed.
#[local] Instance crowded_db_frame : Frame crowded_db (view (Service := crowded_host)).
Proof. apply (framed_r_fst (crowd_db S R) fst). Qed.
Definition crowded : SharedWorld ((hview * list fault) * ((dview S * list fault) * list (move R))) S R :=
  {| world_host := crowded_host; world_db := crowded_db |}.
End reference.
