(* ===== verification/Config.v ===== *)
(** Configuration from the environment: the helper functions of config/env.go
    that five services carry a copy of, and each service's [Load].  The
    environment is what [loadEnv] left ([godotenv] is a library). *)
From S2P Require Import Prelude GoStd.
From Stdlib Require Import Ascii.

(** ** [time.ParseDuration] *)
Definition ErrDuration : err := ErrS "time.ErrDuration".

Definition is_digit (c : ascii) : bool := in_range 48 57 (byte_of c).
Definition is_dot (c : ascii) : bool := (byte_of c =? 46)%Z.

(** The digits in front: their value, the rest, and whether there are any;
    [None] if the value is beyond 2^63. *)
Fixpoint leadingInt (acc : Z) (s : string) : option (Z * string) :=
  match s with
  | String c s' =>
    if is_digit c then
      let acc' := (acc * 10 + (byte_of c - 48))%Z in
      if (2 ^ 63 / 10 <? acc)%Z || (2 ^ 63 <? acc')%Z then None else leadingInt acc' s'
    else Some (acc, s)
  | "" => Some (acc, "")
  end.

(** The digits of a fraction, with the power of ten they are over; digits
    that would overflow are dropped. *)
Fixpoint leadingFraction (f scale : Z) (overflow : bool) (s : string) : Z * Z * string :=
  match s with
  | String c s' =>
    if is_digit c then
      if overflow then leadingFraction f scale true s'
      else
        let f' := (f * 10 + (byte_of c - 48))%Z in
        if ((2 ^ 63 - 1) / 10 <? f)%Z || (2 ^ 63 <? f')%Z then leadingFraction f scale true s'
        else leadingFraction f' (scale * 10)%Z false s'
    else (f, scale, s)
  | "" => (f, scale, "")
  end.

Fixpoint unit_name (s : string) : string * string :=
  match s with
  | String c s' => if is_dot c || is_digit c then ("", s) else let '(u, r) := unit_name s' in (String c u, r)
  | "" => ("", "")
  end.

Definition unit_value (u : string) : option Z :=
  if String.eqb u "ns" then Some 1%Z
  else if bool_decide (u ∈ ["us"; bytes [194; 181; 115]%Z; bytes [206; 188; 115]%Z]) then Some 1000%Z
  else if String.eqb u "ms" then Some Millisecond
  else if String.eqb u "s" then Some Second
  else if String.eqb u "m" then Some Minute
  else if String.eqb u "h" then Some Hour
  else None.

(** One number with its unit; the fraction is rounded down. *)
Definition duration_term (s : string) : option (Z * string) :=
  match s with
  | "" => None
  | String c _ =>
    if is_dot c || is_digit c then
      v_s ← leadingInt 0 s;
      let '(v, s1) := v_s in
      let pre := negb (String.eqb s s1) in
      let '(f, scale, s2) :=
        match s1 with
        | String d s1' => if is_dot d then leadingFraction 0 1 false s1' else (0%Z, 1%Z, s1)
        | "" => (0%Z, 1%Z, s1)
        end in
      let post := match s1 with String d s1' => is_dot d && negb (String.eqb s1' s2) | "" => false end in
      if negb pre && negb post then None
      else
        let '(u, s3) := unit_name s2 in
        unit ← unit_value u;
        if (2 ^ 63 / unit <? v)%Z then None
        else
          let v := (v * unit + f * unit / scale)%Z in
          if (2 ^ 63 <? v)%Z then None else Some (v, s3)
    else None
  end.

Fixpoint duration_terms (fuel : nat) (d : Z) (s : string) : option Z :=
  match fuel with
  | O => None
  | S fuel =>
    if String.eqb s "" then Some d
    else
      t ← duration_term s;
      let '(v, s) := t in
      if (2 ^ 63 <? d + v)%Z then None else duration_terms fuel (d + v) s
  end.

Definition ParseDuration (s : string) : Z * option err :=
  let bad := (0%Z, Some ErrDuration) in
  let '(neg, s) := match s with
    | String c s' => if (byte_of c =? 45)%Z then (true, s') else if (byte_of c =? 43)%Z then (false, s') else (false, s)
    | "" => (false, "")
    end in
  if String.eqb s "0" then (0%Z, None)
  else if String.eqb s "" then bad
  else match duration_terms (S (String.length s)) 0 s with
       | None => bad
       | Some d => if neg then (- d, None)%Z else if (2 ^ 63 - 1 <? d)%Z then bad else (d, None)
       end.

Example ParseDuration_1m30s : ParseDuration "1m30.5s" = (90500000000%Z, None).
Proof. by vm_compute. Qed.
Example ParseDuration_neg : ParseDuration "-1.5h" = ((-5400000000000)%Z, None).
Proof. by vm_compute. Qed.
Example ParseDuration_bad : (ParseDuration "10").2 = Some ErrDuration /\ (ParseDuration ".s").2 = Some ErrDuration.
Proof. by vm_compute. Qed.

(** ** config/env.go *)

(** The process: variables that are set, and the files that can be read. *)
Record Env := { LookupEnv : string -> option string; ReadFile : string -> option string }.

Section env.
Context (e : Env).

Definition Getenv (key : string) : string := default "" (LookupEnv e key).

Definition getEnv (key : string) : string :=
  let filePath := Getenv (key +:+ "_FILE") in
  if negb (String.eqb filePath "") then
    match ReadFile e filePath with
    | Some content => TrimSpace content
    | None => Getenv key
    end
  else Getenv key.

Definition GetEnvDefault (key fallback : string) : string :=
  let val := getEnv key in
  if String.eqb val "" then fallback else val.

(** A Go function returns a value beside its error. *)
Definition GetEnvBool (key : string) (fallback : bool) : bool * option err :=
  let val := getEnv key in
  if String.eqb val "" then (fallback, None)
  else match ParseBool val with Ok b => (b, None) | Err er => (false, Some er) end.

Definition GetEnvInt (key : string) (fallback : Z) : Z * option err :=
  let val := getEnv key in
  if String.eqb val "" then (fallback, None) else Atoi val.

Definition GetEnvDuration (key : string) (fallback : Z) : Z * option err :=
  let val := getEnv key in
  if String.eqb val "" then (fallback, None) else ParseDuration val.

(** [strconv.ParseFloat] is an argument.  No variable that names a file counts
    here. *)
Definition GetEnvFloat {F} (ParseFloat : string -> F * option err) (key : string) (fallback : F) : F * option err :=
  let val := Getenv key in
  if String.eqb val "" then (fallback, None) else ParseFloat val.

(** [loadEnv], once in a process: the variables of a file are added, where
    [godotenv.Load] can read it; without a name it is .env. *)
Definition loadEnv (Load : option string -> Env -> option Env) (done : bool) : Env :=
  if done then e
  else
    let envFile := Getenv "ENV_FILE" in
    default e (Load (if String.eqb envFile "" then None else Some envFile) e).

(** [v, err := ...; if err != nil { v = fallback }]. *)
Definition or_default {A} (r : A * option err) (fallback : A) : A :=
  match r with (v, None) => v | (_, Some _) => fallback end.
End env.

Record LoggerConfig := {
  Level : string; Format : string; LogMaxSize : Z; LogMaxBackups : Z; LogMaxAge : Z; LogCompress : bool;
}.
Record SMTPConfig := {
  Host : string; Port : string; UseAuth : bool; UseTLS : bool;
  SMTPUsername : string; SMTPPassword : string; From : string; FromName : string;
}.
Record OutboxConfig := { StreamName : string; BatchSize : Z; IntervalMs : Z; MaxLen : Z }.

(** The logger's settings, the same in four services. *)
Definition load_logger (e : Env) : LoggerConfig := {|
  Level := GetEnvDefault e "LOG_LEVEL" "info";
  Format := GetEnvDefault e "LOG_FORMAT" "text";
  LogMaxSize := or_default (GetEnvInt e "LOG_MAX_SIZE" 10) 10%Z;
  LogMaxBackups := or_default (GetEnvInt e "LOG_MAX_BACKUPS" 3) 3%Z;
  LogMaxAge := or_default (GetEnvInt e "LOG_MAX_AGE" 28) 28%Z;
  LogCompress := or_default (GetEnvBool e "LOG_COMPRESS" true) true |}.

Definition load_smtp (e : Env) : SMTPConfig := {|
  Host := GetEnvDefault e "SMTP_HOST" "localhost";
  Port := GetEnvDefault e "SMTP_PORT" "1025";
  UseAuth := String.eqb (GetEnvDefault e "SMTP_USE_AUTH" "false") "true";
  UseTLS := String.eqb (GetEnvDefault e "SMTP_USE_TLS" "false") "true";
  SMTPUsername := GetEnvDefault e "SMTP_USERNAME" "";
  SMTPPassword := GetEnvDefault e "SMTP_PASSWORD" "";
  From := GetEnvDefault e "SMTP_FROM" "no-reply@sms.com";
  FromName := GetEnvDefault e "SMTP_FROM_NAME" "SMS Server Management" |}.

Definition http_port (e : Env) (fallback : string) : string :=
  let p := TrimSpace (GetEnvDefault e "HTTP_PORT" "") in
  if String.eqb p "" then GetEnvDefault e "PORT" fallback else p.

Definition jwt_secret (e : Env) : string :=
  let s := GetEnvDefault e "JWT_SECRET" "" in
  if String.eqb s "" then GetEnvDefault e "JWT_SECRET_KEY" "" else s.

Record AppConfig := {
  GRPCPort : string; HTTPPort : string; DBUrl : string; JWTSecret : string; EnvName : string;
  AdminEmail : string; AdminPassword : string; UserEmail : string; UserPassword : string;
  ApiBaseUrl : string; FrontEndUrl : string;
  Logger : LoggerConfig; SMTP : SMTPConfig; ReportingWorkers : Z; ReportingQueue : Z;
}.

(** sms-identity/internal/config/app.go *)
Definition identity_Load (e : Env) : AppConfig := {|
  GRPCPort := GetEnvDefault e "GRPC_PORT" "50051";
  HTTPPort := http_port e "8000";
  DBUrl := GetEnvDefault e "DB_URL" "";
  JWTSecret := jwt_secret e;
  EnvName := GetEnvDefault e "ENV" "development";
  AdminEmail := GetEnvDefault e "ADMIN_EMAIL" ""; AdminPassword := GetEnvDefault e "ADMIN_PASSWORD" "";
  UserEmail := GetEnvDefault e "USER_EMAIL" ""; UserPassword := GetEnvDefault e "USER_PASSWORD" "";
  ApiBaseUrl := GetEnvDefault e "API_BASE_URL" ""; FrontEndUrl := GetEnvDefault e "FRONTEND_BASE_URL" "";
  Logger := load_logger e; SMTP := load_smtp e;
  ReportingWorkers := or_default (GetEnvInt e "REPORTING_WORKER_COUNT" 5) 5%Z;
  ReportingQueue := or_default (GetEnvInt e "REPORTING_JOB_QUEUE_SIZE" 100) 100%Z |}.

(** sms-management/internal/config/app.go: the same and the outbox. *)
Definition management_Load (e : Env) : AppConfig * OutboxConfig :=
  (identity_Load e,
   {| StreamName := GetEnvDefault e "OUTBOX_STREAM_NAME" "sms.events.server";
      BatchSize := or_default (GetEnvInt e "OUTBOX_BATCH_SIZE" 500) 500%Z;
      IntervalMs := or_default (GetEnvInt e "OUTBOX_INTERVAL_MS" 2000) 2000%Z;
      MaxLen := or_default (GetEnvInt e "OUTBOX_STREAM_MAXLEN" 1000000) 1000000%Z |}).

(** sms-monitoring/internal/config: the errors of numbers are dropped, so that
    the value is what the parser leaves. *)
Record MonitoringConfig := {
  M_Env : string; M_Logger : LoggerConfig; M_StreamMaxLen : Z;
  WorkerTickInterval : Z; WorkerConcurrency : Z; WorkerPingTimeout : Z; FailureThreshold : Z;
  ProducerLockKey : string; ICMPTimeout : Z; SSHTimeout : Z; AgentPullTimeout : Z;
  ICMPPrivileged : bool; AgentPushTTL : Z; SweeperInterval : Z;
}.

Definition monitoring_Load (e : Env) : MonitoringConfig := {|
  M_Env := GetEnvDefault e "ENV" "development";
  M_Logger := load_logger e;
  M_StreamMaxLen := or_default (GetEnvInt e "STREAM_MAXLEN" 1000000) 1000000%Z;
  WorkerTickInterval := (GetEnvDuration e "MONITORING_WORKER_TICK_INTERVAL" (60 * Second)).1;
  WorkerConcurrency := (GetEnvInt e "MONITORING_WORKER_CONCURRENCY" 100).1;
  WorkerPingTimeout := (GetEnvDuration e "MONITORING_WORKER_PING_TIMEOUT" (3 * Second)).1;
  FailureThreshold := (GetEnvInt e "MONITORING_FAILURE_THRESHOLD" 1).1;
  ProducerLockKey := GetEnvDefault e "MONITORING_PRODUCER_LOCK_KEY" "lock:monitoring_producer";
  ICMPTimeout := (GetEnvDuration e "MONITORING_ICMP_TIMEOUT" (3 * Second)).1;
  SSHTimeout := (GetEnvDuration e "MONITORING_SSH_TIMEOUT" (10 * Second)).1;
  AgentPullTimeout := (GetEnvDuration e "MONITORING_AGENT_PULL_TIMEOUT" (10 * Second)).1;
  ICMPPrivileged := (GetEnvBool e "ICMP_PRIVILEGED" false).1;
  AgentPushTTL := wrap64 ((GetEnvInt e "MONITORING_AGENT_PUSH_TTL" 60).1 * Second);
  SweeperInterval := (GetEnvDuration e "MONITORING_SWEEPER_INTERVAL" (10 * Second)).1 |}.

Record ElasticsearchConfig := { URL : string; ServerIndex : string }.
Record ObservationLoggerConfig := {
  ChannelSize : Z; O_BatchSize : Z; FlushMs : Z; RetryMax : Z; RetryDelayMs : Z;
}.

Definition LoadElasticsearchConfig (e : Env) : ElasticsearchConfig :=
  let or d v := if String.eqb v "" then d else v in
  {| URL := or "http://elasticsearch:9200" (Getenv e "ELASTICSEARCH_URL");
     ServerIndex := or "sms_observation_logs" (Getenv e "ELASTICSEARCH_SERVER_INDEX") |}.

Definition LoadObservationLoggerConfig (e : Env) : ObservationLoggerConfig := {|
  ChannelSize := (GetEnvInt e "ES_OBSERVATION_CHANNEL_SIZE" 10000).1;
  O_BatchSize := (GetEnvInt e "ES_OBSERVATION_BATCH_SIZE" 500).1;
  FlushMs := (GetEnvInt e "ES_OBSERVATION_FLUSH_MS" 2000).1;
  RetryMax := (GetEnvInt e "ES_OBSERVATION_RETRY_MAX" 3).1;
  RetryDelayMs := (GetEnvInt e "ES_OBSERVATION_RETRY_DELAY_MS" 500).1 |}.

(** sms-reporting/internal/config/app.go *)
Record ReportingConfig := {
  R_GRPCPort : string; R_HTTPPort : string; R_DBUrl : string; R_Env : string; R_Logger : LoggerConfig;
  WorkerCount : Z; JobQueueSize : Z; R_AdminEmail : string; CronSpec : string;
  NotificationStream : string; NotificationStreamMaxLen : Z;
  ConsumerName : string; ServerStream : string; ServerGroup : string;
  ServerStatusStream : string; ServerStatusGroup : string;
}.

Definition reporting_Load (e : Env) : ReportingConfig := {|
  R_GRPCPort := GetEnvDefault e "GRPC_PORT" "50053";
  R_HTTPPort := http_port e "8002";
  R_DBUrl := GetEnvDefault e "DB_URL" "";
  R_Env := GetEnvDefault e "ENV" "development";
  R_Logger := load_logger e;
  WorkerCount := or_default (GetEnvInt e "REPORTING_WORKER_COUNT" 5) 5%Z;
  JobQueueSize := or_default (GetEnvInt e "REPORTING_JOB_QUEUE_SIZE" 100) 100%Z;
  R_AdminEmail := GetEnvDefault e "ADMIN_EMAIL" "admin@sms.com";
  CronSpec := GetEnvDefault e "SCHEDULER_CRON_SPEC" "0 0 * * *";
  NotificationStream := GetEnvDefault e "NOTIFICATION_STREAM" "notification_events";
  NotificationStreamMaxLen := or_default (GetEnvInt e "NOTIFICATION_STREAM_MAXLEN" 100000) 100000%Z;
  ConsumerName := GetEnvDefault e "CONSUMER_NAME" "reporting_worker";
  ServerStream := GetEnvDefault e "CONSUMER_SERVER_STREAM" "sms.events.server";
  ServerGroup := GetEnvDefault e "CONSUMER_SERVER_GROUP" "reporting_server_group";
  ServerStatusStream := GetEnvDefault e "CONSUMER_STATUS_STREAM" "sms.events.server_status";
  ServerStatusGroup := GetEnvDefault e "CONSUMER_STATUS_GROUP" "reporting_status_group" |}.

(** sms-agent-handler/internal/config/app.go *)
Record AgentHandlerConfig := { A_Env : string; A_Port : string; RedisURI : string; MasterKey : string }.
Definition agent_handler_Load (e : Env) : AgentHandlerConfig := {|
  A_Env := GetEnvDefault e "ENV" "development";
  A_Port := GetEnvDefault e "PORT" "8084";
  RedisURI := GetEnvDefault e "REDIS_URI" "redis://localhost:6379/0";
  MasterKey := GetEnvDefault e "MASTER_KEY" "0123456789abcdef0123456789abcdef" |}.

(** *** Redis (config/redis.go, the same in four services) *)
Record RedisConfig := {
  Enabled : bool; Addr : string; RedisPassword : string; DB : Z;
  DialTimeout : Z; ReadTimeout : Z; WriteTimeout : Z; PoolSize : Z; MinIdleConns : Z; MaxRetries : Z;
}.

(** [fmt.Errorf ("invalid %s: %w", key, err)]. *)
Definition required {A} (key : string) (r : A * option err) : res A :=
  match r with (v, None) => Ok v | (_, Some er) => Err (ErrWrap ("invalid " +:+ key) er) end.

Definition bind_res {A B} (r : res A) (k : A -> res B) : res B :=
  match r with Ok a => k a | Err er => Err er end.
Notation "x <-! m ; k" := (bind_res m (fun x => k))
  (at level 100, m at next level, k at level 200, right associativity) : go_scope.

Definition LoadRedisConfig (e : Env) : res RedisConfig :=
  enabled <-! required "REDIS_ENABLED" (GetEnvBool e "REDIS_ENABLED" false);
  db <-! required "REDIS_DB" (GetEnvInt e "REDIS_DB" 0);
  dialTimeout <-! required "REDIS_DIAL_TIMEOUT" (GetEnvDuration e "REDIS_DIAL_TIMEOUT" (5 * Second));
  readTimeout <-! required "REDIS_READ_TIMEOUT" (GetEnvDuration e "REDIS_READ_TIMEOUT" (3 * Second));
  writeTimeout <-! required "REDIS_WRITE_TIMEOUT" (GetEnvDuration e "REDIS_WRITE_TIMEOUT" (3 * Second));
  poolSize <-! required "REDIS_POOL_SIZE" (GetEnvInt e "REDIS_POOL_SIZE" 10);
  minIdleConns <-! required "REDIS_MIN_IDLE_CONNS" (GetEnvInt e "REDIS_MIN_IDLE_CONNS" 2);
  maxRetries <-! required "REDIS_MAX_RETRIES" (GetEnvInt e "REDIS_MAX_RETRIES" 3);
  Ok {| Enabled := enabled; Addr := GetEnvDefault e "REDIS_ADDR" ""; RedisPassword := GetEnvDefault e "REDIS_PASSWORD" "";
        DB := db; DialTimeout := dialTimeout; ReadTimeout := readTimeout; WriteTimeout := writeTimeout;
        PoolSize := poolSize; MinIdleConns := minIdleConns; MaxRetries := maxRetries |}.

(** *** Rate limit (config/ratelimit.go, the same in two services) *)
Record RateLimitConfig := {
  RL_Enabled : bool; Prefix : string; DefaultLimit : Z; DefaultBurst : Z; DefaultPeriod : Z; FailOpen : bool;
}.

Definition Validate (c : RateLimitConfig) : option err :=
  if negb (RL_Enabled c) then None
  else if String.eqb (Prefix c) "" then Some (ErrS "RATE_LIMIT_PREFIX is required when rate limit is enabled")
  else if (DefaultLimit c <=? 0)%Z then Some (ErrS "RATE_LIMIT_DEFAULT_LIMIT must be > 0")
  else if (DefaultBurst c <=? 0)%Z then Some (ErrS "RATE_LIMIT_DEFAULT_BURST must be > 0")
  else if (DefaultPeriod c <=? 0)%Z then Some (ErrS "RATE_LIMIT_DEFAULT_PERIOD must be > 0")
  else None.

Definition LoadRateLimitConfig (e : Env) : res RateLimitConfig :=
  enabled <-! required "RATE_LIMIT_ENABLED" (GetEnvBool e "RATE_LIMIT_ENABLED" false);
  defaultLimit <-! required "RATE_LIMIT_DEFAULT_LIMIT" (GetEnvInt e "RATE_LIMIT_DEFAULT_LIMIT" 300);
  defaultBurst <-! required "RATE_LIMIT_DEFAULT_BURST" (GetEnvInt e "RATE_LIMIT_DEFAULT_BURST" defaultLimit);
  defaultPeriod <-! required "RATE_LIMIT_DEFAULT_PERIOD" (GetEnvDuration e "RATE_LIMIT_DEFAULT_PERIOD" Minute);
  failOpen <-! required "RATE_LIMIT_FAIL_OPEN" (GetEnvBool e "RATE_LIMIT_FAIL_OPEN" true);
  let cfg := {| RL_Enabled := enabled; Prefix := TrimSpace (GetEnvDefault e "RATE_LIMIT_PREFIX" "portal:rl");
                DefaultLimit := defaultLimit; DefaultBurst := defaultBurst; DefaultPeriod := defaultPeriod;
                FailOpen := failOpen |} in
  match Validate cfg with Some er => Err er | None => Ok cfg end.

(** *** sms-notification/internal/config/config.go, which has helpers of its own *)
Record NotificationConfig := {
  N_Env : string; N_RedisEnabled : bool; N_RedisAddr : string; N_RedisPassword : string; N_RedisDB : Z;
  N_Stream : string; N_Group : string; N_Consumer : string; N_SMTP : SMTPConfig;
  N_LogLevel : string; N_LogFormat : string;
}.

(** A variable that is set to the empty string counts. *)
Definition notification_getEnv (e : Env) (key fallback : string) : string := default fallback (LookupEnv e key).

(** [fmt.Sscanf (s, "%d", &v)]: blanks are skipped and what follows the number
    is left unread. *)
Fixpoint leading_digits (s : string) : string :=
  match s with
  | String c s => if is_digit c then String c (leading_digits s) else ""
  | "" => ""
  end.
Fixpoint skip_blanks (s : string) : string :=
  match s with
  | String c s' => if bool_decide (byte_of c ∈ [32; 9; 13]%Z) then skip_blanks s' else s
  | "" => ""
  end.
Definition sscanf_d (s : string) : option Z :=
  let s := skip_blanks s in
  let '(neg, body) := match s with
    | String c s' => if (byte_of c =? 45)%Z then (true, s') else if (byte_of c =? 43)%Z then (false, s') else (false, s)
    | "" => (false, "")
    end in
  n ← digits (leading_digits body);
  let v := if neg then (- n)%Z else n in
  if (max_int64 <? v)%Z || (v <? min_int64)%Z then None else Some v.

Definition getEnvAsInt (e : Env) (name : string) (fallback : Z) : Z :=
  let valStr := notification_getEnv e name "" in
  if String.eqb valStr "" then fallback else default fallback (sscanf_d valStr).

Definition LoadConfig (e : Env) : NotificationConfig :=
  let get := notification_getEnv e in {|
  N_Env := get "ENV" "development";
  N_RedisEnabled := String.eqb (get "REDIS_ENABLED" "false") "true";
  N_RedisAddr := get "REDIS_ADDR" "localhost:6379";
  N_RedisPassword := get "REDIS_PASSWORD" "";
  N_RedisDB := getEnvAsInt e "REDIS_DB" 0;
  N_Stream := get "NOTIFICATION_STREAM" "notification_events";
  N_Group := get "NOTIFICATION_GROUP" "notification_workers";
  N_Consumer := get "CONSUMER_NAME" "notification_worker_1";
  N_SMTP := {| Host := get "SMTP_HOST" "localhost"; Port := get "SMTP_PORT" "1025";
    UseAuth := String.eqb (get "SMTP_USE_AUTH" "false") "true";
    UseTLS := String.eqb (get "SMTP_USE_TLS" "false") "true";
    SMTPUsername := get "SMTP_USERNAME" ""; SMTPPassword := get "SMTP_PASSWORD" "";
    From := get "SMTP_FROM" "noreply@sms.local"; FromName := get "SMTP_FROM_NAME" "SMS Notification" |};
  N_LogLevel := get "LOG_LEVEL" "info";
  N_LogFormat := get "LOG_FORMAT" "text" |}.

(** ** What is loaded *)

(** A variable that is present and that the parser refuses. *)
Definition malformed {A} (e : Env) (parse : string -> A * option err) (key : string) : bool :=
  negb (String.eqb (getEnv e key) "") &&
  match (parse (getEnv e key)).2 with Some _ => true | None => false end.

Definition parse_bool (s : string) : bool * option err :=
  match ParseBool s with Ok b => (b, None) | Err er => (false, Some er) end.

Lemma required_int e key d :
  match required key (GetEnvInt e key d) with
  | Ok v => malformed e Atoi key = false /\ GetEnvInt e key d = (v, None)
  | Err _ => malformed e Atoi key = true
  end.
Proof.
  unfold required, GetEnvInt, malformed. destruct (String.eqb (getEnv e key) ""); [done|].
  by destruct (Atoi (getEnv e key)) as [v [er|]].
Qed.

Lemma required_duration e key d :
  match required key (GetEnvDuration e key d) with
  | Ok v => malformed e ParseDuration key = false /\ GetEnvDuration e key d = (v, None)
  | Err _ => malformed e ParseDuration key = true
  end.
Proof.
  unfold required, GetEnvDuration, malformed. destruct (String.eqb (getEnv e key) ""); [done|].
  by destruct (ParseDuration (getEnv e key)) as [v [er|]].
Qed.

Lemma required_bool e key d :
  match required key (GetEnvBool e key d) with
  | Ok v => malformed e parse_bool key = false /\ GetEnvBool e key d = (v, None)
  | Err _ => malformed e parse_bool key = true
  end.
Proof.
  unfold required, GetEnvBool, malformed, parse_bool. destruct (String.eqb (getEnv e key) ""); [done|].
  by destruct (ParseBool (getEnv e key)).
Qed.

(** Step over the first variable that is read. *)
Ltac load_var m :=
  let Hv := fresh "Hv" in
  lazymatch m with
  | required ?k (GetEnvInt ?e ?k ?d) => pose proof (required_int e k d) as Hv; destruct m
  | required ?k (GetEnvDuration ?e ?k ?d) => pose proof (required_duration e k d) as Hv; destruct m
  | required ?k (GetEnvBool ?e ?k ?d) => pose proof (required_bool e k d) as Hv; destruct m
  end; cbn beta iota in Hv; cbn [bind_res].
Ltac load_step :=
  lazymatch goal with
  | |- is_ok (bind_res ?m _) = _ => load_var m
  | |- bind_res ?m _ = _ -> _ => load_var m
  end.

(** The variable that was refused is one of the malformed ones. *)
Ltac load_fails :=
  repeat match goal with
  | H : malformed _ _ _ = true |- _ => rewrite H; clear H
  | H : malformed _ _ _ = false /\ _ |- _ => clear H
  end; by rewrite ?orb_true_r.
Ltac load_succeeds :=
  repeat match goal with H : malformed _ _ _ = false /\ _ |- _ => rewrite (proj1 H); clear H end.

Definition redis_malformed (e : Env) : bool :=
  malformed e parse_bool "REDIS_ENABLED" || malformed e Atoi "REDIS_DB" ||
  malformed e ParseDuration "REDIS_DIAL_TIMEOUT" || malformed e ParseDuration "REDIS_READ_TIMEOUT" ||
  malformed e ParseDuration "REDIS_WRITE_TIMEOUT" || malformed e Atoi "REDIS_POOL_SIZE" ||
  malformed e Atoi "REDIS_MIN_IDLE_CONNS" || malformed e Atoi "REDIS_MAX_RETRIES".

(** The Redis settings load exactly when no variable that is set is
    malformed. *)
Theorem LoadRedisConfig_ok (e : Env) : is_ok (LoadRedisConfig e) = negb (redis_malformed e).
Proof.
  unfold LoadRedisConfig, redis_malformed.
  repeat (load_step; [|load_fails]). load_succeeds. done.
Qed.

Definition env_of (l : list (string * string)) (files : list (string * string)) : Env := {|
  LookupEnv := fun k => (list_to_map l : gmap string string) !! k;
  ReadFile := fun k => (list_to_map files : gmap string string) !! k |}.

(** A rate limit that loads is one that can be enforced: if it is enabled,
    its prefix is not empty and its limit, burst and period are positive. *)
Theorem LoadRateLimitConfig_valid (e : Env) (c : RateLimitConfig) :
  LoadRateLimitConfig e = Ok c -> RL_Enabled c = true ->
  Prefix c <> "" /\ (0 < DefaultLimit c)%Z /\ (0 < DefaultBurst c)%Z /\ (0 < DefaultPeriod c)%Z.
Proof.
  unfold LoadRateLimitConfig. repeat (load_step; [|done]).
  destruct (Validate _) eqn:Ev; [done|]. intros [= <-] Hen. revert Ev. unfold Validate.
  cbn [RL_Enabled Prefix DefaultLimit DefaultBurst DefaultPeriod] in *. rewrite Hen. cbn [negb].
  destruct (String.eqb_spec (TrimSpace (GetEnvDefault e "RATE_LIMIT_PREFIX" "portal:rl")) "") as [|Hp]; [done|].
  repeat (match goal with |- context [(?v <=? 0)%Z] => destruct (Z.leb_spec v 0) end; [done|]). done.
Qed.

Lemma LoadRateLimitConfig_valid_witness :
  exists c, LoadRateLimitConfig (env_of [("RATE_LIMIT_ENABLED", "true"); ("RATE_LIMIT_DEFAULT_LIMIT", "5")] []) = Ok c /\
    Prefix c <> "" /\ (0 < DefaultLimit c)%Z /\ (0 < DefaultBurst c)%Z /\ (0 < DefaultPeriod c)%Z.
Proof.
  eexists. split; [by vm_compute|].
  apply (LoadRateLimitConfig_valid (env_of [("RATE_LIMIT_ENABLED", "true"); ("RATE_LIMIT_DEFAULT_LIMIT", "5")] []));
    by vm_compute.
Defined.

(** A malformed number is taken for zero in sms-monitoring, not for its
    default, and an enormous one for the largest number. *)
Lemma bad_threshold_is_zero :
  FailureThreshold (monitoring_Load (env_of [("MONITORING_FAILURE_THRESHOLD", "three")] [])) = 0%Z /\
  WorkerTickInterval (monitoring_Load (env_of [("MONITORING_WORKER_TICK_INTERVAL", "60")] [])) = 0%Z /\
  WorkerConcurrency (monitoring_Load (env_of [("MONITORING_WORKER_CONCURRENCY", "99999999999999999999")] [])) = max_int64.
Proof. by vm_compute. Qed.

(** A secret that is mounted as a file comes before the variable. *)
Lemma getEnv_file e key path content :
  LookupEnv e (key +:+ "_FILE") = Some path -> path <> "" -> ReadFile e path = Some content ->
  getEnv e key = TrimSpace content.
Proof.
  intros Hk Hp Hf. unfold getEnv, Getenv. rewrite Hk. cbn [from_option id]. cbv zeta. unfold id.
  by rewrite (proj2 (String.eqb_neq _ _) Hp), Hf.
Qed.
