(* ===== verification/Logging.v ===== *)
(** The loggers of the services (infrastructure/logger/): the zap logger that
    [InitLogger] installs for the process, with its rotated file, and the slog
    logger that [New] makes.  zap and slog are classes with laws. *)
From S2P Require Import Prelude GoStd.
From S2P Require Config.
Import Config (LoggerConfig).

(** ** Where lines go *)

(** [&lumberjack.Logger{...}] *)
Record log_settings := {
  Filename : string; MaxSize : Z; MaxBackups : Z; MaxAge : Z; Compress : bool;
}.
Inductive sink := Stdout | Stderr | Rotating (s : log_settings).
Record entry := Entry { lvl : Z; text : string }.

(** ** logger.go *)
Class Zap := {
  Encoder : Type; Core : Type; Logger : Type;
  NewConsoleEncoder : Encoder;            (* zap.NewDevelopmentEncoderConfig() *)
  NewJSONEncoder : Encoder;               (* zap.NewProductionEncoderConfig(), times in ISO 8601 *)
  EncodeEntry : Encoder -> entry -> string;
  NewCore : Encoder -> sink -> Z -> Core;
  NewTee : list Core -> Core;
  New : Core -> Logger;                   (* zap.AddCaller() *)
  NewDevelopment : Logger;
  write : Logger -> entry -> list (sink * string);
}.

Class ZapLaws (zap : Zap) : Prop := {
  write_core : forall enc s l e,
    write (New (NewCore enc s l)) e = if (l <=? lvl e)%Z then [(s, EncodeEntry enc e)] else [];
  write_tee : forall cs e, write (New (NewTee cs)) e = concat (map (fun c => write (New c) e) cs);
}.

Definition DebugLevel : Z := -1.
Definition InfoLevel : Z := 0.
Definition ErrorLevel : Z := 2.

Definition InitLogger_settings (cfg : LoggerConfig) (appName : string) : log_settings := {|
  Filename := if String.eqb appName "" then "logs/app.log" else "logs/" +:+ appName +:+ ".log";
  MaxSize := if (Config.LogMaxSize cfg <=? 0)%Z then 10 else Config.LogMaxSize cfg;
  MaxBackups := if (Config.LogMaxBackups cfg <? 0)%Z then 3 else Config.LogMaxBackups cfg;
  MaxAge := if (Config.LogMaxAge cfg <=? 0)%Z then 28 else Config.LogMaxAge cfg;
  Compress := Config.LogCompress cfg |}.
Definition notification_InitLogger_settings (logFile : string) : log_settings :=
  {| Filename := logFile; MaxSize := 10; MaxBackups := 3; MaxAge := 28; Compress := true |}.

Section zap.
Context {zap : Zap}.

(** The variables of the process: [Log], [zap.L()] and what the standard logger
    writes to, which is the standard error at first. *)
Record loggers := Loggers { Log : Logger; zap_L : option Logger; std : option Logger }.

(** [init] *)
Definition init : loggers := Loggers NewDevelopment None None.

Definition core (w : sink) : Core :=
  NewTee [NewCore NewConsoleEncoder Stdout InfoLevel; NewCore NewJSONEncoder w InfoLevel].
Definition install (s : log_settings) : loggers :=
  let log := New (core (Rotating s)) in Loggers log (Some log) (Some log).

(** With what [os.MkdirAll] answers; [inl] is [log.Fatalf]. *)
Definition InitLogger_with (mkdir : res unit) (s : log_settings) : err + loggers :=
  match mkdir with
  | Err e => inl (ErrWrap "failed to create logs directory" e)
  | Ok _ => inr (install s)
  end.
Definition InitLogger_cfg (mkdir : res unit) (cfg : LoggerConfig) (appName : string) : err + loggers :=
  InitLogger_with mkdir (InitLogger_settings cfg appName).
Definition identity_InitLogger := InitLogger_cfg.
Definition management_InitLogger := InitLogger_cfg.
Definition monitoring_InitLogger := InitLogger_cfg.
Definition reporting_InitLogger := InitLogger_cfg.
Definition notification_InitLogger (mkdir : res unit) (logLevel logFormat logFile : string) : err + loggers :=
  InitLogger_with mkdir (notification_InitLogger_settings logFile).

(** [log.Printf] *)
Definition Printf (ls : loggers) (msg : string) : list (sink * string) :=
  match std ls with Some l => write l (Entry InfoLevel msg) | None => [(Stderr, msg)] end.

Context {laws : ZapLaws zap}.

Lemma write_installed s e :
  write (Log (install s)) e =
  if (InfoLevel <=? lvl e)%Z
  then [(Stdout, EncodeEntry NewConsoleEncoder e); (Rotating s, EncodeEntry NewJSONEncoder e)] else [].
Proof.
  unfold install, core. cbn. rewrite write_tee. cbn. rewrite !write_core, app_nil_r. by destruct (_ <=? _)%Z.
Qed.

(** All three ways to log write the same lines: once to the console and once to
    the file, or nowhere when they are for debugging. *)
Lemma loggers_agree mkdir cfg appName ls e msg :
  InitLogger_cfg mkdir cfg appName = inr ls ->
  zap_L ls = Some (Log ls) /\ Printf ls msg = write (Log ls) (Entry InfoLevel msg) /\
  map fst (write (Log ls) e) =
    if (InfoLevel <=? lvl e)%Z then [Stdout; Rotating (InitLogger_settings cfg appName)] else [].
Proof.
  unfold InitLogger_cfg, InitLogger_with. destruct mkdir; [|done]. intros [= <-].
  split; [done|]. split; [done|]. rewrite write_installed. by destruct (_ <=? _)%Z.
Qed.

(** Finding: LOG_LEVEL and LOG_FORMAT change nothing. *)
Lemma level_ignored mkdir cfg cfg' appName :
  Config.LogMaxSize cfg = Config.LogMaxSize cfg' -> Config.LogMaxBackups cfg = Config.LogMaxBackups cfg' ->
  Config.LogMaxAge cfg = Config.LogMaxAge cfg' -> Config.LogCompress cfg = Config.LogCompress cfg' ->
  InitLogger_cfg mkdir cfg appName = InitLogger_cfg mkdir cfg' appName.
Proof. intros E1 E2 E3 E4. unfold InitLogger_cfg, InitLogger_settings. by rewrite E1, E2, E3, E4. Qed.
End zap.

(** The limits of the file make sense whatever is configured. *)
Lemma InitLogger_sane cfg name :
  let s := InitLogger_settings cfg name in (0 < MaxSize s)%Z /\ (0 <= MaxBackups s)%Z /\ (0 < MaxAge s)%Z.
Proof.
  cbn. repeat match goal with |- context [(?a <=? ?b)%Z] => destruct (Z.leb_spec a b)
    | |- context [(?a <? ?b)%Z] => destruct (Z.ltb_spec a b) end; lia.
Qed.

(** ** slog.go *)
Class Slog := {
  Handler : Type;
  NewTextHandler : sink -> Z -> bool -> Handler;    (* level, AddSource *)
  NewJSONHandler : sink -> Z -> bool -> Handler;
  Handle : Handler -> entry -> list (sink * string);
}.
Class SlogLaws (slog : Slog) : Prop := {
  text_enabled : forall s l src e, map fst (Handle (NewTextHandler s l src) e) = if (l <=? lvl e)%Z then [s] else [];
  json_enabled : forall s l src e, map fst (Handle (NewJSONHandler s l src) e) = if (l <=? lvl e)%Z then [s] else [];
}.

Definition LevelDebug : Z := -4.
Definition LevelInfo : Z := 0.
Definition LevelWarn : Z := 4.
Definition LevelError : Z := 8.

Record SlogConfig := { Env : string; Level : string; Format : string }.

Definition slog_level (level : string) : Z :=
  let l := ToLower level in
  if String.eqb l "debug" then LevelDebug else if String.eqb l "info" then LevelInfo
  else if String.eqb l "warn" then LevelWarn else if String.eqb l "error" then LevelError else LevelInfo.

Definition isJSON (cfg : SlogConfig) : bool :=
  String.eqb (ToLower (Format cfg)) "json" || String.eqb (ToLower (Env cfg)) "production"
  || String.eqb (ToLower (Env cfg)) "staging".

Section slog.
Context {slog : Slog}.

Definition slog_New (cfg : SlogConfig) : Handler :=
  if negb (isJSON cfg) then NewTextHandler Stdout (slog_level (Level cfg)) true
  else NewJSONHandler Stdout (slog_level (Level cfg)) false.
Definition identity_slog_New := slog_New.
Definition monitoring_slog_New := slog_New.

Lemma slog_level_cases level : In (slog_level level) [LevelDebug; LevelInfo; LevelWarn; LevelError].
Proof. unfold slog_level. repeat destruct (String.eqb _ _); cbn; tauto. Qed.

(** One line on the console for what is at least as grave as configured; an
    error is always written. *)
Lemma slog_New_spec `{!SlogLaws slog} cfg e :
  map fst (Handle (slog_New cfg) e) = if (slog_level (Level cfg) <=? lvl e)%Z then [Stdout] else [].
Proof. unfold slog_New. destruct (isJSON cfg); [apply json_enabled|apply text_enabled]. Qed.

Lemma slog_errors `{!SlogLaws slog} cfg e : (LevelError <= lvl e)%Z -> map fst (Handle (slog_New cfg) e) = [Stdout].
Proof.
  intros He. rewrite slog_New_spec, (proj2 (Z.leb_le _ _)); [done|].
  destruct (slog_level_cases (Level cfg)) as [<-|[<-|[<-|[<-|[]]]]]; unfold LevelDebug, LevelInfo, LevelWarn, LevelError in *; lia.
Qed.
End slog.

(** ** Loggers that keep the laws *)
Definition lines (c : list (sink * Z * (entry -> string))) (e : entry) : list (sink * string) :=
  concat (map (fun '(s, l, f) => if (l <=? lvl e)%Z then [(s, f e)] else []) c).
#[export] Instance toy_zap : Zap := {
  Encoder := entry -> string; Core := list (sink * Z * (entry -> string)); Logger := list (sink * Z * (entry -> string));
  NewConsoleEncoder := text; NewJSONEncoder := fun e => "{" +:+ text e +:+ "}"; EncodeEntry := fun f => f;
  NewCore := fun f s l => [(s, l, f)]; NewTee := @concat _; New := fun c => c; NewDevelopment := [(Stderr, DebugLevel, text)];
  write := lines }.
#[export] Instance toy_zap_laws : ZapLaws toy_zap.
Proof.
  split; [intros; cbn; apply app_nil_r|]. intros cs e. induction cs as [|c cs IH]; [done|].
  cbn in *. unfold lines in *. by rewrite map_app, concat_app, IH.
Qed.

Lemma loggers_run :
  exists ls, InitLogger_cfg (Ok tt) {| Config.Level := "error"; Config.Format := "json"; Config.LogMaxSize := 0;
               Config.LogMaxBackups := 1; Config.LogMaxAge := 7; Config.LogCompress := true |} "identity" = inr ls /\
    Printf ls "started" =
      [(Stdout, "started");
       (Rotating {| Filename := "logs/identity.log"; MaxSize := 10; MaxBackups := 1; MaxAge := 7; Compress := true |},
        "{started}")].
Proof. eexists. split; reflexivity. Defined.
