(* ===== verification/Json.v ===== *)
(** Go's [encoding/json] on the documents the services exchange: the printer
    ([Marshal], with HTML escaping and UTF-8 sanitising), the parser
    ([Unmarshal] and [Decoder.Decode]) and the assignment of object members to
    struct fields (case-insensitive names, last member wins, [null] leaves the
    field alone). *)
From S2P Require Import Prelude GoStd.
From stdpp Require Import pretty.
From Stdlib Require Import Ascii.

(** ** Documents.  A number keeps its literal text. *)
Inductive json :=
  | JNull
  | JBool (b : bool)
  | JNum (lit : string)
  | JStr (s : string)
  | JArr (l : list json)
  | JObj (m : list (string * json)).

Fixpoint str_take (n : nat) (s : string) : string :=
  match n, s with
  | S n, String c s => String c (str_take n s)
  | _, _ => ""
  end.

(** ** UTF-8: the length of the well-formed sequence [s] starts with *)
Definition three_ok (b0 b1 : Z) : bool :=
  ((b0 =? 224)%Z && in_range 160 191 b1) || (in_range 225 236 b0 && in_range 128 191 b1)
  || ((b0 =? 237)%Z && in_range 128 159 b1) || (in_range 238 239 b0 && in_range 128 191 b1).
Definition four_ok (b0 b1 : Z) : bool :=
  ((b0 =? 240)%Z && in_range 144 191 b1) || (in_range 241 243 b0 && in_range 128 191 b1)
  || ((b0 =? 244)%Z && in_range 128 143 b1).

Definition rune_len (s : string) : option nat :=
  match s with
  | "" => None
  | String c0 s1 =>
    if (byte_of c0 <? 128)%Z then Some 1 else
    match s1 with
    | "" => None
    | String c1 s2 =>
      if in_range 194 223 (byte_of c0) && in_range 128 191 (byte_of c1) then Some 2 else
      match s2 with
      | "" => None
      | String c2 s3 =>
        if three_ok (byte_of c0) (byte_of c1) && in_range 128 191 (byte_of c2) then Some 3 else
        match s3 with
        | "" => None
        | String c3 _ =>
          if four_ok (byte_of c0) (byte_of c1) && in_range 128 191 (byte_of c2)
             && in_range 128 191 (byte_of c3) then Some 4 else None
        end
      end
    end
  end.

Definition replacement : string := bytes [239; 191; 189]%Z.

(** [utf8.ValidString] *)
Fixpoint valid_utf8_fuel (n : nat) (s : string) : bool :=
  match n, s with
  | _, "" => true
  | O, _ => false
  | S n, _ =>
    match rune_len s with
    | Some k => valid_utf8_fuel n (str_drop k s)
    | None => false
    end
  end.
Definition valid_utf8 (s : string) : bool := valid_utf8_fuel (String.length s) s.

(** ** Printing *)
Definition hex_digit (n : Z) : ascii := of_byte (if (n <? 10)%Z then 48 + n else 87 + n)%Z.
Definition u_escape (hi lo : Z) : string :=
  String "\" (String "u" (String (hex_digit (hi / 16)) (String (hex_digit (hi mod 16))
    (String (hex_digit (lo / 16)) (String (hex_digit (lo mod 16)) ""))))).

Definition dquote : ascii := "034".

Definition escape_ascii (c : ascii) : string :=
  let b := byte_of c in
  if (b =? 34)%Z || (b =? 92)%Z then String "\" (String c "")
  else if (b =? 8)%Z then "\b" else if (b =? 12)%Z then "\f"
  else if (b =? 10)%Z then "\n" else if (b =? 13)%Z then "\r" else if (b =? 9)%Z then "\t"
  else if (b <? 32)%Z || (b =? 38)%Z || (b =? 60)%Z || (b =? 62)%Z then u_escape 0 b
  else String c "".

(** U+2028 and U+2029 are escaped for JavaScript's sake. *)
Definition line_separator (s : string) : option string :=
  if String.eqb s (bytes [226; 128; 168]%Z) then Some "\u2028"
  else if String.eqb s (bytes [226; 128; 169]%Z) then Some "\u2029" else None.

Fixpoint quote_body (n : nat) (s : string) : string :=
  match n, s with
  | S n, String c s' =>
    if (byte_of c <? 128)%Z then escape_ascii c +:+ quote_body n s'
    else match rune_len s with
         | Some k => match line_separator (str_take k s) with Some x => x | None => str_take k s end
                   +:+ quote_body n (str_drop k s)
         | None => "\ufffd" +:+ quote_body n s'
         end
  | _, _ => ""
  end.

Definition quote (s : string) : string :=
  String dquote (quote_body (String.length s) s +:+ String dquote "").

Fixpoint join (sep : string) (l : list string) : string :=
  match l with
  | [] => ""
  | [x] => x
  | x :: l => x +:+ sep +:+ join sep l
  end.

Fixpoint Marshal (j : json) : string :=
  match j with
  | JNull => "null"
  | JBool true => "true"
  | JBool false => "false"
  | JNum lit => lit
  | JStr s => quote s
  | JArr l => "[" +:+ join "," (map Marshal l) +:+ "]"
  | JObj m => "{" +:+ join "," (map (fun kv => quote kv.1 +:+ ":" +:+ Marshal kv.2) m) +:+ "}"
  end.

(** ** Parsing *)
Definition is_ws (c : ascii) : bool := bool_decide (byte_of c ∈ [32; 9; 10; 13]%Z).
Fixpoint skip_ws (s : string) : string :=
  match s with
  | String c s' => if is_ws c then skip_ws s' else s
  | "" => ""
  end.

Definition hex_value (c : ascii) : option Z :=
  let b := byte_of c in
  if in_range 48 57 b then Some (b - 48)%Z
  else if in_range 97 102 b then Some (b - 87)%Z
  else if in_range 65 70 b then Some (b - 55)%Z else None.

(** Four hexadecimal digits. *)
Definition getu4 (s : string) : option (Z * string) :=
  match s with
  | String a (String b (String c (String d s'))) =>
    x ← hex_value a; y ← hex_value b; z ← hex_value c; t ← hex_value d;
    Some ((((x * 16 + y) * 16 + z) * 16 + t)%Z, s')
  | _ => None
  end.

Definition encode_rune (r : Z) : string :=
  (if r <? 128 then bytes [r]
   else if r <? 2048 then bytes [192 + r / 64; 128 + r mod 64]
   else if in_range 55296 57343 r then replacement
   else if r <? 65536 then bytes [224 + r / 4096; 128 + r / 64 mod 64; 128 + r mod 64]
   else bytes [240 + r / 262144; 128 + r / 4096 mod 64; 128 + r / 64 mod 64; 128 + r mod 64])%Z.

(** After a backslash: the text it stands for, and what follows. *)
Definition unescape (s : string) : option (string * string) :=
  match s with
  | String c s' =>
    match byte_of c with
    | 34 | 92 | 47 => Some (String c "", s')
    | 98 => Some (bytes [8], s')
    | 102 => Some (bytes [12], s')
    | 110 => Some (bytes [10], s')
    | 114 => Some (bytes [13], s')
    | 116 => Some (bytes [9], s')
    | 117 =>
      '(r, s1) ← getu4 s';
      if in_range 55296 56319 r then                (* a high surrogate *)
        match s1 with
        | String "\" (String "u" s2) =>
          match getu4 s2 with
          | Some (r2, s3) =>
            if in_range 56320 57343 r2
            then Some (encode_rune (65536 + (r - 55296) * 1024 + (r2 - 56320)), s3)
            else Some (replacement, s1)
          | None => Some (replacement, s1)
          end
        | _ => Some (replacement, s1)
        end
      else Some (encode_rune r, s1)
    | _ => None
    end%Z
  | "" => None
  end.

(** The rest of a string literal, after its opening quote. *)
Fixpoint unquote_body (n : nat) (s : string) : option (string * string) :=
  match n, s with
  | S n, String c s' =>
    if Ascii.eqb c dquote then Some ("", s')
    else if Ascii.eqb c "\" then
      '(x, s1) ← unescape s';
      '(y, s2) ← unquote_body n s1;
      Some (x +:+ y, s2)
    else if (byte_of c <? 32)%Z then None
    else match (if (byte_of c <? 128)%Z then Some 1 else rune_len s) with
         | Some k =>
           '(y, s2) ← unquote_body n (str_drop k s);
           Some (str_take k s +:+ y, s2)
         | None =>
           '(y, s2) ← unquote_body n s';
           Some (replacement +:+ y, s2)
         end
  | _, _ => None
  end.

Definition unquote (s : string) : option (string * string) :=
  match s with
  | String c s' => if Ascii.eqb c dquote then unquote_body (String.length s') s' else None
  | "" => None
  end.

(** Numbers: [-] int [frac] [exp]. *)
Definition is_digit (c : ascii) : bool := in_range 48 57 (byte_of c).
Fixpoint span_digits (s : string) : string * string :=
  match s with
  | String c s' => if is_digit c then let '(d, r) := span_digits s' in (String c d, r) else ("", s)
  | "" => ("", "")
  end.

Definition scan_int (s : string) : option (string * string) :=
  match span_digits s with
  | ("", _) => None
  | (String "0" (String _ _), _) => None
  | (d, r) => Some (d, r)
  end.
Definition scan_frac (s : string) : option (string * string) :=
  match s with
  | String "." s' =>
    match span_digits s' with ("", _) => None | (d, r) => Some (String "." d, r) end
  | _ => Some ("", s)
  end.
Definition scan_exp (s : string) : option (string * string) :=
  match s with
  | String e s' =>
    if bool_decide (e ∈ ["e"; "E"]%char) then
      let '(sg, s1) := match s' with
        | String "+" t => ("+", t) | String "-" t => ("-", t) | _ => ("", s') end in
      match span_digits s1 with ("", _) => None | (d, r) => Some (String e (sg +:+ d), r) end
    else Some ("", s)
  | "" => Some ("", "")
  end.
Definition scan_number (s : string) : option (string * string) :=
  let '(sg, s0) := match s with String "-" t => ("-", t) | _ => ("", s) end in
  '(i, s1) ← scan_int s0; '(f, s2) ← scan_frac s1; '(e, s3) ← scan_exp s2;
  Some (sg +:+ i +:+ f +:+ e, s3).

Fixpoint parse_value (n : nat) (s : string) {struct n} : option (json * string) :=
  match n with
  | O => None
  | S n =>
    let s := skip_ws s in
    match s with
    | "" => None
    | String c s' =>
      if Ascii.eqb c dquote then '(x, r) ← unquote s; Some (JStr x, r)
      else if Ascii.eqb c "{" then
        match skip_ws s' with
        | String "}" r => Some (JObj [], r)
        | _ => '(m, r) ← parse_members n s'; Some (JObj m, r)
        end
      else if Ascii.eqb c "[" then
        match skip_ws s' with
        | String "]" r => Some (JArr [], r)
        | _ => '(l, r) ← parse_elems n s'; Some (JArr l, r)
        end
      else if HasPrefix s "true" then Some (JBool true, str_drop 4 s)
      else if HasPrefix s "false" then Some (JBool false, str_drop 5 s)
      else if HasPrefix s "null" then Some (JNull, str_drop 4 s)
      else '(lit, r) ← scan_number s; Some (JNum lit, r)
    end
  end
with parse_elems (n : nat) (s : string) {struct n} : option (list json * string) :=
  match n with
  | O => None
  | S n =>
    '(j, r) ← parse_value n s;
    match skip_ws r with
    | String "]" r => Some ([j], r)
    | String "," r => '(l, r) ← parse_elems n r; Some (j :: l, r)
    | _ => None
    end
  end
with parse_members (n : nat) (s : string) {struct n} : option (list (string * json) * string) :=
  match n with
  | O => None
  | S n =>
    '(k, r) ← unquote (skip_ws s);
    match skip_ws r with
    | String ":" r =>
      '(j, r) ← parse_value n r;
      match skip_ws r with
      | String "}" r => Some ([(k, j)], r)
      | String "," r => '(m, r) ← parse_members n r; Some ((k, j) :: m, r)
      | _ => None
      end
    | _ => None
    end
  end.

(** Every call consumes a byte or goes one construct deeper: twice the length
    of the text is enough fuel. *)
Definition parse_fuel (s : string) : nat := S (S (2 * String.length s)).

(** The whole text is one document. *)
Definition parse (s : string) : option json :=
  '(j, r) ← parse_value (parse_fuel s) s;
  match skip_ws r with "" => Some j | _ => None end.

(** [Decoder.Decode]: the first document of a stream. *)
Definition decode_first (s : string) : option json :=
  '(j, _) ← parse_value (parse_fuel s) s; Some j.

(** ** Struct fields *)
Definition ErrJson : err := ErrS "json error".

(** Names match without regard to case, [foldName]; the two letters outside
    ASCII that fold to ASCII letters are U+017F (s) and U+212A (k). *)
Fixpoint fold_name (s : string) : string :=
  match s with
  | "" => ""
  | String c s1 =>
    match s1 with
    | String c1 s2 =>
      if (byte_of c =? 197)%Z && (byte_of c1 =? 191)%Z then String "S" (fold_name s2)
      else match s2 with
           | String c2 s3 =>
             if (byte_of c =? 226)%Z && (byte_of c1 =? 132)%Z && (byte_of c2 =? 170)%Z
             then String "K" (fold_name s3)
             else String (upper_byte c) (fold_name s1)
           | _ => String (upper_byte c) (fold_name s1)
           end
    | _ => String (upper_byte c) (fold_name s1)
    end
  end.

Definition as_string (j : json) : option string := match j with JStr s => Some s | _ => None end.
Definition as_int (j : json) : option Z :=
  match j with
  | JNum lit => match Atoi lit with (n, None) => Some n | _ => None end
  | _ => None
  end.

(** Assign the members in order: [None] is a type error. *)
Fixpoint assign {A} (dec : json -> option A) (name : string) (acc : A) (m : list (string * json))
    : option A :=
  match m with
  | [] => Some acc
  | (k, j) :: m =>
    if String.eqb (fold_name k) (fold_name name)
    then match j with
         | JNull => assign dec name acc m
         | _ => a ← dec j; assign dec name a m
         end
    else assign dec name acc m
  end.

(** The members a struct is filled from; [null] fills nothing. *)
Definition members (j : json) : option (list (string * json)) :=
  match j with JObj m => Some m | JNull => Some [] | _ => None end.

Definition string_field (name : string) (m : list (string * json)) : option string :=
  assign as_string name "" m.
Definition int_field (name : string) (m : list (string * json)) : option Z :=
  assign as_int name 0%Z m.

(** ** Strings read back

    The quoted form of a well-formed UTF-8 string reads back as that string. *)
Lemma rune_len_split s k :
  rune_len s = Some k ->
  exists p r, s = p +:+ r /\ str_take k s = p /\ str_drop k s = r /\ String.length p = k /\ 0 < k /\
    forall t, rune_len (p +:+ t) = Some k /\ str_take k (p +:+ t) = p /\ str_drop k (p +:+ t) = t.
Proof.
  destruct s as [|c0 s1]; [done|]. cbn.
  destruct (byte_of c0 <? 128)%Z eqn:E0.
  { intros [= <-]. exists (String c0 ""), s1. split_and!; [done|done|done|done|cbn; lia|].
    intros t. autorewrite with str. cbn. by rewrite E0. }
  destruct s1 as [|c1 s2]; [done|].
  destruct (in_range 194 223 (byte_of c0) && in_range 128 191 (byte_of c1)) eqn:E1.
  { intros [= <-]. exists (String c0 (String c1 "")), s2. split_and!; [done|done|done|done|cbn; lia|].
    intros t. autorewrite with str. cbn. by rewrite E0, E1. }
  destruct s2 as [|c2 s3]; [done|].
  destruct (three_ok (byte_of c0) (byte_of c1) && in_range 128 191 (byte_of c2)) eqn:E2.
  { intros [= <-]. exists (String c0 (String c1 (String c2 ""))), s3. split_and!; [done|done|done|done|cbn; lia|].
    intros t. autorewrite with str. cbn. by rewrite E0, E1, E2. }
  destruct s3 as [|c3 s4]; [done|].
  destruct (four_ok _ _ && _ && _) eqn:E3; [|done].
  intros [= <-]. exists (String c0 (String c1 (String c2 (String c3 "")))), s4. split_and!; [done|done|done|done|cbn; lia|].
    intros t. autorewrite with str. cbn. by rewrite E0, E1, E2, E3.
Qed.

Lemma unquote_body_ascii c m t :
  (byte_of c < 128)%Z ->
  unquote_body (S m) (escape_ascii c +:+ t) = '(y, r) ← unquote_body m t; Some (String c y, r).
Proof.
  intros Hc.
  destruct c as [[] [] [] [] [] [] [] []]; try (cbv in Hc; done);
    reflexivity.
Qed.

Lemma unquote_body_rune p m t :
  (exists c q, p = String c q /\ (128 <= byte_of c)%Z) ->
  (forall t, rune_len (p +:+ t) = Some (String.length p) /\
     str_take (String.length p) (p +:+ t) = p /\ str_drop (String.length p) (p +:+ t) = t) ->
  unquote_body (S m) (p +:+ t) = '(y, r) ← unquote_body m t; Some (p +:+ y, r).
Proof.
  intros (c & q & -> & Hc) Hp. destruct (Hp t) as (H1 & H2 & H3).
  rewrite str_app_cons in *. set (k := String.length (String c q)) in *.
  assert (Ascii.eqb c dquote = false /\ Ascii.eqb c "\" = false) as [Hd Hb].
  { split; apply Ascii.eqb_neq; intros ->; cbv in Hc; done. }
  cbn -[rune_len str_drop str_take]. rewrite Hd, Hb.
  destruct (Z.ltb_spec (byte_of c) 32); [lia|]. destruct (Z.ltb_spec (byte_of c) 128); [lia|].
  rewrite H1, H2, H3. done.
Qed.

Lemma line_separator_unquote p x m t :
  line_separator p = Some x ->
  unquote_body (S m) (x +:+ t) = '(y, r) ← unquote_body m t; Some (p +:+ y, r).
Proof.
  unfold line_separator. destruct (String.eqb_spec p (bytes [226; 128; 168]%Z)) as [->|];
    [|destruct (String.eqb_spec p (bytes [226; 128; 169]%Z)) as [->|]; [|done]];
    intros [= <-]; reflexivity.
Qed.

Lemma rune_len_high c s k :
  (128 <= byte_of c)%Z -> rune_len (String c s) = Some k -> 1 < k.
Proof.
  intros Hc. cbn. destruct (Z.ltb_spec (byte_of c) 128); [lia|].
  repeat (case_match; try done); intros; simplify_eq; lia.
Qed.

Lemma escape_ascii_nonempty c : 0 < String.length (escape_ascii c).
Proof. unfold escape_ascii, u_escape. repeat case_match; cbn; lia. Qed.

Lemma unquote_body_quote_body n m s t :
  valid_utf8_fuel n s = true -> String.length (quote_body n s) < m ->
  unquote_body m (quote_body n s +:+ String dquote t) = Some (s, t).
Proof.
  revert m s. induction n as [|n IH]; intros m s Hs Hm.
  { destruct s; [|done]. destruct m; [lia|]. done. }
  destruct s as [|c s']; [by destruct m; [lia|]|].
  cbn [quote_body valid_utf8_fuel] in *.
  destruct (rune_len (String c s')) as [k|] eqn:Hk; [|done].
  destruct m as [|m]; [lia|].
  destruct (Z.ltb_spec (byte_of c) 128) as [Hc|Hc].
  - assert (k = 1) as ->.
    { revert Hk. cbn. destruct (Z.ltb_spec (byte_of c) 128); [|lia]. by intros [= <-]. }
    rewrite str_length_app in Hm. pose proof (escape_ascii_nonempty c).
    rewrite str_app_assoc, unquote_body_ascii by done. cbn in Hs. by rewrite IH by (done || lia).
  - destruct (rune_len_split _ _ Hk) as (p & r & Hsplit & Hp & Hr & Hlen & Hpos & Happ).
    rewrite str_length_app in Hm. rewrite Hp, Hr in *. rewrite str_app_assoc, Hsplit.
    destruct (line_separator p) as [x|] eqn:Hx.
    + assert (0 < String.length x).
      { revert Hx. unfold line_separator. repeat case_match; intros; simplify_eq; cbn; lia. }
      rewrite (line_separator_unquote p) by done. by rewrite IH by (done || lia).
    + rewrite unquote_body_rune.
      * by rewrite IH by (done || lia).
      * destruct p as [|c' p']; [cbn in Hlen; lia|]. rewrite str_app_cons in Hsplit. simplify_eq. eauto.
      * by rewrite Hlen.
Qed.

Lemma unquote_quote s t : valid_utf8 s = true -> unquote (quote s +:+ t) = Some (s, t).
Proof.
  intros Hs. unfold quote. rewrite str_app_cons. cbn. rewrite str_app_assoc, str_app_cons, str_app_nil_l.
  rewrite unquote_body_quote_body; [done|done|].
  rewrite str_length_app. cbn. lia.
Qed.

(** ** Flat documents read back

    What the services send are objects whose members are strings, integers and
    booleans. *)
Definition JInt (z : Z) : json := JNum (Itoa z).

Inductive scalar : json -> Prop :=
  | scalar_null : scalar JNull
  | scalar_bool b : scalar (JBool b)
  | scalar_int z : scalar (JInt z)
  | scalar_str s : valid_utf8 s = true -> scalar (JStr s).

Definition flat (m : list (string * json)) : Prop :=
  Forall (fun kv => valid_utf8 kv.1 = true /\ scalar kv.2) m.

(** What may follow a member's value. *)
Definition delimiter (t : string) : Prop :=
  exists c t', t = String c t' /\ (c = ","%char \/ c = "}"%char).

Lemma span_digits_delimiter t : delimiter t -> span_digits t = ("", t).
Proof. by intros (c & t' & -> & [-> | ->]). Qed.

Lemma is_digit_char (x : N) : (x < 10)%N -> is_digit (pretty_N_char x) = true.
Proof. intros Hx. pose proof (digit_of_char x Hx) as H. unfold digit_of in H. by case_match. Qed.

Lemma span_digits_go x s t :
  span_digits (s +:+ t) = (s, t) -> span_digits (pretty_N_go x s +:+ t) = (pretty_N_go x s, t).
Proof.
  revert s. induction (N.lt_wf_0 x) as [x _ IH]. intros s Hs.
  destruct (decide (0 < x)%N) as [Hx|Hx].
  - rewrite pretty_N_go_step by done. apply IH; [by apply N.div_lt|].
    rewrite str_app_cons. cbn. by rewrite is_digit_char, Hs by (by apply N.mod_lt).
  - assert (x = 0%N) as -> by lia. by rewrite pretty_N_go_0.
Qed.

Lemma span_digits_pretty (x : N) t : delimiter t -> span_digits (pretty x +:+ t) = (pretty x, t).
Proof.
  intros Ht. unfold pretty, pretty_N. case_decide.
  - rewrite str_app_cons, str_app_nil_l. cbn. by rewrite span_digits_delimiter.
  - apply span_digits_go. rewrite str_app_nil_l. by apply span_digits_delimiter.
Qed.

Lemma pretty_go_head x s : (0 < x)%N -> exists c s', pretty_N_go x s = String c s' /\ c <> "0"%char.
Proof.
  revert s. induction (N.lt_wf_0 x) as [x _ IH]. intros s Hx.
  rewrite pretty_N_go_step by done.
  destruct (decide (x < 10)%N).
  - rewrite N.div_small, pretty_N_go_0, N.mod_small by done. eexists _, _. split; [done|].
    pose proof (digit_of_char x) as Hd. intros Hc. rewrite Hc in Hd. specialize (Hd ltac:(done)).
    cbv in Hd. destruct x; done.
  - apply IH; [by apply N.div_lt|]. apply N.div_str_pos. lia.
Qed.

Lemma scan_int_pretty (x : N) t : delimiter t -> scan_int (pretty x +:+ t) = Some (pretty x, t).
Proof.
  intros Ht. unfold scan_int. rewrite span_digits_pretty by done.
  unfold pretty, pretty_N. case_decide; [done|].
  destruct (pretty_go_head x "") as (c & s' & -> & Hc); [lia|].
  by destruct c as [[] [] [] [] [] [] [] []].
Qed.

Lemma scan_number_Itoa z t : delimiter t -> scan_number (Itoa z +:+ t) = Some (Itoa z, t).
Proof.
  intros Ht.
  assert (forall x : N, ('(i, s1) ← scan_int (pretty x +:+ t); '(f, s2) ← scan_frac s1;
    '(e, s3) ← scan_exp s2; Some (i +:+ f +:+ e, s3)) = Some (pretty x, t)) as Hx.
  { intros x. rewrite scan_int_pretty by done. cbn.
    assert (scan_frac t = Some ("", t) /\ scan_exp t = Some ("", t)) as [-> Hexp].
    { by destruct Ht as (c & t' & -> & [-> | ->]). }
    cbn. rewrite Hexp. cbn. by rewrite str_app_nil_r. }
  unfold scan_number, Itoa. destruct z as [|p|p].
  - apply (Hx 0%N).
  - change (pretty (Z.pos p)) with (pretty (N.pos p)). specialize (Hx (N.pos p)).
    assert ((match pretty (N.pos p) +:+ t with String "-" u => ("-", u) | _ => ("", pretty (N.pos p) +:+ t) end)
      = ("", pretty (N.pos p) +:+ t)) as ->.
    { destruct (pretty (N.pos p)) as [|c s] eqn:E; [by apply pretty_N_nonempty in E|].
      destruct (pretty_N_digit _ _ _ E) as [d Hd]. rewrite str_app_cons.
      by destruct c as [[] [] [] [] [] [] [] []]. }
    rewrite <- Hx. cbn. repeat case_match; simplify_eq; try done.
  - change (pretty (Z.neg p)) with (String "-" (pretty (N.pos p))). specialize (Hx (N.pos p)).
    rewrite str_app_cons. revert Hx.
    destruct (scan_int _) as [[i s1]|]; [|done]. cbn. destruct (scan_frac s1) as [[f s2]|]; [|done].
    cbn. destruct (scan_exp s2) as [[e s3]|]; [|done]. cbn. intros [= <- <-]. done.
Qed.

Lemma skip_ws_delimiter t : delimiter t -> skip_ws t = t.
Proof. by intros (c & t' & -> & [-> | ->]). Qed.

Lemma Itoa_head z : exists c s, Itoa z = String c s /\ (c = "-"%char \/ is_Some (digit_of c)).
Proof.
  unfold Itoa. destruct z as [|p|p].
  - exists "0"%char, "". split; [done|]. right. by eexists.
  - change (pretty (Z.pos p)) with (pretty (N.pos p)).
    destruct (pretty (N.pos p)) as [|c s] eqn:E; [by apply pretty_N_nonempty in E|].
    exists c, s. split; [done|]. right. by eapply pretty_N_digit.
  - exists "-"%char, (pretty (N.pos p)). split; [done|]. by left.
Qed.

Lemma parse_value_quote n s t :
  valid_utf8 s = true -> parse_value (S n) (quote s +:+ t) = Some (JStr s, t).
Proof.
  intros Hs. cbn [parse_value].
  assert (skip_ws (quote s +:+ t) = quote s +:+ t) as -> by done.
  pose proof (unquote_quote s t Hs) as Hq.
  unfold quote in *. rewrite str_app_cons in *. cbn [Ascii.eqb]. rewrite Hq. done.
Qed.

Lemma parse_value_number n c s t lit :
  c = "-"%char \/ is_Some (digit_of c) ->
  scan_number (String c s) = Some (lit, t) -> parse_value (S n) (String c s) = Some (JNum lit, t).
Proof.
  intros Hc Hs. cbn [parse_value].
  assert (skip_ws (String c s) = String c s /\ Ascii.eqb c dquote = false /\ Ascii.eqb c "{" = false
    /\ Ascii.eqb c "[" = false /\ HasPrefix (String c s) "true" = false
    /\ HasPrefix (String c s) "false" = false /\ HasPrefix (String c s) "null" = false)
    as (-> & -> & -> & -> & -> & -> & ->).
  { destruct Hc as [->|[d Hd]]; [done|]. by destruct c as [[] [] [] [] [] [] [] []]. }
  by rewrite Hs.
Qed.

Lemma parse_value_scalar n j t :
  scalar j -> delimiter t -> parse_value (S n) (Marshal j +:+ t) = Some (j, t).
Proof.
  intros Hj Ht. destruct Hj as [|[]|z|s Hs].
  - by destruct Ht as (c & t' & -> & _).
  - by destruct Ht as (c & t' & -> & _).
  - by destruct Ht as (c & t' & -> & _).
  - pose proof (scan_number_Itoa z t Ht) as Hz. cbn [Marshal JInt].
    destruct (Itoa_head z) as (c & s & E & Hc). unfold JInt. rewrite E, str_app_cons in *.
    by apply parse_value_number.
  - by apply parse_value_quote.
Qed.

Definition member_text (kv : string * json) : string := quote kv.1 +:+ ":" +:+ Marshal kv.2.

Lemma parse_members_flat m n t :
  m <> [] -> flat m -> length m < n ->
  parse_members n (join "," (map member_text m) +:+ String "}" t) = Some (m, t).
Proof.
  revert n. induction m as [|[k j] m IH]; intros n Hne Hm Hn; [done|].
  destruct n as [|[|n]]; [cbn in Hn; lia..|].
  apply Forall_cons in Hm as [[Hk Hj] Hm]. cbn in Hk, Hj.
  assert (forall u, delimiter u ->
    parse_members (S (S n)) (member_text (k, j) +:+ u) =
    match u with
    | String "}" r => Some ([(k, j)], r)
    | String "," r => '(m, r) ← parse_members (S n) r; Some ((k, j) :: m, r)
    | _ => None
    end) as Hstep.
  { intros u Hu. cbn [parse_members]. unfold member_text. cbn [fst snd].
    rewrite str_app_assoc. assert (forall v, skip_ws (quote k +:+ v) = quote k +:+ v) as -> by done.
    rewrite unquote_quote by done. cbn [mbind option_bind].
    rewrite str_app_assoc, str_app_cons, str_app_nil_l. cbn [skip_ws].
    change (is_ws ":") with false. cbn match.
    rewrite parse_value_scalar by done. cbn [mbind option_bind].
    by rewrite skip_ws_delimiter. }
  destruct m as [|kv m].
  - cbn [map join]. rewrite Hstep; [done|]. exists "}"%char, t. auto.
  - cbn [map join]. rewrite !str_app_assoc, str_app_cons, str_app_nil_l.
    rewrite Hstep; [|eexists _, _; eauto]. cbn match.
    specialize (IH (S n)). cbn [map join] in IH. rewrite IH; [done|done|done|cbn in *; lia].
Qed.

Lemma join_length (l : list string) : length l <= S (String.length (join "," l)).
Proof.
  induction l as [|x [|y l] IH]; cbn in *; [lia|lia|].
  rewrite !str_length_app. cbn. lia.
Qed.

(** A flat document reads back as itself. *)
Lemma parse_Marshal_flat m : flat m -> parse (Marshal (JObj m)) = Some (JObj m).
Proof.
  intros Hm. destruct m as [|kv m]; [done|].
  set (l := kv :: m) in *.
  assert (Marshal (JObj l) = String "{" (join "," (map member_text l) +:+ String "}" "")) as Htext.
  { cbn [Marshal]. by rewrite str_app_cons, str_app_nil_l. }
  unfold parse. rewrite Htext.
  assert (exists n, parse_fuel (String "{" (join "," (map member_text l) +:+ String "}" "")) = S n
    /\ length l < n) as (n & -> & Hn).
  { unfold parse_fuel. eexists. split; [done|]. cbn. rewrite str_length_app.
    pose proof (join_length (map member_text l)). rewrite length_map in *. cbn in *. lia. }
  pose proof (parse_members_flat l n "" ltac:(done) Hm Hn) as Hp.
  cbn [parse_value skip_ws]. change (is_ws "{") with false. cbn match.
  change (Ascii.eqb "{" dquote) with false. change (Ascii.eqb "{" "{") with true. cbn match.
  assert (exists s, join "," (map member_text l) +:+ String "}" "" = String dquote s) as [s Es].
  { subst l. cbn [map join]. destruct (map member_text m).
    - unfold member_text, quote. rewrite !str_app_cons. eauto.
    - unfold member_text, quote. rewrite !str_app_assoc, !str_app_cons. eauto. }
  rewrite Es in *. change (skip_ws (String dquote s)) with (String dquote s).
  cbn match. rewrite Hp. done.
Qed.

(** ** Struct fields read back *)

(** Member names that no two fields share, up to case. *)
Definition distinct_names (m : list (string * json)) : Prop := NoDup (map (fun kv => fold_name kv.1) m).

Lemma assign_absent {A} (dec : json -> option A) name acc m :
  (forall kv, kv ∈ m -> fold_name kv.1 <> fold_name name) -> assign dec name acc m = Some acc.
Proof.
  induction m as [|[k j] m IH]; intros H; [done|]. cbn.
  rewrite (proj2 (String.eqb_neq _ _)) by (apply (H (k, j)); by left).
  apply IH. intros kv Hkv. apply H. by right.
Qed.

(** A field takes the value of the member of its name, wherever it stands. *)
Lemma assign_present {A} (dec : json -> option A) name acc m k j :
  distinct_names m -> (k, j) ∈ m -> fold_name k = fold_name name -> j <> JNull ->
  assign dec name acc m = dec j.
Proof.
  induction m as [|[k' j'] m IH]; intros Hd Hin Hk Hj; [by apply elem_of_nil in Hin|].
  inversion Hd as [|x l Hnot Hd' E]; subst. cbn. apply elem_of_cons in Hin as [[= <- <-]|Hin].
  - rewrite (proj2 (String.eqb_eq _ _)) by done.
    assert (forall acc, assign dec name acc m = Some acc) as Hrest.
    { intros acc'. apply assign_absent. intros kv Hkv E. apply Hnot. cbn [fst]. rewrite Hk, <- E.
      apply list_elem_of_fmap. by exists kv. }
    destruct j; [done| | | | |]; destruct (dec _); cbn; try done; apply Hrest.
  - rewrite (proj2 (String.eqb_neq _ _)); [by apply IH|]. intros E. apply Hnot. cbn [fst].
    rewrite E, <- Hk. apply list_elem_of_fmap. by exists (k, j).
Qed.

Lemma distinct_names_perm m m' : m ≡ₚ m' -> distinct_names m -> distinct_names m'.
Proof. unfold distinct_names. intros H. by rewrite H. Qed.

(** ** Text that needs no escape *)
Definition plain_byte (c : ascii) : bool :=
  in_range 32 126 (byte_of c) && negb (bool_decide (byte_of c ∈ [34; 38; 60; 62; 92]%Z)).
Fixpoint plain_text (s : string) : bool :=
  match s with "" => true | String c s => plain_byte c && plain_text s end.

Lemma plain_byte_spec c : plain_byte c = true -> (byte_of c < 128)%Z /\ escape_ascii c = String c "".
Proof.
  unfold plain_byte, in_range, escape_ascii. rewrite !andb_true_iff, !Z.leb_le, negb_true_iff, bool_decide_eq_false.
  rewrite !elem_of_cons, elem_of_nil. intros [[H1 H2] H3]. split; [lia|].
  rewrite !(proj2 (Z.eqb_neq _ _)) by lia. cbn [orb]. by rewrite (proj2 (Z.ltb_ge _ _)) by lia.
Qed.

Lemma quote_body_plain s : plain_text s = true -> quote_body (String.length s) s = s.
Proof.
  induction s as [|c s IH]; [done|]. cbn [plain_text String.length quote_body].
  rewrite andb_true_iff. intros [[Hlt He]%plain_byte_spec Hs]. rewrite (proj2 (Z.ltb_lt _ _) Hlt), He, IH by done. done.
Qed.

Lemma quote_plain s : plain_text s = true -> quote s = String dquote (s +:+ String dquote "").
Proof. intros Hs. unfold quote. by rewrite quote_body_plain. Qed.

Lemma plain_valid s : plain_text s = true -> valid_utf8 s = true.
Proof.
  unfold valid_utf8. induction s as [|c s IH]; [done|]. cbn [plain_text].
  rewrite andb_true_iff. intros [[Hlt _]%plain_byte_spec Hs]. cbn [String.length valid_utf8_fuel].
  unfold rune_len. rewrite (proj2 (Z.ltb_lt _ _) Hlt). cbn [str_drop]. by apply IH.
Qed.

(** ** The parser has fuel enough

    Whatever a parser with more fuel reads, [parse_fuel] reads it too. *)
Abbreviation len := String.length.

Lemma skip_ws_length s : len (skip_ws s) <= len s.
Proof. induction s as [|c s IH]; cbn; [done|]. destruct (is_ws c); cbn; lia. Qed.
Lemma str_drop_length n s : len (str_drop n s) <= len s.
Proof. revert s. induction n as [|n IH]; intros [|c s]; cbn; try lia. specialize (IH s). lia. Qed.

Lemma getu4_length s x r : getu4 s = Some (x, r) -> len r < len s.
Proof.
  unfold getu4. destruct s as [|a [|b [|c [|d s]]]]; try done. intros H.
  repeat (apply bind_Some in H as (? & _ & H)). injection H as _ <-. cbn. lia.
Qed.

Lemma unescape_length s x r : unescape s = Some (x, r) -> len r < len s.
Proof.
  unfold unescape. destruct s as [|c s]; [done|]. intros H.
  assert (forall y, Some (y, s) = Some (x, r) -> len r < len (String c s)) as Hs by (intros y [= _ <-]; cbn; lia).
  assert (forall (o : option (Z * string)) k,
    (forall z t, o = Some (z, t) -> len t < len s) ->
    (forall z t, len t < len s -> k (z, t) = Some (x, r) -> len r < len (String c s)) ->
    o ≫= k = Some (x, r) -> len r < len (String c s)) as Hu.
  { intros o k Ho Hk Hb. apply bind_Some in Hb as ([z t] & E & Hb). eauto. }
  repeat (case_match; try done; eauto). clear Hs.
  revert H. apply Hu; [apply getu4_length|]. clear Hu. intros z t Ht.
  destruct (in_range _ _ _); [|intros [= _ <-]; cbn; lia].
  repeat (case_match; try (intros [= _ <-]; cbn in *; lia)).
  intros [= _ <-]. subst. repeat match goal with E : getu4 _ = Some _ |- _ => apply getu4_length in E end. cbn in *. lia.
Qed.

Lemma unquote_body_length n s x r : unquote_body n s = Some (x, r) -> len r < len s.
Proof.
  revert s x r. induction n as [|n IH]; intros [|c s] x r H; try done. cbn [unquote_body] in H.
  destruct (Ascii.eqb c dquote); [injection H as _ <-; cbn; lia|].
  destruct (Ascii.eqb c "\").
  { apply bind_Some in H as ([y s1] & E & H). apply bind_Some in H as ([z s2] & E2 & H). injection H as _ <-.
    apply unescape_length in E. apply IH in E2. cbn. lia. }
  destruct (byte_of c <? 32)%Z; [done|].
  destruct (if (byte_of c <? 128)%Z then Some 1 else rune_len (String c s)) as [k|];
    apply bind_Some in H as ([z s2] & E2 & H); injection H as _ <-; apply IH in E2.
  - pose proof (str_drop_length k (String c s)). lia.
  - cbn. lia.
Qed.

Lemma unquote_length s x r : unquote s = Some (x, r) -> len r < len s.
Proof.
  unfold unquote. destruct s as [|c s]; [done|]. destruct (Ascii.eqb c dquote); [|done].
  intros H%unquote_body_length. cbn. lia.
Qed.

Lemma span_digits_length s : len s = len (span_digits s).1 + len (span_digits s).2.
Proof. induction s as [|c s IH]; cbn; [done|]. destruct (is_digit c); [|done]. destruct (span_digits s). cbn in *. lia. Qed.

Lemma scan_number_length s x r : scan_number s = Some (x, r) -> len r < len s.
Proof.
  unfold scan_number.
  destruct (match s with String "-" t => ("-", t) | _ => ("", s) end) as [sg s0] eqn:E0. intros H.
  apply bind_Some in H as ([i s1] & E1 & H). apply bind_Some in H as ([f s2] & E2 & H).
  apply bind_Some in H as ([e s3] & E3 & H). injection H as _ <-.
  assert (len s0 <= len s) by (repeat (case_match; simplify_eq/=; try lia)).
  assert (len s1 < len s0).
  { unfold scan_int in E1. pose proof (span_digits_length s0) as Hl. destruct (span_digits s0) as [d t]. cbn in Hl.
    repeat (case_match; simplify_eq/=; try lia). }
  assert (len s2 <= len s1).
  { unfold scan_frac in E2. repeat (case_match; simplify_eq/=; try lia).
    all: match goal with E : span_digits ?u = _ |- _ => pose proof (span_digits_length u) as Hl; rewrite E in Hl; cbn in Hl; lia end. }
  assert (len s3 <= len s2); [|lia].
  unfold scan_exp in E3. repeat (case_match; simplify_eq/=; try lia).
  all: match goal with E : span_digits ?u = _ |- _ => pose proof (span_digits_length u) as Hl; rewrite E in Hl; cbn in Hl; lia end.
Qed.

(** A match on the next byte, as a test. *)
Lemma match_byte {X} (close : ascii) (t : string) (A : string -> X) (B : X) :
  close = "}"%char \/ close = "]"%char ->
  match t with
  | String c r => if Ascii.eqb c close then A r else B
  | "" => B
  end =
  if Ascii.eqb close "}" then match t with String "}" r => A r | _ => B end
  else match t with String "]" r => A r | _ => B end.
Proof. by intros [-> | ->]; destruct t as [|[[] [] [] [] [] [] [] []] r]. Qed.

Lemma match_bytes {X} (t : string) (A B : string -> option X) :
  (match t with String "]" r => A r | String "," r => B r | _ => None end =
   match t with String c r => if Ascii.eqb c "]" then A r else if Ascii.eqb c "," then B r else None | "" => None end) /\
  (match t with String "}" r => A r | String "," r => B r | _ => None end =
   match t with String c r => if Ascii.eqb c "}" then A r else if Ascii.eqb c "," then B r else None | "" => None end) /\
  (match t with String ":" r => A r | _ => None end =
   match t with String c r => if Ascii.eqb c ":" then A r else None | "" => None end).
Proof. by destruct t as [|[[] [] [] [] [] [] [] []] r]. Qed.

(** What is read consumes text, and twice what it consumes is fuel for it. *)
Definition fuelled {A} (p : nat -> string -> option (A * string)) (n : nat) : Prop := forall s a r,
  p n s = Some (a, r) -> len r < len s /\ forall m, 2 * (len s - len r) <= m -> p m s = Some (a, r).

(** The inside of an array or an object. *)
Lemma fuelled_inside {A B} (p : nat -> string -> option (A * string)) n (k : A -> B) (empty : B) close s :
  fuelled p n ->
  let inside n := match skip_ws s with
    | String c r => if Ascii.eqb c close then Some (empty, r) else '(a, r) ← p n s; Some (k a, r)
    | "" => '(a, r) ← p n s; Some (k a, r)
    end in
  forall b r, inside n = Some (b, r) -> len r < len s /\ forall m, 2 * (len s - len r) <= m -> inside m = Some (b, r).
Proof.
  intros Hp inside b r. unfold inside. pose proof (skip_ws_length s) as Hl.
  assert (forall u, ('(a, r) ← p n s; Some (k a, r)) = Some (b, u) -> len u < len s /\
    forall m, 2 * (len s - len u) <= m -> ('(a, r) ← p m s; Some (k a, r)) = Some (b, u)) as Hgo.
  { intros u H. apply bind_Some in H as ([a v] & E & H). injection H as <- <-. apply Hp in E as [H1 H2].
    split; [done|]. intros m Hm. by rewrite H2. }
  destruct (skip_ws s) as [|c t]; [apply Hgo|]. destruct (Ascii.eqb c close); [|apply Hgo].
  intros [= <- <-]. split; [cbn in Hl; lia|done].
Qed.

Lemma fuelled_value n : fuelled parse_elems n -> fuelled parse_members n -> fuelled parse_value (S n).
Proof.
  intros He Hm s j r H. cbn [parse_value] in H. pose proof (skip_ws_length s) as Hl.
  enough (len r < len (skip_ws s) /\ forall m, 2 * (len (skip_ws s) - len r) <= S (S m) -> parse_value (S m) s = Some (j, r)) as [H1 H2].
  { split; [lia|]. intros [|m] Hm'; [lia|]. apply H2. lia. }
  cbn [parse_value]. destruct (skip_ws s) as [|c s']; [done|].
  destruct (Ascii.eqb c dquote).
  { split; [|done]. apply bind_Some in H as ([x t] & E & H). injection H as _ <-. by apply unquote_length in E. }
  destruct (Ascii.eqb c "{"); [|destruct (Ascii.eqb c "[")].
  - pose proof (fuelled_inside parse_members n JObj (JObj []) "}" s' Hm) as Hi. cbv zeta in Hi.
    setoid_rewrite match_byte in Hi; [|by left..]. destruct (Hi _ _ H) as [H1 H2]. split; [cbn; lia|].
    intros m Hm'. apply H2. cbn in Hm'. lia.
  - pose proof (fuelled_inside parse_elems n JArr (JArr []) "]" s' He) as Hi. cbv zeta in Hi.
    setoid_rewrite match_byte in Hi; [|by right..]. destruct (Hi _ _ H) as [H1 H2]. split; [cbn; lia|].
    intros m Hm'. apply H2. cbn in Hm'. lia.
  - split; [|done]. clear -H. change (str_drop 4 (String c s')) with (str_drop 3 s') in H.
    change (str_drop 5 (String c s')) with (str_drop 4 s') in H.
    pose proof (str_drop_length 3 s'). pose proof (str_drop_length 4 s').
    repeat (destruct (HasPrefix _ _); [injection H as _ <-; by apply Nat.lt_succ_r|]).
    apply bind_Some in H as ([x t] & E & H). injection H as _ <-. by apply scan_number_length in E.
Qed.

(** A value and what follows it: the end, or a comma and the rest. *)
Lemma fuelled_rest {A B} (p : nat -> string -> option (A * string)) (n : nat) (close : ascii)
    (last : B) (more : A -> B) (t : string) :
  fuelled p n ->
  let rest n := match skip_ws t with
    | String c u => if Ascii.eqb c close then Some (last, u)
                    else if Ascii.eqb c "," then '(l, v) ← p n u; Some (more l, v) else None
    | "" => None
    end in
  forall b r, rest n = Some (b, r) -> len r < len t /\ forall m, 2 * (len t - len r) <= S (S m) -> rest m = Some (b, r).
Proof.
  intros Hp. cbv zeta. intros b r. pose proof (skip_ws_length t) as Hl. destruct (skip_ws t) as [|c u]; [done|]. cbn in Hl.
  destruct (Ascii.eqb c close); [intros [= <- <-]; split; [lia|done]|]. destruct (Ascii.eqb c ","); [|done].
  intros H. apply bind_Some in H as ([l v] & E & H). injection H as <- <-. apply Hp in E as [H1 H2].
  split; [lia|]. intros m Hm. by rewrite H2 by lia.
Qed.

Lemma fuelled_elems n : fuelled parse_value n -> fuelled parse_elems n -> fuelled parse_elems (S n).
Proof.
  intros Hv He s l r H. cbn [parse_elems] in H. apply bind_Some in H as ([j t] & E & H). apply Hv in E as [E1 E2].
  rewrite (proj1 (match_bytes _ _ _)) in H. destruct (fuelled_rest parse_elems n "]" [j] (cons j) t He _ _ H) as [H1 H2].
  split; [lia|]. intros [|m] Hm; [lia|]. cbn [parse_elems]. rewrite E2 by lia. cbn [mbind option_bind].
  rewrite (proj1 (match_bytes _ _ _)). apply H2. lia.
Qed.

Lemma fuelled_members n : fuelled parse_value n -> fuelled parse_members n -> fuelled parse_members (S n).
Proof.
  intros Hv Hm s l r H. cbn [parse_members] in H. pose proof (skip_ws_length s) as Hs.
  apply bind_Some in H as ([k u] & Ek & H). apply unquote_length in Ek as Hk. pose proof (skip_ws_length u) as Hu.
  rewrite (proj2 (proj2 (match_bytes _ _ (fun _ => None)))) in H.
  destruct (skip_ws u) as [|c u'] eqn:Eu; [done|]. destruct (Ascii.eqb c ":") eqn:Ec; [|done]. cbn in Hu.
  apply bind_Some in H as ([j t] & E & H). apply Hv in E as [E1 E2].
  rewrite (proj1 (proj2 (match_bytes _ _ _))) in H.
  destruct (fuelled_rest parse_members n "}" [(k, j)] (cons (k, j)) t Hm _ _ H) as [H1 H2].
  split; [lia|]. intros [|m] Hle; [lia|]. cbn [parse_members]. rewrite Ek. cbn [mbind option_bind].
  rewrite (proj2 (proj2 (match_bytes _ _ (fun _ => None)))), Eu, Ec, E2 by lia. cbn [mbind option_bind].
  rewrite (proj1 (proj2 (match_bytes _ _ _))). apply H2. lia.
Qed.

Lemma parser_fuelled n : fuelled parse_value n /\ fuelled parse_elems n /\ fuelled parse_members n.
Proof.
  induction n as [|n (Hv & He & Hm)]; [by split_and!; intros ? ? ?|].
  split; [by apply fuelled_value|]. split; [by apply fuelled_elems|by apply fuelled_members].
Qed.

Lemma parse_fuel_enough n s j r : parse_value n s = Some (j, r) -> parse_value (parse_fuel s) s = Some (j, r).
Proof. intros H. apply (proj1 (parser_fuelled n)) in H as [_ H]. apply H. unfold parse_fuel. lia. Qed.

Lemma unquote_fuel_enough n m s x r :
  unquote_body n s = Some (x, r) -> len s <= m -> unquote_body m s = Some (x, r).
Proof.
  revert m s x r. induction n as [|n IH]; intros [|m] [|c s] x r H Hm; try done; [cbn in Hm; lia|].
  cbn [unquote_body] in *. cbn [String.length] in Hm. destruct (Ascii.eqb c dquote); [done|].
  destruct (Ascii.eqb c "\").
  { apply bind_Some in H as ([y s1] & E & H). apply bind_Some in H as ([z s2] & E2 & H). rewrite E. cbn [mbind option_bind].
    apply unescape_length in E. by rewrite (IH m _ _ _ E2) by lia. }
  destruct (byte_of c <? 32)%Z; [done|].
  destruct (if (byte_of c <? 128)%Z then Some 1 else rune_len (String c s)) as [k|] eqn:Ek;
    apply bind_Some in H as ([z s2] & E2 & H).
  - assert (0 < k) as Hk.
    { destruct (byte_of c <? 128)%Z; [injection Ek; lia|]. by apply rune_len_split in Ek as (? & ? & ? & ? & ? & ? & ? & _). }
    destruct k as [|k]; [lia|]. pose proof (str_drop_length k s). by rewrite (IH m _ _ _ E2) by (cbn; lia).
  - by rewrite (IH m _ _ _ E2) by lia.
Qed.
