(* ===== verification/Monitoring.v ===== *)
(** sms-monitoring, the health state machine: [MonitoringService.Evaluate]
    against the interfaces it is written against (state store, publisher,
    observation logger), and the Redis implementations of the first two. *)
From S2P Require Import Prelude GoStd Json Redis Host.

(** ** Domain (domain/server.go, domain/state.go) *)
Definition ServerStatusOnline : string := "ONLINE".
Definition ServerStatusOffline : string := "OFFLINE".
Definition ServerStatusUnknown : string := "UNKNOWN".

Definition HealthCheckMethodICMP : string := "ICMP".
Definition HealthCheckMethodSSH : string := "SSH".
Definition HealthCheckMethodAgentPull : string := "AGENT_PULL".
Definition HealthCheckMethodAgentPush : string := "AGENT_PUSH".

Record ServerState := { Status : string; RetryCount : Z }.

#[export] Instance ServerState_eq_dec : EqDecision ServerState.
Proof. solve_decision. Defined.

Definition ErrServerStateNotFound : err := ErrS "repository.ErrServerStateNotFound".

(** A message as it is written to a stream. *)
Definition fields : Type := list (string * string).

(** ** The interfaces of the service *)
Class MonitoringDeps (W : Type) := {
  LogObservation : string -> bool -> proc W unit;
  GetServerState : string -> proc W (res ServerState);
  SetServerState : string -> string -> Z -> proc W (res unit);
  Publish : string -> fields -> proc W (res unit);
}.

(** What they promise: [m_state] is the cached state of a server, [m_stream]
    the messages a stream holds, oldest first.  A publisher may drop the
    oldest messages of the stream it writes to. *)
Class MonitoringContract (W : Type) `{!MonitoringDeps W} := {
  m_state : W -> string -> option ServerState;
  m_stream : W -> string -> list fields;
  log_law : forall id b w,
    wp (LogObservation id b)
       (fun _ w' => m_state w' = m_state w /\ m_stream w' = m_stream w) w;
  get_law : forall id w,
    wp (GetServerState id)
       (fun r w' => (forall id', m_state w' id' = m_state w id') /\ m_stream w' = m_stream w /\
          match r with
          | Ok s => m_state w id = Some s
          | Err e => m_state w id = None \/ e <> ErrServerStateNotFound
          end) w;
  set_law : forall id st n w, (min_int64 <= n <= max_int64)%Z ->
    wp (SetServerState id st n)
       (fun r w' => (forall id', id' <> id -> m_state w' id' = m_state w id') /\
          m_stream w' = m_stream w /\
          (m_state w' id = Some {| Status := st; RetryCount := n |} \/
           (is_ok r = false /\ m_state w' id = m_state w id))) w;
  publish_law : forall s m w,
    wp (Publish s m)
       (fun r w' => (forall id, m_state w' id = m_state w id) /\
          ((exists k, m_stream w' s = drop k (m_stream w s) ++ [m]) \/
           (is_ok r = false /\ m_stream w' s = m_stream w s)) /\
          forall s', s' <> s -> m_stream w' s' = m_stream w s') w;
}.

(** ** The state machine (service/monitoring_service.go) *)
Section machine.
Context (failureThreshold : Z).

(** Lines 57-93: new status, retry count, and the two change flags. *)
Definition next_state (currentStatus : string) (retryCount : Z) (pingSuccess : bool)
    : string * Z * bool * bool :=
  if pingSuccess then
    if bool_decide (currentStatus = ServerStatusOffline \/ currentStatus = ServerStatusUnknown)
    then (ServerStatusOnline, 0%Z, true, true)
    else if (0 <? retryCount)%Z then (currentStatus, 0%Z, false, true)
    else (currentStatus, retryCount, false, false)
  else
    if bool_decide (currentStatus = ServerStatusOnline \/ currentStatus = ServerStatusUnknown)
    then
      let retryCount := wrap64 (retryCount + 1) in
      if (failureThreshold <=? retryCount)%Z || bool_decide (currentStatus = ServerStatusUnknown)
      then (ServerStatusOffline, failureThreshold, true, true)
      else (currentStatus, retryCount, false, true)
    else
      if (retryCount <? failureThreshold)%Z then (currentStatus, wrap64 (retryCount + 1), false, true)
      else if (failureThreshold <? retryCount)%Z then (currentStatus, failureThreshold, false, true)
      else (currentStatus, retryCount, false, false).

(** No status recorded yet means UNKNOWN. *)
Definition current_status (s : ServerState) : string :=
  if bool_decide (Status s = "") then ServerStatusUnknown else Status s.

Definition status_stream : string := "sms.events.server_status".

(** [json.Marshal] of a map: its keys in order. *)
Definition status_payload (serverID newStatus : string) (retryCount : Z) : string :=
  Marshal (JObj [("retry_count", JInt retryCount); ("server_id", JStr serverID);
                 ("status", JStr newStatus)]).

Definition status_message (serverID newStatus : string) (retryCount : Z) : fields :=
  [("server_id", serverID); ("event_type", "ServerStatusChanged");
   ("payload", status_payload serverID newStatus retryCount)].

Definition Evaluate {W} `{!MonitoringDeps W} (serverID ip : string) (pingSuccess : bool)
    : proc W (res unit) :=
  LogObservation serverID pingSuccess ;;-
  state <-? GetServerState serverID;
  let '(newStatus, retryCount, statusChanged, retryChanged) :=
    next_state (current_status state) (RetryCount state) pingSuccess in
  _ <-? (if statusChanged || retryChanged
         then SetServerState serverID newStatus retryCount else mret (Ok tt));
  if statusChanged then
    Publish status_stream (status_message serverID newStatus retryCount) ;;-
    mret (Ok tt)                                 (* a publish error is only logged *)
  else mret (Ok tt).

(** *** The transitions, by current status *)
Lemma next_unknown n b :
  next_state ServerStatusUnknown n b =
  if b then (ServerStatusOnline, 0%Z, true, true)
  else (ServerStatusOffline, failureThreshold, true, true).
Proof. destruct b; [done|]. cbn. by rewrite orb_true_r. Qed.

Lemma next_online_up n :
  (0 <= n)%Z -> next_state ServerStatusOnline n true = (ServerStatusOnline, 0%Z, false, (0 <? n)%Z).
Proof. intros Hn. cbn. destruct (Z.ltb_spec 0 n); [done|]. by replace n with 0%Z by lia. Qed.

Lemma next_online_down n :
  (0 <= n < max_int64)%Z ->
  next_state ServerStatusOnline n false =
  if (failureThreshold <=? 1 + n)%Z then (ServerStatusOffline, failureThreshold, true, true)
  else (ServerStatusOnline, (1 + n)%Z, false, true).
Proof.
  intros Hn. unfold next_state. rewrite bool_decide_eq_true_2 by auto.
  rewrite (bool_decide_eq_false_2 (ServerStatusOnline = ServerStatusUnknown)) by done.
  rewrite orb_false_r, wrap64_id by (unfold min_int64; lia). by rewrite (Z.add_comm n).
Qed.

Lemma next_offline b :
  next_state ServerStatusOffline failureThreshold b =
  if b then (ServerStatusOnline, 0%Z, true, true)
  else (ServerStatusOffline, failureThreshold, false, false).
Proof. destruct b; [done|]. cbn. by rewrite !Z.ltb_irrefl. Qed.

(** A stored retry count fits an [int]. *)
Lemma next_state_range st n b st' n' c1 c2 :
  (min_int64 <= failureThreshold <= max_int64)%Z ->
  next_state st n b = (st', n', c1, c2) -> c1 || c2 = true -> (min_int64 <= n' <= max_int64)%Z.
Proof.
  intros Hth. unfold next_state. pose proof (wrap64_range (n + 1)) as Hw.
  repeat case_match; intros ? ?; simplify_eq; try done; unfold min_int64, max_int64; lia.
Qed.

(** Nothing flagged, nothing changed. *)
Lemma next_state_same st n b st' n' c1 c2 :
  next_state st n b = (st', n', c1, c2) -> c1 || c2 = false -> st' = st /\ n' = n.
Proof. unfold next_state. repeat case_match; intros ? ?; by simplify_eq. Qed.

(** The flag says whether the status changed. *)
Lemma unchanged_status st n b st' n' c2 :
  next_state st n b = (st', n', false, c2) -> st' = st.
Proof. unfold next_state. repeat case_match; intros; by simplify_eq. Qed.

Lemma changed_status st n b st' n' c2 :
  next_state st n b = (st', n', true, c2) -> st' <> st.
Proof.
  unfold next_state. destruct b; repeat case_match; intros; simplify_eq;
    match goal with H : bool_decide _ = true |- _ => apply bool_decide_eq_true in H end;
    naive_solver.
Qed.

Lemma next_state_nonempty st n b st' n' c1 c2 :
  st <> "" -> next_state st n b = (st', n', c1, c2) -> st' <> "".
Proof. unfold next_state. repeat case_match; intros ? ?; by simplify_eq. Qed.

(** *** What a history of checks leads to

    The reference: a server that was never checked is UNKNOWN; one with
    [failureThreshold] failures since its last success, or no success at all,
    is OFFLINE; any other is ONLINE. *)
Fixpoint trailing_failures (h : list bool) : Z :=    (* newest first *)
  match h with
  | false :: h => 1 + trailing_failures h
  | _ => 0
  end%Z.

Definition reference_state (h : list bool) : string * Z :=
  match h with
  | [] => (ServerStatusUnknown, 0%Z)
  | _ =>
    if existsb id h && (trailing_failures h <? failureThreshold)%Z
    then (ServerStatusOnline, trailing_failures h)
    else (ServerStatusOffline, failureThreshold)
  end.

Lemma trailing_failures_nonneg h : (0 <= trailing_failures h)%Z.
Proof. induction h as [|[] h IH]; cbn [trailing_failures]; lia. Qed.

Lemma reference_up h :
  (1 <= failureThreshold)%Z -> reference_state (true :: h) = (ServerStatusOnline, 0%Z).
Proof. intros Hth. cbn. by destruct (Z.ltb_spec 0 failureThreshold); [|lia]. Qed.

(** The machine follows the reference one check at a time. *)
Lemma reference_step h b :
  (1 <= failureThreshold <= max_int64)%Z ->
  let '(st, n) := reference_state h in
  let '(st', n', _, _) := next_state st n b in (st', n') = reference_state (b :: h).
Proof.
  intros Hth. pose proof (trailing_failures_nonneg h) as Hn.
  destruct h as [|b' h].
  { cbn [reference_state]. rewrite next_unknown. destruct b; cbn; [|done].
    by destruct (Z.ltb_spec 0 failureThreshold); [|lia]. }
  remember (b' :: h) as h' eqn:Eh.
  assert (reference_state h' = if existsb id h' && (trailing_failures h' <? failureThreshold)%Z
    then (ServerStatusOnline, trailing_failures h')
    else (ServerStatusOffline, failureThreshold)) as -> by by subst.
  clear b' h Eh. destruct b.
  - rewrite reference_up by lia. destruct (existsb id h' && _).
    + by rewrite next_online_up by lia.
    + by rewrite next_offline.
  - unfold reference_state. cbn [existsb id orb trailing_failures].
    destruct (existsb id h'); cbn [andb]; [|by rewrite next_offline].
    destruct (Z.ltb_spec (trailing_failures h') failureThreshold).
    + rewrite next_online_down by lia.
      destruct (Z.leb_spec failureThreshold (1 + trailing_failures h'));
        destruct (Z.ltb_spec (1 + trailing_failures h') failureThreshold); try lia; done.
    + rewrite next_offline.
      by destruct (Z.ltb_spec (1 + trailing_failures h') failureThreshold); [lia|].
Qed.
End machine.

(** ** Properties of the service, against its interfaces *)
Section evaluate.
Context (failureThreshold : Z) {W : Type} `{!MonitoringDeps W} `{!MonitoringContract W}.
Context (Hth : (1 <= failureThreshold <= max_int64)%Z).

(** The cached state of a server is [(st, n)]. *)
Definition state_is (w : W) (serverID : string) (sn : string * Z) : Prop :=
  exists s, m_state w serverID = Some s /\ current_status s = sn.1 /\ RetryCount s = sn.2.

Definition state_after (sn : string * Z) (b : bool) : string * Z :=
  let '(st', n', _, _) := next_state failureThreshold sn.1 sn.2 b in (st', n').

(** What one evaluation of a server in state [sn] leads to. *)
Definition evaluated (serverID : string) (sn : string * Z) (b : bool) (w : W)
    (r : res unit) (w' : W) : Prop :=
  let '(st', n', changed, _) := next_state failureThreshold sn.1 sn.2 b in
  (forall id', id' <> serverID -> m_state w' id' = m_state w id') /\
  (forall s, s <> status_stream -> m_stream w' s = m_stream w s) /\
  ((state_is w' serverID (st', n') /\
      if changed then
        m_stream w' status_stream = m_stream w status_stream \/
        exists k, m_stream w' status_stream =
          drop k (m_stream w status_stream) ++ [status_message serverID st' n']
      else m_stream w' status_stream = m_stream w status_stream) \/
   (is_ok r = false /\ m_state w' serverID = m_state w serverID /\
      m_stream w' status_stream = m_stream w status_stream)).

(** The optional publication at the end. *)
Lemma publish_step (changed : bool) (m : fields) w :
  wp (if changed then Publish status_stream m ;;- mret (Ok tt) else mret (Ok tt))
     (fun r w' => r = Ok tt /\ (forall id, m_state w' id = m_state w id) /\
        (forall s, s <> status_stream -> m_stream w' s = m_stream w s) /\
        if changed then
          m_stream w' status_stream = m_stream w status_stream \/
          exists k, m_stream w' status_stream = drop k (m_stream w status_stream) ++ [m]
        else m_stream w' status_stream = m_stream w status_stream) w.
Proof.
  destruct changed; [|by apply wp_ret].
  apply wp_bind. eapply wp_mono; [apply publish_law|]. cbn.
  intros r w' (Hst & Hm & Ho). apply wp_ret. split; [done|]. split; [done|]. split; [done|].
  destruct Hm as [Hm|[_ Hm]]; auto.
Qed.

(** The write that precedes it, skipped when nothing changed. *)
Lemma store_step serverID s b w st' n' c1 c2 :
  m_state w serverID = Some s -> current_status s <> "" ->
  next_state failureThreshold (current_status s) (RetryCount s) b = (st', n', c1, c2) ->
  wp (if c1 || c2 then SetServerState serverID st' n' else mret (Ok tt))
     (fun r w' => (forall id', id' <> serverID -> m_state w' id' = m_state w id') /\
        m_stream w' = m_stream w /\
        (state_is w' serverID (st', n') \/
         (is_ok r = false /\ m_state w' serverID = m_state w serverID))) w.
Proof.
  intros Hs Hne E. destruct (c1 || c2) eqn:Ec.
  - eapply wp_mono; [eapply set_law, (next_state_range failureThreshold);
      [unfold min_int64; lia|exact E|done]|]. cbn.
    intros r w' (Ho & Hm & Hset). split; [done|]. split; [done|].
    destruct Hset as [Hset|Hset]; [left|by right]. eexists. split; [done|].
    unfold current_status. cbn. by rewrite bool_decide_eq_false_2 by eauto using next_state_nonempty.
  - apply wp_ret. split; [done|]. split; [done|]. left. exists s.
    destruct (next_state_same _ _ _ _ _ _ _ _ E Ec) as [-> ->]. done.
Qed.

Lemma Evaluate_step serverID ip b sn w :
  sn.1 <> "" -> state_is w serverID sn ->
  wp (Evaluate failureThreshold serverID ip b) (evaluated serverID sn b w) w.
Proof.
  intros Hne (s & Hs & Hst & Hn). unfold Evaluate, evaluated. rewrite <- Hst, <- Hn in *.
  apply wp_bind. eapply wp_mono; [apply log_law|]. cbn. intros _ w1 [Hw1 Hm1].
  apply wp_try. eapply wp_mono; [apply get_law|]. cbn. intros r w2 (Hw2 & Hm2 & Hr).
  rewrite Hw1, Hm1 in *. clear Hw1 Hm1.
  destruct (next_state _ _ _ _) as [[[st' n'] c1] c2] eqn:E.
  destruct r as [s'|e]; [|by rewrite Hm2; auto 6].
  assert (s' = s) as -> by congruence. rewrite E.
  apply wp_try. eapply wp_mono; [eapply store_step; [by rewrite Hw2|done|done]|]. cbn.
  intros r w3 (Ho3 & Hm3 & H3). rewrite Hm2 in Hm3.
  assert (forall id', id' <> serverID -> m_state w3 id' = m_state w id') as Ho.
  { intros id' Hid. by rewrite Ho3, Hw2. }
  destruct r as [[]|e].
  - eapply wp_mono; [apply publish_step|]. cbn. intros r w' (-> & Hst' & Hs' & Hp).
    split; [|split; [|left; split]].
    + intros id' Hid. rewrite Hst'. auto.
    + intros s' Hs''. rewrite Hs', Hm3; done.
    + destruct H3 as [H3|[]]; [|done]. unfold state_is. by rewrite Hst'.
    + by rewrite Hm3 in Hp.
  - split; [done|]. split; [by rewrite Hm3|]. rewrite Hm3.
    destruct H3 as [H3|[_ H3]]; [left|right]; [|by rewrite H3, Hw2].
    split; [done|]. destruct c1; auto.
Qed.

Lemma reference_nonempty h : (reference_state failureThreshold h).1 <> "".
Proof. destruct h; cbn; [done|]. by case_match. Qed.

Lemma state_after_reference h b :
  state_after (reference_state failureThreshold h) b = reference_state failureThreshold (b :: h).
Proof.
  pose proof (reference_step failureThreshold h b Hth) as H. unfold state_after.
  destruct (reference_state failureThreshold h) as [st n]. cbn.
  by destruct (next_state _ _ _ _) as [[[st' n'] c1] c2].
Qed.

(** The checks that took effect: all that were evaluated without error, and
    any of the others (an answer of the state store may be lost). *)
Inductive took_effect : list bool -> list (res unit) -> list bool -> Prop :=
  | took_none : took_effect [] [] []
  | took_one b r bs rs h : took_effect bs rs h -> took_effect (bs ++ [b]) (rs ++ [r]) (b :: h)
  | took_lost b e bs rs h : took_effect bs rs h -> took_effect (bs ++ [b]) (rs ++ [Err e]) h.

(** The statuses published along a history (newest first). *)
Fixpoint published (h : list bool) : list (string * Z) :=
  match h with
  | [] => []
  | b :: h =>
    let '(st, n) := reference_state failureThreshold h in
    let '(st', n', changed, _) := next_state failureThreshold st n b in
    if changed then (st', n') :: published h else published h
  end.

(** The current status is the last one published, UNKNOWN before any. *)
Lemma published_head h :
  (reference_state failureThreshold h).1 = default ServerStatusUnknown (fst <$> head (published h)).
Proof.
  induction h as [|b h IH]; [done|]. cbn [published].
  pose proof (reference_step failureThreshold h b Hth) as H.
  destruct (reference_state failureThreshold h) as [st n].
  destruct (next_state failureThreshold st n b) as [[[st' n'] c1] c2] eqn:E.
  rewrite <- H. destruct c1; [done|]. cbn in *. rewrite <- IH. by eapply unchanged_status.
Qed.
End evaluate.

(** ** The Redis implementations
    (repository/impl/redis_server_state_store.go,
     infrastructure/messagebroker/redis_publisher.go) *)
Definition ServerAllIDsKey : string := "server:all_ids".
Definition ServerInfoKey (serverID : string) : string := "server:info:" +:+ serverID.
Definition AgentHeartbeatZSetKey : string := "monitoring:agent:heartbeats".
Definition MonitoringQueueKey : string := "monitoring:queue".

Lemma ServerInfoKey_inj a b : ServerInfoKey a = ServerInfoKey b -> a = b.
Proof. by intros [= ?]. Qed.

Section redis_deps.
Context {W} {srv : Host W}.

Definition GetServerState_redis (serverID : string) : proc W (res ServerState) :=
  r <-- rdb (HGetAll (ServerInfoKey serverID));
  mret (match r with
        | Err e => Err (ErrWrap "failed to get server info from redis" e)
        | Ok vals =>
          if bool_decide (vals = ∅) then Err ErrServerStateNotFound
          else Ok {| Status := default "" (vals !! "status");
                     RetryCount := (Atoi (default "" (vals !! "retry_count"))).1 |}
        end).

Definition SetServerState_redis (serverID status : string) (retryCount : Z) : proc W (res unit) :=
  r <-- rdb (HSet (ServerInfoKey serverID) [("status", status); ("retry_count", Itoa retryCount)]);
  mret (match r with Ok _ => Ok tt | Err e => Err (ErrWrap "failed to update redis status" e) end).

(** [XADD] with [MAXLEN ~ maxLen]; the client sends no bound unless it is positive. *)
Definition Publish_redis (maxLen : Z) (stream : string) (values : fields) : proc W (res unit) :=
  rdb (XAdd stream (if (0 <? maxLen)%Z then Some (Z.to_N maxLen) else None) values).
End redis_deps.

(** The state of a server as its hash holds it. *)
Definition hash_state (h : gmap string string) : option ServerState :=
  if bool_decide (h = ∅) then None
  else Some {| Status := default "" (h !! "status");
               RetryCount := (Atoi (default "" (h !! "retry_count"))).1 |}.

Definition redis_state (r : rstate) (serverID : string) : option ServerState :=
  hash_state (hash_at r (ServerInfoKey serverID)).

Definition redis_messages (r : rstate) (stream : string) : list fields :=
  map e_fields (s_entries (stream_at r stream)).

Lemma redis_state_set_hash r k h id :
  redis_state (set_hash k h r) id = if bool_decide (k = ServerInfoKey id) then hash_state h else redis_state r id.
Proof.
  unfold redis_state. case_bool_decide; [subst; by rewrite hash_at_set_hash|by rewrite hash_at_set_hash_ne].
Qed.

Lemma redis_state_set_stream r k st id : redis_state (set_stream k st r) id = redis_state r id.
Proof. done. Qed.

Lemma redis_messages_set_stream r k st s :
  redis_messages (set_stream k st r) s =
  if bool_decide (k = s) then map e_fields (s_entries st) else redis_messages r s.
Proof.
  unfold redis_messages. case_bool_decide; [subst; by rewrite stream_at_set_stream|by rewrite stream_at_set_stream_ne].
Qed.

(** Appending to a stream drops at most its oldest entries. *)
Lemma append_entry_fields keep f st :
  0 < keep ->
  exists k, map e_fields (s_entries (append_entry keep f st)) =
    drop k (map e_fields (s_entries st)) ++ [f].
Proof.
  intros Hk. cbn. unfold lastn. exists (length (s_entries st ++ [Entry (N.succ (s_last st)) f]) - keep).
  rewrite length_app. cbn.
  rewrite drop_app_le by lia. by rewrite map_app, <- !fmap_drop.
Qed.

Lemma xadd_messages maxLen f st st' :
  xadd_spec (if (0 <? maxLen)%Z then Some (Z.to_N maxLen) else None) f st st' ->
  exists k, map e_fields (s_entries st') = drop k (map e_fields (s_entries st)) ++ [f].
Proof.
  intros (keep & Hkeep & ->). apply append_entry_fields.
  destruct Hkeep as [Hle|(n & Hn & Hle)]; [lia|].
  destruct (Z.ltb_spec 0 maxLen); [|done]. simplify_eq. lia.
Qed.

(** What [SetServerState] writes reads back. *)
Lemma hash_state_written (h : gmap string string) st n :
  (min_int64 <= n <= max_int64)%Z ->
  hash_state (<["retry_count" := Itoa n]> (<["status" := st]> h)) = Some {| Status := st; RetryCount := n |}.
Proof.
  intros Hn. unfold hash_state. rewrite bool_decide_eq_false_2 by apply insert_non_empty. cbn.
  rewrite lookup_insert_eq, lookup_insert_ne, lookup_insert_eq by done. cbn. by rewrite Atoi_Itoa.
Qed.

(** The service wired to Redis as [NewApp] does; the observation logger writes
    nothing to Redis. *)
Section redis_contract.
Context {W} {srv : Host W} (maxLen : Z) (log : string -> bool -> proc W unit).

Definition redis_deps : MonitoringDeps W := {|
  LogObservation := log;
  GetServerState := GetServerState_redis;
  SetServerState := SetServerState_redis;
  Publish := Publish_redis maxLen;
|}.

Context `{!HostLaws srv}.
Context (Hlog : forall id b w, wp (log id b) (fun _ w' => redis (view w') = redis (view w)) w).

Lemma redis_get_law id w :
  wp (GetServerState_redis id)
     (fun r w' => redis (view w') = redis (view w) /\
        match r with
        | Ok s => redis_state (redis (view w)) id = Some s
        | Err e => redis_state (redis (view w)) id = None \/ e <> ErrServerStateNotFound
        end) w.
Proof.
  apply wp_bind, wp_rdb.
  - intros vals w' t s' _ Hv [-> ->]. apply wp_ret. rewrite Hv. split; [done|].
    unfold redis_state, hash_state. case_bool_decide; [by left|done].
  - intros e w' t s' _ Hv Hf. apply wp_ret. rewrite Hv. split; [|by right].
    destruct Hf as [->|[(a & _ & ->)|[]]]; done.
Qed.

Lemma redis_set_law id st n w : (min_int64 <= n <= max_int64)%Z ->
  wp (SetServerState_redis id st n)
     (fun r w' => (forall id', id' <> id -> redis_state (redis (view w')) id' = redis_state (redis (view w)) id') /\
        redis_messages (redis (view w')) = redis_messages (redis (view w)) /\
        (redis_state (redis (view w')) id = Some {| Status := st; RetryCount := n |} \/
         (is_ok r = false /\ redis_state (redis (view w')) id = redis_state (redis (view w)) id))) w.
Proof.
  intros Hn. set (Q := fun _ _ => _).
  assert (forall r (b : bool) w' t s', view w' = HView t s' -> is_ok r = b ->
    rspec t (HSet (ServerInfoKey id) [("status", st); ("retry_count", Itoa n)]) (redis (view w)) tt s' ->
    Q r w') as Hdone.
  { intros r b w' t s' Hv Hb ->. subst Q. cbn beta. rewrite Hv. cbn [redis].
    split; [|split; [done|left]].
    - intros id' Hid. rewrite redis_state_set_hash, bool_decide_eq_false_2; [done|].
      intros E%ServerInfoKey_inj. congruence.
    - rewrite redis_state_set_hash, bool_decide_eq_true_2 by done. by apply hash_state_written. }
  apply wp_bind, wp_rdb.
  - intros [] w' t s' _ Hv Hs. apply wp_ret. by eapply Hdone.
  - intros e w' t s' _ Hv [->|[([] & Hs)|[]]]; apply wp_ret; [|by eapply Hdone].
    subst Q. cbn beta. rewrite Hv. cbn [redis]. auto.
Qed.

Lemma redis_publish_law s m w :
  wp (Publish_redis maxLen s m)
     (fun r w' => (forall id, redis_state (redis (view w')) id = redis_state (redis (view w)) id) /\
        ((exists k, redis_messages (redis (view w')) s = drop k (redis_messages (redis (view w)) s) ++ [m]) \/
         (is_ok r = false /\ redis_messages (redis (view w')) s = redis_messages (redis (view w)) s)) /\
        forall s', s' <> s -> redis_messages (redis (view w')) s' = redis_messages (redis (view w)) s') w.
Proof.
  set (Q := fun _ _ => _).
  assert (forall r w' t s' a, view w' = HView t s' ->
    rspec t (XAdd s (if (0 <? maxLen)%Z then Some (Z.to_N maxLen) else None) m) (redis (view w)) a s' ->
    Q r w') as Hdone.
  { intros r w' t s' a Hv (st & Hst & ->). subst Q. cbn beta. rewrite Hv. cbn [redis].
    split; [done|]. split; [left|].
    - rewrite redis_messages_set_stream, bool_decide_eq_true_2 by done. by eapply xadd_messages.
    - intros s' Hs. by rewrite redis_messages_set_stream, bool_decide_eq_false_2 by done. }
  apply wp_rdb.
  - intros a w' t s' _ Hv Hs. by eapply Hdone.
  - intros e w' t s' _ Hv [->|[(a & Hs)|[]]]; [|by eapply Hdone].
    subst Q. cbn beta. rewrite Hv. cbn [redis]. auto.
Qed.

(** The Redis implementations keep the contract. *)
Definition redis_contract : MonitoringContract (MonitoringDeps0 := redis_deps) W.
Proof.
  refine (@Build_MonitoringContract W redis_deps
    (fun w => redis_state (redis (view w))) (fun w => redis_messages (redis (view w)))
    _ _ redis_set_law redis_publish_law).
  - intros id b w. eapply wp_mono; [apply Hlog|]. cbn. by intros _ w' ->.
  - intros id w. eapply wp_mono; [apply redis_get_law|]. cbn. by intros r w' [-> H].
Defined.
End redis_contract.

(** A Redis that holds one UNKNOWN server and loses some requests. *)
Definition sample_redis : rstate :=
  set_hash (ServerInfoKey "s1") (<["status" := "UNKNOWN"]> ∅) empty_redis.
Definition sample_faults : hview * list fault :=
  (HView 0 sample_redis, [NoFault; NoFault; FailAfter; FailBefore; NoFault; FailBefore]).
Definition no_log {W} (id : string) (b : bool) : proc W unit := mret tt.

Definition sample_deps : MonitoringDeps (hview * list fault) := redis_deps (srv := flaky_host) 1000 no_log.
Definition sample_contract : MonitoringContract (MonitoringDeps0 := sample_deps) (hview * list fault) :=
  redis_contract (srv := flaky_host) 1000 no_log (fun id b w => eq_refl).

(** ** The theorems on [Evaluate] *)

(** C2: the status of a server is what its history of checks says, whatever
    faults happen on the way: after any sequence of [Evaluate] calls on a
    server that was registered as UNKNOWN, the cached status and retry count
    are [reference_state] of the checks that took effect (every check evaluated
    without error is one of them): OFFLINE after [failureThreshold] failures in
    a row or before the first success, ONLINE otherwise. *)
Theorem Evaluate_history (failureThreshold : Z) {W} `{!MonitoringDeps W} `{!MonitoringContract W}
    (serverID ip : string) (obs : list bool) (w : W) :
  (1 <= failureThreshold <= max_int64)%Z ->
  state_is w serverID (ServerStatusUnknown, 0%Z) ->
  wp (collect (fun b => Evaluate failureThreshold serverID ip b) obs)
     (fun rs w' => exists h, took_effect obs rs h /\
        state_is w' serverID (reference_state failureThreshold h)) w.
Proof.
  intros Hth Hs.
  apply (wp_collect _ (fun bs rs _ w' => exists h, took_effect bs rs h /\
    state_is w' serverID (reference_state failureThreshold h))).
  { exists []. split; [constructor|done]. }
  intros bs rs b _ w1 (h & Ht & Hh).
  eapply wp_mono; [apply Evaluate_step; [done|apply reference_nonempty|done]|].
  pose proof (state_after_reference failureThreshold Hth h b) as Hnext. unfold state_after in Hnext.
  cbn. unfold evaluated. intros r w2. destruct (next_state _ _ _ _) as [[[st' n'] c1] c2].
  intros (_ & _ & [[Hw2 _]|(Hr & Hw2 & _)]).
  - exists (b :: h). split; [by constructor|]. by rewrite <- Hnext.
  - destruct r as [|e]; [done|]. exists h. split; [by constructor|].
    destruct Hh as (s' & Hs' & Hh). exists s'. by rewrite Hw2.
Qed.

Lemma Evaluate_history_witness :
  state_is (MonitoringContract0 := sample_contract) sample_faults "s1" (ServerStatusUnknown, 0%Z) /\
  wp (collect (fun b => Evaluate 2 (MonitoringDeps0 := sample_deps) "s1" "10.0.0.1" b) [true; false; false; false])
     (fun rs w' => exists h, took_effect [true; false; false; false] rs h /\
        state_is (MonitoringContract0 := sample_contract) w' "s1" (reference_state 2 h)) sample_faults.
Proof.
  assert (state_is (MonitoringContract0 := sample_contract) sample_faults "s1" (ServerStatusUnknown, 0%Z)) as H.
  { eexists. split; [reflexivity|by vm_compute]. }
  split; [exact H|]. apply (Evaluate_history 2); [unfold max_int64; lia|exact H].
Defined.

(** C19: one [Evaluate] call, under any faults: it touches no other server and
    no other stream; an error leaves the state as it was or as the transition
    makes it; an answer without error means that the cached state made the
    transition, and nothing is written to the status stream but, when the
    status changed, at most the one message that announces the new status. *)
Theorem Evaluate_effect (failureThreshold : Z) {W} `{!MonitoringDeps W} `{!MonitoringContract W}
    (serverID ip : string) (b : bool) (sn : string * Z) (w : W) :
  (1 <= failureThreshold <= max_int64)%Z -> sn.1 <> "" -> state_is w serverID sn ->
  wp (Evaluate failureThreshold serverID ip b) (evaluated failureThreshold serverID sn b w) w.
Proof. intros Hth Hne Hs. by apply Evaluate_step. Qed.

Lemma Evaluate_effect_witness :
  wp (Evaluate 2 (MonitoringDeps0 := sample_deps) "s1" "10.0.0.1" true)
     (evaluated (MonitoringContract0 := sample_contract) 2 "s1" (ServerStatusUnknown, 0%Z) true sample_faults)
     sample_faults.
Proof.
  apply (Evaluate_effect 2); [unfold max_int64; lia|discriminate|].
  eexists. split; [reflexivity|by vm_compute].
Defined.


