(* ===== verification/Broker.v ===== *)
(** The stream subscriber that sms-management, sms-monitoring, sms-reporting
    and sms-notification carry a copy of
    (internal/infrastructure/messagebroker/redis_subscriber.go), and what it
    guarantees about the messages of a consumer group. *)
From stdpp Require Import sorting pretty.
From S2P Require Import Prelude GoStd Redis Host.

(** ** Messages *)
Record Message := { ID : string; Values : gmap string string }.

(** The client reads the fields of an entry into a map. *)
Definition values_of (fs : list (string * string)) : gmap string string :=
  foldl (fun h fv => <[fv.1 := fv.2]> h) ∅ fs.

Definition brokerMsg (e : entry) : Message :=
  {| ID := show_id (e_id e); Values := values_of (e_fields e) |}.

(** ** The subscriber *)
Section subscriber.
Context {W} {srv : Host W}.
Context (readCount : nat).            (* [Count] of the main loop *)
Context (stream group consumer : string) (handler : Message -> proc W (res unit)).

(** Hand a message over; acknowledge it if the handler succeeded. *)
Definition handle_message (e : entry) : proc W unit :=
  r <-- handler (brokerMsg e);
  match r with
  | Err _ => mret tt
  | Ok _ => rdb (XAck stream group (show_id (e_id e))) ;;- mret tt
  end.

(** One turn of the loop of [Subscribe]. *)
Definition read_once : proc W unit :=
  r <-- rdb (XReadNew stream group consumer readCount);
  match r with
  | Err _ => mret tt                    (* logged; the loop goes on *)
  | Ok messages => for_each handle_message messages
  end.

Fixpoint read_loop (turns : nat) : proc W unit :=
  match turns with
  | O => mret tt
  | S turns => read_once ;;- read_loop turns
  end.

(** [None]: the loop is still running after [fuel] turns. *)
Fixpoint recoverPendingMessages (fuel : nat) : proc W (option unit) :=
  match fuel with
  | O => mret None
  | S fuel =>
    r <-- rdb (XReadPending stream group consumer 50);
    match r with
    | Err _ => mret (Some tt)
    | Ok messages =>
      if bool_decide (messages = []) then mret (Some tt)
      else
        for_each handle_message messages ;;-
        if decide (length messages < 50) then mret (Some tt)
        else recoverPendingMessages fuel
    end
  end.

(** [Subscribe], until its context is cancelled after [turns] turns. *)
Definition Subscribe (fuel turns : nat) : proc W (option unit) :=
  rdb (XGroupCreate stream group) ;;-
  o <-- recoverPendingMessages fuel;
  match o with
  | None => mret None
  | Some _ => read_loop turns ;;- mret (Some tt)
  end.

Definition dlqKey : string := stream +:+ ":dlq_counters".
Definition dlqStream : string := stream +:+ ":dlq".

(** A claimed message: count the claim, give up at the third. *)
Definition handle_claimed (e : entry) : proc W unit :=
  let id := show_id (e_id e) in
  r <-- rdb (HIncrBy dlqKey id 1);
  let retries := match r with Ok n => n | Err _ => 0%Z end in
  if (3 <=? retries)%Z then
    rdb (XAdd dlqStream None (map_to_list (Values (brokerMsg e)))) ;;-
    rdb (XAck stream group id) ;;-
    rdb (HDel dlqKey id) ;;-
    mret tt
  else
    h <-- handler (brokerMsg e);
    match h with
    | Err _ => mret tt
    | Ok _ => rdb (XAck stream group id) ;;- rdb (HDel dlqKey id) ;;- mret tt
    end.

Definition minIdle : Z := 5 * Minute.

Fixpoint claim_loop (fuel : nat) (start : string) : proc W (option unit) :=
  match fuel with
  | O => mret None
  | S fuel =>
    r <-- rdb (XAutoClaim stream group consumer minIdle start 50);
    match r with
    | Err _ => mret (Some tt)
    | Ok (messages, nextStart) =>
      for_each handle_claimed messages ;;-
      if bool_decide (nextStart = "0-0" \/ nextStart = "") then mret (Some tt)
      else claim_loop fuel nextStart
    end
  end.

Definition claimAndProcessStaleMessages (fuel : nat) : proc W (option unit) := claim_loop fuel "-".

(** [autoClaimLoop] over [ticks] ticks of its timer. *)
Fixpoint autoClaimLoop (fuel ticks : nat) : proc W unit :=
  match ticks with
  | O => mret tt
  | S ticks => claimAndProcessStaleMessages fuel ;;- autoClaimLoop fuel ticks
  end.
End subscriber.

(** ** The group's state under the commands of the subscriber *)
Lemma group_at_update r k g f g' :
  group_at (set_stream k (update_group g f (stream_at r k)) r) k g' =
  if decide (g = g') then f <$> group_at r k g' else group_at r k g'.
Proof.
  rewrite group_at_set_stream. unfold update_group, group_at. cbn.
  destruct (decide (g = g')); [subst; by rewrite lookup_alter_eq|by rewrite lookup_alter_ne].
Qed.

Lemma entries_update r k g f k' :
  s_entries (stream_at (set_stream k (update_group g f (stream_at r k)) r) k') = s_entries (stream_at r k').
Proof.
  destruct (decide (k = k')); [subst; by rewrite stream_at_set_stream|by rewrite stream_at_set_stream_ne].
Qed.

(** The entries a group still owes to its consumers. *)
Definition owed (gr : group) : list entry := g_undelivered gr ++ map p_entry (g_pel gr).

Lemma deliver_owed c t n gr : owed (deliver c t n gr).2 ≡ₚ owed gr.
Proof.
  unfold owed, deliver. cbn. rewrite map_app, map_map. cbn. rewrite map_id.
  rewrite <- (take_drop n (g_undelivered gr)) at 3. solve_Permutation.
Qed.

Lemma redeliver_entries c t n pel : map p_entry (redeliver c t n pel).2 = map p_entry pel.
Proof.
  revert n. induction pel as [|p pel IH]; intros [|n]; cbn; try done.
  case_bool_decide.
  - specialize (IH n). destruct (redeliver c t n pel). cbn in *. by rewrite IH.
  - specialize (IH (S n)). destruct (redeliver c t (S n) pel). cbn in *. by rewrite IH.
Qed.

(** ** No message is lost

    [handled w] is the record of the identifiers of the messages that a
    handler has processed successfully, kept beside the world. *)
Section no_loss.
Context {W} {srv : Host W} `{!HostLaws srv}.
Context (readCount : nat) (stream group consumer : string).
Context (handler : Message -> proc W (res unit)) (handled : W -> list string).
Context `{!Frame srv handled}.

(** A handler may do what it likes with the rest of the world, but not touch
    the stream it is fed from; success is recorded. *)
Definition handler_keeps : Prop := forall m w,
  wp (handler m) (fun r w' =>
    stream_at (redis (view w')) stream = stream_at (redis (view w)) stream /\
    handled w ⊆ handled w' /\ (is_ok r = true -> ID m ∈ handled w')) w.
Context (Hhandler : handler_keeps).

(** A group that is not created yet will be owed the whole stream. *)
Definition owed_at (r : rstate) : list entry :=
  match group_at r stream group with
  | Some gr => owed gr
  | None => s_entries (stream_at r stream)
  end.

Lemma owed_at_update f r :
  owed_at (set_stream stream (update_group group f (stream_at r stream)) r) =
  match group_at r stream group with
  | Some gr => owed (f gr)
  | None => s_entries (stream_at r stream)
  end.
Proof.
  unfold owed_at. rewrite group_at_update, decide_True, entries_update by done.
  by destruct (group_at r stream group).
Qed.

(** Every entry of [es] is still owed, or was handled. *)
Definition accounted (es : list entry) (r : rstate) (done : list string) : Prop :=
  forall e, e ∈ es -> e ∈ owed_at r \/ show_id (e_id e) ∈ done.

Lemma accounted_update es r r' done :
  (forall e, e ∈ owed_at r -> e ∈ owed_at r' \/ show_id (e_id e) ∈ done) ->
  accounted es r done -> accounted es r' done.
Proof. intros H Hacc e He. destruct (Hacc e He); auto. Qed.

(** A command that keeps what is owed keeps the account. *)
Lemma wp_keeps_account {A} (c : rcmd A) es w :
  (forall t s', rfails t c (redis (view w)) s' -> s' = redis (view w) \/ exists a, rspec t c (redis (view w)) a s') ->
  (forall t a s', rspec t c (redis (view w)) a s' ->
     accounted es (redis (view w)) (handled w) -> accounted es s' (handled w)) ->
  accounted es (redis (view w)) (handled w) ->
  wp (rdb c) (fun _ w' => accounted es (redis (view w')) (handled w') /\ handled w' = handled w) w.
Proof.
  intros Hf Hc Hacc.
  eapply wp_mono; [apply wp_and; [apply (wp_frame srv handled)|
    apply (wp_rdb_keeps c (fun r => accounted es r (handled w))); [done| |done]]|].
  - intros t a s' Hs. by eapply Hc.
  - cbn. by intros a w' [-> H].
Qed.

Lemma ack_account es w id :
  id ∈ handled w -> accounted es (redis (view w)) (handled w) ->
  wp (rdb (XAck stream group id)) (fun _ w' =>
    accounted es (redis (view w')) (handled w') /\ handled w' = handled w) w.
Proof.
  intros Hid Hacc. apply wp_keeps_account; [all_or_nothing| |done].
  intros t [] s' -> . apply accounted_update. intros e. rewrite owed_at_update. unfold owed_at.
  destruct (group_at _ _ _) as [gr|]; [|by left].
  unfold owed. rewrite !elem_of_app. intros [He|He]; [auto|].
  destruct (decide (show_id (e_id e) = id)) as [->|Hne]; [by right|].
  left. right. apply list_elem_of_fmap in He as (p & -> & Hp). apply list_elem_of_fmap.
  exists p. split; [done|]. cbn. apply list_elem_of_In, filter_In. split; [by apply list_elem_of_In|].
  by rewrite (proj2 (String.eqb_neq _ _)).
Qed.

Lemma handle_message_account es e w :
  accounted es (redis (view w)) (handled w) ->
  wp (handle_message stream group handler e) (fun _ w' =>
    accounted es (redis (view w')) (handled w')) w.
Proof.
  intros Hacc. apply wp_bind. eapply wp_mono; [apply Hhandler|]. cbn.
  intros r w1 (Hs & Hsub & Hok).
  assert (accounted es (redis (view w1)) (handled w1)) as Hacc1.
  { intros e' He'. unfold owed_at, group_at. rewrite Hs. destruct (Hacc e' He'); auto. }
  destruct r as [u|e']; [|by apply wp_ret].
  apply wp_bind. eapply wp_mono; [apply (ack_account es); [by apply Hok|done]|].
  intros a w2 [H _]. by apply wp_ret.
Qed.

Lemma handle_batch_account es l w :
  accounted es (redis (view w)) (handled w) ->
  wp (for_each (handle_message stream group handler) l) (fun _ w' =>
    accounted es (redis (view w')) (handled w')) w.
Proof.
  intros Hacc. apply (wp_for_each _ (fun _ w => accounted es (redis (view w)) (handled w))); [done|].
  intros e l' w' H. by apply handle_message_account.
Qed.

(** Reading, new or pending, moves entries but owes the same. *)
Lemma moves_account r f es done s' :
  (forall gr, owed (f gr) ≡ₚ owed gr) ->
  s' = set_stream stream (update_group group f (stream_at r stream)) r ->
  accounted es r done -> accounted es s' done.
Proof.
  intros Hf ->. apply accounted_update. intros e. rewrite owed_at_update. unfold owed_at.
  destruct (group_at r stream group) as [gr|]; [|by left]. rewrite Hf. by left.
Qed.

Lemma read_once_account es w :
  accounted es (redis (view w)) (handled w) ->
  wp (read_once readCount stream group consumer handler) (fun _ w' =>
    accounted es (redis (view w')) (handled w')) w.
Proof.
  intros Hacc. apply wp_bind. eapply wp_mono.
  - apply (wp_keeps_account _ es); [all_or_nothing| |done]. intros t a s'. cbn.
    destruct (group_at (redis (view w)) stream group); [|by intros [_ ->]].
    intros [_ ->]. eapply moves_account; [|done]. intros gr. apply deliver_owed.
  - cbn. intros [l|e] w1 [H _]; [by apply handle_batch_account|by apply wp_ret].
Qed.

Lemma recover_account fuel es w :
  accounted es (redis (view w)) (handled w) ->
  wp (recoverPendingMessages stream group consumer handler fuel) (fun _ w' =>
    accounted es (redis (view w')) (handled w')) w.
Proof.
  revert w. induction fuel as [|fuel IH]; intros w Hacc; cbn [recoverPendingMessages]; [by apply wp_ret|].
  apply wp_bind. eapply wp_mono.
  - apply (wp_keeps_account _ es); [all_or_nothing| |done]. intros t a s'. cbn.
    destruct (group_at (redis (view w)) stream group); [|by intros [_ ->]].
    intros [_ ->]. eapply moves_account; [|done]. intros gr. unfold owed. cbn.
    by rewrite redeliver_entries.
  - cbn. intros [l|e] w1 [H _]; [|by apply wp_ret].
    case_bool_decide; [by apply wp_ret|].
    apply wp_bind. eapply wp_mono; [by apply handle_batch_account|]. cbn. intros _ w2 H2.
    destruct (decide _); [by apply wp_ret|by apply IH].
Qed.

Lemma read_loop_account turns es w :
  accounted es (redis (view w)) (handled w) ->
  wp (read_loop readCount stream group consumer handler turns) (fun _ w' =>
    accounted es (redis (view w')) (handled w')) w.
Proof.
  revert w. induction turns as [|turns IH]; intros w Hacc; cbn; [by apply wp_ret|].
  apply wp_bind. eapply wp_mono; [by apply read_once_account|]. cbn. intros _ w1 H1. by apply IH.
Qed.

(** A new group owes every entry of its stream; an existing one is kept. *)
Lemma create_account es w :
  accounted es (redis (view w)) (handled w) ->
  wp (rdb (XGroupCreate stream group)) (fun _ w' =>
    accounted es (redis (view w')) (handled w')) w.
Proof.
  intros Hacc. eapply wp_mono; [apply (wp_keeps_account _ es); [all_or_nothing| |done]|by intros ? ? []].
  intros t a s'. cbn. destruct (group_at (redis (view w)) stream group) eqn:E; [by intros [_ ->]|].
  intros [_ ->]. apply accounted_update. intros e. unfold owed_at.
  rewrite E, group_at_set_stream. cbn. rewrite lookup_insert_eq. unfold owed. cbn.
  rewrite app_nil_r. by left.
Qed.
End no_loss.

(** ** What a batch leaves pending *)

(** The pending entries after the successes of the batch [es] are acknowledged. *)
Definition acknowledged (fails : N -> bool) (es : list N) (pel : list pending) : list pending :=
  List.filter (fun p => let id := e_id (p_entry p) in
    negb (bool_decide (id ∈ es) && negb (fails id))) pel.

Lemma acknowledged_nil fails pel : acknowledged fails [] pel = pel.
Proof. induction pel as [|p pel IH]; cbn; [done|]. f_equal. exact IH. Qed.

Lemma filter_filter {A} (f g : A -> bool) l :
  List.filter f (List.filter g l) = List.filter (fun x => g x && f x) l.
Proof. induction l as [|x l IH]; cbn; [done|]. destruct (g x); cbn; destruct (f x); by rewrite IH. Qed.

Lemma filter_of_map {A B} (g : A -> B) (f : B -> bool) l :
  List.filter f (map g l) = map g (List.filter (fun x => f (g x)) l).
Proof. induction l as [|x l IH]; cbn; [done|]. destruct (f (g x)); cbn; by rewrite IH. Qed.

Lemma filter_In_iff {A} (f : A -> bool) l x : x ∈ List.filter f l <-> x ∈ l /\ f x = true.
Proof. rewrite !list_elem_of_In. apply filter_In. Qed.

Lemma ack_acknowledged fails e es u pel :
  fails e = false ->
  acknowledged fails es (g_pel (ack (show_id e) (Group u pel))) = acknowledged fails (e :: es) pel.
Proof.
  intros Hf. unfold acknowledged, ack. cbn. rewrite filter_filter.
  apply filter_ext. intros p.
  destruct (String.eqb_spec (show_id (e_id (p_entry p))) (show_id e)) as [E|E]; cbn.
  - apply show_id_inj in E. subst. rewrite Hf, bool_decide_eq_true_2 by set_solver. done.
  - f_equal. f_equal. apply bool_decide_ext. rewrite elem_of_cons. split; [by right|].
    intros [<-|]; [by destruct E|done].
Qed.

(** The identifiers pending for a consumer. *)
Definition mine (c : string) (pel : list pending) : list N :=
  map (fun p => e_id (p_entry p)) (List.filter (fun p => bool_decide (p_consumer p = c)) pel).

(** Those of [k] that survive the batch [b]. *)
Definition survivors (fails : N -> bool) (b k : list N) : list N :=
  List.filter (fun id => negb (bool_decide (id ∈ b) && negb (fails id))) k.

Lemma mine_acknowledged fails c b pel :
  mine c (acknowledged fails b pel) = survivors fails b (mine c pel).
Proof.
  unfold mine, acknowledged, survivors. cbn zeta.
  rewrite filter_of_map, !filter_filter. f_equal. apply filter_ext. intros p. apply andb_comm.
Qed.

Lemma redeliver_mine c t n pel :
  map e_id (redeliver c t n pel).1 = take n (mine c pel) /\ mine c (redeliver c t n pel).2 = mine c pel.
Proof.
  revert n. induction pel as [|p pel IH]; intros [|n]; cbn; try done.
  unfold mine in *. cbn. case_bool_decide.
  - destruct (IH n) as [H1 H2]. destruct (redeliver c t n pel). cbn in *.
    rewrite bool_decide_eq_true_2 by done. cbn. by rewrite H1, H2.
  - destruct (IH (S n)) as [H1 H2]. destruct (redeliver c t (S n) pel). cbn in *.
    rewrite bool_decide_eq_false_2 by done. by rewrite H1, H2.
Qed.

Lemma map_read_back st es : map e_id (map (read_back st) es) = map e_id es.
Proof. rewrite map_map. apply map_ext. intros e. unfold read_back. by case_match. Qed.

(** The failing ones always survive, and if the whole batch does not fail
    something goes. *)
Lemma survivors_fails fails b k : List.filter fails (survivors fails b k) = List.filter fails k.
Proof.
  unfold survivors. rewrite filter_filter. apply filter_ext. intros id.
  destruct (fails id); cbn; [by rewrite andb_false_r|by rewrite andb_false_r].
Qed.

Lemma survivors_all fails k : survivors fails k k = List.filter fails k.
Proof.
  apply List.filter_ext_in. intros id Hid%list_elem_of_In.
  rewrite bool_decide_eq_true_2 by done. cbn. by rewrite negb_involutive.
Qed.

Lemma filter_length_lt {A} (f : A -> bool) l x :
  x ∈ l -> f x = false -> length (List.filter f l) < length l.
Proof.
  induction l as [|y l IH]; intros Hx Hf; [by apply elem_of_nil in Hx|]. cbn.
  apply elem_of_cons in Hx as [<-|Hx].
  - rewrite Hf. pose proof (List.filter_length_le f l). lia.
  - specialize (IH Hx Hf). destruct (f y); cbn; lia.
Qed.

Lemma survivors_progress fails n k :
  length (List.filter fails k) < n -> n <= length k ->
  length (survivors fails (take n k) k) < length k.
Proof.
  intros Hf Hn.
  assert (exists x, x ∈ take n k /\ fails x = false) as (x & Hx & Hfx).
  { destruct (Forall_Exists_dec _ _ (fun x => Sumbool.sumbool_of_bool (fails x)) (take n k)) as [H|H].
    - assert (List.filter fails (take n k) = take n k) as E.
      { apply List.forallb_filter_id, List.forallb_forall. intros x Hx.
        rewrite Forall_forall in H. by apply H, list_elem_of_In. }
      rewrite <- (take_drop n k), List.filter_app, E, length_app, length_take_le in Hf by done. lia.
    - by apply Exists_exists in H. }
  apply (filter_length_lt _ _ x); [eapply subseteq_take, Hx|].
  rewrite bool_decide_eq_true_2 by done. by rewrite Hfx.
Qed.

Section outcome.
Context {W} {srv : Host W} `{!HostLaws srv} `{!Reliable srv}.
Context (readCount : nat) (stream group consumer : string).
Context (handler : Message -> proc W (res unit)) (fails : N -> bool).

(** The handler's answer depends on the message alone. *)
Definition handler_answers : Prop := forall e w,
  wp (handler (brokerMsg e)) (fun r w' =>
    stream_at (redis (view w')) stream = stream_at (redis (view w)) stream /\
    is_ok r = negb (fails (e_id e))) w.
Context (Hhandler : handler_answers).

Lemma handle_batch_outcome l u pel w :
  group_at (redis (view w)) stream group = Some (Group u pel) ->
  wp (for_each (handle_message stream group handler) l) (fun _ w' =>
    group_at (redis (view w')) stream group = Some (Group u (acknowledged fails (map e_id l) pel))) w.
Proof.
  revert pel w. induction l as [|e l IH]; intros pel w Hg; cbn [for_each map].
  { apply wp_ret. by rewrite acknowledged_nil. }
  do 2 apply wp_bind. eapply wp_mono; [apply Hhandler|]. cbn. intros r w1 [Hs Hr].
  assert (group_at (redis (view w1)) stream group = Some (Group u pel)) as Hg1
    by (unfold group_at in *; by rewrite Hs).
  destruct r as [u'|e']; cbn in Hr.
  - apply wp_bind, wp_rdb_reliable. intros [] w2 t s' _ Hv ->. apply wp_ret.
    eapply wp_mono; [apply IH; rewrite Hv; cbn [redis];
      rewrite group_at_update, decide_True, Hg1 by done; reflexivity|]. cbn.
    intros _ w3 ->. f_equal. f_equal.
    apply (ack_acknowledged fails (e_id e) (map e_id l) u pel). by destruct (fails (e_id e)).
  - apply wp_ret. eapply wp_mono; [by apply IH|]. cbn. intros _ w3 ->. f_equal. f_equal.
    apply filter_ext. intros p. cbn zeta.
    destruct (fails (e_id (p_entry p))) eqn:Hf; cbn [negb]; [by rewrite !andb_false_r|].
    do 2 f_equal. apply bool_decide_ext. rewrite elem_of_cons.
    split; [by right|]. intros [E|]; [|done]. rewrite E in Hf. by rewrite Hf in Hr.
Qed.

(** One turn of recovery: the consumer's first 50, and what is left of them. *)
Lemma recover_turn u pel w (Q : res (list entry) -> W -> Prop) :
  group_at (redis (view w)) stream group = Some (Group u pel) ->
  (forall es w' pel', map e_id es = take 50 (mine consumer pel) ->
     mine consumer pel' = mine consumer pel ->
     group_at (redis (view w')) stream group = Some (Group u pel') -> Q (Ok es) w') ->
  wp (rdb (XReadPending stream group consumer 50)) Q w.
Proof.
  intros Hg HQ. apply wp_rdb_reliable. intros es w' t s' _ Hv. cbn. rewrite Hg.
  intros [-> ->]. destruct (redeliver_mine consumer t 50 pel) as [H1 H2]. cbn [g_pel].
  eapply HQ; [by rewrite map_read_back|exact H2|].
  rewrite Hv. cbn [redis]. by rewrite group_at_update, decide_True, Hg by done.
Qed.

Lemma recover_terminates fuel u pel w :
  group_at (redis (view w)) stream group = Some (Group u pel) ->
  length (List.filter fails (mine consumer pel)) < 50 -> length (mine consumer pel) < fuel ->
  wp (recoverPendingMessages stream group consumer handler fuel) (fun o w' =>
    o = Some tt /\ exists pel', group_at (redis (view w')) stream group = Some (Group u pel') /\
      mine consumer pel' = List.filter fails (mine consumer pel)) w.
Proof.
  revert pel w. induction fuel as [|fuel IH]; intros pel w Hg Hf Hl; [lia|].
  cbn [recoverPendingMessages]. apply wp_bind, (recover_turn u pel); [done|].
  intros es w1 pel1 Hes Hm Hg1. rewrite <- Hm in *. clear Hm Hg pel w. case_bool_decide as Hnil.
  - apply wp_ret. split; [done|]. exists pel1. split; [done|]. subst. cbn in Hes.
    by destruct (mine consumer pel1).
  - apply wp_bind. eapply wp_mono; [by apply handle_batch_outcome|]. cbn. intros _ w2 Hg2.
    assert (length es = length (take 50 (mine consumer pel1))) as Hlen by (by rewrite <- Hes, length_map).
    rewrite length_take in Hlen.
    destruct (decide _) as [Hlt|Hge].
    + apply wp_ret. split; [done|]. eexists. split; [done|].
      rewrite mine_acknowledged, Hes, take_ge by lia. apply survivors_all.
    + eapply wp_mono; [apply (IH _ w2 Hg2)|]; rewrite ?mine_acknowledged, ?Hes, ?survivors_fails; [done| |done].
      pose proof (survivors_progress fails 50 (mine consumer pel1)). lia.
Qed.

Lemma recover_diverges fuel u pel w :
  group_at (redis (view w)) stream group = Some (Group u pel) ->
  50 <= length (List.filter fails (mine consumer pel)) ->
  wp (recoverPendingMessages stream group consumer handler fuel) (fun o _ => o = None) w.
Proof.
  revert pel w. induction fuel as [|fuel IH]; intros pel w Hg Hf; [by apply wp_ret|].
  cbn [recoverPendingMessages]. apply wp_bind, (recover_turn u pel); [done|].
  intros es w1 pel1 Hes Hm Hg1. rewrite <- Hm in *. clear Hm Hg pel w.
  assert (50 <= length es) as Hlen.
  { rewrite <- (length_map e_id), Hes, length_take. pose proof (List.filter_length_le fails (mine consumer pel1)). lia. }
  case_bool_decide as Hnil; [subst; cbn in Hlen; lia|].
  apply wp_bind. eapply wp_mono; [by apply handle_batch_outcome|]. cbn. intros _ w2 Hg2.
  destruct (decide _) as [Hlt|Hge]; [lia|].
  eapply IH; [done|]. by rewrite mine_acknowledged, survivors_fails.
Qed.
End outcome.

(** ** Stale messages: claimed, retried, dead-lettered *)
Lemma values_of_map (l : list (string * string)) : values_of l = list_to_map (reverse l).
Proof.
  unfold values_of. induction l as [|[k v] l IH] using rev_ind; [done|].
  by rewrite foldl_app, reverse_app, IH.
Qed.

Lemma values_of_map_to_list (m : gmap string string) : values_of (map_to_list m) = m.
Proof.
  rewrite values_of_map. trans (list_to_map (M := gmap string string) (map_to_list m));
    [|apply list_to_map_to_list]. apply list_to_map_proper.
  - rewrite reverse_Permutation. apply NoDup_fst_map_to_list.
  - apply reverse_Permutation.
Qed.

Lemma str_app_ne (s t : string) : t <> "" -> s +:+ t <> s.
Proof.
  intros Ht. induction s as [|c s IH]; cbn; [done|]. unfold not in *. intros E. apply IH.
  change (String c (s +:+ t) = String c s) in E. congruence.
Qed.

(** What a claim leaves pending: everything but what the stream has trimmed. *)
Definition claim_keeps (st : stream) (pel : list pending) (r : list entry * list pending * string) : Prop :=
  r.1.1 ⊆ map p_entry pel /\ map p_entry r.1.2 ⊆ map p_entry pel /\
  forall e, e ∈ map p_entry pel -> e ∈ map p_entry r.1.2 \/ e ∉ s_entries st.

Lemma claim_keeps_none st pel next : claim_keeps st pel ([], pel, next).
Proof. split; [apply list_subseteq_nil|]. split; [done|]. by left. Qed.

(** One more entry in front: claimed, passed over, or dropped. *)
Lemma claim_keeps_cons st p pel c t r :
  claim_keeps st pel r ->
  let '(es, pel', next) := r in
  claim_keeps st (p :: pel) (p_entry p :: es, Pending (p_entry p) c t :: pel', next) /\
  claim_keeps st (p :: pel) (es, p :: pel', next) /\
  (p_entry p ∉ s_entries st -> claim_keeps st (p :: pel) (es, pel', next)).
Proof.
  destruct r as [[es pel'] next]. intros (H1 & H2 & H3). cbn [fst snd] in *.
  unfold claim_keeps. cbn [fst snd map p_entry].
  assert (forall e, e ∈ p_entry p :: map p_entry pel -> e ∈ p_entry p :: map p_entry pel' \/ e ∉ s_entries st) as H.
  { intros e [->|He]%elem_of_cons; [left; by apply elem_of_cons; left|].
    destruct (H3 e He); [left; by apply elem_of_cons; right|by right]. }
  refine (conj (conj _ (conj _ H)) (conj (conj _ (conj _ H)) _));
    try (by apply list_subseteq_skip); try (by apply list_subseteq_cons).
  intros Hp. refine (conj _ (conj _ _)); [by apply list_subseteq_cons..|].
  intros e [->|He]%elem_of_cons; [by right|auto].
Qed.

Lemma claim_scan_keeps st c t mi n m pel : claim_keeps st pel (claim_scan st c t mi n m pel).
Proof.
  revert n m. induction pel as [|p pel IH]; intros [|n] [|m]; try apply claim_keeps_none.
  cbn [claim_scan]. unfold present. destruct (_ <=? _)%Z; [case_bool_decide|].
  - pose proof (claim_keeps_cons st p pel c t _ (IH n m)) as Hk.
    destruct (claim_scan st c t mi n m pel) as [[es pel''] next]. apply Hk.
  - pose proof (claim_keeps_cons st p pel c t _ (IH (S n) m)) as Hk.
    destruct (claim_scan st c t mi (S n) m pel) as [[es pel''] next]. by apply Hk.
  - pose proof (claim_keeps_cons st p pel c t _ (IH (S n) m)) as Hk.
    destruct (claim_scan st c t mi (S n) m pel) as [[es pel''] next]. apply Hk.
Qed.

Lemma claim_from_keeps st start c t mi n pel : claim_keeps st pel (claim_from st start c t mi n pel).
Proof.
  induction pel as [|p pel IH]; [apply claim_keeps_none|]. cbn [claim_from].
  destruct (reached start _); [apply claim_scan_keeps|].
  pose proof (claim_keeps_cons st p pel c t _ IH) as Hk.
  destruct (claim_from st start c t mi n pel) as [[es pel''] next]. apply Hk.
Qed.

Lemma autoclaim_owed st start c t mi n gr :
  let '(l, gr', _) := autoclaim st start c t mi n gr in
  l ⊆ owed gr /\ owed gr' ⊆ owed gr /\
  forall e, e ∈ owed gr -> e ∈ owed gr' \/ e ∉ s_entries st.
Proof.
  unfold autoclaim. pose proof (claim_from_keeps st start c t mi n (g_pel gr)) as (H1 & H2 & H3).
  destruct (claim_from _ _ _ _ _ _ _) as [[l pel'] next]. cbn [fst snd] in *. unfold owed. cbn [g_undelivered g_pel].
  split; [|split].
  - intros e He. apply elem_of_app. right. by apply H1.
  - intros e. rewrite !elem_of_app. intros [|He]; [by left|right; by apply H2].
  - intros e. rewrite !elem_of_app. intros [|He]; [by left; left|]. destruct (H3 e He); auto.
Qed.

Section dead_letters.
Context {W} {srv : Host W} `{!HostLaws srv} `{!Reliable srv}.
Context (stream group consumer : string).
Context (handler : Message -> proc W (res unit)) (handled : W -> list string).
Context `{!Frame srv handled}.

(** As [handler_keeps], for the dead-letter stream too. *)
Definition handler_keeps_dlq : Prop := forall m w,
  wp (handler m) (fun r w' =>
    stream_at (redis (view w')) stream = stream_at (redis (view w)) stream /\
    stream_at (redis (view w')) (dlqStream stream) = stream_at (redis (view w)) (dlqStream stream) /\
    handled w ⊆ handled w' /\ (is_ok r = true -> ID m ∈ handled w')) w.
Context (Hhandler : handler_keeps_dlq).
Context (es live : list entry).
Context (Hunique : forall e e', e ∈ es -> e' ∈ es -> e_id e = e_id e' -> e = e').

Definition dead (r : rstate) (e : entry) : Prop :=
  exists d, d ∈ s_entries (stream_at r (dlqStream stream)) /\
    values_of (e_fields d) = values_of (e_fields e).

(** Every entry of [es] is owed, handled, trimmed by Redis or dead-lettered. *)
Definition claim_account (w : W) : Prop :=
  let r := redis (view w) in
  s_entries (stream_at r stream) = live /\ owed_at stream group r ⊆ es /\
  forall e, e ∈ es ->
    e ∈ owed_at stream group r \/ show_id (e_id e) ∈ handled w \/ e ∉ live \/ dead r e.

Lemma dlq_ne : dlqStream stream <> stream.
Proof. by apply str_app_ne. Qed.

Lemma claim_account_same w w' :
  stream_at (redis (view w')) stream = stream_at (redis (view w)) stream ->
  (forall e, dead (redis (view w)) e -> dead (redis (view w')) e) ->
  handled w ⊆ handled w' -> claim_account w -> claim_account w'.
Proof.
  intros Hs Hd Hh (Hl & Ho & Hacc).
  assert (owed_at stream group (redis (view w')) = owed_at stream group (redis (view w))) as E
    by (unfold owed_at, group_at; by rewrite Hs).
  split; [by rewrite Hs|]. split; [by rewrite E|]. rewrite E.
  intros e He. destruct (Hacc e He) as [|[|[|]]]; auto.
Qed.

(** A command that touches neither stream. *)
Lemma claim_account_hash {A} (c : rcmd A) w :
  (forall t a s', rspec t c (redis (view w)) a s' -> r_stream s' = r_stream (redis (view w))) ->
  claim_account w -> wp (rdb c) (fun _ w' => claim_account w' /\ handled w' = handled w /\
    r_stream (redis (view w')) = r_stream (redis (view w))) w.
Proof.
  intros Hc Hacc. eapply wp_mono; [apply wp_and; [apply (wp_frame srv handled)|
    apply wp_rdb_reliable with (Q := fun _ w' => r_stream (redis (view w')) = r_stream (redis (view w)))]|].
  - intros a w' t s' _ Hv Hs. rewrite Hv. by eapply Hc.
  - cbn. intros a w' [Hh Hr]. split; [|done]. eapply claim_account_same; [| | |done].
    + unfold stream_at. by rewrite Hr.
    + unfold dead, stream_at. by rewrite Hr.
    + by rewrite Hh.
Qed.

(** Acknowledging is safe once the entry is handled, trimmed or dead. *)
Lemma claim_account_ack e w :
  e ∈ es -> show_id (e_id e) ∈ handled w \/ dead (redis (view w)) e -> claim_account w ->
  wp (rdb (XAck stream group (show_id (e_id e)))) (fun _ w' => claim_account w') w.
Proof.
  intros He Hsafe (Hl & Ho & Hacc).
  eapply wp_mono; [apply wp_and; [apply (wp_frame srv handled)|
    apply wp_rdb_reliable with (Q := fun _ w' => rspec 0 (XAck stream group (show_id (e_id e))) (redis (view w)) tt (redis (view w')))]|].
  { intros [] w' t s' _ -> Hs. exact Hs. }
  cbn. intros _ w' [Hh Hr]. unfold claim_account. rewrite Hr, Hh.
  set (r' := set_stream _ _ _).
  assert (forall e', dead (redis (view w)) e' -> dead r' e') as Hd.
  { intros e'. unfold dead, r'. by rewrite stream_at_set_stream_ne by (apply not_eq_sym, dlq_ne). }
  assert (owed_at stream group r' ⊆ owed_at stream group (redis (view w)) /\
    forall e', e' ∈ owed_at stream group (redis (view w)) -> e' ∈ owed_at stream group r' \/ e_id e' = e_id e)
    as [H1 H2].
  { unfold r'. rewrite owed_at_update. unfold owed_at.
    destruct (group_at _ _ _) as [gr|]; [|by split; [|left]]. unfold owed. cbn. split.
    - intros x. rewrite !elem_of_app, !list_elem_of_fmap. intros [|(p & -> & Hp%filter_In_iff)]; [by left|].
      right. exists p. naive_solver.
    - intros x. rewrite !elem_of_app, !list_elem_of_fmap. intros [|(p & -> & Hp)]; [by left; left|].
      destruct (String.eqb_spec (show_id (e_id (p_entry p))) (show_id (e_id e))) as [E|E];
        [right; by apply show_id_inj|].
      left. right. exists p. split; [done|]. apply filter_In_iff. split; [done|].
      by rewrite (proj2 (String.eqb_neq _ _)). }
  split; [unfold r'; by rewrite entries_update|]. split; [set_solver|].
  intros e' He'. destruct (Hacc e' He') as [Ho'|[|[|]]]; auto.
  destruct (H2 e' Ho') as [|E]; [by auto|].
  rewrite (Hunique e' e He' He E). naive_solver.
Qed.

(** The dead letter carries the fields of the entry. *)
Lemma claim_account_dlq e w :
  claim_account w ->
  wp (rdb (XAdd (dlqStream stream) None (map_to_list (Values (brokerMsg e)))))
     (fun _ w' => claim_account w' /\ dead (redis (view w')) e) w.
Proof.
  intros Hacc. eapply wp_mono; [apply wp_and; [apply (wp_frame srv handled)|
    apply wp_rdb_reliable with (Q := fun _ w' =>
      rspec 0 (XAdd (dlqStream stream) None (map_to_list (Values (brokerMsg e)))) (redis (view w)) tt (redis (view w')))]|].
  { intros [] w' t s' _ -> Hs. exact Hs. }
  cbn. intros _ w' [Hh (st & (keep & Hkeep & ->) & Hr)].
  destruct Hkeep as [Hkeep|(n & Hn & _)]; [|done].
  pose proof (append_entry_all keep (map_to_list (values_of (e_fields e))) _ Hkeep) as Happ.
  split.
  - apply (claim_account_same w); [| |by rewrite Hh|done]; rewrite Hr.
    + by rewrite stream_at_set_stream_ne by apply dlq_ne.
    + intros e' (d & Hd & Hv). exists d. rewrite stream_at_set_stream, Happ. set_solver.
  - eexists. rewrite Hr, stream_at_set_stream, Happ. split.
    + apply elem_of_app. right. by left.
    + cbn. apply values_of_map_to_list.
Qed.

Lemma handle_claimed_account e w :
  e ∈ es -> claim_account w ->
  wp (handle_claimed stream group handler e) (fun _ w' => claim_account w') w.
Proof.
  intros He Hacc. apply wp_bind. eapply wp_mono; [apply claim_account_hash; [|done]|].
  { cbn. by intros t a s' [_ ->]. }
  cbn. intros r w1 (Hacc1 & _ & _).
  assert (forall w, claim_account w -> wp (rdb (HDel (dlqKey stream) (show_id (e_id e))) ;;- mret tt)
    (fun _ w' => claim_account w') w) as Hdel.
  { intros w0 H0. apply wp_bind. eapply wp_mono; [apply claim_account_hash; [|done]|].
    - cbn. by intros t a s' ->.
    - cbn. intros _ w' [H' _]. by apply wp_ret. }
  destruct (3 <=? _)%Z.
  - apply wp_bind. eapply wp_mono; [by apply claim_account_dlq|]. cbn. intros _ w2 [Hacc2 Hd].
    apply wp_bind. eapply wp_mono; [apply claim_account_ack; auto|]. cbn. auto.
  - apply wp_bind. eapply wp_mono; [apply Hhandler|]. cbn. intros h w2 (Hs & Hs' & Hh & Hok).
    assert (claim_account w2) as Hacc2.
    { eapply claim_account_same; [done| |done|done]. unfold dead. by rewrite Hs'. }
    destruct h as [u|e']; [|by apply wp_ret].
    apply wp_bind. eapply wp_mono; [apply claim_account_ack; [done|left; by apply Hok|done]|]. cbn. auto.
Qed.

(** Claiming itself drops only trimmed entries. *)
Lemma autoclaim_account start w (Q : res (list entry * string) -> W -> Prop) :
  claim_account w ->
  (forall l next w', claim_account w' -> l ⊆ es -> Q (Ok (l, next)) w') ->
  wp (rdb (XAutoClaim stream group consumer minIdle start 50)) Q w.
Proof.
  intros (Hl & Ho & Hacc) HQ.
  eapply wp_mono; [apply wp_and; [apply (wp_frame srv handled)|
    apply wp_rdb_reliable with (Q := fun a w' => exists r t, a = Ok r /\
      rspec t (XAutoClaim stream group consumer minIdle start 50) (redis (view w)) r (redis (view w')))]|].
  { intros a w' t s' _ -> Hs. eauto. }
  cbn. intros _ w' [Hh ([l next] & t & -> & Hs)].
  destruct (group_at (redis (view w)) stream group) as [gr|] eqn:Hg.
  2:{ destruct Hs as [[= -> ->] Hs]. apply HQ; [|apply list_subseteq_nil].
      unfold claim_account. by rewrite Hs, Hh. }
  destruct Hs as [Hr Hs]. rewrite <- Hl in Hacc.
  assert (owed_at stream group (redis (view w)) = owed gr) as Eo by (unfold owed_at; by rewrite Hg).
  pose proof (autoclaim_owed (stream_at (redis (view w)) stream) start consumer t minIdle 50 gr) as Hgr.
  destruct (autoclaim _ _ _ _ _ _ gr) as [[l' gr'] next'] eqn:Ea.
  destruct Hgr as (H1 & H2 & H3). injection Hr as -> ->. rewrite Eo in *.
  assert (owed_at stream group (redis (view w')) = owed gr') as Eo'.
  { by rewrite Hs, owed_at_update, Hg, Ea. }
  apply HQ; [|set_solver]. unfold claim_account. rewrite Eo', Hh.
  split; [by rewrite Hs, entries_update|]. split; [set_solver|].
  intros e He. rewrite <- Hl. destruct (Hacc e He) as [Ho'|[|[|(d & Hd & Hv)]]]; [|by auto|by auto|].
  - destruct (H3 e Ho'); auto.
  - do 3 right. exists d. by rewrite Hs, stream_at_set_stream_ne by (apply not_eq_sym, dlq_ne).
Qed.

Lemma claim_loop_account fuel start w :
  claim_account w ->
  wp (claim_loop stream group consumer handler fuel start) (fun _ w' => claim_account w') w.
Proof.
  revert start w. induction fuel as [|fuel IH]; intros start w Hacc; cbn [claim_loop]; [by apply wp_ret|].
  apply wp_bind, autoclaim_account; [done|]. intros l next w1 H1 Hl.
  apply wp_bind. eapply wp_mono.
  - apply (wp_for_each _ (fun l w => l ⊆ es /\ claim_account w)); [done|].
    intros e l' w' [Hl' H']. eapply wp_mono; [apply handle_claimed_account; [set_solver|done]|].
    cbn. intros _ w'' H''. split; [set_solver|done].
  - cbn. intros _ w2 [_ H2]. case_bool_decide; [by apply wp_ret|by apply IH].
Qed.
End dead_letters.

(** ** The sweep of the stale messages ends *)
Definition ids (pel : list pending) : list N := map (fun p => e_id (p_entry p)) pel.

(** What is pending in the group; it was delivered in the order of the stream. *)
Definition pel_at (r : rstate) (stream group : string) : list pending :=
  match group_at r stream group with Some gr => g_pel gr | None => [] end.
Definition in_order (l : list N) : Prop := StronglySorted N.lt l.

Lemma sublist_in_order l l' : sublist l l' -> in_order l' -> in_order l.
Proof.
  unfold in_order. induction 1 as [|x l l' Hs IH|x l l' Hs IH]; intros H; [constructor| |].
  - apply StronglySorted_inv in H as [H Hx]. constructor; [auto|]. rewrite Forall_forall in Hx |- *.
    intros y Hy. apply Hx. by eapply elem_of_sublist.
  - apply StronglySorted_inv in H as [H _]. auto.
Qed.

Lemma sublist_count (f : N -> bool) l l' :
  sublist l l' -> length (List.filter f l) <= length (List.filter f l').
Proof. induction 1 as [|x l l' _ IH|x l l' _ IH]; cbn; [done| |]; destruct (f x); cbn; lia. Qed.

Lemma reached_show q id : reached (show_id q) id = (q <=? id)%N.
Proof.
  unfold reached, show_id. destruct (String.eqb_spec (pretty q) "-") as [E|_].
  { apply pretty_N_digit in E as [d Hd]. done. }
  rewrite digits_pretty_N. cbn. destruct (N.leb_spec q id), (Z.leb_spec (Z.of_N q) (Z.of_N id)); lia || done.
Qed.

Lemma reached_later start i j : reached start i = true -> (i <= j)%N -> reached start j = true.
Proof.
  unfold reached. destruct (String.eqb start "-"); [done|]. cbn. destruct (digits start); [|done].
  rewrite !Z.leb_le. lia.
Qed.

(** The cursor of a claim: the end, or a later entry of the list. *)
Definition goes_on (next : string) (l : list N) : Prop := next = "0-0" \/ exists q, next = show_id q /\ q ∈ l.

Lemma goes_on_cons next x l : goes_on next l -> goes_on next (x :: l).
Proof. intros [|(q & ? & ?)]; [by left|right]. exists q. split; [done|]. by right. Qed.

Lemma claim_scan_cursor st c t mi n m pel :
  let r := claim_scan st c t mi n m pel in
  sublist (ids r.1.2) (ids pel) /\ goes_on r.2 (ids (if decide (0 < n /\ 0 < m) then tail pel else pel)).
Proof.
  revert n m. induction pel as [|p pel IH]; intros n m; [by destruct n, m; (split; [constructor|left])|].
  destruct n as [|n], m as [|m]; try (split; [reflexivity|right; eexists; split; [done|by left]]).
  rewrite decide_True by lia. cbn [claim_scan tail].
  assert (forall n' m', goes_on (claim_scan st c t mi n' m' pel).2 (ids pel)) as Hnext.
  { intros n' m'. destruct (IH n' m') as [_ H]. case_decide; [|done]. by destruct pel; [|apply goes_on_cons]. }
  destruct (_ <=? _)%Z; [destruct (present st (p_entry p))|].
  - specialize (Hnext n m). destruct (IH n m) as [Hs _].
    destruct (claim_scan st c t mi n m pel) as [[es l] next]. split; [by constructor|done].
  - specialize (Hnext (S n) m). destruct (IH (S n) m) as [Hs _]. split; [by constructor|done].
  - specialize (Hnext (S n) m). destruct (IH (S n) m) as [Hs _].
    destruct (claim_scan st c t mi (S n) m pel) as [[es l] next]. split; [by constructor|done].
Qed.

Lemma count_all (f : N -> bool) l : (forall x, x ∈ l -> f x = true) -> length (List.filter f l) = length l.
Proof.
  induction l as [|x l IH]; intros H; [done|]. cbn. rewrite H by by left. cbn. f_equal. apply IH.
  intros y Hy. apply H. by right.
Qed.

(** The entries from the new cursor on are fewer than those from the old one. *)
Lemma claim_from_cursor st start c t mi n pel :
  in_order (ids pel) ->
  let r := claim_from st start c t mi (S n) pel in
  sublist (ids r.1.2) (ids pel) /\
  (r.2 = "0-0" \/ exists q, r.2 = show_id q /\ q ∈ ids pel /\
     length (List.filter (N.leb q) (ids pel)) < length (List.filter (reached start) (ids pel))).
Proof.
  induction pel as [|p pel IH]; intros Ho; [split; [constructor|by left]|]. cbn [claim_from].
  apply StronglySorted_inv in Ho as [Ho Hp]. rewrite Forall_forall in Hp.
  destruct (reached start (e_id (p_entry p))) eqn:Hr.
  - pose proof (claim_scan_cursor st c t mi (S n) (10 * S n) (p :: pel)) as [Hs Hn].
    rewrite decide_True in Hn by lia. cbn [tail] in Hn. split; [done|].
    destruct Hn as [|(q & E & Hq)]; [by left|right]. exists q. split; [done|]. split; [by right|].
    cbn [ids map List.filter]. rewrite Hr. specialize (Hp q Hq) as Hlt.
    rewrite (proj2 (N.leb_gt q _)) by done. cbn [length]. apply Nat.lt_succ_r.
    rewrite (count_all (reached start)); [apply List.filter_length_le|].
    intros x Hx. eapply reached_later; [exact Hr|]. specialize (Hp x Hx). lia.
  - specialize (IH Ho). destruct (claim_from st start c t mi (S n) pel) as [[es l] next]. destruct IH as [Hs Hn].
    split; [by constructor|]. destruct Hn as [|(q & E & Hq & Hl)]; [by left|right]. exists q.
    split; [done|]. split; [by right|]. cbn [ids map List.filter]. rewrite Hr.
    by rewrite (proj2 (N.leb_gt q _)) by (by apply Hp).
Qed.

Section claim_ends.
Context {W} {srv : Host W} `{!HostLaws srv}.
Context (stream group consumer : string) (handler : Message -> proc W (res unit)).

(** The handler does not touch the stream. *)
Definition handler_leaves : Prop := forall m w,
  wp (handler m) (fun _ w' => stream_at (redis (view w')) stream = stream_at (redis (view w)) stream) w.
Context (Hhandler : handler_leaves).

Definition pending_ids (w : W) : list N := ids (pel_at (redis (view w)) stream group).
Definition shrinks (w w' : W) : Prop := sublist (pending_ids w') (pending_ids w).

Lemma rdb_shrinks {A} (c : rcmd A) w :
  (forall t a s s', rspec t c s a s' -> sublist (ids (pel_at s' stream group)) (ids (pel_at s stream group))) ->
  (forall t s', rfails t c (redis (view w)) s' -> s' = redis (view w) \/ exists a, rspec t c (redis (view w)) a s') ->
  wp (rdb c) (fun _ w' => shrinks w w') w.
Proof.
  intros Hok Hf.
  apply (wp_rdb_keeps c (fun s => sublist (ids (pel_at s stream group)) (pending_ids w))); [done| |eauto].
  intros t a s' H. by eapply Hok.
Qed.

Lemma pel_other s s' : stream_at s' stream = stream_at s stream -> pel_at s' stream group = pel_at s stream group.
Proof. intros E. unfold pel_at, group_at. by rewrite E. Qed.

Lemma ack_shrinks id w : wp (rdb (XAck stream group id)) (fun _ w' => shrinks w w') w.
Proof.
  apply rdb_shrinks; [|all_or_nothing]. intros t a s s' ->. unfold pel_at. rewrite group_at_update, decide_True by done.
  destruct (group_at s stream group) as [gr|]; [|done]. cbn. unfold ids.
  induction (g_pel gr) as [|p l IH]; cbn; [done|]. destruct (negb _); by constructor.
Qed.

Lemma hash_shrinks {A} (c : rcmd A) w :
  (forall t a s s', rspec t c s a s' -> exists k h, s' = set_hash k h s) ->
  (forall t s', rfails t c (redis (view w)) s' -> s' = redis (view w) \/ exists a, rspec t c (redis (view w)) a s') ->
  wp (rdb c) (fun _ w' => shrinks w w') w.
Proof. intros Hc. apply rdb_shrinks. intros t a s s' (k & h & ->)%Hc. by rewrite (pel_other s). Qed.

Lemma handle_claimed_shrinks e w : wp (handle_claimed stream group handler e) (fun _ w' => shrinks w w') w.
Proof.
  unfold shrinks.
  assert (forall w0, sublist (pending_ids w0) (pending_ids w) ->
    wp (rdb (XAck stream group (show_id (e_id e))) ;;- rdb (HDel (dlqKey stream) (show_id (e_id e))) ;;- mret tt)
       (fun _ w' => sublist (pending_ids w') (pending_ids w)) w0) as Hend.
  { intros w0 H0. apply wp_bind. eapply wp_mono; [apply ack_shrinks|]. cbn beta. intros _ w1 H1.
    apply wp_bind. eapply wp_mono; [apply hash_shrinks; [|all_or_nothing]|].
    - intros t a s s' ->. eauto.
    - cbn beta. intros _ w2 H2. apply wp_ret. etransitivity; [exact H2|]. by etransitivity. }
  apply wp_bind. eapply wp_mono; [apply hash_shrinks; [|all_or_nothing]|].
  { intros t a s s' [_ ->]. eauto. }
  cbn beta. intros r w1 H1. cbv zeta. destruct (3 <=? _)%Z.
  - apply wp_bind. eapply wp_mono; [apply (rdb_shrinks (XAdd (dlqStream stream) None _)); [|all_or_nothing]|].
    + intros t a s s' (st & _ & ->). rewrite (pel_other s); [done|]. apply stream_at_set_stream_ne, dlq_ne.
    + cbn beta. intros _ w2 H2. apply Hend. by etransitivity.
  - apply wp_bind. eapply wp_mono; [apply Hhandler|]. cbn beta. intros h w2 H2.
    assert (sublist (pending_ids w2) (pending_ids w)) by (unfold pending_ids; by rewrite (pel_other _ _ H2)).
    destruct h; [by apply Hend|by apply wp_ret].
Qed.

Lemma claim_shrinks start w :
  in_order (pending_ids w) ->
  wp (rdb (XAutoClaim stream group consumer minIdle start 50)) (fun r w' => shrinks w w' /\ forall l next, r = Ok (l, next) ->
    next = "0-0" \/ exists q, next = show_id q /\
      length (List.filter (N.leb q) (pending_ids w)) < length (List.filter (reached start) (pending_ids w))) w.
Proof.
  intros Ho.
  assert (forall t a s', rspec t (XAutoClaim stream group consumer minIdle start 50) (redis (view w)) a s' ->
    sublist (ids (pel_at s' stream group)) (pending_ids w) /\ (a.2 = "0-0" \/ exists q, a.2 = show_id q /\
      length (List.filter (N.leb q) (pending_ids w)) < length (List.filter (reached start) (pending_ids w)))) as Hspec.
  { unfold pending_ids, pel_at in *. intros t a s'. cbn [rspec].
    destruct (group_at (redis (view w)) stream group) as [gr|] eqn:Hg.
    - intros [-> ->]. rewrite group_at_update, decide_True, Hg by done. cbn [fmap option_fmap option_map snd].
      pose proof (claim_from_cursor (stream_at (redis (view w)) stream) start consumer t minIdle 49 (g_pel gr) Ho) as H.
      unfold autoclaim. destruct (claim_from _ _ _ _ _ _ _) as [[es l] next]. cbn [fst snd g_pel] in *.
      destruct H as [Hs [|(q & ? & _ & ?)]]; split; try done; [by left|right; by exists q].
    - intros [-> ->]. rewrite Hg. split; [done|by left]. }
  apply wp_rdb.
  - intros [l next] w' t s' _ Hv Hs. apply Hspec in Hs as [H1 H2]. unfold shrinks. unfold pending_ids at 1. rewrite Hv.
    split; [done|]. by intros ? ? [= <- <-].
  - intros e w' t s' _ Hv Hs. split; [|done]. unfold shrinks. unfold pending_ids at 1. rewrite Hv.
    destruct Hs as [->|[[a Ha]|[]]]; [done|]. by apply Hspec in Ha as [? _].
Qed.

Lemma claim_loop_ends fuel start w :
  in_order (pending_ids w) -> length (List.filter (reached start) (pending_ids w)) < fuel ->
  wp (claim_loop stream group consumer handler fuel start) (fun o w' => o = Some tt /\ shrinks w w') w.
Proof.
  revert start w. induction fuel as [|fuel IH]; intros start w Ho Hl; [lia|]. cbn [claim_loop].
  apply wp_bind. eapply wp_mono; [by apply claim_shrinks|]. cbn beta. intros r w1 [H1 Hr].
  destruct r as [[messages next]|e]; [|by apply wp_ret].
  apply wp_bind. eapply wp_mono; [apply (wp_for_each _ (fun _ w' => sublist (pending_ids w') (pending_ids w))); [exact H1|]|].
  { intros a l' w' H. eapply wp_mono; [apply handle_claimed_shrinks|]. cbn beta. intros _ w'' H'. by etransitivity. }
  cbn beta. intros _ w2 H2. case_bool_decide as En; [by apply wp_ret|].
  destruct (Hr _ _ eq_refl) as [->|(q & -> & Hq)]; [by destruct En; left|].
  eapply wp_mono; [apply IH|].
  - by eapply sublist_in_order.
  - eapply Nat.le_lt_trans; [by apply sublist_count|].
    rewrite (List.filter_ext _ (N.leb q)) by (intros; apply reached_show). lia.
  - cbn beta. intros o w3 [-> H3]. split; [done|]. unfold shrinks in *. by etransitivity.
Qed.
End claim_ends.

(** ** The theorems on the subscriber *)

(** C3: no message is lost by the subscriber, whatever fails: through the
    creation of the group, the recovery of the consumer's own messages and any
    number of turns of the loop, every entry that the group owes its consumers
    is still owed afterwards (and so will be delivered again) or was processed
    successfully by the handler. *)
Theorem Subscribe_never_loses {W} {srv : Host W} `{!HostLaws srv}
    (readCount : nat) (stream group consumer : string)
    (handler : Message -> proc W (res unit)) (handled : W -> list string) `{!Frame srv handled}
    (fuel turns : nat) (w : W) :
  handler_keeps stream handler handled ->
  wp (Subscribe readCount stream group consumer handler fuel turns)
     (fun _ w' => forall e, e ∈ owed_at stream group (redis (view w)) ->
        e ∈ owed_at stream group (redis (view w')) \/ show_id (e_id e) ∈ handled w') w.
Proof.
  intros Hh. apply wp_bind. eapply wp_mono; [by apply (create_account _ _ handled (owed_at stream group (redis (view w)))); left|].
  cbn. intros _ w1 H1. apply wp_bind. eapply wp_mono; [by apply recover_account|].
  cbn. intros [[]|] w2 H2; [|by apply wp_ret].
  apply wp_bind. eapply wp_mono; [by apply read_loop_account|]. cbn. intros _ w3 H3. exact H3.
Qed.

(** A stream with three entries, a group that has been given none, and a
    handler that fails on the second. *)
Definition sample_entry (n : N) : entry := Entry n [("event_type", "ServerUpdated")].
Definition sample_stream : rstate :=
  set_stream "events" (Stream 3 [sample_entry 1; sample_entry 2; sample_entry 3]
    {["g" := Group [sample_entry 2; sample_entry 3] [Pending (sample_entry 1) "c" 0]]}) empty_redis.
Definition sample_handler {X} (m : Message) : proc (X * list string) (res unit) :=
  fun w => if String.eqb (ID m) "2" then (Err (ErrS "bad"), w) else (Ok tt, (w.1, ID m :: w.2)).

Lemma sample_handler_keeps {X} (srv : Host X) stream :
  handler_keeps (srv := framed (list string) srv) stream sample_handler snd.
Proof.
  intros m w. unfold sample_handler, wp. destruct (String.eqb (ID m) "2"); cbn; split_and!; try done.
  - by apply list_subseteq_cons.
  - intros _. by left.
Qed.

Definition sample_broken : (hview * list fault) * list string :=
  ((HView 0 sample_stream, [NoFault; NoFault; FailAfter; NoFault; FailBefore]), []).

Lemma Subscribe_never_loses_witness :
  wp (Subscribe (srv := framed (list string) flaky_host) 10 "events" "g" "c" sample_handler 2 3)
     (fun _ w' => forall e, e ∈ owed_at "events" "g" sample_stream ->
        e ∈ owed_at "events" "g" (redis w'.1.1) \/ show_id (e_id e) ∈ snd w') sample_broken.
Proof. apply (Subscribe_never_loses (srv := framed (list string) flaky_host) _ _ _ _ _ snd), sample_handler_keeps. Defined.

(** C21: the recovery of a consumer's pending messages ends exactly when fewer
    than 50 of them fail: it then leaves those that fail, and only those,
    pending; with 50 or more it never returns, whatever fuel it is given (so
    that [Subscribe] never reads a new message). *)
Theorem recover_terminates_iff {W} {srv : Host W} `{!HostLaws srv} `{!Reliable srv}
    (stream group consumer : string) (handler : Message -> proc W (res unit)) (fails : N -> bool)
    (u : list entry) (pel : list pending) (w : W) :
  handler_answers stream handler fails ->
  group_at (redis (view w)) stream group = Some (Group u pel) ->
  if decide (length (List.filter fails (mine consumer pel)) < 50) then
    forall fuel, length (mine consumer pel) < fuel ->
    wp (recoverPendingMessages stream group consumer handler fuel) (fun o w' =>
      o = Some tt /\ exists pel', group_at (redis (view w')) stream group = Some (Group u pel') /\
        mine consumer pel' = List.filter fails (mine consumer pel)) w
  else
    forall fuel, wp (recoverPendingMessages stream group consumer handler fuel) (fun o _ => o = None) w.
Proof.
  intros Hh Hg. destruct (decide _) as [Hlt|Hge]; intros fuel.
  - intros Hf. by apply recover_terminates.
  - apply (recover_diverges _ _ _ _ fails Hh fuel u pel); [done|lia].
Qed.

(** Sixty pending messages that fail for ever. *)
Definition poison : list pending :=
  map (fun n => Pending (sample_entry (N.of_nat n)) "c" 0) (seq 1 60).
Definition poisoned : hview :=
  HView 0 (set_stream "events" (Stream 60 (map p_entry poison) {["g" := Group [] poison]}) empty_redis).
Definition failing_handler {W} (m : Message) : proc W (res unit) := mret (Err (ErrS "bad")).

Lemma recover_terminates_iff_witness :
  wp (recoverPendingMessages (srv := sure_host) "events" "g" "c" failing_handler 1000) (fun o _ => o = None) poisoned.
Proof.
  assert (handler_answers (srv := sure_host) "events" failing_handler (fun _ => true)) as Hh by (intros e w; done).
  pose proof (recover_terminates_iff (srv := sure_host) "events" "g" "c" failing_handler (fun _ => true)
    [] poison poisoned Hh eq_refl) as H.
  destruct (decide _) as [Hlt|Hge]; [|apply H].
  exfalso. apply (Nat.lt_irrefl 50), (Nat.lt_trans _ 60); [lia|exact Hlt].
Defined.

(** C20: stale messages are not lost either while Redis answers: after a sweep
    of the stale messages every entry that was owed is still owed, was
    processed, is a dead letter (an entry of the dead-letter stream has its
    fields), or had been trimmed from the stream by Redis before. *)
Theorem claim_never_loses {W} {srv : Host W} `{!HostLaws srv} `{!Reliable srv}
    (stream group consumer : string) (handler : Message -> proc W (res unit))
    (handled : W -> list string) `{!Frame srv handled} (fuel : nat) (w : W) :
  handler_keeps_dlq stream handler handled ->
  (forall e e', e ∈ owed_at stream group (redis (view w)) -> e' ∈ owed_at stream group (redis (view w)) ->
     e_id e = e_id e' -> e = e') ->
  wp (claimAndProcessStaleMessages stream group consumer handler fuel)
     (fun _ w' => forall e, e ∈ owed_at stream group (redis (view w)) ->
        e ∈ owed_at stream group (redis (view w')) \/ show_id (e_id e) ∈ handled w' \/
        e ∉ s_entries (stream_at (redis (view w)) stream) \/ dead stream (redis (view w')) e) w.
Proof.
  intros Hh Hu. eapply wp_mono;
    [apply (claim_loop_account _ _ _ _ _ Hh (owed_at stream group (redis (view w)))
      (s_entries (stream_at (redis (view w)) stream)) Hu)|].
  - split; [done|]. split; [done|]. by left.
  - cbn. intros _ w' (_ & _ & H). exact H.
Qed.

Lemma sample_handler_keeps_dlq {X} (srv : Host X) stream :
  handler_keeps_dlq (srv := framed (list string) srv) stream sample_handler snd.
Proof.
  intros m w. unfold sample_handler, wp. destruct (String.eqb (ID m) "2"); cbn; split_and!; try done.
  - by apply list_subseteq_cons.
  - intros _. by left.
Qed.

Lemma claim_never_loses_witness :
  wp (claimAndProcessStaleMessages (srv := framed (list string) sure_host) "events" "g" "c2" sample_handler 3)
     (fun _ w' => forall e, e ∈ owed_at "events" "g" sample_stream ->
        e ∈ owed_at "events" "g" (redis w'.1) \/ show_id (e_id e) ∈ snd w' \/
        e ∉ [sample_entry 1; sample_entry 2; sample_entry 3] \/ dead "events" (redis w'.1) e)
     (HView Hour sample_stream, []).
Proof.
  apply (claim_never_loses (srv := framed (list string) sure_host) "events" "g" "c2" sample_handler snd 3
    (HView Hour sample_stream, [])); [apply sample_handler_keeps_dlq|].
  intros e e' He He'. revert He He'. vm_compute (owed_at _ _ _).
  rewrite !elem_of_cons, !elem_of_nil. intros [->|[->|[->|[]]]] [->|[->|[->|[]]]]; cbn; done.
Defined.

(** C22: a sweep of the stale messages ends, whatever fails in it: each claim
    moves the cursor past the entries it looked at, so that more turns than
    there are pending entries are never needed; and nothing becomes pending by
    it. *)
Theorem claim_terminates {W} {srv : Host W} `{!HostLaws srv} (stream group consumer : string)
    (handler : Message -> proc W (res unit)) (fuel : nat) (w : W) :
  handler_leaves stream handler -> in_order (pending_ids stream group w) ->
  length (pending_ids stream group w) < fuel ->
  wp (claimAndProcessStaleMessages stream group consumer handler fuel)
     (fun o w' => o = Some tt /\ sublist (pending_ids stream group w') (pending_ids stream group w)) w.
Proof.
  intros Hh Ho Hl. apply claim_loop_ends; [done|done|]. eapply Nat.le_lt_trans; [|exact Hl].
  apply List.filter_length_le.
Qed.

(** A hundred and twenty messages that fail each time, on a Redis that loses
    answers: three claims. *)
Definition stale : hview * list fault :=
  (HView Hour (set_stream "events" (Stream 120 (map sample_entry (map N.of_nat (seq 1 120)))
     {["g" := Group [] (map (fun n => Pending (sample_entry n) "c" 0) (map N.of_nat (seq 1 120)))]}) empty_redis),
   [NoFault; FailBefore; FailAfter]).

Lemma claim_terminates_witness :
  (claimAndProcessStaleMessages (srv := flaky_host) "events" "g" "c2" failing_handler 2 stale).1 = None /\
  (claimAndProcessStaleMessages (srv := flaky_host) "events" "g" "c2" failing_handler 121 stale).1 = Some tt.
Proof.
  split; [by vm_compute|].
  refine (proj1 (proj1 (wp_run _ _ _) (claim_terminates (srv := flaky_host) "events" "g" "c2" failing_handler 121 stale _ _ _))).
  - by intros m w.
  - vm_compute (pending_ids _ _ _). repeat constructor.
  - vm_compute. lia.
Defined.

(** The guarantee needs Redis to answer: when the write of the dead letter is
    refused, the message is acknowledged all the same and is in no list. *)
Definition third_claim : hview * list fault :=
  (HView Hour (set_hash (dlqKey "events") {["1" := "2"]}
     (set_stream "events" (Stream 1 [sample_entry 1] {["g" := Group [] [Pending (sample_entry 1) "c" 0]]})
        empty_redis)), [NoFault; NoFault; FailBefore]).

Lemma dead_letter_lost :
  let w' := (claimAndProcessStaleMessages (srv := flaky_host) "events" "g" "c2" failing_handler 3 third_claim).2 in
  group_at (redis third_claim.1) "events" "g" = Some (Group [] [Pending (sample_entry 1) "c" 0]) /\
  group_at (redis w'.1) "events" "g" = Some (Group [] []) /\
  s_entries (stream_at (redis w'.1) (dlqStream "events")) = [].
Proof. by vm_compute. Qed.
