(* ===== verification/Concurrency.v ===== *)
(** Goroutines that share a Redis server: what may be stored under which key
    ([schema]) and which commands respect it; code that only sends such
    commands ([typed]); and goroutines whose requests interleave in any order
    ([step]), with the theorem that typed goroutines keep the schema. *)
From S2P Require Import Prelude GoStd Redis Host Broker.

(** ** What Redis holds *)

(** [field_ok k f v]: the hash [k] may hold [v] in its field [f];
    [message_ok k m]: the stream [k] may hold the message [m]. *)
Record schema := {
  field_ok : string -> string -> string -> Prop;
  message_ok : string -> list (string * string) -> Prop;
}.

Section schema.
Context (sc : schema).

Definition entry_ok (k : string) (e : entry) : Prop := message_ok sc k (e_fields e).

Record group_ok (k : string) (gr : group) : Prop := {
  undelivered_ok : Forall (entry_ok k) (g_undelivered gr);
  pel_ok : Forall (entry_ok k) (map p_entry (g_pel gr));
}.

Record stream_ok (k : string) (st : stream) : Prop := {
  entries_ok : Forall (entry_ok k) (s_entries st);
  groups_ok : map_Forall (fun _ gr => group_ok k gr) (s_groups st);
}.

Definition hash_ok (k : string) (h : gmap string string) : Prop := map_Forall (field_ok sc k) h.

(** The database respects the schema. *)
Definition well_typed (r : rstate) : Prop :=
  (forall k, hash_ok k (hash_at r k)) /\ (forall k, stream_ok k (stream_at r k)).

(** The commands that keep it so. *)
Definition pipe_ok (c : pcmd) : Prop :=
  match c with
  | PHSet k fvs => Forall (fun fv => field_ok sc k fv.1 fv.2) fvs
  | PSAdd _ _ | PZAdd _ _ _ => True
  end.

Definition command_ok {A} (c : rcmd A) : Prop :=
  match c with
  | HSet k fvs => Forall (fun fv => field_ok sc k fv.1 fv.2) fvs
  | HIncrBy k f _ => forall v, field_ok sc k f v
  | XAdd k _ m => message_ok sc k m
  | PipeXAdd k _ ms => Forall (message_ok sc k) ms
  | Pipe cs => Forall pipe_ok cs
  | _ => True
  end.

(** An entry trimmed from its stream is read back without fields. *)
Definition read_ok (k : string) (e : entry) : Prop := e_fields e = [] \/ entry_ok k e.

(** What an answer is known to be. *)
Definition answer_ok {A} (c : rcmd A) : A -> Prop :=
  match c in rcmd A return A -> Prop with
  | HGet k f => fun a => forall v, a = Some v -> field_ok sc k f v
  | HGetAll k => hash_ok k
  | XReadNew k _ _ _ => Forall (read_ok k)
  | XReadPending k _ _ _ => Forall (read_ok k)
  | XAutoClaim k _ _ _ _ _ => fun a => Forall (read_ok k) a.1
  | _ => fun _ => True
  end.

(** *** Each command keeps the schema *)
Lemma well_typed_set_hash k h r : well_typed r -> hash_ok k h -> well_typed (set_hash k h r).
Proof.
  intros [Hh Hs] Hk. split; [|exact Hs]. intros k'. destruct (decide (k = k')) as [<-|Hne].
  - by rewrite hash_at_set_hash.
  - by rewrite hash_at_set_hash_ne.
Qed.

Lemma well_typed_set_stream k st r : well_typed r -> stream_ok k st -> well_typed (set_stream k st r).
Proof.
  intros [Hh Hs] Hk. split; [exact Hh|]. intros k'. destruct (decide (k = k')) as [<-|Hne].
  - by rewrite stream_at_set_stream.
  - by rewrite stream_at_set_stream_ne.
Qed.

Lemma empty_stream_ok k : stream_ok k empty_stream.
Proof. split; [constructor|apply map_Forall_empty]. Qed.

Lemma well_typed_del k r : well_typed r -> well_typed (del_key k r).
Proof.
  intros [Hh Hs]. split; intros k'; [specialize (Hh k'); revert Hh|specialize (Hs k'); revert Hs].
  all: unfold hash_at, stream_at, del_key; cbn; destruct (decide (k = k')) as [<-|Hne];
    [rewrite lookup_delete_eq|by rewrite lookup_delete_ne].
  - intros _. apply map_Forall_empty.
  - intros _. apply empty_stream_ok.
Qed.

Lemma well_typed_empty : well_typed empty_redis.
Proof. split; intros k; [apply map_Forall_empty|apply empty_stream_ok]. Qed.

Lemma fields_ok k fvs h :
  hash_ok k h -> Forall (fun fv => field_ok sc k fv.1 fv.2) fvs ->
  hash_ok k (foldl (fun h fv => <[fv.1 := fv.2]> h) h fvs).
Proof.
  intros Hh Hf. revert h Hh. induction Hf as [|[f v] fvs Hfv _ IH]; intros h Hh; [done|].
  apply IH. by apply map_Forall_insert_2.
Qed.

Lemma pipe_keeps cs r : well_typed r -> Forall pipe_ok cs -> well_typed (pipe_run cs r).
Proof.
  intros Hr Hcs. revert r Hr. induction Hcs as [|c cs Hc _ IH]; intros r Hr; [done|]. apply IH.
  destruct c; [|exact Hr..]. apply well_typed_set_hash; [done|]. apply fields_ok; [apply Hr|exact Hc].
Qed.

Lemma well_typed_dels ks r : well_typed r -> well_typed (foldr del_key r ks).
Proof. intros Hr. induction ks; [done|]. by apply well_typed_del. Qed.

Lemma append_entry_ok k keep m st :
  stream_ok k st -> message_ok sc k m -> stream_ok k (append_entry keep m st).
Proof.
  intros [He Hg] Hm. split; cbn [append_entry s_entries s_groups].
  - apply Forall_drop, Forall_app. auto.
  - intros g gr. rewrite lookup_fmap, fmap_Some. intros (gr0 & Hgr & ->).
    destruct (Hg _ _ Hgr) as [Hu Hp]. split; [|exact Hp]. apply Forall_drop, Forall_app. auto.
Qed.

Lemma xadds_ok k maxlen ms st st' :
  xadds_spec maxlen ms st st' -> stream_ok k st -> Forall (message_ok sc k) ms -> stream_ok k st'.
Proof.
  induction 1 as [|m ms st st1 st2 (keep & _ & ->) _ IH]; intros Hst; [done|].
  intros [Hm Hms]%Forall_cons. apply IH; [|done]. by apply append_entry_ok.
Qed.

Lemma update_group_ok k g f st :
  stream_ok k st -> (forall gr, group_ok k gr -> group_ok k (f gr)) -> stream_ok k (update_group g f st).
Proof.
  intros [He Hg] Hf. split; [exact He|]. intros g' gr. cbn [update_group s_groups].
  rewrite lookup_alter_Some. intros [(<- & gr0 & Hgr & ->)|[_ Hgr]]; [apply Hf|]; by eapply Hg.
Qed.

Lemma Forall_sub {A} (P : A -> Prop) l l' : l ⊆ l' -> Forall P l' -> Forall P l.
Proof. rewrite !Forall_forall. auto. Qed.

Lemma deliver_ok k c t n gr :
  group_ok k gr -> Forall (entry_ok k) (deliver c t n gr).1 /\ group_ok k (deliver c t n gr).2.
Proof.
  intros [Hu Hp]. split; [by apply Forall_take|]. split; cbn [deliver snd g_undelivered g_pel].
  - by apply Forall_drop.
  - rewrite map_app, map_map, map_id. apply Forall_app. split; [done|by apply Forall_take].
Qed.

Lemma redeliver_sub c t n pel : (redeliver c t n pel).1 ⊆ map p_entry pel.
Proof.
  revert n. induction pel as [|p pel IH]; intros [|n]; cbn [redeliver map]; try apply list_subseteq_nil.
  case_bool_decide; [specialize (IH n)|specialize (IH (S n))]; destruct (redeliver _ _ _ pel); cbn [fst] in *.
  - by apply list_subseteq_skip.
  - by apply list_subseteq_cons.
Qed.

Lemma redeliver_ok k c t n gr :
  group_ok k gr -> Forall (entry_ok k) (redeliver c t n (g_pel gr)).1 /\
  group_ok k (Group (g_undelivered gr) (redeliver c t n (g_pel gr)).2).
Proof.
  intros [Hu Hp]. split; [by eapply Forall_sub; [apply redeliver_sub|]|].
  split; cbn [g_undelivered g_pel]; [done|]. by rewrite redeliver_entries.
Qed.

Lemma ack_ok k id gr : group_ok k gr -> group_ok k (ack id gr).
Proof.
  intros [Hu Hp]. split; [done|]. cbn [ack g_pel]. eapply Forall_sub; [|exact Hp].
  intros e. rewrite !list_elem_of_In, !in_map_iff. intros (p & <- & [Hin _]%List.filter_In). by exists p.
Qed.

Lemma autoclaim_ok k st start c t mi n gr :
  group_ok k gr -> Forall (entry_ok k) (autoclaim st start c t mi n gr).1.1 /\
  group_ok k (autoclaim st start c t mi n gr).1.2.
Proof.
  intros [Hu Hp]. unfold autoclaim. pose proof (claim_from_keeps st start c t mi n (g_pel gr)) as (H1 & H2 & _).
  destruct (claim_from _ _ _ _ _ _ _) as [[l pel'] next]. cbn [fst snd] in *.
  split; [by eapply Forall_sub|]. split; cbn [g_undelivered g_pel]; [done|by eapply Forall_sub].
Qed.

Lemma well_typed_group k g f r :
  well_typed r -> (forall gr, group_ok k gr -> group_ok k (f gr)) ->
  well_typed (set_stream k (update_group g f (stream_at r k)) r).
Proof. intros Hr Hf. apply well_typed_set_stream; [done|]. apply update_group_ok; [apply Hr|done]. Qed.

Lemma well_typed_group_at k g r gr : well_typed r -> group_at r k g = Some gr -> group_ok k gr.
Proof. intros [_ Hs] Hg. exact (groups_ok _ _ (Hs k) _ _ Hg). Qed.

Lemma read_back_ok k st es : Forall (entry_ok k) es -> Forall (read_ok k) (map (read_back st) es).
Proof.
  intros Hes. rewrite Forall_forall in *. intros e. rewrite list_elem_of_In, in_map_iff.
  intros (e' & <- & Hin). unfold read_back. destruct (present st e'); [right|by left].
  apply Hes. by apply list_elem_of_In.
Qed.

Lemma entries_read_ok k es : Forall (entry_ok k) es -> Forall (read_ok k) es.
Proof. intros Hes. eapply Forall_impl; [exact Hes|]. by right. Qed.

Lemma new_group_ok k g r : well_typed r ->
  stream_ok k (Stream (s_last (stream_at r k)) (s_entries (stream_at r k))
    (<[g := Group (s_entries (stream_at r k)) []]> (s_groups (stream_at r k)))).
Proof.
  intros [_ Hs]. destruct (Hs k) as [He Hg]. split; cbn; [done|].
  apply map_Forall_insert_2; [|done]. split; cbn; [done|constructor].
Qed.
Hint Resolve well_typed_set_hash well_typed_set_stream well_typed_del well_typed_group
  well_typed_group_at new_group_ok entries_read_ok read_back_ok ack_ok : schema.

(** A command that respects the schema keeps it and is answered by it. *)
Lemma command_keeps {A} (c : rcmd A) t r a r' :
  well_typed r -> command_ok c -> rspec t c r a r' -> well_typed r' /\ answer_ok c a.
Proof.
  intros Hr Hc Hs. pose proof Hr as [Hh Hst].
  destruct c; cbn in Hc, Hs |- *;
    repeat match goal with
    | H : _ /\ _ |- _ => destruct H
    | H : exists _, _ |- _ => destruct H
    | H : match group_at r ?k ?g with Some _ => _ | None => _ end |- _ => destruct (group_at r k g) eqn:?
    end; subst; auto.
  - split; [done|]. intros v Hv. by eapply Hh.
  - split; [|done]. apply well_typed_set_hash; [done|]. by apply fields_ok.
  - split; [|done]. apply well_typed_set_hash; [done|]. apply map_Forall_delete, Hh.
  - split; [|done]. apply well_typed_set_hash; [done|]. apply map_Forall_insert_2; [done|apply Hh].
  - split; [|done]. by apply well_typed_del.
  - split; [|done]. by destruct (list_at r k); destruct_and?; subst.
  - split; [|done]. by destruct (live t _); destruct_and?; subst.
  - split; [|done]. match goal with H : xadd_spec _ _ _ _ |- _ => destruct H as (keep & _ & ->) end.
    apply well_typed_set_stream; [done|]. by apply append_entry_ok.
  - split; [|done]. apply well_typed_set_stream; [done|]. by eapply xadds_ok.
  - split; [|done]. by apply pipe_keeps.
  - split; [|done]. by apply well_typed_dels.
  - split; [|done]. auto with schema.
  - split; [apply well_typed_group; [done|]; intros gr Hgr; by apply (deliver_ok k c t count)|].
    apply entries_read_ok, (deliver_ok k c t count). by eapply well_typed_group_at.
  - split; [apply well_typed_group; [done|]; intros gr Hgr; by apply (redeliver_ok k c t count)|].
    apply read_back_ok, (redeliver_ok k c t count). by eapply well_typed_group_at.
  - split; [|done]. auto with schema.
  - split; [apply well_typed_group; [done|]; intros gr Hgr; by apply autoclaim_ok|].
    apply entries_read_ok, autoclaim_ok. by eapply well_typed_group_at.
Qed.

(** Failed or not. *)
Lemma command_fails_keeps {A} (c : rcmd A) t r r' :
  well_typed r -> command_ok c -> rfails t c r r' -> well_typed r'.
Proof.
  intros Hr Hc [->|[[a Ha]|Hf]]; [done|by eapply command_keeps|].
  destruct c; try done.
  - destruct Hf as (n & st & Hst & ->). apply well_typed_set_stream; [done|].
    eapply xadds_ok; [done|apply Hr|by apply Forall_take].
  - destruct Hf as [n ->]. apply pipe_keeps; [done|by apply Forall_take].
Qed.
End schema.
#[export] Hint Resolve well_typed_empty : schema.

(** ** Code that respects the schema *)
Section typed.
Context (sc : schema).

Definition request_ok {A} (c : hcmd A) : Prop :=
  match c with Redis c => command_ok sc c | Now | NewUuid => True end.

Definition reply_ok {A} (c : hcmd A) : A -> Prop :=
  match c in hcmd A return A -> Prop with
  | Redis c => answer_ok sc c
  | Now | NewUuid => fun _ => True
  end.

(** What a piece of code may rely on: in a [sane] world a request that
    respects the schema gets an answer that does, and leaves a sane world. *)
Class Respects {W} (srv : Host W) (sane : W -> Prop) : Prop :=
  respects : forall A (c : hcmd A) w, sane w -> request_ok c ->
    wp (request c) (fun r w' => sane w' /\ forall a, r = Ok a -> reply_ok c a) w.

(** A Redis server whose database respects the schema. *)
#[export] Instance host_respects {W} (srv : Host W) `{!HostLaws srv} :
  Respects srv (fun w => well_typed sc (redis (view w))).
Proof.
  intros A c w Hw Hc. apply (wp_request srv host_spec host_fails).
  - intros a w' Hs. destruct c as [A c| |]; cbn in *.
    + destruct Hs as [_ Hs]. destruct (command_keeps sc _ _ _ _ _ Hw Hc Hs).
      split; [done|]. by intros ? [= <-].
    + destruct Hs as (_ & _ & ->). done.
    + destruct Hs as [_ ->]. done.
  - intros e w' Hs. destruct c as [A c| |]; cbn in *; [|done..].
    destruct Hs as [_ Hs]. split; [by eapply command_fails_keeps|done].
Qed.

#[export] Instance framed_respects {W} (srv : Host W) (sane : W -> Prop) (X : Type) `{!Respects srv sane} :
  Respects (framed X srv) (fun w => sane w.1).
Proof.
  intros A c w Hw Hc. pose proof (respects A c w.1 Hw Hc) as H. unfold wp in *. cbn.
  by destruct (request c w.1).
Qed.

Section rules.
Context {W} {srv : Host W} (sane : W -> Prop) `{!Respects srv sane}.

(** [m] respects the schema, and returns a value that satisfies [Q]. *)
Definition typed {A} (m : proc W A) (Q : A -> Prop) : Prop :=
  forall w, sane w -> wp m (fun a w' => sane w' /\ Q a) w.

Lemma typed_ret {A} (a : A) (Q : A -> Prop) : Q a -> typed (mret a) Q.
Proof. intros HQ w Hw. by apply wp_ret. Qed.

Lemma typed_bind {A B} (m : proc W A) (k : A -> proc W B) (Q : A -> Prop) (Q' : B -> Prop) :
  typed m Q -> (forall a, Q a -> typed (k a) Q') -> typed (mbind k m) Q'.
Proof.
  intros Hm Hk w Hw. apply wp_bind. eapply wp_mono; [by apply Hm|].
  cbn. intros a w' [Hw' Ha]. by apply Hk.
Qed.

Lemma typed_try {A B} (m : proc W (res A)) (k : A -> proc W (res B)) (Q : A -> Prop) (Q' : res B -> Prop) :
  typed m (fun r => forall a, r = Ok a -> Q a) ->
  (forall a, Q a -> typed (k a) Q') -> (forall e, Q' (Err e)) -> typed (try_bind m k) Q'.
Proof.
  intros Hm Hk He. eapply typed_bind; [exact Hm|]. intros [a|e] Ha.
  - apply Hk. by apply Ha.
  - by apply typed_ret.
Qed.

Lemma typed_mono {A} (m : proc W A) (Q Q' : A -> Prop) :
  typed m Q -> (forall a, Q a -> Q' a) -> typed m Q'.
Proof.
  intros Hm HQ w Hw. eapply wp_mono; [by apply Hm|]. cbn. intros a w' [Hw' Ha]. auto.
Qed.

Lemma typed_any {A} (m : proc W A) (Q : A -> Prop) : typed m Q -> typed m (fun _ => True).
Proof. intros Hm. by eapply typed_mono. Qed.

Lemma typed_rdb {A} (c : rcmd A) :
  command_ok sc c -> typed (rdb c) (fun r => forall a, r = Ok a -> answer_ok sc c a).
Proof. intros Hc w Hw. by apply (respects _ (Redis c)). Qed.

Lemma typed_now : typed time_Now (fun _ => True).
Proof.
  eapply (typed_bind _ _ (fun _ => True)); [|intros; by apply typed_ret].
  intros w Hw. eapply wp_mono; [by apply (respects _ Now)|]. cbn. by intros a w' [].
Qed.

(** A step whose result does not matter. *)
Lemma typed_seq {A B} (m : proc W A) (k : proc W B) (Q : B -> Prop) :
  typed m (fun _ => True) -> typed k Q -> typed (m ;;- k) Q.
Proof. intros Hm Hk. by eapply typed_bind. Qed.

Lemma typed_do {A B} (c : rcmd A) (k : proc W B) (Q : B -> Prop) :
  command_ok sc c -> typed k Q -> typed (rdb c ;;- k) Q.
Proof. intros Hc Hk. eapply typed_seq; [|done]. by eapply typed_any, typed_rdb. Qed.

Lemma typed_for_each {A B} (f : A -> proc W B) (P : A -> Prop) l :
  Forall P l -> (forall a, P a -> typed (f a) (fun _ => True)) -> typed (for_each f l) (fun _ => True).
Proof.
  intros Hl Hf. induction Hl as [|a l Ha _ IH]; cbn [for_each]; [by apply typed_ret|].
  eapply typed_seq; [by apply Hf|exact IH].
Qed.
End rules.
End typed.

(** ** The subscriber respects the schema

    if the handler does so on every message the stream may hold. *)
Section subscriber.
Context (sc : schema) {W} {srv : Host W} (sane : W -> Prop) `{!Respects sc srv sane}.
Context (readCount : nat) (stream group consumer : string) (handler : Message -> proc W (res unit)).

Definition handler_typed : Prop :=
  forall e, read_ok sc stream e -> typed sane (handler (brokerMsg e)) (fun _ => True).
Context (Hhandler : handler_typed).
(** The counters of the dead letters and their stream are free. *)
Context (Hcounters : forall f v, field_ok sc (dlqKey stream) f v) (Hdlq : forall m, message_ok sc (dlqStream stream) m).

Lemma handle_message_typed e :
  read_ok sc stream e -> typed sane (handle_message stream group handler e) (fun _ => True).
Proof.
  intros He. eapply typed_bind; [by apply Hhandler|]. intros [a|x] _; [|by apply typed_ret].
  apply (typed_do sc sane); [done|by apply typed_ret].
Qed.

Lemma recover_typed fuel :
  typed sane (recoverPendingMessages stream group consumer handler fuel) (fun _ => True).
Proof.
  induction fuel as [|fuel IH]; cbn [recoverPendingMessages]; [by apply typed_ret|].
  eapply typed_bind; [by apply typed_rdb|]. intros [es|x] Hes; [|by apply typed_ret].
  case_bool_decide; [by apply typed_ret|].
  eapply typed_seq; [eapply typed_for_each; [exact (Hes es eq_refl)|apply handle_message_typed]|].
  case_decide; [by apply typed_ret|exact IH].
Qed.

Lemma read_loop_typed turns :
  typed sane (read_loop readCount stream group consumer handler turns) (fun _ => True).
Proof.
  induction turns as [|turns IH]; cbn [read_loop]; [by apply typed_ret|].
  eapply typed_seq; [|exact IH]. unfold read_once.
  eapply typed_bind; [by apply typed_rdb|]. intros [es|x] Hes; [|by apply typed_ret].
  eapply typed_for_each; [exact (Hes es eq_refl)|apply handle_message_typed].
Qed.

Lemma Subscribe_typed fuel turns :
  typed sane (Subscribe readCount stream group consumer handler fuel turns) (fun _ => True).
Proof.
  apply (typed_do sc sane); [done|]. eapply typed_bind; [apply recover_typed|].
  intros [[]|] _; [|by apply typed_ret]. eapply typed_seq; [apply read_loop_typed|by apply typed_ret].
Qed.

Lemma handle_claimed_typed e :
  read_ok sc stream e -> typed sane (handle_claimed stream group handler e) (fun _ => True).
Proof.
  intros He. eapply typed_bind; [apply (typed_rdb sc sane); intros v; apply Hcounters|]. intros r _.
  cbn beta zeta. destruct (3 <=? match r with Ok n => n | Err _ => 0 end)%Z.
  - apply (typed_do sc sane); [apply Hdlq|]. apply (typed_do sc sane); [done|].
    apply (typed_do sc sane); [done|by apply typed_ret].
  - eapply typed_bind; [by apply Hhandler|]. intros [a|x] _; [|by apply typed_ret].
    apply (typed_do sc sane); [done|]. apply (typed_do sc sane); [done|by apply typed_ret].
Qed.

Lemma claim_loop_typed fuel start :
  typed sane (claim_loop stream group consumer handler fuel start) (fun _ => True).
Proof.
  revert start. induction fuel as [|fuel IH]; intros start; cbn [claim_loop]; [by apply typed_ret|].
  eapply typed_bind; [by apply typed_rdb|]. intros [[es next]|x] Hes; [|by apply typed_ret].
  eapply typed_seq; [eapply typed_for_each; [exact (Hes _ eq_refl)|apply handle_claimed_typed]|].
  case_bool_decide; [by apply typed_ret|apply IH].
Qed.

Lemma autoClaimLoop_typed fuel ticks :
  typed sane (autoClaimLoop stream group consumer handler fuel ticks) (fun _ => True).
Proof.
  induction ticks as [|ticks IH]; cbn [autoClaimLoop]; [by apply typed_ret|].
  eapply typed_seq; [apply claim_loop_typed|exact IH].
Qed.
End subscriber.

(** ** Interleaving

    A goroutine is deterministic in the answers it gets.  [replay] runs it on
    the answers of the worlds in which its requests have been served so far
    and records the first request beyond them: the one it is blocked on. *)
Inductive asked :=
  | Asked {A} (c : hcmd A).

Definition no_answer : err := ErrS "no answer yet".

Section interleaving.
Context {W} {srv : Host W}.

Record replayed := Replayed { served : list W; blocked_on : option asked }.

Definition replay : Host replayed := {|
  request := fun A c p =>
    match served p with
    | w :: ws => ((request c w).1, Replayed ws (blocked_on p))
    | [] => (Err no_answer, Replayed [] (Some (default (Asked c) (blocked_on p))))
    end;
  view := fun p => match served p with w :: _ => view w | [] => HView 0 empty_redis end;
|}.

(** [X]: what the goroutine has for itself, beside Redis. *)
Context {X : Type}.

Record goroutine := Go { code : proc (replayed * X) unit; local : X }.

Definition next_request (g : goroutine) (history : list W) : option asked :=
  blocked_on (code g (Replayed history None, local g)).2.1.

(** The world and, for each goroutine, its history. *)
Definition config : Type := W * list (list W).

(** Goroutine [i] makes its next request. *)
Definition turn (gs : list goroutine) (i : nat) (c : config) : config :=
  match gs !! i, c.2 !! i with
  | Some g, Some history =>
    match next_request g history with
    | Some (Asked q) => ((request q c.1).2, <[i := history ++ [c.1]]> c.2)
    | None => c
    end
  | _, _ => c
  end.

(** Any goroutine moves, or another program that shares Redis does. *)
Inductive step (gs : list goroutine) (others : W -> W -> Prop) : config -> config -> Prop :=
  | step_turn i c : step gs others c (turn gs i c)
  | step_other w w' hs : others w w' -> step gs others (w, hs) (w', hs).

Definition start (gs : list goroutine) (w : W) : config := (w, replicate (length gs) []).

Definition run (gs : list goroutine) (schedule : list nat) (w : W) : config :=
  foldl (fun c i => turn gs i c) (start gs w) schedule.

(** *** Typed goroutines keep the schema *)
Context (sc : schema) `{!HostLaws srv}.

Definition typed_world (w : W) : Prop := well_typed sc (redis (view w)).

Definition asked_ok (a : asked) : Prop := match a with Asked c => request_ok sc c end.

(** A replayed goroutine only ever blocks on requests that respect the schema. *)
Definition sane_replay (p : replayed) : Prop :=
  Forall typed_world (served p) /\ forall a, blocked_on p = Some a -> asked_ok a.

#[export] Instance replay_respects : Respects sc replay sane_replay.
Proof.
  intros A c [ws b] [Hws Hb] Hc. unfold wp. cbn. destruct ws as [|w ws]; cbn in *.
  - split; [|done]. split; [constructor|]. cbn. intros a [= <-]. destruct b as [a|]; [by apply Hb|done].
  - apply Forall_cons in Hws as [Hw Hws]. split; [by split|]. intros a Ha.
    pose proof (respects (Respects := host_respects sc srv) sc A c w Hw Hc) as H.
    apply wp_run in H as [_ H]. by apply H.
Qed.

Definition goroutine_typed (g : goroutine) : Prop :=
  typed (fun px => sane_replay px.1) (code g) (fun _ => True).

Definition config_ok (gs : list goroutine) (c : config) : Prop :=
  typed_world c.1 /\ Forall (Forall typed_world) c.2.

Lemma next_request_ok g history q :
  goroutine_typed g -> Forall typed_world history -> next_request g history = Some q -> asked_ok q.
Proof.
  intros Hg Hh. assert (sane_replay (Replayed history None)) as H by by split.
  specialize (Hg (Replayed history None, local g) H). apply wp_run in Hg as [[_ Hg] _]. apply Hg.
Qed.

Lemma turn_ok gs i c : Forall goroutine_typed gs -> config_ok gs c -> config_ok gs (turn gs i c).
Proof.
  intros Hgs [Hw Hh]. unfold turn. destruct (gs !! i) as [g|] eqn:Eg; [|done].
  destruct (c.2 !! i) as [history|] eqn:Ei; [|done].
  assert (Forall typed_world history) as Hi by by eapply Forall_lookup_1.
  destruct (next_request g history) as [[A q]|] eqn:En; [|done].
  assert (request_ok sc q) as Hq.
  { eapply (next_request_ok g history (Asked q)); [by eapply Forall_lookup_1|done..]. }
  split; cbn [fst snd].
  - pose proof (respects (Respects := host_respects sc srv) sc A q c.1 Hw Hq) as H.
    by apply wp_run in H as [H _].
  - apply Forall_insert; [done|]. apply Forall_app. auto.
Qed.

(** The theorem that the services instantiate: whatever typed goroutines do,
    in any order, beside programs that keep the schema, the schema holds. *)
Lemma interleaved_ok gs others w c :
  Forall goroutine_typed gs -> (forall w w', others w w' -> typed_world w -> typed_world w') ->
  typed_world w -> rtc (step gs others) (start gs w) c -> typed_world c.1.
Proof.
  intros Hgs Ho Hw Hc.
  assert (config_ok gs (start gs w)) as H0 by (split; [done|by apply Forall_replicate]).
  apply (rtc_ind_r (fun c => config_ok gs c) (start gs w)) in Hc; [apply Hc|done|].
  intros c1 c2 _ Hs H1. destruct Hs as [i c1|w1 w2 hs Hw12].
  - by apply turn_ok.
  - destruct H1 as [H1 H2]. split; [by eapply Ho|done].
Qed.

(** The executable runs are among the reachable ones. *)
Lemma run_reachable gs others schedule w : rtc (step gs others) (start gs w) (run gs schedule w).
Proof.
  unfold run. induction schedule as [|i schedule IH] using rev_ind; [apply rtc_refl|].
  rewrite foldl_app. eapply rtc_r; [exact IH|]. apply step_turn.
Qed.
End interleaving.
