(* ===== verification/MonitoringWorkers.v ===== *)
(** sms-monitoring, the workers around the state machine: health checkers
    (worker/checkers), the polling pool (worker/pool.go), its producer
    (app/run.go), the two stream consumers (worker/consumers) and the sweeper of
    silent agents (worker/sweepers). *)
From S2P Require Import Prelude GoStd Json Redis Host Monitoring Broker.

Definition config_get (config : gmap string string) (k : string) : string := default "" (config !! k).

(** ** Health checkers (worker/checkers) *)

(** The libraries that reach the network: pro-bing, x/crypto/ssh, net/http;
    and the decryption of stored keys. *)
Class Probes (W : Type) := {
  NewPinger : string -> proc W (res unit);
  pinger_Run : string -> Z -> proc W (res Z);          (* packets received *)
  ssh_Dial : string -> string -> string -> Z -> proc W (res unit);   (* address, user, password *)
  ssh_NewSession : string -> proc W (res unit);
  ssh_Run : string -> string -> proc W (res unit);
  http_NewRequest : string -> proc W (res unit);
  http_Do : string -> Z -> proc W (res Z);             (* status code *)
  Decrypt : string -> proc W (res string);
}.

Inductive HealthChecker := ICMPChecker | SSHChecker | AgentPullChecker.

(** [GetChecker] (factory.go): ICMP is also the default. *)
Definition GetChecker (method : string) : HealthChecker :=
  if String.eqb method "SSH" then SSHChecker
  else if String.eqb method "AGENT_PULL" then AgentPullChecker
  else ICMPChecker.

Record CheckerTimeouts := { ICMP : Z; SSH : Z; AgentPull : Z }.

Section checkers.
Context {W} `{!Probes W} (timeouts : CheckerTimeouts).

(** A cancelled context makes [pinger_Run] fail. *)
Definition ICMPChecker_Check (config : gmap string string) : proc W bool :=
  let ip := config_get config "ipv4" in
  if String.eqb ip "" then mret false
  else
    r <-- NewPinger ip;
    match r with
    | Err _ => mret false
    | Ok _ =>
      r <-- pinger_Run ip (ICMP timeouts);
      mret (match r with Err _ => false | Ok received => (0 <? received)%Z end)
    end.

(** pinger.go, which nothing uses: the same without a context. *)
Definition ICMPPinger_Ping (ip : string) (timeout : Z) : proc W bool :=
  r <-- NewPinger ip;
  match r with
  | Err _ => mret false
  | Ok _ =>
    r <-- pinger_Run ip timeout;
    mret (match r with Err _ => false | Ok received => (0 <? received)%Z end)
  end.

Lemma ICMPChecker_pings config :
  ICMPChecker_Check config =
  if String.eqb (config_get config "ipv4") "" then mret false else ICMPPinger_Ping (config_get config "ipv4") (ICMP timeouts).
Proof. reflexivity. Qed.

Definition ssh_login (ip port user key : string) : proc W bool :=
  if String.eqb ip "" || String.eqb port "" || String.eqb user "" then mret false
  else
    let addr := ip +:+ ":" +:+ port in
    r <-- ssh_Dial addr user key (SSH timeouts);
    match r with
    | Err _ => mret false
    | Ok _ =>
      r <-- ssh_NewSession addr;
      match r with
      | Err _ => mret false
      | Ok _ => r <-- ssh_Run addr "echo 1"; mret (is_ok r)
      end
    end.

Definition SSHChecker_Check (config : gmap string string) : proc W bool :=
  let ip := config_get config "ipv4" in
  let port := config_get config "ssh_port" in
  let user := config_get config "ssh_user" in
  let key := config_get config "ssh_key" in
  if String.eqb key "" then ssh_login ip port user key
  else
    r <-- Decrypt key;
    match r with
    | Err _ => mret false
    | Ok decrypted => ssh_login ip port user decrypted
    end.

Definition AgentPullChecker_Check (config : gmap string string) : proc W bool :=
  let endpoint := config_get config "agent_endpoint" in
  if String.eqb endpoint "" then mret false
  else
    r <-- http_NewRequest endpoint;
    match r with
    | Err _ => mret false
    | Ok _ =>
      r <-- http_Do endpoint (AgentPull timeouts);
      mret (match r with Err _ => false | Ok code => (code =? 200)%Z end)
    end.

Definition Check (c : HealthChecker) (config : gmap string string) : proc W bool :=
  match c with
  | ICMPChecker => ICMPChecker_Check config
  | SSHChecker => SSHChecker_Check config
  | AgentPullChecker => AgentPullChecker_Check config
  end.
End checkers.

(** ** The workers *)
Section workers.
Context {W} {srv : Host W}.
(** [MonitoringService.Evaluate]: server, address, result of the check. *)
Context (Evaluate : string -> string -> bool -> proc W (res unit)).

(** *** pool.go *)
Section pool.
Context `{!Probes W} (timeouts : CheckerTimeouts).

Definition processServer (serverID : string) : proc W unit :=
  r <-- rdb (HGetAll (ServerInfoKey serverID));
  match r with
  | Err _ => mret tt
  | Ok configMap =>
    if bool_decide (configMap = ∅) then mret tt
    else
      let ipv4 := config_get configMap "ipv4" in
      let method := config_get configMap "health_check_method" in
      let configMap := <["server_id" := serverID]> configMap in
      success <-- Check timeouts (GetChecker method) configMap;
      Evaluate serverID ipv4 success ;;-
      mret tt
  end.

(** One turn of a worker of [Run]. *)
Definition worker_turn : proc W unit :=
  r <-- rdb (BLPop MonitoringQueueKey);
  match r with
  | Ok (Some serverID) => processServer serverID
  | _ => mret tt                      (* timeout, or an error and a pause *)
  end.

(** A worker until its context is cancelled after [turns] turns. *)
Fixpoint pool_worker (turns : nat) : proc W unit :=
  match turns with
  | O => mret tt
  | S turns => worker_turn ;;- pool_worker turns
  end.
End pool.

(** *** heartbeat_consumer.go *)
Definition get_ipv4 (serverID : string) : proc W string :=
  r <-- rdb (HGet (ServerInfoKey serverID) "ipv4");
  mret (match r with Ok (Some ip) => ip | _ => "" end).

Definition heartbeat_processMessage (msg : Message) : proc W (res unit) :=
  match Values msg !! "server_id" with
  | None => mret (Ok tt)
  | Some serverID =>
    if String.eqb serverID "" then mret (Ok tt)
    else
      ipv4 <-- get_ipv4 serverID;
      r <-- Evaluate serverID ipv4 true;
      mret (match r with Ok _ => Ok tt | Err e => Err e end)
  end.

(** *** agent_sweeper.go *)
Definition sweep_one (serverID : string) : proc W unit :=
  ipv4 <-- get_ipv4 serverID;
  Evaluate serverID ipv4 false ;;-
  rdb (ZRem AgentHeartbeatZSetKey serverID) ;;-
  mret tt.

Definition sweep (timeoutSec : Z) : proc W unit :=
  t <-- time_Now;
  let expiredScore := (Unix t - timeoutSec)%Z in
  r <-- rdb (ZRangeByScore AgentHeartbeatZSetKey expiredScore);
  match r with
  | Err _ => mret tt
  | Ok expiredServers => for_each sweep_one expiredServers
  end.
End workers.

(** *** stream_consumer.go *)
Record EventPayload := {
  pl_ID : string; pl_IPv4 : string; pl_CurrentStatus : string; pl_HealthCheckMethod : string;
  pl_SSHPort : Z; pl_SSHUser : string; pl_SSHKey : string; pl_AgentEndpoint : string;
}.

Definition decode_payload (s : string) : option EventPayload :=
  j ← parse s; m ← members j;
  id ← string_field "server_id" m;
  ip ← string_field "ipv4" m;
  status ← string_field "current_status" m;
  method ← string_field "health_check_method" m;
  port ← int_field "ssh_port" m;
  user ← string_field "ssh_user" m;
  key ← string_field "ssh_key" m;
  endpoint ← string_field "agent_endpoint" m;
  Some {| pl_ID := id; pl_IPv4 := ip; pl_CurrentStatus := status; pl_HealthCheckMethod := method;
          pl_SSHPort := port; pl_SSHUser := user; pl_SSHKey := key; pl_AgentEndpoint := endpoint |}.

Section stream_consumer.
Context {W} {srv : Host W}.

(** The results of the Redis commands are not looked at. *)
Definition sync_server (p : EventPayload) : proc W unit :=
  let serverID := pl_ID p in
  let status := if String.eqb (pl_CurrentStatus p) "" then "UNKNOWN" else pl_CurrentStatus p in
  let key := ServerInfoKey serverID in
  rdb (SAdd ServerAllIDsKey serverID) ;;-
  (if String.eqb (pl_IPv4 p) "" then mret tt
   else rdb (HSet key [("ipv4", pl_IPv4 p)]) ;;- mret tt) ;;-
  rdb (HSet key [("status", status)]) ;;-
  (if String.eqb (pl_HealthCheckMethod p) "" then
     rdb (HSet key [("health_check_method", "ICMP")]) ;;- mret tt
   else
     rdb (HSet key [("health_check_method", pl_HealthCheckMethod p)]) ;;-
     if String.eqb (pl_HealthCheckMethod p) HealthCheckMethodAgentPush then
       t <-- time_Now;
       rdb (ZAdd AgentHeartbeatZSetKey serverID (Unix t)) ;;- mret tt
     else mret tt) ;;-
  rdb (HSet key [("ssh_port", Itoa (pl_SSHPort p))]) ;;-
  rdb (HSet key [("ssh_user", pl_SSHUser p)]) ;;-
  rdb (HSet key [("ssh_key", pl_SSHKey p)]) ;;-
  rdb (HSet key [("agent_endpoint", pl_AgentEndpoint p)]) ;;-
  mret tt.

Definition forget_server (p : EventPayload) : proc W unit :=
  rdb (SRem ServerAllIDsKey (pl_ID p)) ;;-
  rdb (Del (ServerInfoKey (pl_ID p))) ;;-
  mret tt.

Definition stream_processMessage (msg : Message) : proc W (res unit) :=
  match Values msg !! "event_type", Values msg !! "payload" with
  | Some eventType, Some payloadStr =>
    match decode_payload payloadStr with
    | None => mret (Err ErrJson)
    | Some p =>
      (if String.eqb eventType "ServerCreated" || String.eqb eventType "ServerUpdated" then sync_server p
       else if String.eqb eventType "ServerDeleted" then forget_server p
       else mret tt) ;;-
      mret (Ok tt)
    end
  | _, _ => mret (Ok tt)
  end.
End stream_consumer.

(** *** The producer (app/run.go, infrastructure/database/redis.go) *)
Section producer.
Context {W} {srv : Host W}.
Context (lockKey : string) (tickInterval : Z).
(** The order in which a Go map is walked. *)
Context (map_order : list string -> list string).

Definition AcquireLock (key : string) (expiration : Z) : proc W (res bool) :=
  rdb (SetNX key "locked" expiration).

Definition lockExpiration : Z :=
  let e := (tickInterval - 2 * Second)%Z in if (e <=? 0)%Z then tickInterval else e.

(** The servers to poll: those whose method was read and is not AGENT_PUSH. *)
Definition pollable (methods : list (option string)) (serverIDs : list string) : list string :=
  map fst (List.filter (fun im => match im.2 with
                                  | Some m => negb (String.eqb m HealthCheckMethodAgentPush)
                                  | None => false
                                  end) (zip serverIDs methods)).

Definition populateQueue : proc W unit :=
  r <-- rdb (SMembers ServerAllIDsKey);
  match r with
  | Err _ => mret tt
  | Ok serverIDs =>
    if bool_decide (serverIDs = []) then mret tt
    else
      r <-- rdb (PipeHGet (map (fun id => (ServerInfoKey id, "health_check_method")) serverIDs));
      let pollingServers :=
        match r with Ok methods => map_order (pollable methods serverIDs) | Err _ => [] end in
      if bool_decide (pollingServers = []) then mret tt
      else rdb (RPush MonitoringQueueKey pollingServers) ;;- mret tt
  end.

Definition runProducerCycle : proc W unit :=
  a <-- AcquireLock lockKey lockExpiration;
  match a with
  | Ok true =>
    r <-- rdb (LLen MonitoringQueueKey);
    if match r with Ok queueLen => (0 <? queueLen)%Z | Err _ => false end then mret tt
    else populateQueue
  | _ => mret tt
  end.
End producer.

(** ** The sweeper *)
Section sweeper.
Context {W} {srv : Host W} `{!HostLaws srv}.
Context (Evaluate : string -> string -> bool -> proc W (res unit)).

(** [evals w] lists the evaluations made so far; an evaluation leaves the
    heartbeats alone. *)
Context (evals : W -> list (string * bool)) `{!Frame srv evals}.
Definition heartbeats (w : W) : gmap string Z := zset_at (redis (view w)) AgentHeartbeatZSetKey.
Definition Evaluate_logged : Prop := forall id ip b w,
  wp (Evaluate id ip b) (fun _ w' => evals w' = evals w ++ [(id, b)] /\ heartbeats w' = heartbeats w) w.
Context (Hev : Evaluate_logged).

Definition expired (hb : gmap string Z) (limit : Z) (id : string) : Prop :=
  exists score, hb !! id = Some score /\ (score <= limit)%Z.

(** A command that leaves the heartbeats alone. *)
Lemma wp_rdb_heartbeats {A} (c : rcmd A) w :
  (forall t a s', rspec t c (redis (view w)) a s' -> s' = redis (view w)) ->
  (forall t s', rfails t c (redis (view w)) s' -> s' = redis (view w) \/ exists a, rspec t c (redis (view w)) a s') ->
  wp (rdb c) (fun _ w' => evals w' = evals w /\ heartbeats w' = heartbeats w) w.
Proof.
  intros Hc Hf. apply wp_and; [apply (wp_frame srv evals)|].
  apply (wp_rdb_keeps c (fun r => zset_at r AgentHeartbeatZSetKey = heartbeats w)); [done| |done].
  intros t a s' Hs. by rewrite (Hc _ _ _ Hs).
Qed.

Lemma get_ipv4_heartbeats id w :
  wp (get_ipv4 id) (fun _ w' => evals w' = evals w /\ heartbeats w' = heartbeats w) w.
Proof.
  apply wp_bind. eapply wp_mono; [apply wp_rdb_heartbeats; [|all_or_nothing]|].
  - by intros t a s' [_ ->].
  - cbn. intros r w' H. by apply wp_ret.
Qed.

Lemma now_heartbeats w :
  wp time_Now (fun t w' => (clock (view w) <= t)%Z /\ evals w' = evals w /\ heartbeats w' = heartbeats w) w.
Proof.
  apply wp_bind. eapply wp_mono; [apply wp_and; [apply (wp_frame srv evals)|
    apply (wp_request srv host_spec host_fails) with (Q := fun r w' => exists t, r = Ok t /\
      (clock (view w) <= t)%Z /\ heartbeats w' = heartbeats w)]|].
  - intros t w' (Ht & _ & Hr). exists t. unfold heartbeats. by rewrite Hr.
  - done.
  - cbn. intros r w' [He (t & -> & Ht & Hh)]. by apply wp_ret.
Qed.

Lemma range_heartbeats limit w :
  wp (rdb (ZRangeByScore AgentHeartbeatZSetKey limit)) (fun r w' =>
    evals w' = evals w /\ heartbeats w' = heartbeats w /\
    match r with
    | Ok l => NoDup l /\ forall id, id ∈ l <-> expired (heartbeats w) limit id
    | Err _ => True
    end) w.
Proof.
  apply wp_and; [apply (wp_frame srv evals)|]. unfold heartbeats. apply wp_rdb.
  - by intros l w' t s' _ -> (Hn & Hl & ->).
  - by intros e w' t s' _ -> [->|[(l & _ & _ & ->)|[]]].
Qed.

Lemma ZRem_heartbeats id w :
  wp (rdb (ZRem AgentHeartbeatZSetKey id)) (fun r w' => evals w' = evals w /\
    (heartbeats w' = delete id (heartbeats w) \/ (is_ok r = false /\ heartbeats w' = heartbeats w))) w.
Proof.
  apply wp_and; [apply (wp_frame srv evals)|]. unfold heartbeats. apply wp_rdb.
  - intros [] w' t s' _ -> ->. left. cbn [redis]. by rewrite zset_at_set_zset.
  - intros e w' t s' _ -> [->|[([] & ->)|[]]]; [by right|]. left. cbn [redis]. by rewrite zset_at_set_zset.
Qed.

Lemma sweep_one_effect id w :
  wp (sweep_one Evaluate id) (fun _ w' => evals w' = evals w ++ [(id, false)] /\
    (heartbeats w' = delete id (heartbeats w) \/ heartbeats w' = heartbeats w)) w.
Proof.
  apply wp_bind. eapply wp_mono; [apply get_ipv4_heartbeats|]. cbn. intros ip w1 [He1 Hh1].
  apply wp_bind. eapply wp_mono; [apply Hev|]. cbn. intros r w2 [He2 Hh2].
  apply wp_bind. eapply wp_mono; [apply ZRem_heartbeats|]. cbn. intros r' w3 [He3 Hh3].
  apply wp_ret. rewrite He3, He2, He1. split; [done|].
  rewrite Hh2, Hh1 in Hh3. destruct Hh3 as [|[]]; auto.
Qed.

(** Nobody leaves the heartbeats unevaluated. *)
Lemma sweep_list_effect l w :
  wp (for_each (sweep_one Evaluate) l) (fun _ w' =>
    evals w' = evals w ++ map (fun id => (id, false)) l /\
    forall id, heartbeats w' !! id = heartbeats w !! id \/ (id ∈ l /\ heartbeats w' !! id = None)) w.
Proof.
  revert w. induction l as [|a l IH]; intros w; cbn [for_each map].
  { apply wp_ret. rewrite app_nil_r. split; [done|]. by left. }
  apply wp_bind. eapply wp_mono; [apply sweep_one_effect|]. cbn. intros _ w1 [He1 Hh1].
  eapply wp_mono; [apply IH|]. cbn. intros _ w2 [He2 Hh2].
  split; [by rewrite He2, He1, <- app_assoc|]. intros id. rewrite elem_of_cons.
  destruct Hh1 as [E|E]; rewrite E in Hh2; destruct (Hh2 id) as [H|[]]; auto.
  rewrite H. destruct (decide (a = id)) as [->|Hne]; [right; by rewrite lookup_delete_eq; auto|].
  left. by rewrite lookup_delete_ne.
Qed.

Lemma sweep_list_reliable `{!Reliable srv} l w :
  wp (for_each (sweep_one Evaluate) l) (fun _ w' =>
    forall id, heartbeats w' !! id = if decide (id ∈ l) then None else heartbeats w !! id) w.
Proof.
  revert w. induction l as [|a l IH]; intros w; cbn [for_each].
  { apply wp_ret. intros id. by rewrite decide_False by apply not_elem_of_nil. }
  do 2 apply wp_bind. eapply wp_mono; [apply get_ipv4_heartbeats|]. cbn. intros ip w1 [_ Hh1].
  apply wp_bind. eapply wp_mono; [apply Hev|]. cbn. intros r w2 [_ Hh2].
  apply wp_bind. eapply wp_rdb_reliable. intros [] w3 t s' _ Hv ->. apply wp_ret.
  eapply wp_mono; [apply IH|]. cbn. intros _ w4 H4 id. rewrite H4.
  assert (heartbeats w3 = delete a (heartbeats w)) as ->.
  { unfold heartbeats in *. rewrite Hv, <- Hh1, <- Hh2. cbn [redis]. by rewrite zset_at_set_zset. }
  destruct (decide (id ∈ l)) as [Hl|Hl]; [by rewrite decide_True by (by right)|].
  destruct (decide (a = id)) as [->|Hne].
  - rewrite lookup_delete_eq, decide_True; [done|by left].
  - rewrite lookup_delete_ne, decide_False; [done| |done]. intros [->|]%elem_of_cons; done.
Qed.
Lemma sweep_spec timeoutSec w :
  wp (sweep Evaluate timeoutSec) (fun _ w' => exists now l,
    (clock (view w) <= now)%Z /\ NoDup l /\
    (forall id, id ∈ l -> expired (heartbeats w) (Unix now - timeoutSec) id) /\
    evals w' = evals w ++ map (fun id => (id, false)) l /\
    forall id, heartbeats w' !! id = heartbeats w !! id \/ (id ∈ l /\ heartbeats w' !! id = None)) w.
Proof.
  apply wp_bind. eapply wp_mono; [apply now_heartbeats|]. cbn. intros t w1 (Ht & He1 & Hh1).
  apply wp_bind. eapply wp_mono; [apply range_heartbeats|]. cbn. intros r w2 (He2 & Hh2 & Hr).
  rewrite Hh1, He1 in *. destruct r as [l|e].
  - destruct Hr as [Hn Hl]. eapply wp_mono; [apply sweep_list_effect|]. cbn.
    intros _ w3 [He3 Hh3]. exists t, l. rewrite He2, Hh2 in *. naive_solver.
  - apply wp_ret. exists t, []. rewrite He2, Hh2, app_nil_r. split_and!; auto using NoDup_nil_2.
    intros id []%elem_of_nil.
Qed.
End sweeper.


(** A host that keeps the evaluations made. *)
Definition log_host : Host (hview * list (string * bool)) := framed _ sure_host.
Definition log_Evaluate {X} (id ip : string) (b : bool) : proc (X * list (string * bool)) (res unit) :=
  fun w => (Ok tt, (w.1, w.2 ++ [(id, b)])).

Definition sample_hb : hview * list (string * bool) :=
  (HView (1000 * Second) (set_zset AgentHeartbeatZSetKey {["a" := 900%Z; "b" := 990%Z]} empty_redis), []).


(** ** The producer *)
Section producer_spec.
Context {W} {srv : Host W} `{!HostLaws srv} `{!Reliable srv}.
Context (lockKey : string) (tickInterval : Z).
Context (map_order : list string -> list string) (Horder : forall l, map_order l ≡ₚ l).

Definition pollable_server (r : rstate) (id : string) : Prop :=
  id ∈ set_at r ServerAllIDsKey /\
  exists m, hash_at r (ServerInfoKey id) !! "health_check_method" = Some m /\ m <> HealthCheckMethodAgentPush.

Lemma pollable_spec ids (f : string -> option string) :
  NoDup ids ->
  NoDup (pollable (map f ids) ids) /\
  forall id, id ∈ pollable (map f ids) ids <-> id ∈ ids /\ exists m, f id = Some m /\ m <> HealthCheckMethodAgentPush.
Proof.
  intros Hn.
  assert (pollable (map f ids) ids = List.filter (fun id => match f id with
    | Some m => negb (String.eqb m HealthCheckMethodAgentPush) | None => false end) ids) as ->.
  { clear Hn. unfold pollable. induction ids as [|id ids IH]; [done|]. cbn.
    destruct (f id) as [m|]; [|exact IH].
    destruct (negb (String.eqb m HealthCheckMethodAgentPush)); cbn; [|exact IH]. f_equal. exact IH. }
  split.
  - by apply NoDup_ListNoDup, List.NoDup_filter, NoDup_ListNoDup.
  - intros id. rewrite filter_In_iff. split; intros [Hin Hf]; (split; [done|]).
    + destruct (f id) as [m|]; [|done]. exists m. split; [done|]. intros ->.
      by rewrite String.eqb_refl in Hf.
    + destruct Hf as (m & -> & Hne). by rewrite (proj2 (String.eqb_neq _ _)).
Qed.

(** What populating the queue does to it. *)
Definition populated (r r' : rstate) : Prop :=
  r_str r' = r_str r /\
  exists l, list_at r' MonitoringQueueKey = list_at r MonitoringQueueKey ++ l /\
    NoDup l /\ forall id, id ∈ l <-> pollable_server r id.

Lemma populated_none r : (forall id, ~ pollable_server r id) -> populated r r.
Proof.
  intros H. split; [done|]. exists []. split_and!; [by rewrite app_nil_r|apply NoDup_nil_2|].
  intros id. rewrite elem_of_nil. split; [done|]. by apply H.
Qed.

Lemma populateQueue_spec w :
  wp (populateQueue map_order) (fun _ w' => populated (redis (view w)) (redis (view w'))) w.
Proof.
  apply wp_bind, wp_rdb_reliable. intros ids w1 t1 s1 _ Hv1 [Hids ->].
  assert (NoDup ids) as Hn by (rewrite Hids; apply NoDup_elements).
  assert (forall id, id ∈ ids <-> id ∈ set_at (redis (view w)) ServerAllIDsKey) as Hin
    by (intros id; by rewrite Hids, elem_of_elements).
  case_bool_decide as Hemp.
  { apply wp_ret. rewrite Hv1. apply populated_none. intros id [Hid _]. apply Hin in Hid.
    subst. by apply elem_of_nil in Hid. }
  apply wp_bind, wp_rdb_reliable. intros ms w2 t2 s2 _ Hv2 [-> ->]. rewrite Hv1 in *. cbn [redis] in *.
  rewrite map_map. cbn [fst snd].
  destruct (pollable_spec ids (fun id => hash_at (redis (view w)) (ServerInfoKey id) !! "health_check_method") Hn)
    as [Hpn Hp].
  assert (forall id, id ∈ map_order (pollable (map (fun id => hash_at (redis (view w)) (ServerInfoKey id) !! "health_check_method") ids) ids)
    <-> pollable_server (redis (view w)) id) as Hpoll by (intros id; by rewrite Horder, Hp, Hin).
  case_bool_decide as Hpe.
  { apply wp_ret. rewrite Hv2. apply populated_none. intros id Hid. apply Hpoll in Hid.
    rewrite Hpe in Hid. by apply elem_of_nil in Hid. }
  apply wp_bind, wp_rdb_reliable. intros [] w3 t3 s3 _ Hv3 ->. apply wp_ret.
  rewrite Hv3, Hv2. cbn [redis]. split; [done|]. eexists. rewrite list_at_set_list.
  split; [done|]. split; [by rewrite Horder|done].
Qed.
End producer_spec.

(** C25: one cycle of the producer: with the lock held elsewhere nothing
    changes; else the lock is taken, a queue that still has work is left as it
    is, and an empty one receives exactly the registered servers that have a
    health-check method other than AGENT_PUSH, each once. *)
Theorem runProducerCycle_effect {W} {srv : Host W} `{!HostLaws srv} `{!Reliable srv}
    (lockKey : string) (tickInterval : Z) (map_order : list string -> list string) (w : W) :
  (forall l, map_order l ≡ₚ l) ->
  wp (runProducerCycle lockKey tickInterval map_order) (fun _ w' => exists t, (clock (view w) <= t)%Z /\
       let r := redis (view w) in
       let locked := set_str lockKey ("locked", (t + lockExpiration tickInterval)%Z) r in
       if live t (r_str r !! lockKey) then redis (view w') = r
       else if decide (list_at r MonitoringQueueKey = []) then populated locked (redis (view w'))
       else redis (view w') = locked) w.
Proof.
  intros Horder. apply wp_bind, wp_rdb_reliable. intros a w1 t s1 Ht Hv1 Hs1. cbn in Hs1.
  destruct (live t _) eqn:Hlive; destruct Hs1 as [-> Hs1].
  { apply wp_ret. exists t. cbn zeta. by rewrite Hlive, Hv1, Hs1. }
  apply wp_bind, wp_rdb_reliable. intros n w2 t2 s2 _ Hv2 [-> ->].
  rewrite Hv1, Hs1 in *. cbn [redis] in *. change (list_at (set_str _ _ ?r) ?k) with (list_at r k).
  destruct (Z.ltb_spec 0 (Z.of_nat (length (list_at (redis (view w)) MonitoringQueueKey)))) as [Hlen|Hlen].
  - apply wp_ret. exists t. cbn zeta. rewrite Hlive, Hv2, decide_False; [done|].
    intros E. rewrite E in Hlen. cbn in Hlen. lia.
  - eapply wp_mono; [by apply populateQueue_spec|]. cbn. intros _ w3 H3. exists t. cbn zeta.
    rewrite Hlive, decide_True; [by rewrite Hv2 in H3|].
    destruct (list_at _ _); [done|]. cbn in Hlen. lia.
Qed.

Definition sample_fleet : hview :=
  HView 0 (set_set ServerAllIDsKey {["a"; "b"]}
    (set_hash (ServerInfoKey "a") {["health_check_method" := "ICMP"]}
    (set_hash (ServerInfoKey "b") {["health_check_method" := "AGENT_PUSH"]} empty_redis))).

Lemma runProducerCycle_effect_witness :
  list_at (redis (runProducerCycle (srv := sure_host) "lock" Minute (fun l => l) sample_fleet).2) MonitoringQueueKey = ["a"] /\
  wp (runProducerCycle (srv := sure_host) "lock" Minute (fun l => l)) (fun _ w' => exists t, (0 <= t)%Z /\
     let r := redis sample_fleet in
     let locked := set_str "lock" ("locked", (t + lockExpiration Minute)%Z) r in
     if live t (r_str r !! "lock") then redis w' = r
     else if decide (list_at r MonitoringQueueKey = []) then populated locked (redis w')
     else redis w' = locked) sample_fleet.
Proof.
  split; [by vm_compute|].
  exact (runProducerCycle_effect (srv := sure_host) "lock" Minute (fun l => l) sample_fleet (fun l => reflexivity l)).
Defined.

(** ** The registry consumer *)

(** The cached configuration of a server after a sync: the retry count and, if
    the event has no address, the address are kept. *)
Definition synced_hash (p : EventPayload) (h : gmap string string) : gmap string string :=
  <["agent_endpoint" := pl_AgentEndpoint p]> (<["ssh_key" := pl_SSHKey p]> (
  <["ssh_user" := pl_SSHUser p]> (<["ssh_port" := Itoa (pl_SSHPort p)]> (
  <["health_check_method" := if String.eqb (pl_HealthCheckMethod p) "" then "ICMP" else pl_HealthCheckMethod p]> (
  <["status" := if String.eqb (pl_CurrentStatus p) "" then "UNKNOWN" else pl_CurrentStatus p]> (
  if String.eqb (pl_IPv4 p) "" then h else <["ipv4" := pl_IPv4 p]> h)))))).

(** [r'] is [r] but for what the consumer writes: the configuration [h] of one
    server, the registered identifiers and the heartbeats. *)
Record registered (id : string) (h : gmap string string) (ids : gset string) (hb : gmap string Z)
    (r r' : rstate) : Prop := {
  reg_info : hash_at r' (ServerInfoKey id) = h;
  reg_ids : set_at r' ServerAllIDsKey = ids;
  reg_hb : zset_at r' AgentHeartbeatZSetKey = hb;
  reg_others : forall id', id' <> id -> hash_at r' (ServerInfoKey id') = hash_at r (ServerInfoKey id');
  reg_rest : forall k, k <> ServerInfoKey id ->
    list_at r' k = list_at r k /\ r_str r' !! k = r_str r !! k /\ stream_at r' k = stream_at r k;
}.

Section stream_consumer_spec.
Context {W} {srv : Host W} `{!HostLaws srv} `{!Reliable srv}.
Context (id : string) (r : rstate) (t0 : Z).

(** The same of a world, at a time after [t0]. *)
Definition synced_to (h : gmap string string) (ids : gset string) (hb : gmap string Z) (w : W) : Prop :=
  (t0 <= clock (view w))%Z /\ registered id h ids hb r (redis (view w)).

(** One field written. *)
Lemma wp_hset f v h ids hb w (Q : res unit -> W -> Prop) :
  synced_to h ids hb w ->
  (forall a w', synced_to (<[f := v]> h) ids hb w' -> Q a w') ->
  wp (rdb (HSet (ServerInfoKey id) [(f, v)])) Q w.
Proof.
  intros [Ht0 Hi] HQ. apply wp_rdb_reliable. intros [] w' t s' Ht Hv ->. apply HQ.
  unfold synced_to. rewrite Hv. cbn [clock redis foldl fst snd]. split; [lia|].
  destruct Hi as [<- H2 H3 H4 H5]. split; try done.
  - by rewrite hash_at_set_hash.
  - intros id' Hne. rewrite hash_at_set_hash_ne; [by apply H4|].
    intros E%ServerInfoKey_inj. by apply Hne.
Qed.

Lemma wp_sadd h ids hb w (Q : res unit -> W -> Prop) :
  synced_to h ids hb w ->
  (forall a w', synced_to h ({[id]} ∪ ids) hb w' -> Q a w') ->
  wp (rdb (SAdd ServerAllIDsKey id)) Q w.
Proof.
  intros [Ht0 Hi] HQ. apply wp_rdb_reliable. intros [] w' t s' Ht Hv ->. apply HQ.
  unfold synced_to. rewrite Hv. cbn [clock redis]. split; [lia|].
  destruct Hi as [H1 <- H3 H4 H5]. split; try done. by rewrite set_at_set_set.
Qed.

Lemma wp_zadd sc h ids hb w (Q : res unit -> W -> Prop) :
  synced_to h ids hb w ->
  (forall a w', synced_to h ids (<[id := sc]> hb) w' -> Q a w') ->
  wp (rdb (ZAdd AgentHeartbeatZSetKey id sc)) Q w.
Proof.
  intros [Ht0 Hi] HQ. apply wp_rdb_reliable. intros [] w' t s' Ht Hv ->. apply HQ.
  unfold synced_to. rewrite Hv. cbn [clock redis]. split; [lia|].
  destruct Hi as [H1 H2 <- H4 H5]. split; try done. by rewrite zset_at_set_zset.
Qed.

Lemma wp_now_synced h ids hb w (Q : Z -> W -> Prop) :
  synced_to h ids hb w ->
  (forall t w', (t0 <= t)%Z -> synced_to h ids hb w' -> Q t w') -> wp time_Now Q w.
Proof.
  intros [Ht0 Hi] HQ. apply wp_now. intros t w' Ht Hv. apply HQ; [lia|].
  unfold synced_to. rewrite Hv. cbn. split; [lia|done].
Qed.
End stream_consumer_spec.

(** What an event makes of the registry. *)
Definition applied (eventType : string) (p : EventPayload) (t : Z) (r r' : rstate) : Prop :=
  let id := pl_ID p in
  let h := hash_at r (ServerInfoKey id) in
  let ids := set_at r ServerAllIDsKey in
  let hb := zset_at r AgentHeartbeatZSetKey in
  if bool_decide (eventType ∈ ["ServerCreated"; "ServerUpdated"]) then
    registered id (synced_hash p h) ({[id]} ∪ ids)
      (if String.eqb (pl_HealthCheckMethod p) HealthCheckMethodAgentPush then <[id := Unix t]> hb else hb) r r'
  else if bool_decide (eventType = "ServerDeleted") then
    registered id ∅ (ids ∖ {[id]}) hb r r'
  else r' = r.

Section stream_consumer_effect.
Context {W} {srv : Host W} `{!HostLaws srv} `{!Reliable srv}.

Lemma registered_refl id r :
  registered id (hash_at r (ServerInfoKey id)) (set_at r ServerAllIDsKey) (zset_at r AgentHeartbeatZSetKey) r r.
Proof. by split. Qed.

(** Write a field and go on. *)
Ltac field := apply wp_bind; eapply wp_hset; [eassumption|]; intros _ ?w ?H.

Lemma sync_server_effect p w :
  wp (sync_server p) (fun _ w' => exists t, (clock (view w) <= t)%Z /\
    applied "ServerCreated" p t (redis (view w)) (redis (view w'))) w.
Proof.
  set (r := redis (view w)). set (t0 := clock (view w)).
  set (h := hash_at r (ServerInfoKey (pl_ID p))).
  assert (synced_to (pl_ID p) r t0 h (set_at r ServerAllIDsKey) (zset_at r AgentHeartbeatZSetKey) w) as H
    by (split; [reflexivity|apply registered_refl]).
  unfold sync_server. apply wp_bind. eapply wp_sadd; [done|]. intros _ w1 H1.
  apply wp_bind.
  eapply wp_mono with (Q := fun _ w => synced_to (pl_ID p) r t0
    (if String.eqb (pl_IPv4 p) "" then h else <["ipv4" := pl_IPv4 p]> h) _ _ w).
  { destruct (String.eqb (pl_IPv4 p) ""); [by apply wp_ret|]. field. by apply wp_ret. }
  intros _ w2 H2. field. apply wp_bind.
  eapply wp_mono with (Q := fun _ w => exists t, (t0 <= t)%Z /\ synced_to (pl_ID p) r t0
    (<["health_check_method" := if String.eqb (pl_HealthCheckMethod p) "" then "ICMP" else pl_HealthCheckMethod p]> _) _
    (if String.eqb (pl_HealthCheckMethod p) HealthCheckMethodAgentPush
     then <[pl_ID p := Unix t]> (zset_at r AgentHeartbeatZSetKey) else zset_at r AgentHeartbeatZSetKey) w).
  { destruct (String.eqb_spec (pl_HealthCheckMethod p) "") as [->|Hm].
    - field. apply wp_ret. by exists t0.
    - field. destruct (String.eqb (pl_HealthCheckMethod p) HealthCheckMethodAgentPush).
      + apply wp_bind. eapply wp_now_synced; [eassumption|]. intros t w4 Ht H4.
        apply wp_bind. eapply wp_zadd; [eassumption|]. intros _ w5 H5. apply wp_ret. by exists t.
      + apply wp_ret. by exists t0. }
  intros _ w4 (t & Ht & H4). do 4 field. apply wp_ret. exists t. split; [done|].
  unfold applied. rewrite bool_decide_eq_true_2 by (by left). unfold synced_to in *. tauto.
Qed.

Lemma forget_server_effect p w :
  wp (forget_server p) (fun _ w' => applied "ServerDeleted" p 0 (redis (view w)) (redis (view w'))) w.
Proof.
  apply wp_bind, wp_rdb_reliable. intros [] w1 t1 s1 _ Hv1 ->.
  apply wp_bind, wp_rdb_reliable. intros [] w2 t2 s2 _ Hv2 ->. apply wp_ret.
  rewrite Hv2, Hv1. cbn [redis]. unfold applied.
  rewrite bool_decide_eq_false_2 by (rewrite !elem_of_cons, elem_of_nil; naive_solver).
  rewrite bool_decide_eq_true_2 by done.
  split; unfold hash_at, set_at, zset_at, list_at, stream_at; cbn.
  - by rewrite lookup_delete_eq.
  - rewrite lookup_delete_ne, lookup_insert_eq by done. cbn. set_solver.
  - by rewrite lookup_delete_ne by done.
  - intros id' Hne. rewrite lookup_delete_ne; [done|]. intros E%ServerInfoKey_inj. by apply Hne.
  - intros k Hk. by rewrite !lookup_delete_ne by done.
Qed.
End stream_consumer_effect.

(** A registry event, on an answering Redis: a message that lacks its type
    or payload is skipped; a payload that is not JSON of the expected shape is
    an error and changes nothing; otherwise the event is [applied]: a created
    or updated server is registered with its configuration (UNKNOWN and ICMP by
    default, an AGENT_PUSH server also gets a heartbeat), a deleted one is
    forgotten but for its heartbeat, and any other event changes nothing. *)
Lemma stream_processMessage_effect {W} {srv : Host W} `{!HostLaws srv} `{!Reliable srv}
    (msg : Message) (w : W) :
  wp (stream_processMessage msg) (fun res w' =>
    match Values msg !! "event_type", Values msg !! "payload" with
    | Some eventType, Some payload =>
      match decode_payload payload with
      | None => res = Err ErrJson /\ view w' = view w
      | Some p => res = Ok tt /\ exists t, (clock (view w) <= t)%Z /\
          applied eventType p t (redis (view w)) (redis (view w'))
      end
    | _, _ => res = Ok tt /\ view w' = view w
    end) w.
Proof.
  unfold stream_processMessage.
  destruct (Values msg !! "event_type") as [ty|]; [|by apply wp_ret].
  destruct (Values msg !! "payload") as [s|]; [|by apply wp_ret].
  destruct (decode_payload s) as [p|]; [|by apply wp_ret].
  apply wp_bind.
  eapply wp_mono with (Q := fun _ w' => exists t, (clock (view w) <= t)%Z /\
    applied ty p t (redis (view w)) (redis (view w'))); [|by intros _ w' H; apply wp_ret].
  destruct (String.eqb_spec ty "ServerCreated") as [->|H1]; [apply sync_server_effect|].
  destruct (String.eqb_spec ty "ServerUpdated") as [->|H2].
  { eapply wp_mono; [apply sync_server_effect|]. cbn. intros _ w' (t & Ht & H). by exists t. }
  destruct (String.eqb_spec ty "ServerDeleted") as [->|H3].
  { eapply wp_mono; [apply forget_server_effect|]. cbn. intros _ w' H. exists (clock (view w)). split; [done|].
    exact H. }
  apply wp_ret. exists (clock (view w)). split; [done|]. unfold applied.
  rewrite bool_decide_eq_false_2, bool_decide_eq_false_2; [done|done|].
  rewrite !elem_of_cons, elem_of_nil. naive_solver.
Qed.

Definition sample_payload : string :=
  Marshal (JObj [("server_id", JStr "s1"); ("ipv4", JStr "10.0.0.1"); ("health_check_method", JStr "AGENT_PUSH");
                 ("ssh_port", JInt 22)]).
Definition sample_event : Message :=
  {| ID := "1"; Values := {["event_type" := "ServerCreated"; "payload" := sample_payload]} |}.

Lemma stream_processMessage_effect_witness :
  let w' := (stream_processMessage (srv := sure_host) sample_event (HView 0 empty_redis)).2 in
  hash_at (redis w') "server:info:s1" !! "status" = Some "UNKNOWN" /\
  wp (stream_processMessage (srv := sure_host) sample_event) (fun res w' =>
    match Values sample_event !! "event_type", Values sample_event !! "payload" with
    | Some eventType, Some payload =>
      match decode_payload payload with
      | None => res = Err ErrJson /\ w' = HView 0 empty_redis
      | Some p => res = Ok tt /\ exists t, (0 <= t)%Z /\ applied eventType p t empty_redis (redis w')
      end
    | _, _ => res = Ok tt /\ w' = HView 0 empty_redis
    end) (HView 0 empty_redis).
Proof.
  split; [by vm_compute|].
  exact (stream_processMessage_effect (srv := sure_host) sample_event (HView 0 empty_redis)).
Defined.

(** ** The polling pool and the heartbeat consumer *)
Section evaluators.
Context {W} {srv : Host W} `{!HostLaws srv} `{!Probes W} (timeouts : CheckerTimeouts).
Context (Evaluate : string -> string -> bool -> proc W (res unit)).
Context (evals : W -> list (string * bool)) `{!Frame srv evals}.
Context (Hev : Evaluate_logged Evaluate evals).

(** The probes evaluate nothing themselves. *)
Definition probes_quiet : Prop := forall c config w, evals (Check timeouts c config w).2 = evals w.
Context (Hprobes : probes_quiet).

Lemma processServer_evaluates `{!Reliable srv} id w :
  let config := hash_at (redis (view w)) (ServerInfoKey id) in
  wp (processServer Evaluate timeouts id) (fun _ w' =>
    if decide (config = ∅) then evals w' = evals w
    else exists w1 w2 b,
      Check timeouts (GetChecker (config_get config "health_check_method"))
        (<["server_id" := id]> config) w1 = (b, w2) /\
      evals w' = evals w ++ [(id, b)]) w.
Proof.
  intros config. apply wp_bind.
  eapply wp_mono; [apply wp_and; [apply (wp_frame srv evals)|]|].
  { apply wp_rdb_reliable with (Q := fun r _ => r = Ok config). intros a w1 t s1 _ _ [-> _]. done. }
  cbn. intros r w1 [He1 ->]. case_bool_decide as Hc.
  - apply wp_ret. by rewrite decide_True by done.
  - apply wp_bind, wp_run.
    destruct (Check _ _ _ w1) as [b w2] eqn:E. cbn [fst snd].
    pose proof (Hprobes (GetChecker (config_get config "health_check_method"))
      (<["server_id" := id]> config) w1) as Hq. rewrite E in Hq. cbn in Hq.
    apply wp_bind. eapply wp_mono; [apply Hev|]. cbn. intros r w3 [He3 _].
    destruct (decide (config = ∅)); [done|]. exists w1, w2, b. split; [exact E|]. by rewrite He3, Hq, He1.
Qed.
End evaluators.

(** Polling a server: without a cached configuration nothing is
    evaluated; with one, the checker that its method names runs on that
    configuration and its verdict is evaluated, once. *)
Theorem processServer_effect {W} {srv : Host W} `{!HostLaws srv} `{!Reliable srv} `{!Probes W}
    (timeouts : CheckerTimeouts) (Evaluate : string -> string -> bool -> proc W (res unit))
    (evals : W -> list (string * bool)) `{!Frame srv evals} (serverID : string) (w : W) :
  Evaluate_logged Evaluate evals -> probes_quiet timeouts evals ->
  let config := hash_at (redis (view w)) (ServerInfoKey serverID) in
  wp (processServer Evaluate timeouts serverID) (fun _ w' =>
    if decide (config = ∅) then evals w' = evals w
    else exists w1 w2 b,
      Check timeouts (GetChecker (config_get config "health_check_method"))
        (<["server_id" := serverID]> config) w1 = (b, w2) /\
      evals w' = evals w ++ [(serverID, b)]) w.
Proof. intros Hev Hq. by apply processServer_evaluates. Qed.

(** Probes under which everything is up. *)
Definition up_probes (W : Type) : Probes W := {|
  NewPinger := fun _ => mret (Ok tt);
  pinger_Run := fun _ _ => mret (Ok 1%Z);
  ssh_Dial := fun _ _ _ _ => mret (Ok tt);
  ssh_NewSession := fun _ => mret (Ok tt);
  ssh_Run := fun _ _ => mret (Ok tt);
  http_NewRequest := fun _ => mret (Ok tt);
  http_Do := fun _ _ => mret (Ok 200%Z);
  Decrypt := fun s => mret (Ok s);
|}.

Lemma up_probes_quiet {W X} timeouts (f : W -> X) : forall c config w,
  f (Check (Probes0 := up_probes W) timeouts c config w).2 = f w.
Proof.
  intros [] config w; cbn; unfold ICMPChecker_Check, SSHChecker_Check, AgentPullChecker_Check, ssh_login;
    by repeat case_match.
Qed.

Definition sample_ping : hview * list (string * bool) :=
  (HView 0 (set_hash (ServerInfoKey "a") {["ipv4" := "10.0.0.1"; "health_check_method" := "ICMP"]} empty_redis), []).

Lemma processServer_effect_witness :
  let config := hash_at (redis sample_ping.1) (ServerInfoKey "a") in
  wp (processServer (srv := log_host) (Probes0 := up_probes _) log_Evaluate {| ICMP := 1; SSH := 1; AgentPull := 1 |} "a")
    (fun _ w' =>
    if decide (config = ∅) then w'.2 = []
    else exists w1 w2 b,
      Check (W := hview * list (string * bool)) (Probes0 := up_probes _) {| ICMP := 1; SSH := 1; AgentPull := 1 |}
        (GetChecker (config_get config "health_check_method")) (<["server_id" := "a"]> config) w1 = (b, w2) /\
      w'.2 = [] ++ [("a", b)]) sample_ping.
Proof.
  apply (processServer_effect (srv := log_host) (Probes0 := up_probes _) _ log_Evaluate snd "a" sample_ping).
  - intros id ip b w. split; reflexivity.
  - intros c config w. apply (up_probes_quiet _ snd).
Defined.
