(* ===== verification/ManagementData.v ===== *)
(** sms-management, data and repositories: the [servers] and [outbox_events]
    tables (domain/), the GORM repositories on them (repository/impl/), and the
    abstract steps that a table state may take. *)
From S2P Require Import Prelude GoStd Sql Json Redis Host.

(** ** Domain (domain/server.go, domain/outbox.go) *)
Definition ServerStatusOnline : string := "ONLINE".
Definition ServerStatusOffline : string := "OFFLINE".
Definition ServerStatusUnknown : string := "UNKNOWN".
Definition ServerStatus_IsValid (s : string) : bool :=
  String.eqb s ServerStatusOnline || String.eqb s ServerStatusOffline || String.eqb s ServerStatusUnknown.

Definition MethodICMP : string := "ICMP".
Definition MethodSSH : string := "SSH".
Definition MethodAgentPull : string := "AGENT_PULL".
Definition MethodAgentPush : string := "AGENT_PUSH".

Record Server := {
  ServerID : string;
  ServerName : string;
  IPv4 : string;
  CurrentStatus : string;
  HealthCheckMethod : string;
  SSHPort : Z;
  SSHUser : string;
  SSHKey : string;
  AgentEndpoint : string;
  ConsecutiveFailures : Z;
  CreatedAt : Z;
  UpdatedAt : Z;
}.

#[export] Instance Server_eq_dec : EqDecision Server.
Proof. solve_decision. Defined.

(** A struct literal leaves the other fields at their zero values. *)
Definition Server_zero : Server := {|
  ServerID := ""; ServerName := ""; IPv4 := ""; CurrentStatus := ""; HealthCheckMethod := "";
  SSHPort := 0; SSHUser := ""; SSHKey := ""; AgentEndpoint := ""; ConsecutiveFailures := 0;
  CreatedAt := zero_time; UpdatedAt := zero_time |}.

Definition EventServerCreated : string := "ServerCreated".
Definition EventServerUpdated : string := "ServerUpdated".
Definition EventServerDeleted : string := "ServerDeleted".

Record OutboxEvent := {
  ID : string;
  AggregateType : string;
  AggregateID : string;
  EventType : string;
  Payload : string;
  IsProcessed : bool;
  ECreatedAt : Z;
}.

#[export] Instance OutboxEvent_eq_dec : EqDecision OutboxEvent.
Proof. solve_decision. Defined.

(** ** The tables *)
Record mstate := MState { servers : list Server; outbox : list OutboxEvent }.

#[export] Instance mstate_eq_dec : EqDecision mstate.
Proof. solve_decision. Defined.

Definition names (l : list Server) : list string := map ServerName l.
Definition ips (l : list Server) : list string := map IPv4 l.
Definition ids (l : list Server) : list string := map ServerID l.
Definition event_ids (l : list OutboxEvent) : list string := map ID l.

(** Primary keys and unique indexes. *)
Definition unique_servers (l : list Server) : bool :=
  bool_decide (NoDup (ids l)) && bool_decide (NoDup (names l)) && bool_decide (NoDup (ips l)).

Lemma unique_servers_spec l :
  unique_servers l = true -> NoDup (ids l) /\ NoDup (names l) /\ NoDup (ips l).
Proof.
  unfold unique_servers. rewrite !andb_true_iff, !bool_decide_eq_true. tauto.
Qed.

Definition well_keyed (s : mstate) : Prop :=
  NoDup (ids (servers s)) /\ NoDup (names (servers s)) /\ NoDup (ips (servers s)) /\
  NoDup (event_ids (outbox s)).

(** What PostgreSQL does beyond keys: the input of the types [uuid] and
    [jsonb], the sizes of columns, pattern matching and ordering. *)
Class Postgres := {
  parse_uuid : string -> option string;
  jsonb : string -> option string;
  fits_server : Server -> bool;
  fits_event : OutboxEvent -> bool;
  ILIKE : string -> string -> bool;
  order_by : string -> list Server -> option (list Server);
  by_created_at : list OutboxEvent -> list OutboxEvent;
}.

Class PostgresLaws `{pg : Postgres} : Prop := {
  (** The text form of a [uuid] is hexadecimal digits and dashes. *)
  parse_uuid_plain : forall s u, parse_uuid s = Some u -> plain_text u = true;
  by_created_at_perm : forall l, by_created_at l ≡ₚ l;
  order_by_perm : forall c l l', order_by c l = Some l' -> l' ≡ₚ l;
  (** [jsonb] may reorder and respace an object, not change it. *)
  jsonb_law : forall m s, flat m -> distinct_names m -> jsonb (Marshal (JObj m)) = Some s ->
    exists m', parse s = Some (JObj m') /\ m' ≡ₚ m;
  (** Text columns hold well-formed UTF-8, [int] columns 32 bits. *)
  fits_server_law : forall s, fits_server s = true ->
    Forall (fun t => valid_utf8 t = true) [ServerID s; ServerName s; IPv4 s; CurrentStatus s;
      HealthCheckMethod s; SSHUser s; SSHKey s; AgentEndpoint s] /\
    (- 2 ^ 31 <= SSHPort s < 2 ^ 31)%Z;
}.

Definition ErrRecordNotFound : err := ErrS "gorm.ErrRecordNotFound".
Definition ErrConstraint : err := ErrS "postgres: constraint violation".
Definition ErrInvalidText : err := ErrS "postgres: invalid input syntax".

(** repository/errors.go *)
Definition ErrNotFound : err := ErrS "repository.ErrNotFound".

(** ** Statements *)
Section statements.
Context `{pg : Postgres}.

Definition first_server (p : Server -> bool) (s : mstate) : res Server * mstate :=
  match List.find p (servers s) with
  | Some srv => (Ok srv, s)
  | None => (Err ErrRecordNotFound, s)
  end.

(** GORM fills the zero values of the columns that have a default. *)
Definition fill_defaults (now : Z) (uuid : string) (s : Server) : Server := {|
  ServerID := if String.eqb (ServerID s) "" then uuid else ServerID s;
  ServerName := ServerName s;
  IPv4 := IPv4 s;
  CurrentStatus := if String.eqb (CurrentStatus s) "" then ServerStatusUnknown else CurrentStatus s;
  HealthCheckMethod := if String.eqb (HealthCheckMethod s) "" then MethodICMP else HealthCheckMethod s;
  SSHPort := SSHPort s; SSHUser := SSHUser s; SSHKey := SSHKey s; AgentEndpoint := AgentEndpoint s;
  ConsecutiveFailures := ConsecutiveFailures s;
  CreatedAt := if IsZero (CreatedAt s) then now else CreatedAt s;
  UpdatedAt := if IsZero (UpdatedAt s) then now else UpdatedAt s |}.

Definition insert_servers (new : list Server) (s : mstate) : res (list Server) * mstate :=
  if forallb fits_server new && unique_servers (servers s ++ new)
  then (Ok new, MState (servers s ++ new) (outbox s))
  else (Err ErrConstraint, s).

(** The payload is stored in the text form of [jsonb]. *)
Definition stored_event (e : OutboxEvent) : option OutboxEvent :=
  p ← jsonb (Payload e);
  Some {| ID := ID e; AggregateType := AggregateType e; AggregateID := AggregateID e;
          EventType := EventType e; Payload := p; IsProcessed := IsProcessed e;
          ECreatedAt := ECreatedAt e |}.

Definition insert_events (new : list OutboxEvent) (s : mstate) : res unit * mstate :=
  match mapM stored_event new with
  | None => (Err ErrInvalidText, s)
  | Some new' =>
    if forallb fits_event new' && bool_decide (NoDup (event_ids (outbox s ++ new')))
    then (Ok tt, MState (servers s) (outbox s ++ new'))
    else (Err ErrConstraint, s)
  end.

(** The columns that [Update] selects, and [updated_at]. *)
Definition updated_row (now : Z) (srv old : Server) : Server := {|
  ServerID := ServerID old; ServerName := ServerName srv; IPv4 := IPv4 srv;
  CurrentStatus := CurrentStatus srv; HealthCheckMethod := HealthCheckMethod srv;
  SSHPort := SSHPort srv; SSHUser := SSHUser srv; SSHKey := SSHKey srv;
  AgentEndpoint := AgentEndpoint srv; ConsecutiveFailures := ConsecutiveFailures srv;
  CreatedAt := CreatedAt old; UpdatedAt := now |}.

Definition replace_row (now : Z) (srv : Server) (l : list Server) : list Server :=
  map (fun old => if String.eqb (ServerID old) (ServerID srv) then updated_row now srv old else old) l.

(** The number of rows affected. *)
Definition update_server (now : Z) (srv : Server) (s : mstate) : res Z * mstate :=
  let hit := List.filter (fun old => String.eqb (ServerID old) (ServerID srv)) (servers s) in
  let new := replace_row now srv (servers s) in
  if forallb fits_server new && unique_servers new
  then (Ok (Z.of_nat (length hit)), MState new (outbox s))
  else (Err ErrConstraint, s).

Definition delete_server (id : string) (s : mstate) : res Z * mstate :=
  match parse_uuid id with
  | None => (Err ErrInvalidText, s)
  | Some u =>
    (Ok (Z.of_nat (length (List.filter (fun old => String.eqb (ServerID old) u) (servers s)))),
     MState (List.filter (fun old => negb (String.eqb (ServerID old) u)) (servers s)) (outbox s))
  end.

(** [LIMIT n], not written when negative. *)
Definition limit_rows {A} (n : Z) (l : list A) : list A :=
  if (n <? 0)%Z then l else take (Z.to_nat n) l.
(** [OFFSET n], not written unless positive. *)
Definition offset_rows {A} (n : Z) (l : list A) : list A := drop (Z.to_nat n) l.

Definition unprocessed (limit : Z) (s : mstate) : res (list OutboxEvent) * mstate :=
  (Ok (limit_rows limit (by_created_at (List.filter (fun e => negb (IsProcessed e)) (outbox s)))), s).

Definition mark_event (eids : list string) (e : OutboxEvent) : OutboxEvent :=
  if bool_decide (ID e ∈ eids)
  then {| ID := ID e; AggregateType := AggregateType e; AggregateID := AggregateID e;
          EventType := EventType e; Payload := Payload e; IsProcessed := true;
          ECreatedAt := ECreatedAt e |}
  else e.

Definition mark_events (eids : list string) (s : mstate) : res unit * mstate :=
  (Ok tt, MState (servers s) (map (mark_event eids) (outbox s))).
End statements.

(** ** Repositories (repository/impl/) *)
Record ServerListFilter := {
  Page : Z; PageSize : Z; Status : string; Name : string;
  CreatedFrom : Z; CreatedTo : Z; SortBy : string; SortDirection : string;
}.

Section repositories.
Context {W} {srv : Host W} {db : Db W mstate} `{pg : Postgres}.

(** server_repository_impl.go *)
Definition trimmed (server : Server) : Server := {|
  ServerID := ServerID server; ServerName := TrimSpace (ServerName server);
  IPv4 := TrimSpace (IPv4 server); CurrentStatus := CurrentStatus server;
  HealthCheckMethod := HealthCheckMethod server; SSHPort := SSHPort server;
  SSHUser := SSHUser server; SSHKey := SSHKey server; AgentEndpoint := AgentEndpoint server;
  ConsecutiveFailures := ConsecutiveFailures server;
  CreatedAt := CreatedAt server; UpdatedAt := UpdatedAt server |}.

Definition Server_Create (server : Server) : proc W (res Server) :=
  let server := trimmed server in
  now <-- time_Now;
  uuid <-- uuid_New;                       (* gen_random_uuid () *)
  let row := fill_defaults now uuid server in
  _ <-? exec (insert_servers [row]);
  mret (Ok row).

(** [gorm.ErrRecordNotFound] becomes [repository.ErrNotFound]. *)
Definition not_found {A} (r : res A) : res A :=
  match r with
  | Ok a => Ok a
  | Err e => if errors_Is e ErrRecordNotFound then Err ErrNotFound else Err e
  end.

Definition GetByID (id : string) : proc W (res Server) :=
  r <-- exec (fun s => match parse_uuid id with
                       | None => (Err ErrInvalidText, s)
                       | Some u => first_server (fun x => String.eqb (ServerID x) u) s
                       end);
  mret (not_found r).

Definition GetByIPv4 (ipv4 : string) : proc W (res Server) :=
  r <-- exec (first_server (fun x => String.eqb (IPv4 x) (TrimSpace ipv4)));
  mret (not_found r).

Definition GetByName (name : string) : proc W (res Server) :=
  r <-- exec (first_server (fun x => String.eqb (ServerName x) (TrimSpace name)));
  mret (not_found r).

Definition FindByNamesOrIPv4s (by_name by_ip : list string) : proc W (res (list Server)) :=
  if bool_decide (by_name = []) && bool_decide (by_ip = []) then mret (Ok [])
  else exec (fun s => (Ok (List.filter (fun x => bool_decide (ServerName x ∈ by_name) || bool_decide (IPv4 x ∈ by_ip))
                             (servers s)), s)).

Definition Server_Update (server : Server) : proc W (res Server) :=
  let server := trimmed server in
  now <-- time_Now;
  n <-? exec (update_server now server);
  if (n =? 0)%Z then mret (Err ErrNotFound)
  else mret (Ok (updated_row now server server)).   (* the struct gets the new [updated_at] *)

Definition Server_Delete (id : string) : proc W (res unit) :=
  n <-? exec (delete_server id);
  if (n =? 0)%Z then mret (Err ErrNotFound) else mret (Ok tt).

Fixpoint fill_all (l : list Server) : proc W (list Server) :=
  match l with
  | [] => mret []
  | s :: l =>
    now <-- time_Now;
    uuid <-- uuid_New;
    rows <-- fill_all l;
    mret (fill_defaults now uuid s :: rows)
  end.

Definition Server_BatchCreate (l : list Server) : proc W (res (list Server)) :=
  if bool_decide (l = []) then mret (Ok [])
  else
    rows <-- fill_all l;
    exec (insert_servers rows).

(** The conditions of [Search]. *)
Definition matches (f : ServerListFilter) (x : Server) : bool :=
  (String.eqb (Status f) "" || String.eqb (CurrentStatus x) (Status f)) &&
  (String.eqb (Name f) "" ||
     let term := "%" +:+ TrimSpace (Name f) +:+ "%" in
     ILIKE (ServerName x) term || ILIKE (IPv4 x) term) &&
  (IsZero (CreatedFrom f) || (CreatedFrom f <=? CreatedAt x)%Z) &&
  (IsZero (CreatedTo f) || (CreatedAt x <? CreatedTo f)%Z).

Definition order_clause (f : ServerListFilter) : string :=
  if String.eqb (SortBy f) "" then "created_at desc"
  else
    let direction := if String.eqb (ToLower (SortDirection f)) "desc" then "desc" else "asc" in
    SortBy f +:+ " " +:+ direction.

Definition Search (f : ServerListFilter) : proc W (res (list Server * Z)) :=
  total <-? exec (fun s => (Ok (Z.of_nat (length (List.filter (matches f) (servers s)))), s));
  let offset := wrap64 ((Page f - 1) * PageSize f) in
  rows <-? exec (fun s =>
    match order_by (order_clause f) (List.filter (matches f) (servers s)) with
    | None => (Err ErrInvalidText, s)
    | Some l => (Ok (limit_rows (PageSize f) (offset_rows offset l)), s)
    end);
  mret (Ok (rows, wrap32 total)).           (* int32(total) *)

(** outbox_repository_impl.go *)
Definition Outbox_Create (e : OutboxEvent) : proc W (res unit) := exec (insert_events [e]).

Definition Outbox_BatchCreate (es : list OutboxEvent) : proc W (res unit) :=
  if bool_decide (es = []) then mret (Ok tt) else exec (insert_events es).

Definition GetUnprocessed (limit : Z) : proc W (res (list OutboxEvent)) := exec (unprocessed limit).

Definition MarkProcessed (eids : list string) : proc W (res unit) :=
  if bool_decide (eids = []) then mret (Ok tt) else exec (mark_events eids).

(** domain/outbox.go *)
Definition NewOutboxEvent (aggregateType aggregateID eventType payload : string) : proc W OutboxEvent :=
  id <-- uuid_New;
  now <-- time_Now;
  mret {| ID := id; AggregateType := aggregateType; AggregateID := aggregateID;
          EventType := eventType; Payload := payload; IsProcessed := false; ECreatedAt := now |}.
End repositories.
