(* ===== verification/ManagementService.v ===== *)
(** sms-management, the server service (service/server_service.go and the
    import half of service/import_export.go): every handler as it is written,
    against the repositories of [ManagementData], and the theorem that each of
    them refines the atomic steps [mstep] whatever requests to the database
    fail. *)
From S2P Require Import Prelude GoStd Sql Json Redis Host ManagementData.

Definition ErrServerNotFound : err := ErrS "service.ErrServerNotFound".
Definition ErrIPv4Exists : err := ErrS "service.ErrIPv4Exists".
Definition ErrNameExists : err := ErrS "service.ErrNameExists".
Definition ErrInvalidSSHPort : err := ErrS "service.ErrInvalidSSHPort".
Definition ErrInvalidSSHUser : err := ErrS "service.ErrInvalidSSHUser".
Definition ErrInvalidSSHKey : err := ErrS "service.ErrInvalidSSHKey".
Definition ErrInvalidSSHKeyFormat : err := ErrS "service.ErrInvalidSSHKeyFormat".
Definition ErrInvalidAgentEndpoint : err := ErrS "service.ErrInvalidAgentEndpoint".
Definition ErrInvalidAgentEndpointFormat : err := ErrS "service.ErrInvalidAgentEndpointFormat".
Definition ErrInvalidStatusFilter : err := ErrS "service.ErrInvalidStatusFilter".

(** [CreateServerInput] and [UpdateServerInput] have the same fields. *)
Record ServerInput := {
  in_ServerName : string; in_IPv4 : string; in_HealthCheckMethod : string;
  in_SSHPort : Z; in_SSHUser : string; in_SSHKey : string; in_AgentEndpoint : string;
}.

Section service.
Context {W} {srv : Host W} {db : Db W mstate} `{pg : Postgres}.
(** [security.Encrypt]; [url.ParseRequestURI] succeeds; the JSON text of a time
    in the zone of the process. *)
Context (Encrypt : string -> proc W (res string)) (ParseRequestURI : string -> bool) (time_json : Z -> string).

(** [json.Marshal(server)]. *)
Definition server_json (s : Server) : string := Marshal (JObj [
  ("server_id", JStr (ServerID s)); ("server_name", JStr (ServerName s)); ("ipv4", JStr (IPv4 s));
  ("current_status", JStr (CurrentStatus s)); ("health_check_method", JStr (HealthCheckMethod s));
  ("ssh_port", JInt (SSHPort s)); ("ssh_user", JStr (SSHUser s)); ("ssh_key", JStr (SSHKey s));
  ("agent_endpoint", JStr (AgentEndpoint s)); ("consecutive_failures", JInt (ConsecutiveFailures s));
  ("created_at", JStr (time_json (CreatedAt s))); ("updated_at", JStr (time_json (UpdatedAt s)))]).

(** A lookup whose [ErrNotFound] means "none". *)
Definition existing (m : proc W (res Server)) : proc W (res (option Server)) :=
  r <-- m;
  mret (match r with
        | Ok s => Ok (Some s)
        | Err e => if errors_Is e ErrNotFound then Ok None else Err e
        end).

(** Lines 98-118: the settings of the chosen method. *)
Definition validate_create (i : ServerInput) : option err :=
  if String.eqb (in_HealthCheckMethod i) MethodSSH then
    if (in_SSHPort i <=? 0)%Z || (65535 <? in_SSHPort i)%Z then Some ErrInvalidSSHPort
    else if String.eqb (in_SSHUser i) "" then Some ErrInvalidSSHUser
    else if String.eqb (in_SSHKey i) "" then Some ErrInvalidSSHKey
    else if negb (Contains (in_SSHKey i) "PRIVATE KEY") then Some ErrInvalidSSHKeyFormat
    else None
  else if String.eqb (in_HealthCheckMethod i) MethodAgentPull then
    if String.eqb (in_AgentEndpoint i) "" then Some ErrInvalidAgentEndpoint
    else if negb (ParseRequestURI (in_AgentEndpoint i)) then Some ErrInvalidAgentEndpointFormat
    else None
  else None.

(** "Clean irrelevant fields". *)
Definition clean_input (i : ServerInput) : ServerInput :=
  let ssh := String.eqb (in_HealthCheckMethod i) MethodSSH in
  let pull := String.eqb (in_HealthCheckMethod i) MethodAgentPull in
  {| in_ServerName := in_ServerName i; in_IPv4 := in_IPv4 i; in_HealthCheckMethod := in_HealthCheckMethod i;
     in_SSHPort := if ssh then in_SSHPort i else 0%Z;
     in_SSHUser := if ssh then in_SSHUser i else "";
     in_SSHKey := if ssh then in_SSHKey i else "";
     in_AgentEndpoint := if pull then in_AgentEndpoint i else "" |}.

Definition new_server (i : ServerInput) (encryptedKey : string) : Server := {|
  ServerID := ""; ServerName := in_ServerName i; IPv4 := in_IPv4 i;
  CurrentStatus := ServerStatusUnknown; HealthCheckMethod := in_HealthCheckMethod i;
  SSHPort := in_SSHPort i; SSHUser := in_SSHUser i; SSHKey := encryptedKey;
  AgentEndpoint := in_AgentEndpoint i; ConsecutiveFailures := 0;
  CreatedAt := zero_time; UpdatedAt := zero_time |}.

(** The body of the transaction of [CreateServer]. *)
Definition create_tx (server : Server) : proc W (res Server) :=
  server <-? Server_Create server;
  event <-- NewOutboxEvent "Server" (ServerID server) EventServerCreated (server_json server);
  _ <-? Outbox_Create event;
  mret (Ok server).

Definition encrypt_key (key : string) : proc W (res string) :=
  r <-- Encrypt key;
  mret (match r with Ok k => Ok k | Err e => Err (ErrWrap "failed to encrypt ssh key" e) end).

Definition CreateServer (input : ServerInput) : proc W (res Server) :=
  existingName <-? existing (GetByName (in_ServerName input));
  match existingName with
  | Some _ => mret (Err ErrNameExists)
  | None =>
    existingIP <-? existing (GetByIPv4 (in_IPv4 input));
    match existingIP with
    | Some _ => mret (Err ErrIPv4Exists)
    | None =>
      match validate_create input with
      | Some e => mret (Err e)
      | None =>
        let input := clean_input input in
        encryptedKey <-? encrypt_key (in_SSHKey input);
        Transaction (create_tx (new_server input encryptedKey))
      end
    end
  end.

(** Lines 177-186: settings that are not given are kept. *)
Definition inherit_input (i : ServerInput) (s : Server) : ServerInput := {|
  in_ServerName := in_ServerName i; in_IPv4 := in_IPv4 i; in_HealthCheckMethod := in_HealthCheckMethod i;
  in_SSHPort := if (in_SSHPort i =? 0)%Z then SSHPort s else in_SSHPort i;
  in_SSHUser := if String.eqb (in_SSHUser i) "" then SSHUser s else in_SSHUser i;
  in_SSHKey := in_SSHKey i;
  in_AgentEndpoint := if String.eqb (in_AgentEndpoint i) "" then AgentEndpoint s else in_AgentEndpoint i |}.

Definition validate_update (i : ServerInput) (s : Server) : option err :=
  if String.eqb (in_HealthCheckMethod i) MethodSSH then
    if (in_SSHPort i <=? 0)%Z || (65535 <? in_SSHPort i)%Z then Some ErrInvalidSSHPort
    else if String.eqb (in_SSHUser i) "" then Some ErrInvalidSSHUser
    else if String.eqb (in_SSHKey i) "" && String.eqb (SSHKey s) "" then Some ErrInvalidSSHKey
    else if negb (String.eqb (in_SSHKey i) "") && negb (Contains (in_SSHKey i) "PRIVATE KEY")
    then Some ErrInvalidSSHKeyFormat
    else None
  else if String.eqb (in_HealthCheckMethod i) MethodAgentPull then
    if String.eqb (in_AgentEndpoint i) "" then Some ErrInvalidAgentEndpoint
    else if negb (ParseRequestURI (in_AgentEndpoint i)) then Some ErrInvalidAgentEndpointFormat
    else None
  else None.

(** The fields an update assigns; the status falls back to UNKNOWN when the
    address or the method changes. *)
Definition changed_server (i : ServerInput) (encryptedKey : string) (s : Server) : Server := {|
  ServerID := ServerID s; ServerName := in_ServerName i; IPv4 := in_IPv4 i;
  CurrentStatus :=
    if negb (String.eqb (HealthCheckMethod s) (in_HealthCheckMethod i)) || negb (String.eqb (IPv4 s) (in_IPv4 i))
    then ServerStatusUnknown else CurrentStatus s;
  HealthCheckMethod := in_HealthCheckMethod i;
  SSHPort := in_SSHPort i; SSHUser := in_SSHUser i; SSHKey := encryptedKey;
  AgentEndpoint := in_AgentEndpoint i; ConsecutiveFailures := ConsecutiveFailures s;
  CreatedAt := CreatedAt s; UpdatedAt := UpdatedAt s |}.

Definition update_tx (server : Server) : proc W (res Server) :=
  server <-? Server_Update server;
  event <-- NewOutboxEvent "Server" (ServerID server) EventServerUpdated (server_json server);
  _ <-? Outbox_Create event;
  mret (Ok server).

(** An [ErrNotFound] is reported as [ErrServerNotFound]. *)
Definition server_not_found {A} (r : res A) : res A :=
  match r with
  | Ok a => Ok a
  | Err e => if errors_Is e ErrNotFound then Err ErrServerNotFound else Err e
  end.

(** The name and the address may be taken by no other server. *)
Definition taken (same : bool) (m : proc W (res Server)) (id : string) (e : err) : proc W (res unit) :=
  if same then mret (Ok tt)
  else
    found <-? existing m;
    match found with
    | Some other => if String.eqb (ServerID other) id then mret (Ok tt) else mret (Err e)
    | None => mret (Ok tt)
    end.

Definition UpdateServer (id : string) (input : ServerInput) : proc W (res Server) :=
  server <-? (r <-- GetByID id; mret (server_not_found r));
  _ <-? taken (String.eqb (in_ServerName input) (ServerName server))
          (GetByName (in_ServerName input)) id ErrNameExists;
  let input := inherit_input input server in
  match validate_update input server with
  | Some e => mret (Err e)
  | None =>
    encryptedKey <-? (if String.eqb (in_SSHKey input) "" then mret (Ok (SSHKey server))
                      else encrypt_key (in_SSHKey input));
    _ <-? taken (String.eqb (IPv4 server) (in_IPv4 input))
            (GetByIPv4 (in_IPv4 input)) id ErrIPv4Exists;
    Transaction (update_tx (changed_server input encryptedKey server))
  end.

(** The payload of a deletion is put together by hand. *)
Definition delete_payload (id : string) : string :=
  "{" +:+ String dquote "server_id" +:+ String dquote ":" +:+ String dquote id +:+ String dquote "}".

Definition delete_tx (id : string) : proc W (res unit) :=
  _ <-? Server_Delete id;
  event <-- NewOutboxEvent "Server" id EventServerDeleted (delete_payload id);
  Outbox_Create event.

Definition DeleteServer (id : string) : proc W (res unit) :=
  _ <-? (r <-- GetByID id; mret (server_not_found r));
  r <-- Transaction (delete_tx id);
  mret (server_not_found r).

Definition normalise_filter (f : ServerListFilter) : ServerListFilter := {|
  Page := if (Page f <? 1)%Z then 1 else Page f;
  PageSize := if (PageSize f <? 1)%Z || (100 <? PageSize f)%Z then 20 else PageSize f;
  Status := Status f; Name := Name f; CreatedFrom := CreatedFrom f; CreatedTo := CreatedTo f;
  SortBy := SortBy f; SortDirection := SortDirection f |}.

Definition SearchServers (f : ServerListFilter) : proc W (res (list Server * Z)) :=
  let f := normalise_filter f in
  if negb (String.eqb (Status f) "") && negb (ServerStatus_IsValid (Status f))
  then mret (Err ErrInvalidStatusFilter)
  else Search f.
End service.

(** ** Import (service/import_export.go) *)
Definition maxFileSize : nat := 2097152.
Definition batchSize : nat := 100.

Definition ErrFileTooLarge : err := ErrS "service.ErrFileTooLarge".
Definition ErrInvalidFormat : err := ErrS "service.ErrInvalidFormat".
Definition ErrNoSheets : err := ErrS "service.ErrNoSheets".
Definition ErrEmptyFile : err := ErrS "service.ErrEmptyFile".
Definition ErrMissingCols : err := ErrS "service.ErrMissingCols".

Record ImportResult := {
  SuccessCount : Z; SuccessfulServers : list string;
  FailCount : Z; FailedServers : list string;
}.
Definition empty_result : ImportResult :=
  {| SuccessCount := 0; SuccessfulServers := []; FailCount := 0; FailedServers := [] |}.

Definition add_success (name : string) (r : ImportResult) : ImportResult := {|
  SuccessCount := wrap32 (SuccessCount r + 1); SuccessfulServers := SuccessfulServers r ++ [name];
  FailCount := FailCount r; FailedServers := FailedServers r |}.
Definition add_failure (what : string) (r : ImportResult) : ImportResult := {|
  SuccessCount := SuccessCount r; SuccessfulServers := SuccessfulServers r;
  FailCount := wrap32 (FailCount r + 1); FailedServers := FailedServers r ++ [what] |}.

(** The spreadsheet library: a file as the name of its first sheet ([""] when
    it has none) and its rows, or an error at each of the three steps. *)
Record sheet := { sheet_name : string; sheet_rows : res (list (list string)) }.

(** The last column with one of the accepted headings. *)
Fixpoint find_columns (i : Z) (header : list string) (nameIdx ipIdx : Z) : Z * Z :=
  match header with
  | [] => (nameIdx, ipIdx)
  | h :: header =>
    let hLower := TrimSpace (ToLower h) in
    if bool_decide (hLower ∈ ["server name"; "server_name"; "name"]) then find_columns (i + 1) header i ipIdx
    else if bool_decide (hLower ∈ ["ipv4"; "ip"]) then find_columns (i + 1) header nameIdx i
    else find_columns (i + 1) header nameIdx ipIdx
  end.

Definition column (cols : list string) (i : Z) : string :=
  match cols !! Z.to_nat i with Some s => TrimSpace s | None => "" end.

Definition imported_server (name ipv4 : string) : Server := {|
  ServerID := ""; ServerName := name; IPv4 := ipv4; CurrentStatus := ServerStatusUnknown;
  HealthCheckMethod := MethodICMP; SSHPort := 0; SSHUser := ""; SSHKey := ""; AgentEndpoint := "";
  ConsecutiveFailures := 0; CreatedAt := zero_time; UpdatedAt := zero_time |}.

(** Servers of the batch that clash with an existing one, or with an earlier
    one of the batch, fail; the others are valid. *)
Fixpoint split_batch (known_names known_ips : gset string) (batch : list Server) (r : ImportResult)
    : list Server * ImportResult :=
  match batch with
  | [] => ([], r)
  | s :: batch =>
    if bool_decide (ServerName s ∈ known_names) || bool_decide (IPv4 s ∈ known_ips)
    then split_batch known_names known_ips batch (add_failure (ServerName s +:+ " (" +:+ IPv4 s +:+ ")") r)
    else
      let '(valid, r) := split_batch ({[ServerName s]} ∪ known_names) ({[IPv4 s]} ∪ known_ips) batch
                           (add_success (ServerName s) r) in
      (s :: valid, r)
  end.

Section import.
Context {W} {srv : Host W} {db : Db W mstate} `{pg : Postgres} (time_json : Z -> string).
(** [excelize.OpenReader]; [net.ParseIP] yields an IPv4 address. *)
Context (OpenReader : string -> option sheet) (is_ipv4 : string -> bool).

Fixpoint created_events (l : list Server) : proc W (list OutboxEvent) :=
  match l with
  | [] => mret []
  | s :: l =>
    e <-- NewOutboxEvent "Server" (ServerID s) EventServerCreated (server_json time_json s);
    es <-- created_events l;
    mret (e :: es)
  end.

Definition import_tx (validServers : list Server) : proc W (res unit) :=
  rows <-? (r <-- Server_BatchCreate validServers;
            mret (match r with Ok l => Ok l | Err e => Err (ErrWrap "batch create failed" e) end));
  events <-- created_events rows;
  r <-- Outbox_BatchCreate events;
  mret (match r with Ok _ => Ok tt | Err e => Err (ErrWrap "failed to create outbox events" e) end).

Definition processBatch (batch : list Server) (result : ImportResult) : proc W (res ImportResult) :=
  if bool_decide (batch = []) then mret (Ok result)
  else
    r <-- FindByNamesOrIPv4s (names batch) (ips batch);
    match r with
    | Err e => mret (Err (ErrWrap "failed to check existing servers" e))
    | Ok existingServers =>
      let '(validServers, result) :=
        split_batch (list_to_set (names existingServers)) (list_to_set (ips existingServers)) batch result in
      if bool_decide (validServers = []) then mret (Ok result)
      else
        _ <-? Transaction (import_tx validServers);
        mret (Ok result)
    end.

(** The rows after the header; [batch] is what has been read and not stored. *)
Fixpoint import_rows (nameIdx ipIdx : Z) (rows : list (list string)) (batch : list Server)
    (result : ImportResult) : proc W (res ImportResult) :=
  match rows with
  | [] => processBatch batch result
  | cols :: rows =>
    let name := column cols nameIdx in
    let ipv4 := column cols ipIdx in
    if String.eqb name "" && String.eqb ipv4 "" then import_rows nameIdx ipIdx rows batch result
    else if String.eqb name "" || String.eqb ipv4 "" || (255 <? Z.of_nat (String.length name))%Z || negb (is_ipv4 ipv4)
    then import_rows nameIdx ipIdx rows batch
           (add_failure (name +:+ " (" +:+ ipv4 +:+ ") - Invalid Format") result)
    else
      let batch := batch ++ [imported_server name ipv4] in
      if decide (batchSize <= length batch) then
        result <-? processBatch batch result;
        import_rows nameIdx ipIdx rows [] result
      else import_rows nameIdx ipIdx rows batch result
  end.

Definition ImportServers (fileBytes : string) : proc W (res ImportResult) :=
  if decide (maxFileSize < String.length fileBytes) then mret (Err ErrFileTooLarge)
  else
    match OpenReader fileBytes with
    | None => mret (Err ErrInvalidFormat)
    | Some f =>
      if String.eqb (sheet_name f) "" then mret (Err ErrNoSheets)
      else
        match sheet_rows f with
        | Err e => mret (Err (ErrWrap "failed to read rows" e))
        | Ok [] => mret (Err ErrEmptyFile)
        | Ok (header :: rows) =>
          let '(nameIdx, ipIdx) := find_columns 0 header (-1) (-1) in
          if (nameIdx =? -1)%Z || (ipIdx =? -1)%Z then mret (Err ErrMissingCols)
          else import_rows nameIdx ipIdx rows [] empty_result
        end
    end.
End import.

(** ** The atomic steps of the tables

    [mstep] is the specification that the handlers refine: a committed state
    changes by one of these steps, each of which writes the servers and the
    events that announce it together. *)
Section steps.
Context `{pg : Postgres} (time_json : Z -> string).

(** The event that announces server [s]. *)
Definition announces (eventType : string) (s : Server) (e : OutboxEvent) : Prop :=
  AggregateType e = "Server" /\ AggregateID e = ServerID s /\ EventType e = eventType /\
  Payload e = server_json time_json s /\ IsProcessed e = false.

Definition retires (id : string) (e : OutboxEvent) : Prop :=
  AggregateType e = "Server" /\ AggregateID e = id /\ EventType e = EventServerDeleted /\
  Payload e = delete_payload id /\ IsProcessed e = false.

Definition with_status (st : string) (s : Server) : Server := {|
  ServerID := ServerID s; ServerName := ServerName s; IPv4 := IPv4 s; CurrentStatus := st;
  HealthCheckMethod := HealthCheckMethod s; SSHPort := SSHPort s; SSHUser := SSHUser s; SSHKey := SSHKey s;
  AgentEndpoint := AgentEndpoint s; ConsecutiveFailures := ConsecutiveFailures s;
  CreatedAt := CreatedAt s; UpdatedAt := UpdatedAt s |}.

(** Names and addresses are stored without surrounding white space. *)
Definition is_trimmed (s : Server) : Prop := trimmed s = s.

Definition created (new : list Server) (x x' : mstate) : Prop :=
  exists evs x1, Forall is_trimmed new /\ insert_servers new x = (Ok new, x1) /\
    Forall2 (announces EventServerCreated) new evs /\ insert_events evs x1 = (Ok tt, x').

(** [s] is the row after the update. *)
Definition updated (s : Server) (x x' : mstate) : Prop :=
  exists now old e n x1, update_server now old x = (Ok n, x1) /\ n <> 0%Z /\ s = updated_row now old old /\
    is_trimmed s /\ announces EventServerUpdated s e /\ insert_events [e] x1 = (Ok tt, x').

Definition deleted (id : string) (x x' : mstate) : Prop :=
  exists e n x1, delete_server id x = (Ok n, x1) /\ n <> 0%Z /\
    retires id e /\ insert_events [e] x1 = (Ok tt, x').

(** A status report rewrites a row that was read before. *)
Definition status_changed (x x' : mstate) : Prop :=
  exists now s st n, s ∈ servers x /\ update_server now (trimmed (with_status st s)) x = (Ok n, x').

Definition marked (x x' : mstate) : Prop := exists eids, mark_events eids x = (Ok tt, x').

Inductive mstep (x x' : mstate) : Prop :=
  | step_created new : created new x x' -> mstep x x'
  | step_updated s : updated s x x' -> mstep x x'
  | step_deleted id : deleted id x x' -> mstep x x'
  | step_status : status_changed x x' -> mstep x x'
  | step_marked : marked x x' -> mstep x x'.
End steps.

(** ** The handlers, statement by statement

    Other clients may change the tables in steps [R] between the statements of
    a handler; its transactions are isolated (see [Sql]). *)
Section refinement.
Context {W} {srv : Host W} {db : Db W mstate} `{!HostLaws srv} {R : mstate -> mstate -> Prop} `{!SharedLaws db R}.
Context `{pg : Postgres}.

Lemma trimmed_is_trimmed s : is_trimmed (trimmed s).
Proof. unfold is_trimmed, trimmed. cbn. by rewrite !TrimSpace_idem. Qed.
Lemma is_trimmed_iff s : is_trimmed s <-> TrimSpace (ServerName s) = ServerName s /\ TrimSpace (IPv4 s) = IPv4 s.
Proof.
  destruct s. unfold is_trimmed, trimmed. cbn. split; [by intros [= -> ->]|by intros [-> ->]].
Qed.
Lemma fill_defaults_trimmed now u s : is_trimmed s -> is_trimmed (fill_defaults now u s).
Proof. by rewrite !is_trimmed_iff. Qed.
Lemma updated_row_trimmed now s : is_trimmed s -> is_trimmed (updated_row now s s).
Proof. by rewrite !is_trimmed_iff. Qed.
Lemma column_trimmed cols i : TrimSpace (column cols i) = column cols i.
Proof. unfold column. destruct (cols !! _); [apply TrimSpace_idem|done]. Qed.

Lemma insert_servers_ok new x rows x1 : insert_servers new x = (Ok rows, x1) -> rows = new.
Proof. unfold insert_servers. destruct (_ && _); intros; by simplify_eq. Qed.

(** The committed tables, and the copy of an open transaction. *)
Definition tables (w : W) : dview mstate := view w.

Context `{!Frame srv tables}.
Context (Encrypt : string -> proc W (res string)) (ParseRequestURI : string -> bool) (time_json : Z -> string).
Definition encrypt_quiet : Prop := forall key w, wp (Encrypt key) (fun _ w' => tables w' = tables w) w.
Context (Hencrypt : encrypt_quiet).

Lemma now_tables w : wp time_Now (fun _ w' => tables w' = tables w) w.
Proof.
  apply wp_bind. eapply wp_mono; [apply (wp_frame srv tables)|]. cbn. intros r w' Hw. by apply wp_ret.
Qed.

Lemma uuid_tables w : wp uuid_New (fun _ w' => tables w' = tables w) w.
Proof.
  apply wp_bind. eapply wp_mono; [apply (wp_frame srv tables)|]. cbn. intros r w' Hw. by apply wp_ret.
Qed.

Lemma NewOutboxEvent_spec ty id evt payload w :
  wp (NewOutboxEvent ty id evt payload) (fun e w' => tables w' = tables w /\
    AggregateType e = ty /\ AggregateID e = id /\ EventType e = evt /\ Payload e = payload /\ IsProcessed e = false) w.
Proof.
  apply wp_bind. eapply wp_mono; [apply uuid_tables|]. cbn. intros u w1 H1.
  apply wp_bind. eapply wp_mono; [apply now_tables|]. cbn. intros t w2 H2.
  apply wp_ret. by rewrite H2, H1.
Qed.

Lemma create_tx_spec server w x :
  tables w = DView x (Some x) ->
  wp (create_tx time_json server) (fun r w' =>
    match r with
    | Ok s => exists x', tables w' = DView x (Some x') /\ created time_json [s] x x' /\
        exists now uuid, s = fill_defaults now uuid (trimmed server)
    | Err _ => committed (tables w') = x
    end) w.
Proof.
  intros Hv. unfold create_tx. apply wp_try. unfold Server_Create.
  apply wp_bind. eapply wp_mono; [apply now_tables|]. cbn beta. intros now w1 H1.
  apply wp_bind. eapply wp_mono; [apply uuid_tables|]. cbn beta. intros u w2 H2.
  rewrite Hv in H1. rewrite H1 in H2.
  apply wp_try. apply (wp_exec_tx _ _ _ x x); [exact H2| |auto].
  intros rows x1 w3 E Hv3. apply wp_ret.
  pose proof (insert_servers_ok _ _ _ _ E) as Er. subst rows.
  apply wp_bind. eapply wp_mono; [apply NewOutboxEvent_spec|]. cbn beta.
  intros e w4 (H4 & He). apply wp_try. apply (wp_exec_tx _ _ _ x x1); [unfold tables in *; congruence| |auto].
  intros [] x2 w5 E5 Hv5. apply wp_ret. exists x2. split; [done|]. split; [|by exists now, u]. exists [e], x1.
  split; [by constructor; [apply fill_defaults_trimmed, trimmed_is_trimmed|]|].
  split; [done|]. split; [|done]. constructor; [exact He|constructor].
Qed.

(** A lookup leaves the tables alone; an answering database tells the truth. *)
Lemma existing_spec (p : Server -> bool) w x :
  tables w = DView x None ->
  wp (existing (r <-- exec (first_server p); mret (not_found r))) (fun r w' => exists x1, rtc R x x1 /\
    tables w' = DView x1 None /\ (Reliable db -> r = Ok (List.find p (servers x1)))) w.
Proof.
  intros Hv. do 2 apply wp_bind. eapply wp_mono; [apply (wp_shared_query _ _ x); [exact Hv|]|].
  { intros y. unfold first_server. by destruct (List.find p (servers y)). }
  cbn beta. intros r w1 (x1 & Hx & H1 & Hr). do 2 apply wp_ret. exists x1. split; [done|]. split; [exact H1|].
  intros Hrel. rewrite Hr by (by right). unfold first_server. by destruct (List.find p (servers x1)).
Qed.

Lemma encrypt_key_spec key w x :
  tables w = DView x None ->
  wp (encrypt_key Encrypt key) (fun _ w' => tables w' = DView x None) w.
Proof.
  intros Hv. apply wp_bind. eapply wp_mono; [apply Hencrypt|]. cbn beta. intros r w1 H1.
  apply wp_ret. congruence.
Qed.

Lemma CreateServer_refines i w x :
  tables w = DView x None ->
  wp (CreateServer Encrypt ParseRequestURI time_json i) (fun r w' =>
    exists x', tables w' = DView x' None /\
      match r with
      | Ok s => among R (created time_json [s]) x x'
      | Err _ => rtc R x x' \/ exists s, among R (created time_json [s]) x x'
      end) w.
Proof.
  intros Hv. apply wp_try. eapply wp_mono; [by apply existing_spec|]. cbn beta.
  intros r1 w1 (x1 & Hx1 & H1 & _). destruct r1 as [[s1|]|e1]; [by apply wp_ret; eauto| |by eauto].
  apply wp_try. eapply wp_mono; [by apply existing_spec|]. cbn beta.
  intros r2 w2 (x2 & Hx2 & H2 & _). assert (rtc R x x2) as Hx by (by trans x1).
  destruct r2 as [[s2|]|e2]; [by apply wp_ret; eauto| |by eauto].
  destruct (validate_create ParseRequestURI i); [by apply wp_ret; eauto|].
  apply wp_try. eapply wp_mono; [by apply encrypt_key_spec|]. cbn beta.
  intros [key|e3] w3 H3; [|by eauto].
  apply (wp_shared_transaction _ (fun x1 s x' => created time_json [s] x1 x') _ _ x2); [exact H3| | |].
  - intros w4 x4 H4 _. eapply wp_mono; [by apply create_tx_spec|]. intros [s|e] w5; [|done].
    by intros (x' & Hv5 & Hc & _); exists x'.
  - intros x4 s x' w' Hx4 Hc Hv'. exists x'. split; [done|]. exists x4. split; [by trans x2|done].
  - intros x4 e w' Hx4 [Hv'|(s & x' & Hc & Hv')].
    + exists x4. split; [done|]. left. by trans x2.
    + exists x'. split; [done|]. right. exists s, x4. split; [by trans x2|done].
Qed.

Lemma update_tx_spec server w x :
  tables w = DView x (Some x) ->
  wp (update_tx time_json server) (fun r w' =>
    match r with
    | Ok s => exists x', tables w' = DView x (Some x') /\ updated time_json s x x' /\
        exists now, s = updated_row now (trimmed server) (trimmed server)
    | Err _ => committed (tables w') = x
    end) w.
Proof.
  intros Hv. apply wp_try. unfold Server_Update.
  apply wp_bind. eapply wp_mono; [apply now_tables|]. cbn beta. intros now w1 H1. rewrite Hv in H1.
  apply wp_try. apply (wp_exec_tx _ _ _ x x); [exact H1| |auto].
  intros n x1 w2 E Hv2. destruct (Z.eqb_spec n 0) as [Hn|Hn]; apply wp_ret; [by unfold tables; rewrite Hv2|].
  apply wp_bind. eapply wp_mono; [apply NewOutboxEvent_spec|]. cbn beta.
  intros e w4 (H4 & He). apply wp_try. apply (wp_exec_tx _ _ _ x x1); [unfold tables in *; congruence| |auto].
  intros [] x2 w5 E5 Hv5. apply wp_ret. exists x2. split; [done|].
  split; [|by exists now].
  exists now, (trimmed server), e, n, x1. split_and!;
    [exact E|done|reflexivity|apply updated_row_trimmed, trimmed_is_trimmed|apply He..|exact E5].
Qed.

Lemma taken_spec same (p : Server -> bool) id e w x :
  tables w = DView x None ->
  wp (taken same (r <-- exec (first_server p); mret (not_found r)) id e) (fun r w' => exists x1, rtc R x x1 /\
    tables w' = DView x1 None) w.
Proof.
  intros Hv. unfold taken. destruct same; [apply wp_ret; by exists x|].
  apply wp_try. eapply wp_mono; [by apply existing_spec|]. cbn beta.
  intros [[o|]|e'] w1 (x1 & Hx & H1 & _); [|by apply wp_ret; eauto|by eauto].
  destruct (String.eqb _ _); by apply wp_ret; eauto.
Qed.

Lemma GetByID_spec id w x :
  tables w = DView x None ->
  wp (GetByID id) (fun r w' => exists x1, rtc R x x1 /\ tables w' = DView x1 None /\
    forall s, r = Ok s -> s ∈ servers x1 /\ parse_uuid id = Some (ServerID s)) w.
Proof.
  intros Hv. apply wp_bind. eapply wp_mono; [apply (wp_shared_query _ _ x); [exact Hv|]|].
  { intros y. destruct (parse_uuid id); [|done]. unfold first_server. by destruct (List.find _ (servers y)). }
  cbn beta. intros r w1 (x1 & Hx & H1 & Hr). apply wp_ret. exists x1. split; [done|]. split; [exact H1|]. intros s Hs.
  destruct r as [a|e]; [|cbn in Hs; by destruct (errors_Is e ErrRecordNotFound)].
  specialize (Hr (or_introl eq_refl)). cbn in Hs. injection Hs as ->.
  destruct (parse_uuid id) as [u|]; [|done]. unfold first_server in Hr.
  destruct (List.find _ (servers x1)) eqn:Ef; [|done]. injection Hr as <-.
  apply List.find_some in Ef as [Hin Heq]. split; [by apply list_elem_of_In|].
  by apply String.eqb_eq in Heq as ->.
Qed.

Lemma get_server_spec id w x :
  tables w = DView x None ->
  wp (r <-- GetByID id; mret (server_not_found r)) (fun r w' => exists x1, rtc R x x1 /\ tables w' = DView x1 None /\
    forall s, r = Ok s -> s ∈ servers x1 /\ parse_uuid id = Some (ServerID s)) w.
Proof.
  intros Hv. apply wp_bind. eapply wp_mono; [by apply GetByID_spec|]. cbn beta.
  intros r w1 (x1 & Hx & H1 & Hr). apply wp_ret. exists x1. split; [done|]. split; [done|]. intros s.
  unfold server_not_found. destruct r as [a|e]; [intros [= ->]; auto|by destruct (errors_Is e ErrNotFound)].
Qed.

(** The row an update writes: the new settings over those of the row that was
    read; UNKNOWN when the method or the address has changed. *)
Definition rewritten (id : string) (i : ServerInput) (x : mstate) (s : Server) : Prop :=
  exists s0 key now, s0 ∈ servers x /\ parse_uuid id = Some (ServerID s0) /\
    let s1 := trimmed (changed_server (inherit_input i s0) key s0) in s = updated_row now s1 s1.

Lemma UpdateServer_refines id i w x :
  tables w = DView x None ->
  wp (UpdateServer Encrypt ParseRequestURI time_json id i) (fun r w' =>
    exists x', tables w' = DView x' None /\
      match r with
      | Ok s => exists x0, rtc R x x0 /\ rewritten id i x0 s /\ among R (updated time_json s) x0 x'
      | Err _ => rtc R x x' \/ exists s, among R (updated time_json s) x x'
      end) w.
Proof.
  intros Hv. apply wp_try. eapply wp_mono; [by apply get_server_spec|]. cbn beta.
  intros [s|e] w1 (x1 & Hx1 & H1 & Hs); [|by eauto].
  destruct (Hs s eq_refl) as [Hin Hid].
  apply wp_try. eapply wp_mono; [by apply taken_spec|]. cbn beta. intros r w2 (x2 & Hx2 & H2).
  assert (rtc R x x2) as Hxx2 by (by trans x1). destruct r as [u|e]; [|by eauto].
  cbn zeta. destruct (validate_update ParseRequestURI (inherit_input i s) s); [by apply wp_ret; eauto|].
  apply wp_try. eapply (wp_mono _ (fun _ w' => tables w' = DView x2 None)).
  { destruct (String.eqb _ ""); [by apply wp_ret|by apply encrypt_key_spec]. }
  intros [key|e] w3 H3; [|by eauto].
  apply wp_try. eapply wp_mono; [by apply taken_spec|]. cbn beta. intros r w4 (x4 & Hx4 & H4).
  assert (rtc R x1 x4) as Hx14 by (by trans x2). assert (rtc R x x4) as Hxx4 by (by trans x1).
  destruct r as [u'|e]; [|by eauto].
  apply (wp_shared_transaction _ (fun x0 s x' => updated time_json s x0 x' /\ rewritten id i x1 s) _ _ x4);
    [exact H4| | |].
  - intros w5 x5 H5 _. eapply wp_mono; [by apply update_tx_spec|]. intros [s'|e] w6; [|done].
    intros (x' & Hv6 & Hu & now & Hrow). exists x'. split; [exact Hv6|]. split; [exact Hu|].
    by exists s, key, now.
  - intros x5 s' x' w' Hx5 [Hu Hw] Hv'. exists x'. split; [done|]. exists x1. split; [done|]. split; [done|].
    exists x5. split; [by trans x4|done].
  - intros x5 e w' Hx5 [Hv'|(s' & x' & [Hu _] & Hv')].
    + exists x5. split; [done|]. left. by trans x4.
    + exists x'. split; [done|]. right. exists s', x5. split; [by trans x4|done].
Qed.

Lemma delete_tx_spec id w x :
  tables w = DView x (Some x) ->
  wp (delete_tx id) (fun r w' =>
    match r with
    | Ok _ => exists x', tables w' = DView x (Some x') /\ deleted id x x'
    | Err _ => committed (tables w') = x
    end) w.
Proof.
  intros Hv. apply wp_try, wp_try. apply (wp_exec_tx _ _ _ x x); [exact Hv| |auto].
  intros n x1 w1 E Hv1. destruct (Z.eqb_spec n 0) as [Hn|Hn]; apply wp_ret; [by unfold tables; rewrite Hv1|].
  apply wp_bind. eapply wp_mono; [apply NewOutboxEvent_spec|]. cbn beta. intros e w2 (H2 & He).
  apply (wp_exec_tx _ _ _ x x1); [unfold tables in *; congruence| |auto].
  intros [] x2 w3 E3 Hv3. exists x2. split; [done|]. exists e, n, x1. by split_and!.
Qed.

Lemma DeleteServer_refines id w x :
  tables w = DView x None ->
  wp (DeleteServer id) (fun r w' =>
    exists x', tables w' = DView x' None /\
      match r with
      | Ok _ => among R (deleted id) x x'
      | Err _ => rtc R x x' \/ among R (deleted id) x x'
      end) w.
Proof.
  intros Hv. apply wp_try. eapply wp_mono; [by apply get_server_spec|]. cbn beta.
  intros [s|e] w1 (x1 & Hx1 & H1 & _); [|by eauto].
  apply wp_bind. apply (wp_shared_transaction _ (fun x0 _ x' => deleted id x0 x') _ _ x1); [exact H1| | |].
  - intros w2 x2 H2 _. eapply wp_mono; [by apply delete_tx_spec|]. by intros [|].
  - intros x2 u x' w' Hx2 Hc Hv'. apply wp_ret. exists x'. split; [done|]. exists x2. split; [by trans x1|done].
  - intros x2 e w' Hx2 H2. apply wp_ret.
    assert (exists x', tables w' = DView x' None /\ (rtc R x x' \/ among R (deleted id) x x')) as Hend.
    { destruct H2 as [Hv'|(u & x' & Hc & Hv')]; [exists x2|exists x']; (split; [done|]).
      - left. by trans x1.
      - right. exists x2. split; [by trans x1|done]. }
    unfold server_not_found. by destruct (errors_Is e ErrNotFound).
Qed.

(** *** Import *)
Lemma fill_all_spec l w :
  Forall is_trimmed l ->
  wp (fill_all l) (fun rows w' => tables w' = tables w /\ names rows = names l /\ (rows = [] -> l = []) /\
    Forall is_trimmed rows) w.
Proof.
  intros Hl. revert w. induction Hl as [|s l Hs Hl IH]; intros w; cbn [fill_all]; [by apply wp_ret|].
  apply wp_bind. eapply wp_mono; [apply now_tables|]. cbn beta. intros now w1 H1.
  apply wp_bind. eapply wp_mono; [apply uuid_tables|]. cbn beta. intros u w2 H2.
  apply wp_bind. eapply wp_mono; [apply IH|]. cbn beta. intros rows w3 (H3 & Hn & _ & Ht).
  apply wp_ret. split; [congruence|]. split; [cbn; f_equal; exact Hn|]. split; [done|].
  constructor; [by apply fill_defaults_trimmed|done].
Qed.

Lemma created_events_spec l w :
  wp (created_events time_json l) (fun es w' => tables w' = tables w /\
    Forall2 (announces time_json EventServerCreated) l es) w.
Proof.
  revert w. induction l as [|s l IH]; intros w; cbn [created_events]; [by apply wp_ret; auto|].
  apply wp_bind. eapply wp_mono; [apply NewOutboxEvent_spec|]. cbn beta. intros e w1 [H1 He].
  apply wp_bind. eapply wp_mono; [apply IH|]. cbn beta. intros es w2 [H2 Hes].
  apply wp_ret. split; [congruence|]. by constructor.
Qed.

Lemma insert_servers_tables new x rows x1 :
  insert_servers new x = (Ok rows, x1) -> servers x1 = servers x ++ new /\ outbox x1 = outbox x.
Proof. unfold insert_servers. destruct (_ && _); intros; by simplify_eq. Qed.

Lemma insert_events_tables es x x1 :
  insert_events es x = (Ok tt, x1) ->
  servers x1 = servers x /\ exists es', mapM stored_event es = Some es' /\ outbox x1 = outbox x ++ es'.
Proof.
  unfold insert_events. destruct (mapM stored_event es) as [es'|]; [|done].
  destruct (_ && _); intros; simplify_eq. eauto.
Qed.

(** One batch: some servers, under the names that are reported. *)
Definition stored (l : list string) (x x' : mstate) : Prop :=
  exists new, created time_json new x x' /\ names new = l.

Lemma import_tx_spec l w x :
  l <> [] -> Forall is_trimmed l -> tables w = DView x (Some x) ->
  wp (import_tx time_json l) (fun r w' =>
    match r with
    | Ok _ => exists x', tables w' = DView x (Some x') /\ stored (names l) x x'
    | Err _ => committed (tables w') = x
    end) w.
Proof.
  intros Hne Htr Hv. apply wp_try, wp_bind. unfold Server_BatchCreate.
  rewrite bool_decide_eq_false_2 by done.
  apply wp_bind. eapply wp_mono; [by apply fill_all_spec|]. cbn beta. intros rows w1 (H1 & Hn & Hnil & Ht).
  rewrite Hv in H1. apply (wp_exec_tx _ _ _ x x); [exact H1| |by intros; apply wp_ret].
  intros rows' x1 w2 E Hv2. pose proof (insert_servers_ok _ _ _ _ E) as Er. subst rows'.
  apply wp_ret, wp_bind. eapply wp_mono; [apply created_events_spec|]. cbn beta. intros es w3 [H3 Hes].
  apply wp_bind. unfold Outbox_BatchCreate. rewrite bool_decide_eq_false_2.
  2:{ intros ->. inversion Hes; subst. by apply Hne, Hnil. }
  apply (wp_exec_tx _ _ _ x x1); [unfold tables in *; congruence| |by intros; apply wp_ret].
  intros [] x2 w4 E4 Hv4. apply wp_ret. exists x2. split; [done|]. exists rows. split; [|done].
  by exists es, x1.
Qed.

(** What the result counts: every success is a stored server. *)
Definition counted (r : ImportResult) : Prop :=
  SuccessCount r = wrap32 (Z.of_nat (length (SuccessfulServers r))) /\
  FailCount r = wrap32 (Z.of_nat (length (FailedServers r))).

Definition reported (r : ImportResult) : nat :=
  length (SuccessfulServers r) + length (FailedServers r).

Lemma wrap32_succ n : wrap32 (wrap32 n + 1) = wrap32 (n + 1).
Proof.
  unfold wrap32. f_equal.
  replace ((n + 2 ^ 31) mod 2 ^ 32 - 2 ^ 31 + 1 + 2 ^ 31)%Z with ((n + 2 ^ 31) mod 2 ^ 32 + 1)%Z by lia.
  rewrite Z.add_mod_idemp_l by lia. f_equal. lia.
Qed.

Lemma counted_add_success n r : counted r -> counted (add_success n r).
Proof.
  intros [H1 H2]. split; cbn; [|done]. rewrite H1, wrap32_succ, length_app. cbn. f_equal. lia.
Qed.
Lemma counted_add_failure n r : counted r -> counted (add_failure n r).
Proof.
  intros [H1 H2]. split; cbn; [done|]. rewrite H2, wrap32_succ, length_app. cbn. f_equal. lia.
Qed.

Lemma split_batch_spec kn ki batch r :
  let '(valid, r') := split_batch kn ki batch r in
  SuccessfulServers r' = SuccessfulServers r ++ names valid /\ valid ⊆ batch /\
  (counted r -> counted r') /\ reported r' = reported r + length batch.
Proof.
  revert kn ki r. induction batch as [|s batch IH]; intros kn ki r; cbn [split_batch].
  { rewrite app_nil_r. split_and!; [done|done|done|cbn; lia]. }
  destruct (_ || _).
  - specialize (IH kn ki (add_failure (ServerName s +:+ " (" +:+ IPv4 s +:+ ")") r)).
    destruct (split_batch kn ki batch _) as [valid r']. destruct IH as (H1 & Hsub & H2 & H3).
    split; [done|]. split; [by apply list_subseteq_cons|]. split; [auto using counted_add_failure|].
    rewrite H3. unfold reported. cbn. rewrite length_app. cbn. lia.
  - specialize (IH ({[ServerName s]} ∪ kn) ({[IPv4 s]} ∪ ki) (add_success (ServerName s) r)).
    destruct (split_batch _ _ batch _) as [valid r']. destruct IH as (H1 & Hsub & H2 & H3).
    split; [by rewrite H1; cbn; rewrite <- app_assoc|]. split; [by apply list_subseteq_skip|].
    split; [auto using counted_add_success|].
    rewrite H3. unfold reported. cbn. rewrite length_app. cbn. lia.
Qed.

Definition batch_stored (x x' : mstate) : Prop := exists l, stored l x x'.

(** Batches of these names, one after the other, among what others do. *)
Inductive storing : list string -> mstate -> mstate -> Prop :=
  | storing_done x : storing [] x x
  | storing_others l x x1 x' : R x x1 -> storing l x1 x' -> storing l x x'
  | storing_batch l l' x x1 x' : stored l x x1 -> storing l' x1 x' -> storing (l ++ l') x x'.

Lemma storing_app l l' x x1 x' : storing l x x1 -> storing l' x1 x' -> storing (l ++ l') x x'.
Proof.
  induction 1 as [|l x y z Hr _ IH|l1 l2 x y z Hs _ IH]; intros H'; [done|by eapply storing_others; [|apply IH]|].
  rewrite <- app_assoc. by eapply storing_batch; [|apply IH].
Qed.

Lemma storing_moves x x' : rtc R x x' -> storing [] x x'.
Proof. induction 1; [constructor|by eapply storing_others]. Qed.

Lemma storing_one l x x' : among R (stored l) x x' -> storing l x x'.
Proof.
  intros (x1 & Hx & Hs). apply (storing_app [] l x x1); [by apply storing_moves|].
  rewrite <- (app_nil_r l). by eapply storing_batch; [|constructor].
Qed.

Lemma stored_names l x x' : stored l x x' -> names (servers x') = names (servers x) ++ l.
Proof.
  intros (new & (evs & x1 & _ & H1 & _ & H2) & <-).
  apply insert_servers_tables in H1 as [H1 _]. apply insert_events_tables in H2 as [H2 _].
  rewrite H2, H1. unfold names. apply map_app.
Qed.

(** What has been done between two results. *)
Definition progress (rows : nat) (r r' : ImportResult) (x x' : mstate) : Prop :=
  (counted r -> counted r') /\ reported r' = reported r + rows /\
  exists l, SuccessfulServers r' = SuccessfulServers r ++ l /\ storing l x x'.

Lemma progress_trans n m r r1 r2 x x1 x2 :
  progress n r r1 x x1 -> progress m r1 r2 x1 x2 -> progress (n + m) r r2 x x2.
Proof.
  intros (Hc & Hn & l & Hl & Hs) (Hc' & Hn' & l' & Hl' & Hs').
  split; [auto|]. split; [lia|]. exists (l ++ l').
  split; [by rewrite Hl', Hl, app_assoc|by eapply storing_app].
Qed.

Lemma progress_failure what r x : progress 1 r (add_failure what r) x x.
Proof.
  split; [apply counted_add_failure|].
  split; [unfold reported; cbn; rewrite length_app; cbn; lia|].
  exists []. rewrite app_nil_r. split; [done|constructor].
Qed.

Lemma processBatch_spec batch r w x :
  Forall is_trimmed batch -> tables w = DView x None ->
  wp (processBatch time_json batch r) (fun res w' => exists x', tables w' = DView x' None /\
    match res with
    | Ok r' => progress (length batch) r r' x x'
    | Err _ => exists l, storing l x x'
    end) w.
Proof.
  intros Htr Hv. unfold processBatch. case_bool_decide as Hb.
  { apply wp_ret. exists x. subst batch. split; [done|]. split_and!; [done|cbn; lia|].
    exists []. rewrite app_nil_r. split; [done|constructor]. }
  apply wp_bind. eapply (wp_mono _ (fun _ w' => exists x1, rtc R x x1 /\ tables w' = DView x1 None)).
  { unfold FindByNamesOrIPv4s. destruct (_ && _); [apply wp_ret; by exists x|].
    eapply wp_mono; [by apply (wp_shared_query _ _ x)|]. cbn beta. intros ? ? (x1 & Hx & H1 & _). by exists x1. }
  intros r1 w1 (x1 & Hx1 & H1). destruct r1 as [ex|e]; [|apply wp_ret; exists x1; split; [done|]; exists []; by apply storing_moves].
  pose proof (split_batch_spec (list_to_set (names ex)) (list_to_set (ips ex)) batch r) as Hs.
  destruct (split_batch _ _ batch r) as [valid r']. destruct Hs as (Hl & Hsub & Hc & Hn).
  case_bool_decide as Hval.
  { apply wp_ret. exists x1. split; [done|]. split_and!; [done|done|]. exists []. subst valid.
    rewrite Hl. split; [done|by apply storing_moves]. }
  apply wp_try. apply (wp_shared_transaction _ (fun x0 _ x' => stored (names valid) x0 x') _ _ x1); [exact H1| | |].
  - intros w2 x2 H2 _. eapply wp_mono; [apply import_tx_spec; [done| |exact H2]|by intros [|]].
    rewrite Forall_forall in *. auto.
  - intros x2 u x' w' Hx2 Hst Hv'. apply wp_ret. exists x'. split; [done|]. split_and!; [done|done|].
    exists (names valid). split; [done|]. apply storing_one. exists x2. split; [by trans x1|done].
  - intros x2 e w' Hx2 [H2|(u & x' & Hst & Hv')].
    + exists x2. split; [done|]. exists []. apply storing_moves. by trans x1.
    + exists x'. split; [done|]. exists (names valid). apply storing_one. exists x2. split; [by trans x1|done].
Qed.

(** The rows that carry a name or an address. *)
Definition nonblank (nameIdx ipIdx : Z) (rows : list (list string)) : nat :=
  length (List.filter (fun cols => negb (String.eqb (column cols nameIdx) "" && String.eqb (column cols ipIdx) "")) rows).

Lemma import_rows_spec is_ipv4 ni ii rows batch r w x :
  Forall is_trimmed batch -> tables w = DView x None ->
  wp (import_rows time_json is_ipv4 ni ii rows batch r) (fun res w' => exists x', tables w' = DView x' None /\
    match res with
    | Ok r' => progress (length batch + nonblank ni ii rows) r r' x x'
    | Err _ => exists l, storing l x x'
    end) w.
Proof.
  revert batch r w x. induction rows as [|cols rows IH]; intros batch r w x Htr Hv; cbn [import_rows].
  { unfold nonblank. cbn. rewrite Nat.add_0_r. by apply processBatch_spec. }
  unfold nonblank. cbn [List.filter].
  destruct (String.eqb (column cols ni) "" && String.eqb (column cols ii) "") eqn:Hblank; cbn [negb length];
    [by apply IH|].
  destruct (_ || negb (is_ipv4 (column cols ii))).
  - eapply wp_mono; [by apply IH|]. cbn beta. intros res w' (x' & Hx' & Hres). exists x'. split; [done|].
    destruct res as [r'|e]; [|done]. fold (nonblank ni ii rows).
    replace (length batch + S (nonblank ni ii rows)) with (1 + (length batch + nonblank ni ii rows)) by lia.
    eapply progress_trans; [apply progress_failure|done].
  - fold (nonblank ni ii rows).
    assert (Forall is_trimmed (batch ++ [imported_server (column cols ni) (column cols ii)])) as Htr'.
    { apply Forall_app. split; [done|]. constructor; [|done]. apply is_trimmed_iff.
      split; apply column_trimmed. }
    destruct (decide _) as [Hfull|Hfull].
    + apply wp_try. eapply wp_mono; [by apply processBatch_spec|]. cbn beta.
      intros [r1|e] w1 (x1 & H1 & Hr1); [|by eauto].
      eapply wp_mono; [by apply IH|]. cbn beta. intros res w' (x' & Hx' & Hres). exists x'. split; [done|].
      destruct res as [r'|e].
      * rewrite length_app in Hr1. cbn [length] in *.
        replace (length batch + S (nonblank ni ii rows)) with (length batch + 1 + (0 + nonblank ni ii rows)) by lia.
        by eapply progress_trans.
      * destruct Hr1 as (_ & _ & l & _ & Hl), Hres as [l' Hl']. exists (l ++ l'). by eapply storing_app.
    + eapply wp_mono; [by apply IH|]. cbn beta. intros res w' (x' & Hx' & Hres). exists x'. split; [done|].
      destruct res as [r'|e]; [|done]. rewrite length_app in Hres. cbn [length] in Hres.
      by replace (length batch + S (nonblank ni ii rows)) with (length batch + 1 + nonblank ni ii rows) by lia.
Qed.

Lemma ImportServers_refines OpenReader is_ipv4 fileBytes w x :
  tables w = DView x None ->
  wp (ImportServers time_json OpenReader is_ipv4 fileBytes) (fun r w' =>
    exists x', tables w' = DView x' None /\
      match r with
      | Ok r => exists f header rows, OpenReader fileBytes = Some f /\ sheet_rows f = Ok (header :: rows) /\
          let '(nameIdx, ipIdx) := find_columns 0 header (-1) (-1) in
          counted r /\ reported r = nonblank nameIdx ipIdx rows /\ storing (SuccessfulServers r) x x'
      | Err _ => exists l, storing l x x'
      end) w.
Proof.
  intros Hv. assert (exists x', tables w = DView x' None /\ exists l, storing l x x') as Hno.
  { exists x. split; [done|]. exists []. constructor. }
  unfold ImportServers. destruct (decide _); [by apply wp_ret|].
  destruct (OpenReader fileBytes) as [f|] eqn:Ef; [|by apply wp_ret].
  destruct (String.eqb _ _); [by apply wp_ret|].
  destruct (sheet_rows f) as [[|header rows]|e] eqn:Er; [by apply wp_ret| |by apply wp_ret].
  destruct (find_columns 0 header (-1) (-1)) as [ni ii] eqn:Ec.
  destruct (_ || _); [by apply wp_ret|].
  eapply wp_mono; [by apply import_rows_spec|]. cbn beta. intros r w' (x' & Hv' & Hr).
  exists x'. split; [done|]. destruct r as [r|e]; [|done].
  destruct Hr as (Hc & Hn & l & Hl & Hst).
  exists f, header, rows. rewrite Ec. cbn in Hn, Hl. split_and!; [done|done|by apply Hc|done|by rewrite Hl].
Qed.
End refinement.

(** ** The theorems on the handlers *)

(** C11: [CreateServer], whatever requests fail and whatever other clients do to
    the tables in between: the new server and the one event that announces it
    are added in one step, or nothing is; they are added when the handler
    answers a server. *)
Theorem CreateServer_atomic {W} {srv : Host W} {db : Db W mstate} `{!HostLaws srv} {R : mstate -> mstate -> Prop}
    `{!SharedLaws db R} `{pg : Postgres} `{!Frame srv tables} (Encrypt : string -> proc W (res string))
    (ParseRequestURI : string -> bool) (time_json : Z -> string) (input : ServerInput) (w : W) (x : mstate) :
  encrypt_quiet Encrypt -> tables w = DView x None ->
  wp (CreateServer Encrypt ParseRequestURI time_json input) (fun r w' =>
    exists x', tables w' = DView x' None /\
      match r with
      | Ok s => among R (created time_json [s]) x x'
      | Err _ => rtc R x x' \/ exists s, among R (created time_json [s]) x x'
      end) w.
Proof. intros He Hv. by apply CreateServer_refines. Qed.

(** A host and a database side by side; the database loses requests. *)
Definition mworld : Type := hview * (dview mstate * list fault).
Definition mhost : Host mworld := framed _ sure_host.
Definition mdb : Db mworld mstate := framed_r _ (flaky_db mstate).
#[export] Instance mhost_frame : Frame mhost (tables (db := mdb)).
Proof. apply (framed_snd sure_host fst). Qed.

Definition sample_pg : Postgres := {|
  parse_uuid := fun s => if String.eqb s "" then None else Some s;
  jsonb := fun s => match parse s with Some _ => Some s | None => None end;
  fits_server := fun _ => true;
  fits_event := fun _ => true;
  ILIKE := fun a b => true;
  order_by := fun _ l => Some l;
  by_created_at := fun l => l;
|}.

Definition sample_row : Server := {|
  ServerID := "id-1"; ServerName := "web"; IPv4 := "10.0.0.1"; CurrentStatus := "ONLINE";
  HealthCheckMethod := "ICMP"; SSHPort := 0; SSHUser := ""; SSHKey := ""; AgentEndpoint := "";
  ConsecutiveFailures := 0; CreatedAt := 0; UpdatedAt := 0 |}.
Definition sample_tables : mstate := MState [sample_row] [].
Definition sample_mworld (fs : list fault) : mworld := (HView 0 empty_redis, (DView sample_tables None, fs)).
Definition plain_encrypt {W} (key : string) : proc W (res string) := mret (Ok key).
Definition epoch_json (t : Z) : string := Itoa t.

Definition sample_input : ServerInput := {|
  in_ServerName := " db "; in_IPv4 := "10.0.0.2"; in_HealthCheckMethod := "AGENT_PUSH"; in_SSHPort := 22;
  in_SSHUser := ""; in_SSHKey := ""; in_AgentEndpoint := "" |}.

(** A database that others use as well: between the statements they may report
    that all servers are down. *)
Definition report_down (x x' : mstate) : Prop :=
  x' = MState (map (with_status ServerStatusOffline) (servers x)) (outbox x).
Definition cworld : Type := hview * ((dview mstate * list fault) * list (move report_down)).
Definition chost : Host cworld := framed _ sure_host.
Definition cdb : Db cworld mstate := framed_r _ (crowd_db mstate report_down).
#[export] Instance chost_frame : Frame chost (tables (db := cdb)).
Proof. apply (framed_snd sure_host (fun w => w.1.1)). Qed.

Definition all_down : move report_down :=
  move_by (fun x => MState (map (with_status ServerStatusOffline) (servers x)) (outbox x)) (fun x => rtc_once _ _ eq_refl).
Definition sample_cworld (fs : list fault) (ms : list (move report_down)) : cworld :=
  (HView 0 empty_redis, ((DView sample_tables None, fs), ms)).
Definition ctables (w : cworld) : mstate := committed w.2.1.1.

Lemma CreateServer_atomic_witness :
  let create := CreateServer (srv := chost) (db := cdb) (pg := sample_pg) plain_encrypt (fun _ => true) epoch_json sample_input in
  map CurrentStatus (servers (ctables (create (sample_cworld [] [stay; all_down])).2)) = ["OFFLINE"; "UNKNOWN"] /\
  wp create
    (fun r w' => exists x', tables (db := cdb) w' = DView x' None /\
      match r with
      | Ok s => among report_down (created (pg := sample_pg) epoch_json [s]) sample_tables x'
      | Err _ => rtc report_down sample_tables x' \/
          exists s, among report_down (created (pg := sample_pg) epoch_json [s]) sample_tables x'
      end) (sample_cworld [NoFault; NoFault; NoFault; NoFault; NoFault; FailAfter] [stay; all_down]).
Proof.
  split; [by vm_compute|].
  apply (CreateServer_atomic (srv := chost) (db := cdb) (pg := sample_pg)); [|reflexivity].
  intros key w. reflexivity.
Defined.


(** Here the settings are read before the others report. *)
Definition sample_edit : ServerInput := {|
  in_ServerName := "www"; in_IPv4 := "10.0.0.1"; in_HealthCheckMethod := "ICMP"; in_SSHPort := 0;
  in_SSHUser := ""; in_SSHKey := ""; in_AgentEndpoint := "" |}.


(** [DeleteServer], whatever requests fail and whatever others do: the row goes
    together with the event that says so, or nothing changes. *)
Theorem DeleteServer_atomic {W} {srv : Host W} {db : Db W mstate} `{!HostLaws srv} {R : mstate -> mstate -> Prop}
    `{!SharedLaws db R} `{pg : Postgres} `{!Frame srv tables} (id : string) (w : W) (x : mstate) :
  tables w = DView x None ->
  wp (DeleteServer id) (fun r w' =>
    exists x', tables w' = DView x' None /\
      match r with
      | Ok _ => among R (deleted id) x x'
      | Err _ => rtc R x x' \/ among R (deleted id) x x'
      end) w.
Proof. intros Hv. by apply DeleteServer_refines. Qed.

(** C13: an import, whatever requests fail and whatever other clients do to the
    tables in between: servers are stored batch by batch, each batch with its
    events in one step or not at all; when the import answers, every row that is
    not blank is reported once, as a success or as a failure, the counters count
    the lists, and the servers stored are exactly the successes, in order. *)
Theorem ImportServers_effect {W} {srv : Host W} {db : Db W mstate} `{!HostLaws srv} {R : mstate -> mstate -> Prop}
    `{!SharedLaws db R} `{pg : Postgres} `{!Frame srv tables} (time_json : Z -> string)
    (OpenReader : string -> option sheet) (is_ipv4 : string -> bool) (fileBytes : string) (w : W) (x : mstate) :
  tables w = DView x None ->
  wp (ImportServers time_json OpenReader is_ipv4 fileBytes) (fun r w' =>
    exists x' stored, tables w' = DView x' None /\ storing (R := R) time_json stored x x' /\
      match r with
      | Ok r => exists f header rows, OpenReader fileBytes = Some f /\ sheet_rows f = Ok (header :: rows) /\
          let '(nameIdx, ipIdx) := find_columns 0 header (-1) (-1) in
          counted r /\ reported r = nonblank nameIdx ipIdx rows /\ SuccessfulServers r = stored
      | Err _ => True
      end) w.
Proof.
  intros Hv. eapply wp_mono; [by apply ImportServers_refines|]. cbn beta. intros r w' (x' & Hv' & Hr). exists x'.
  destruct r as [r|e]; [|destruct Hr as [l Hl]; by exists l].
  destruct Hr as (f & header & rows & Hf & Hrows & H). destruct (find_columns 0 header (-1) (-1)) as [ni ii] eqn:E.
  destruct H as (Hc & Hn & Hs). exists (SuccessfulServers r). split_and!; [done..|].
  exists f, header, rows. by rewrite E.
Qed.

Definition sample_sheet : sheet := {|
  sheet_name := "Sheet1";
  sheet_rows := Ok [["IP"; " Server Name "]; ["10.0.0.7"; "a"]; []; ["10.0.0.1"; "b"]; ["10.0.0.7"; "c"]; ["x"; "d"]] |}.

Lemma ImportServers_effect_witness :
  let import := ImportServers (srv := chost) (db := cdb) (pg := sample_pg) epoch_json (fun _ => Some sample_sheet)
    (fun s => negb (String.eqb s "x")) "" in
  let w := sample_cworld [] [stay; all_down] in
  (import w).1 =
    Ok {| SuccessCount := 1; SuccessfulServers := ["a"]; FailCount := 3;
          FailedServers := ["d (x) - Invalid Format"; "b (10.0.0.1)"; "c (10.0.0.7)"] |} /\
  map (fun s => (ServerName s, CurrentStatus s)) (servers (ctables (import w).2)) = [("web", "OFFLINE"); ("a", "UNKNOWN")] /\
  wp import (fun r w' =>
    exists x' stored, tables (db := cdb) w' = DView x' None /\
      storing (R := report_down) (pg := sample_pg) epoch_json stored sample_tables x' /\
      match r with
      | Ok r => exists f header rows, Some sample_sheet = Some f /\ sheet_rows f = Ok (header :: rows) /\
          let '(nameIdx, ipIdx) := find_columns 0 header (-1) (-1) in
          counted r /\ reported r = nonblank nameIdx ipIdx rows /\ SuccessfulServers r = stored
      | Err _ => True
      end) w.
Proof.
  split; [by vm_compute|]. split; [by vm_compute|].
  by apply (ImportServers_effect (srv := chost) (db := cdb) (pg := sample_pg) epoch_json (fun _ => Some sample_sheet)).
Defined.
