(* ===== verification/ManagementWorkers.v ===== *)
(** sms-management, the workers: the relay that publishes the outbox
    (worker/outbox_relay.go, infrastructure/messagebroker/redis_publisher.go)
    and the consumer of status reports (worker/status_consumer.go). *)
From S2P Require Import Prelude GoStd Sql Json Redis Host Broker ManagementData ManagementService.

(** ** The relay *)

(** The values of a message are a Go map: the order of the fields means
    nothing to the reader, see [Broker.values_of]. *)
Definition event_fields (e : OutboxEvent) : list (string * string) :=
  [("aggregate_type", AggregateType e); ("aggregate_id", AggregateID e);
   ("event_type", EventType e); ("payload", Payload e)].

Section relay.
Context {W} {srv : Host W} {db : Db W mstate} `{pg : Postgres}.
Context (maxLen : Z) (streamName : string) (batchSize : Z).

Definition stream_bound : option N := if (0 <? maxLen)%Z then Some (Z.to_N maxLen) else None.

Definition PublishOutboxBatch (stream : string) (events : list OutboxEvent) : proc W (res unit) :=
  if bool_decide (events = []) then mret (Ok tt)
  else
    r <-- rdb (PipeXAdd stream stream_bound (map event_fields events));
    mret (match r with Ok _ => Ok tt | Err e => Err (ErrWrap "failed to execute redis pipeline" e) end).

Definition processOutboxEvents : proc W unit :=
  r <-- GetUnprocessed batchSize;
  match r with
  | Err _ => mret tt
  | Ok events =>
    if bool_decide (events = []) then mret tt
    else
      r <-- PublishOutboxBatch streamName events;
      match r with
      | Err _ => mret tt
      | Ok _ => MarkProcessed (event_ids events) ;;- mret tt
      end
  end.

(** The ticker of [Start], over [ticks] ticks. *)
Fixpoint relay_loop (ticks : nat) : proc W unit :=
  match ticks with
  | O => mret tt
  | S ticks => processOutboxEvents ;;- relay_loop ticks
  end.
End relay.

(** ** The status consumer *)
Definition decode_status (s : string) : option (string * string) :=
  j ← parse s; m ← members j;
  id ← string_field "server_id" m;
  status ← string_field "status" m;
  Some (id, status).

Section status_consumer.
Context {W} {srv : Host W} {db : Db W mstate} `{pg : Postgres}.

Definition status_processMessage (msg : Message) : proc W (res unit) :=
  match Values msg !! "event_type" with
  | None => mret (Ok tt)
  | Some eventType =>
    if negb (String.eqb eventType "ServerStatusChanged") then mret (Ok tt)
    else
      match Values msg !! "payload" with
      | None => mret (Ok tt)
      | Some payloadStr =>
        match decode_status payloadStr with
        | None => mret (Err ErrJson)
        | Some (id, status) =>
          if String.eqb id "" || String.eqb status "" then mret (Ok tt)
          else
            r <-- GetByID id;
            match r with
            | Err _ => mret (Ok tt)        (* "don't retry for not-found servers" *)
            | Ok server =>
              if String.eqb (CurrentStatus server) status then mret (Ok tt)
              else
                _ <-? Server_Update (with_status status server);
                mret (Ok tt)
            end
        end
      end
  end.
End status_consumer.

(** ** What the relay does *)
Section relay_spec.
Context {W} {srv : Host W} {db : Db W mstate} `{!HostLaws srv} {R : mstate -> mstate -> Prop} `{!SharedLaws db R}.
Context `{pg : Postgres} `{!Frame srv (tables (db := db))}.
Definition streams (w : W) : rstate := redis (view w).
Context `{!Frame db streams}.
Context (maxLen : Z) (streamName : string) (batchSize : Z).

(** The batch a relay takes: the oldest events that are not marked. *)
Definition batch (x : mstate) : list OutboxEvent :=
  limit_rows batchSize (by_created_at (List.filter (fun e => negb (IsProcessed e)) (outbox x))).

(** The stream after the first events of the batch were appended, in order. *)
Definition appended (evs : list OutboxEvent) (r r' : rstate) : Prop :=
  exists st, xadds_spec (stream_bound maxLen) (map event_fields evs) (stream_at r streamName) st /\
    r' = set_stream streamName st r.

Lemma wp_exec_frame {A} (f : mstate -> res A * mstate) w :
  wp (exec f) (fun _ w' => streams w' = streams w) w.
Proof.
  apply wp_bind. eapply wp_mono; [apply (wp_frame db streams)|]. cbn beta. intros r w' Hs. by apply wp_ret.
Qed.

Lemma publish_spec evs w :
  evs <> [] ->
  wp (PublishOutboxBatch maxLen streamName evs) (fun r w' => tables w' = tables w /\
    match r with
    | Ok _ => appended evs (streams w) (streams w')
    | Err _ => ~ Reliable srv /\
        (streams w' = streams w \/ exists n, appended (take n evs) (streams w) (streams w'))
    end) w.
Proof.
  intros Hne. unfold PublishOutboxBatch. rewrite bool_decide_eq_false_2 by done.
  apply wp_bind. eapply wp_mono; [apply wp_and; [apply (wp_frame srv tables)|apply wp_and;
    [apply wp_refutes|apply (wp_rdb _ (fun r w' =>
    match r with
    | Ok _ => appended evs (streams w) (streams w')
    | Err _ => streams w' = streams w \/ exists n, appended (take n evs) (streams w) (streams w')
    end))]]|].
  - intros [] w' t s' _ Hv (st & Hst & ->). exists st. unfold streams. rewrite Hv. done.
  - intros e w' t s' _ Hv Hf. unfold streams. rewrite Hv. cbn [redis].
    destruct Hf as [->|[([] & st & Hst & ->)|(n & st & Hst & ->)]]; [by left|right|right].
    + exists (length evs). rewrite firstn_all. by exists st.
    + exists n. exists st. by rewrite <- firstn_map.
  - cbn beta. intros r w' [Ht [Hrel Hr]]. apply wp_ret. split; [exact Ht|]. by destruct r; auto.
Qed.

(** The batch is read from the tables [x1], and marked in [x2]; handlers may
    have changed them in between.  Either nothing is marked, and a part of the
    batch may be on the stream, *)
Definition kept_back (x1 x2 : mstate) (w w' : W) : Prop :=
  tables w' = DView x2 None /\
  (streams w' = streams w \/ exists n, appended (take n (batch x1)) (streams w) (streams w')).

(** or the whole batch is on the stream, and is marked. *)
Definition relayed (x1 x2 : mstate) (w w' : W) : Prop :=
  tables w' = DView (MState (servers x2) (map (mark_event (event_ids (batch x1))) (outbox x2))) None /\
  appended (batch x1) (streams w) (streams w').

Lemma processOutboxEvents_spec w x :
  tables w = DView x None ->
  wp (processOutboxEvents maxLen streamName batchSize) (fun _ w' => exists x1 x2, rtc R x x1 /\ rtc R x1 x2 /\
    (kept_back x1 x2 w w' \/ relayed x1 x2 w w') /\
    (Reliable srv -> Reliable db -> batch x1 <> [] -> relayed x1 x2 w w')) w.
Proof.
  intros Hv. apply wp_bind. eapply wp_mono; [apply wp_and; [apply wp_exec_frame|by apply (wp_shared_query _ _ x)]|].
  cbn beta. intros r w1 [Hs1 (x1 & Hx1 & H1 & Hr)]. unfold kept_back, relayed.
  destruct r as [evs|e].
  2:{ apply wp_ret. rewrite Hs1. exists x1, x1. split_and!; [done..|by auto|].
      intros _ Hdb. by specialize (Hr (or_intror Hdb)). }
  specialize (Hr (or_introl eq_refl)). injection Hr as ->. fold (batch x1).
  case_bool_decide as Hb.
  { apply wp_ret. rewrite Hs1. exists x1, x1. split_and!; [done..|by auto|by intros _ _ []]. }
  apply wp_bind. eapply wp_mono; [by apply publish_spec|]. cbn beta. intros r w2 [H2 Hp].
  fold (tables w1) in H1. rewrite H1 in H2. rewrite Hs1 in Hp.
  destruct r as [u|e]; [|apply wp_ret; exists x1, x1; naive_solver].
  apply wp_bind. unfold MarkProcessed. rewrite bool_decide_eq_false_2.
  2:{ intros E. by destruct (batch x1). }
  eapply wp_mono; [apply wp_and; [apply wp_exec_frame|by apply (wp_shared _ _ x1)]|].
  cbn beta. intros r w3 [Hs3 (x2 & Hx2 & H3 & Hrel)]. apply wp_ret. rewrite Hs3. exists x1, x2.
  split; [done|]. split; [done|]. destruct r as [u'|e].
  - destruct H3 as (x' & E & H3). injection E as _ <-. auto.
  - split; [|intros _ Hdb; by specialize (Hrel Hdb)].
    destruct H3 as [H3|(a & x' & E & H3)]; [left|right].
    + split; [done|]. right. exists (length (batch x1)). by rewrite firstn_all.
    + injection E as _ <-. done.
Qed.
End relay_spec.

(** ** What the status consumer does *)
Section status_spec.
Context {W} {srv : Host W} {db : Db W mstate} `{!HostLaws srv} {R : mstate -> mstate -> Prop} `{!SharedLaws db R}.
Context `{pg : Postgres} `{!Frame srv (tables (db := db))}.

(** The row that server [id] had in the tables [x0], written back with status
    [st]. *)
Definition status_set (id st : string) (x0 x x' : mstate) : Prop :=
  exists now s n, s ∈ servers x0 /\ parse_uuid id = Some (ServerID s) /\ CurrentStatus s <> st /\
    update_server now (trimmed (with_status st s)) x = (Ok n, x').

Lemma Server_Update_spec s w x :
  tables w = DView x None ->
  wp (Server_Update s) (fun r w' => exists x', tables w' = DView x' None /\
    match r with
    | Ok _ => exists now n, n <> 0%Z /\ among R (fun x1 x' => update_server now (trimmed s) x1 = (Ok n, x')) x x'
    | Err _ => rtc R x x' \/ exists now n, among R (fun x1 x' => update_server now (trimmed s) x1 = (Ok n, x')) x x'
    end) w.
Proof.
  intros Hv. unfold Server_Update. apply wp_bind. eapply wp_mono; [apply now_tables|]. cbn beta.
  intros now w1 H1. rewrite Hv in H1. apply wp_try. eapply wp_mono; [by apply (wp_shared _ _ x)|]. cbn beta.
  intros [n|e] w2 (x1 & Hx1 & H2 & _).
  - destruct H2 as (x' & E & H2).
    assert (among R (fun x1 x' => update_server now (trimmed s) x1 = (Ok n, x')) x x') as Ha by (by exists x1).
    destruct (Z.eqb_spec n 0) as [Hn|Hn]; apply wp_ret; exists x'; (split; [exact H2|]); [right|]; by exists now, n.
  - destruct H2 as [H2|(n & x' & E & H2)]; [exists x1|exists x']; (split; [exact H2|]); [by left|].
    right. exists now, n. by exists x1.
Qed.
End status_spec.

(** ** The theorems on the workers *)

(** C26: the relay publishes at least once: whatever fails, and whatever other
    clients do to the tables in between, at the end of a cycle either nothing is
    marked and some first events of the batch may be on the stream, or the whole
    batch is on the stream, in order, and is marked; when the database and Redis
    answer it is the latter. *)
Theorem relay_at_least_once {W} {srv : Host W} {db : Db W mstate} `{!HostLaws srv} {R : mstate -> mstate -> Prop}
    `{!SharedLaws db R} `{pg : Postgres} `{!Frame srv (tables (db := db))} `{!Frame db (streams (srv := srv))}
    (maxLen : Z) (streamName : string) (batchSize : Z) (w : W) (x : mstate) :
  tables w = DView x None ->
  wp (processOutboxEvents maxLen streamName batchSize) (fun _ w' => exists x1 x2, rtc R x x1 /\ rtc R x1 x2 /\
    (kept_back maxLen streamName batchSize x1 x2 w w' \/ relayed maxLen streamName batchSize x1 x2 w w') /\
    (Reliable srv -> Reliable db -> batch batchSize x1 <> [] -> relayed maxLen streamName batchSize x1 x2 w w')) w.
Proof. apply processOutboxEvents_spec. Qed.

#[export] Instance mdb_frame : Frame mdb (streams (srv := mhost)).
Proof. apply (framed_r_fst (flaky_db mstate) redis). Qed.
#[export] Instance cdb_frame : Frame cdb (streams (srv := chost)).
Proof. apply (framed_r_fst (crowd_db mstate report_down) redis). Qed.

Definition sample_outbox_event : OutboxEvent := {|
  ID := "e1"; AggregateType := "Server"; AggregateID := "id-1"; EventType := EventServerCreated;
  Payload := server_json epoch_json sample_row; IsProcessed := false; ECreatedAt := 0 |}.
Definition sample_outbox : mstate := MState [sample_row] [sample_outbox_event].
Definition outbox_world (fs : list fault) (ms : list (move report_down)) : cworld :=
  (HView 0 empty_redis, ((DView sample_outbox None, fs), ms)).

Lemma relay_at_least_once_witness :
  let cycle := processOutboxEvents (srv := chost) (db := cdb) (pg := sample_pg) 1000 "sms.events.server" 50 in
  let w := outbox_world [NoFault; FailAfter] [stay; all_down] in
  map IsProcessed (outbox (ctables (cycle (outbox_world [] [])).2)) = [true] /\
  wp cycle (fun _ w' => exists x1 x2, rtc report_down sample_outbox x1 /\ rtc report_down x1 x2 /\
    (kept_back (srv := chost) (db := cdb) (pg := sample_pg) 1000 "sms.events.server" 50 x1 x2 w w' \/
     relayed (srv := chost) (db := cdb) (pg := sample_pg) 1000 "sms.events.server" 50 x1 x2 w w') /\
    (Reliable chost -> Reliable cdb -> batch (pg := sample_pg) 50 x1 <> [] ->
     relayed (srv := chost) (db := cdb) (pg := sample_pg) 1000 "sms.events.server" 50 x1 x2 w w')) w.
Proof.
  split; [by vm_compute|].
  by apply (relay_at_least_once (srv := chost) (db := cdb) (pg := sample_pg)).
Defined.

(** The report a message carries. *)
Definition report (msg : Message) : option (string * string) :=
  ty ← Values msg !! "event_type";
  if String.eqb ty "ServerStatusChanged" then p ← Values msg !! "payload"; decode_status p else None.

Lemma status_processMessage_refines {W} {srv : Host W} {db : Db W mstate} `{!HostLaws srv}
    {R : mstate -> mstate -> Prop} `{!SharedLaws db R} `{pg : Postgres} `{!Frame srv (tables (db := db))}
    (msg : Message) (w : W) (x : mstate) :
  tables w = DView x None ->
  wp (status_processMessage msg) (fun r w' => exists x', tables w' = DView x' None /\
    (rtc R x x' \/ exists id status x0, report msg = Some (id, status) /\
       rtc R x x0 /\ among R (status_set id status x0) x0 x')) w.
Proof.
  intros Hv. unfold status_processMessage, report.
  destruct (Values msg !! "event_type") as [ty|]; cbn [mbind option_bind]; [|apply wp_ret; exists x; split; [done|by left]].
  destruct (String.eqb ty "ServerStatusChanged"); cbn [negb]; [|apply wp_ret; exists x; split; [done|by left]].
  destruct (Values msg !! "payload") as [p|]; cbn [mbind option_bind]; [|apply wp_ret; exists x; split; [done|by left]].
  destruct (decode_status p) as [[id st]|]; [|apply wp_ret; exists x; split; [done|by left]].
  destruct (_ || _); [apply wp_ret; exists x; split; [done|by left]|].
  apply wp_bind. eapply wp_mono; [by apply GetByID_spec|]. cbn beta. intros r w1 (x0 & Hx0 & H1 & Hr).
  destruct r as [s|e]; [|apply wp_ret; exists x0; split; [done|by left]].
  destruct (Hr s eq_refl) as [Hin Hid].
  destruct (String.eqb_spec (CurrentStatus s) st) as [|Hne]; [apply wp_ret; exists x0; split; [done|by left]|].
  apply wp_try. eapply wp_mono; [by apply Server_Update_spec|]. cbn beta.
  assert (forall x' now n, among R (fun x1 x' => update_server now (trimmed (with_status st s)) x1 = (Ok n, x')) x0 x' ->
    among R (status_set id st x0) x0 x') as Hset.
  { intros x' now n (x1 & Hx1 & E). exists x1. split; [done|]. by exists now, s, n. }
  intros [s'|e] w2 (x' & H2 & Hx').
  - apply wp_ret. exists x'. split; [done|]. right. destruct Hx' as (now & n & _ & E).
    exists id, st, x0. split_and!; [done|done|by eapply Hset].
  - exists x'. split; [done|]. destruct Hx' as [Hx'|(now & n & E)]; [left; by trans x0|right].
    exists id, st, x0. split_and!; [done|done|by eapply Hset].
Qed.

(** C27: a status report, whatever fails and whatever other clients do to the
    tables in between: nothing is written but, at most, the row that the named
    server had when it was read, with the reported status, if that is new; a
    message that is not a well-formed report writes nothing. *)
Theorem status_processMessage_effect {W} {srv : Host W} {db : Db W mstate} `{!HostLaws srv}
    {R : mstate -> mstate -> Prop} `{!SharedLaws db R} `{pg : Postgres} `{!Frame srv (tables (db := db))}
    (msg : Message) (w : W) (x : mstate) :
  tables w = DView x None ->
  wp (status_processMessage msg) (fun r w' => exists x', tables w' = DView x' None /\
    (rtc R x x' \/ exists id status x0, report msg = Some (id, status) /\
       rtc R x x0 /\ among R (status_set id status x0) x0 x')) w.
Proof. apply status_processMessage_refines. Qed.

Definition sample_report : Message := {| Broker.ID := "7"; Broker.Values :=
  {["event_type" := "ServerStatusChanged";
    "payload" := Marshal (JObj [("retry_count", JInt 3); ("server_id", JStr "id-1"); ("status", JStr "OFFLINE")])]} |}.

Lemma status_processMessage_effect_witness :
  let consume := status_processMessage (srv := chost) (db := cdb) (pg := sample_pg) sample_report in
  map CurrentStatus (servers (ctables (consume (sample_cworld [] [])).2)) = ["OFFLINE"] /\
  wp consume (fun r w' => exists x', tables (db := cdb) w' = DView x' None /\
    (rtc report_down sample_tables x' \/ exists id status x0, report sample_report = Some (id, status) /\
       rtc report_down sample_tables x0 /\ among report_down (status_set (pg := sample_pg) id status x0) x0 x'))
    (sample_cworld [NoFault; FailAfter] [stay; all_down]).
Proof.
  split; [by vm_compute|].
  by apply (status_processMessage_effect (srv := chost) (db := cdb) (pg := sample_pg)).
Defined.

(** Any failure of the lookup is taken for "not found": the report is
    acknowledged and the status is lost. *)
Lemma status_report_lost :
  let '(r, w') := status_processMessage (srv := mhost) (db := mdb) (pg := sample_pg) sample_report
    (sample_mworld [FailBefore]) in
  r = Ok tt /\ w'.2.1 = DView sample_tables None.
Proof. by vm_compute. Qed.
