(* ===== verification/ManagementOutbox.v ===== *)
(** sms-management, what the steps of the tables preserve: keys stay unique,
    and the outbox tells the whole story, so that replaying its events gives
    the registry of servers. *)
From S2P Require Import Prelude GoStd Sql Json Redis Host Broker ManagementData ManagementService ManagementWorkers.

(** ** Unique keys *)
Section keys.
Context `{pg : Postgres} (time_json : Z -> string).

Lemma insert_servers_keyed new x rows x1 :
  insert_servers new x = (Ok rows, x1) -> well_keyed x -> well_keyed x1.
Proof.
  unfold insert_servers. destruct (forallb _ _ && unique_servers _) eqn:E; [|done].
  apply andb_true_iff in E as [_ E]. apply unique_servers_spec in E.
  intros [= _ <-] (_ & _ & _ & H). unfold well_keyed. tauto.
Qed.

Lemma update_server_keyed now s x n x1 :
  update_server now s x = (Ok n, x1) -> well_keyed x -> well_keyed x1.
Proof.
  unfold update_server. destruct (forallb _ _ && unique_servers _) eqn:E; [|done].
  apply andb_true_iff in E as [_ E]. apply unique_servers_spec in E.
  intros [= _ <-] (_ & _ & _ & H). unfold well_keyed. tauto.
Qed.

Lemma insert_events_keyed es x x1 :
  insert_events es x = (Ok tt, x1) -> well_keyed x -> well_keyed x1.
Proof.
  unfold insert_events. destruct (mapM stored_event es) as [es'|]; [|done].
  destruct (forallb _ _ && bool_decide _) eqn:E; [|done].
  apply andb_true_iff in E as [_ E]. apply bool_decide_eq_true in E.
  intros [= <-] (H1 & H2 & H3 & _). by split_and!.
Qed.

Lemma NoDup_map_filter {A} (f : A -> string) (p : A -> bool) l :
  NoDup (map f l) -> NoDup (map f (List.filter p l)).
Proof.
  induction l as [|a l IH]; [done|]. cbn. intros Hn. inversion Hn as [|x l' Hnot Hn' E]; subst.
  destruct (p a); cbn; [|auto]. constructor; [|auto].
  intros Hin. apply Hnot. apply list_elem_of_fmap in Hin as (b & -> & Hb).
  apply list_elem_of_fmap. exists b. split; [done|]. apply list_elem_of_In, filter_In in Hb as [Hb _].
  by apply list_elem_of_In.
Qed.

Lemma delete_server_keyed id x n x1 :
  delete_server id x = (Ok n, x1) -> well_keyed x -> well_keyed x1.
Proof.
  unfold delete_server. destruct (parse_uuid id) as [u|]; [|done].
  intros [= _ <-] (H1 & H2 & H3 & H4). split_and!; [by apply NoDup_map_filter..|done].
Qed.

Lemma mark_event_ids eids l : event_ids (map (mark_event eids) l) = event_ids l.
Proof.
  unfold event_ids. rewrite map_map. apply map_ext. intros e. unfold mark_event. by case_bool_decide.
Qed.

Lemma mstep_well_keyed x x' : mstep time_json x x' -> well_keyed x -> well_keyed x'.
Proof.
  intros [new (evs & x1 & _ & H1 & _ & H2)|s (now & old & e & n & x1 & H1 & _ & _ & _ & _ & H2)
         |id (e & n & x1 & H1 & _ & _ & H2)|(now & s & st & n & _ & H1)|(eids & H1)] Hk.
  - eauto using insert_servers_keyed, insert_events_keyed.
  - eauto using update_server_keyed, insert_events_keyed.
  - eauto using delete_server_keyed, insert_events_keyed.
  - eauto using update_server_keyed.
  - injection H1 as <-. destruct Hk as (Hk1 & Hk2 & Hk3 & Hk4). split_and!; [done..|].
    cbn. by rewrite mark_event_ids.
Qed.
End keys.

(** ** The outbox tells the whole story *)

(** What the readers of an event care about. *)
Record Config := {
  cf_ID : string; cf_Name : string; cf_IPv4 : string; cf_Method : string; cf_SSHPort : Z;
  cf_SSHUser : string; cf_SSHKey : string; cf_Endpoint : string;
}.

Definition server_config (s : Server) : Config := {|
  cf_ID := ServerID s; cf_Name := ServerName s; cf_IPv4 := IPv4 s; cf_Method := HealthCheckMethod s;
  cf_SSHPort := SSHPort s; cf_SSHUser := SSHUser s; cf_SSHKey := SSHKey s; cf_Endpoint := AgentEndpoint s |}.

(** Read from a payload. *)
Definition doc_config (payload : string) : option Config :=
  j ← parse payload; m ← members j;
  id ← string_field "server_id" m;
  name ← string_field "server_name" m;
  ip ← string_field "ipv4" m;
  _ ← string_field "current_status" m;
  method ← string_field "health_check_method" m;
  port ← int_field "ssh_port" m;
  user ← string_field "ssh_user" m;
  key ← string_field "ssh_key" m;
  endpoint ← string_field "agent_endpoint" m;
  Some {| cf_ID := id; cf_Name := name; cf_IPv4 := ip; cf_Method := method; cf_SSHPort := port;
          cf_SSHUser := user; cf_SSHKey := key; cf_Endpoint := endpoint |}.

Definition doc_id (payload : string) : option string :=
  j ← parse payload; m ← members j; string_field "server_id" m.

(** A reader that follows the events; it looks at types and payloads only, and
    stops at one that it cannot read. *)
Definition apply_event (t : gmap string Config) (e : OutboxEvent) : option (gmap string Config) :=
  if String.eqb (EventType e) EventServerDeleted then
    id ← doc_id (Payload e); Some (delete id t)
  else if String.eqb (EventType e) EventServerCreated || String.eqb (EventType e) EventServerUpdated then
    c ← doc_config (Payload e); Some (<[cf_ID c := c]> t)
  else None.

Fixpoint replay (t : gmap string Config) (es : list OutboxEvent) : option (gmap string Config) :=
  match es with
  | [] => Some t
  | e :: es => t' ← apply_event t e; replay t' es
  end.

Definition config_table (l : list Server) : gmap string Config :=
  list_to_map (map (fun s => (ServerID s, server_config s)) l).

(** The state of the tables that readers can rely on. *)
Record told (x : mstate) : Prop := {
  told_keyed : well_keyed x;
  told_trimmed : Forall is_trimmed (servers x);
  told_replay : replay ∅ (outbox x) = Some (config_table (servers x));
}.

(** Membership in a list that is written out. *)
Ltac in_list := repeat first [apply list_elem_of_here | apply list_elem_of_further].

Section story.
Context `{pg : Postgres} `{!PostgresLaws} (time_json : Z -> string).
Context (Htime : forall t, valid_utf8 (time_json t) = true).

(** Well-formed text and a small port. *)
Definition clean (s : Server) : Prop :=
  Forall (fun t => valid_utf8 t = true) [ServerID s; ServerName s; IPv4 s; CurrentStatus s;
    HealthCheckMethod s; SSHUser s; SSHKey s; AgentEndpoint s] /\ (- 2 ^ 31 <= SSHPort s < 2 ^ 31)%Z.

(** The stored text of a payload has the members of the server. *)
Lemma server_json_fields s p :
  clean s -> jsonb (server_json time_json s) = Some p ->
  exists m, parse p = Some (JObj m) /\ int_field "ssh_port" m = Some (SSHPort s) /\
    forall k v, (k, v) ∈ [("server_id", ServerID s); ("server_name", ServerName s); ("ipv4", IPv4 s);
      ("current_status", CurrentStatus s); ("health_check_method", HealthCheckMethod s);
      ("ssh_user", SSHUser s); ("ssh_key", SSHKey s); ("agent_endpoint", AgentEndpoint s)] ->
      string_field k m = Some v.
Proof.
  intros [Htext Hport] Hp.
  unfold server_json in Hp. match type of Hp with jsonb (Marshal (JObj ?m)) = _ => set (doc := m) in * end.
  assert (distinct_names doc) as Hd.
  { unfold distinct_names, doc. cbn [map fst]. refine (bool_decide_unpack _ _). vm_compute. exact I. }
  assert (flat doc) as Hflat.
  { rewrite !Forall_cons in Htext. unfold doc.
    repeat (constructor; [split; [by vm_compute|first [apply scalar_int|apply scalar_str; first [apply Htext|apply Htime]]]|]).
    constructor. }
  destruct (jsonb_law doc p Hflat Hd Hp) as (m' & Hparse & Hperm).
  assert (distinct_names m') as Hd' by (by eapply distinct_names_perm).
  assert (forall k j, (k, j) ∈ doc -> j <> JNull ->
    (forall A (dec : json -> option A) acc, assign dec k acc m' = dec j)) as Hfield.
  { intros k j Hin Hj A dec acc. apply (assign_present dec k acc m' k j); try done. by rewrite Hperm. }
  exists m'. split; [done|]. split.
  - unfold int_field. rewrite (Hfield "ssh_port" (JInt (SSHPort s)) ltac:(in_list) ltac:(done)).
    cbn. rewrite Atoi_Itoa; [done|]. unfold min_int64, max_int64. lia.
  - intros k v Hin. unfold string_field. rewrite (Hfield k (JStr v)); [done| |done].
    rewrite !elem_of_cons, elem_of_nil in Hin. destruct_or! Hin; simplify_eq; in_list.
Qed.

Lemma server_json_config s p :
  clean s -> jsonb (server_json time_json s) = Some p -> doc_config p = Some (server_config s).
Proof.
  intros Hs Hp. destruct (server_json_fields s p Hs Hp) as (m & Hparse & Hport & Hstr).
  unfold doc_config. rewrite Hparse. cbn [mbind option_bind members].
  rewrite (Hstr "server_id" (ServerID s)) by in_list.
  rewrite (Hstr "server_name" (ServerName s)) by in_list.
  rewrite (Hstr "ipv4" (IPv4 s)) by in_list.
  rewrite (Hstr "current_status" (CurrentStatus s)) by in_list.
  rewrite (Hstr "health_check_method" (HealthCheckMethod s)) by in_list.
  rewrite Hport.
  rewrite (Hstr "ssh_user" (SSHUser s)) by in_list.
  rewrite (Hstr "ssh_key" (SSHKey s)) by in_list.
  by rewrite (Hstr "agent_endpoint" (AgentEndpoint s)) by in_list.
Qed.

Lemma delete_payload_members id p :
  plain_text id = true -> jsonb (delete_payload id) = Some p ->
  exists m, parse p = Some (JObj m) /\ m ≡ₚ [("server_id", JStr id)].
Proof.
  intros Hid Hp. set (doc := [("server_id", JStr id)]).
  assert (delete_payload id = Marshal (JObj doc)) as E.
  { unfold delete_payload, doc. cbn [Marshal map join fst snd]. rewrite (quote_plain id Hid), quote_plain by done.
    by repeat first [rewrite str_app_cons|rewrite str_app_nil_l|rewrite str_app_assoc|rewrite str_app_nil_r]. }
  rewrite E in Hp. apply (jsonb_law doc p); [|by apply NoDup_singleton|done].
  constructor; [|constructor]. split; [by vm_compute|]. apply scalar_str. by apply plain_valid.
Qed.

(** The document that a deletion leaves. *)
Lemma delete_payload_document id p : plain_text id = true -> jsonb (delete_payload id) = Some p ->
  parse p = Some (JObj [("server_id", JStr id)]).
Proof.
  intros Hid Hp. destruct (delete_payload_members id p Hid Hp) as (m & Hparse & Hperm).
  apply Permutation_singleton_r in Hperm as ->. exact Hparse.
Qed.

Lemma delete_payload_id id p :
  plain_text id = true -> jsonb (delete_payload id) = Some p -> doc_id p = Some id.
Proof. intros Hid Hp. unfold doc_id. by rewrite (delete_payload_document id p Hid Hp). Qed.

(** *** The table of configurations *)
Lemma config_table_snoc l s :
  NoDup (ids (l ++ [s])) -> config_table (l ++ [s]) = <[ServerID s := server_config s]> (config_table l).
Proof.
  unfold config_table, ids. rewrite !map_app. intros Hn. cbn. apply list_to_map_snoc.
  intros Hin. apply NoDup_app in Hn as (_ & Hn & _). apply (Hn (ServerID s)); [|by left].
  apply list_elem_of_fmap in Hin as ([i c] & -> & Hin). apply list_elem_of_fmap in Hin as (s' & [= -> ->] & Hin).
  apply list_elem_of_fmap. by exists s'.
Qed.

Lemma config_table_insert l new :
  NoDup (ids (l ++ new)) ->
  foldl (fun t s => <[ServerID s := server_config s]> t) (config_table l) new = config_table (l ++ new).
Proof.
  revert l. induction new as [|s new IH]; intros l Hn; [by rewrite app_nil_r|].
  cbn. change (s :: new) with ([s] ++ new) in *. rewrite (app_assoc l [s] new) in *.
  rewrite <- IH by done. rewrite config_table_snoc; [done|].
  unfold ids in *. rewrite map_app in Hn. by apply NoDup_app in Hn as [Hn _].
Qed.

Lemma config_table_lookup_none l id : id ∉ ids l -> config_table l !! id = None.
Proof.
  intros Hnot. apply not_elem_of_list_to_map_1. intros Hin. apply Hnot.
  apply list_elem_of_fmap in Hin as ([i c] & -> & Hin). apply list_elem_of_fmap in Hin as (s & [= -> ->] & Hin).
  apply list_elem_of_fmap. by exists s.
Qed.

Lemma config_table_lookup l s :
  NoDup (ids l) -> s ∈ l -> config_table l !! ServerID s = Some (server_config s).
Proof.
  intros Hn Hin. apply elem_of_list_to_map_1.
  - unfold ids in Hn. rewrite <- list_fmap_compose. exact Hn.
  - apply list_elem_of_fmap. by exists s.
Qed.

Lemma config_table_replace now old l :
  NoDup (ids l) -> ServerID old ∈ ids l ->
  config_table (replace_row now old l) =
  <[ServerID old := server_config (updated_row now old old)]> (config_table l).
Proof.
  induction l as [|s l IH]; intros Hn Hin; [by apply elem_of_nil in Hin|].
  inversion Hn as [|x k Hnot Hn' E]; subst. unfold replace_row. cbn [map]. fold (replace_row now old l).
  unfold config_table. cbn [map list_to_map foldr fst snd]. fold (config_table (replace_row now old l)) (config_table l).
  destruct (String.eqb_spec (ServerID s) (ServerID old)) as [E|E].
  - cbn [ServerID updated_row]. rewrite E. rewrite insert_insert_eq.
    assert (replace_row now old l = l) as ->.
    { unfold replace_row. rewrite <- (map_id l) at 2. apply map_ext_in. intros r Hr.
      rewrite (proj2 (String.eqb_neq _ _)); [done|]. intros E'. apply Hnot. rewrite E, <- E'.
      apply list_elem_of_fmap. exists r. split; [done|]. by apply list_elem_of_In. }
    f_equal. unfold server_config, updated_row. cbn. by rewrite E.
  - apply elem_of_cons in Hin as [Hin|Hin]; [by destruct E|].
    rewrite IH by done. by rewrite insert_insert_ne by done.
Qed.

Lemma config_table_filter l id :
  NoDup (ids l) ->
  config_table (List.filter (fun old => negb (String.eqb (ServerID old) id)) l) = delete id (config_table l).
Proof.
  induction l as [|s l IH]; intros Hn; [done|].
  inversion Hn as [|x k Hnot Hn' E]; subst. cbn [List.filter].
  unfold config_table at 2. cbn [map list_to_map foldr fst snd]. fold (config_table l).
  destruct (String.eqb_spec (ServerID s) id) as [<-|E]; cbn [negb].
  - rewrite IH by done. by rewrite delete_insert_eq.
  - rewrite delete_insert_ne by done. rewrite <- IH by done. done.
Qed.

(** *** Every step adds the events that it calls for *)
Lemma replay_app t es es' : replay t (es ++ es') = (replay t es ≫= fun t => replay t es').
Proof.
  revert t. induction es as [|e es IH]; intros t; [done|]. cbn. by destruct (apply_event t e); cbn.
Qed.

Lemma insert_events_story es x x' :
  insert_events es x = (Ok tt, x') ->
  exists es', mapM stored_event es = Some es' /\ servers x' = servers x /\ outbox x' = outbox x ++ es'.
Proof.
  unfold insert_events. destruct (mapM stored_event es) as [es'|]; [|done].
  destruct (_ && _); intros; simplify_eq. by exists es'.
Qed.

Lemma stored_event_inv e e' :
  stored_event e = Some e' ->
  jsonb (Payload e) = Some (Payload e') /\ EventType e' = EventType e /\ AggregateID e' = AggregateID e.
Proof. unfold stored_event. destruct (jsonb (Payload e)) eqn:E; intros; by simplify_eq/=. Qed.

Lemma apply_announced t ty s e e' :
  ty = EventServerCreated \/ ty = EventServerUpdated -> clean s -> announces time_json ty s e -> stored_event e = Some e' ->
  apply_event t e' = Some (<[ServerID s := server_config s]> t).
Proof.
  intros Hty Hs (_ & Hid & Ht & Hp & _) He. apply stored_event_inv in He as (Hj & Ht' & _).
  unfold apply_event. rewrite Ht', Ht. rewrite Hp in Hj.
  destruct Hty as [-> | ->]; cbn -[doc_config]; by rewrite (server_json_config s _ Hs Hj).
Qed.

Lemma replay_announced ty new : ty = EventServerCreated \/ ty = EventServerUpdated -> Forall clean new ->
  forall evs es t, Forall2 (announces time_json ty) new evs -> mapM stored_event evs = Some es ->
  replay t es = Some (foldl (fun t s => <[ServerID s := server_config s]> t) t new).
Proof.
  intros Hty Hc. induction new as [|s new IH]; intros evs es t Ha Hm.
  - apply Forall2_nil_inv_l in Ha as ->. cbn in Hm. by injection Hm as <-.
  - apply Forall2_cons_inv_l in Ha as (e & evs' & He & Ha & ->).
    apply mapM_Some in Hm. apply Forall2_cons_inv_l in Hm as (e' & es' & He' & Hm & ->).
    apply Forall_cons in Hc as [Hs Hc]. cbn [replay foldl].
    rewrite (apply_announced t ty s e e') by done. cbn [mbind option_bind]. apply IH with evs'; [done..|]. by apply mapM_Some.
Qed.

Lemma fits_clean l : forallb fits_server l = true -> Forall clean l.
Proof.
  intros Hf. apply Forall_forall. intros s Hs. apply fits_server_law.
  apply (proj1 (forallb_forall _ _) Hf). by apply list_elem_of_In.
Qed.

Lemma replace_row_elem now old l s :
  s ∈ l -> ServerID s = ServerID old -> updated_row now old s ∈ replace_row now old l.
Proof.
  intros Hs E. apply list_elem_of_fmap. exists s. by rewrite (proj2 (String.eqb_eq _ _) E).
Qed.

Lemma replace_row_trimmed now old l :
  is_trimmed old -> Forall is_trimmed l -> Forall is_trimmed (replace_row now old l).
Proof.
  rewrite is_trimmed_iff. intros Ho Hl. apply Forall_map. eapply Forall_impl; [exact Hl|].
  intros s Hs. cbn. destruct (String.eqb _ _); [|done]. by apply is_trimmed_iff.
Qed.

Lemma update_server_story now old x n x' :
  update_server now old x = (Ok n, x') ->
  servers x' = replace_row now old (servers x) /\ outbox x' = outbox x /\
  n = Z.of_nat (length (List.filter (fun s => String.eqb (ServerID s) (ServerID old)) (servers x))) /\
  Forall clean (servers x').
Proof.
  unfold update_server. destruct (_ && _) eqn:E; [|done]. intros [= <- <-].
  apply andb_true_iff in E as [E _]. split_and!; try done. by apply fits_clean.
Qed.

Lemma hit_elem (old : Server) l :
  Z.of_nat (length (List.filter (fun s => String.eqb (ServerID s) (ServerID old)) l)) <> 0%Z ->
  exists s, s ∈ l /\ ServerID s = ServerID old.
Proof.
  induction l as [|s l IH]; [done|]. cbn. destruct (String.eqb_spec (ServerID s) (ServerID old)) as [E|E].
  - intros _. exists s. split; [by left|done].
  - intros Hn. destruct (IH Hn) as (s' & Hs & E'). exists s'. split; [by right|done].
Qed.

(** Deleting by the text that the database prints for the identifier. *)
Inductive canonical_step (x x' : mstate) : Prop :=
  | canonical_created new : created time_json new x x' -> canonical_step x x'
  | canonical_updated s : updated time_json s x x' -> canonical_step x x'
  | canonical_deleted id : parse_uuid id = Some id -> deleted id x x' -> canonical_step x x'
  | canonical_status : status_changed x x' -> canonical_step x x'
  | canonical_marked : marked x x' -> canonical_step x x'.

Lemma canonical_mstep x x' : canonical_step x x' -> mstep time_json x x'.
Proof.
  intros [?|?|?|?|?]; [by eapply step_created|by eapply step_updated|by eapply step_deleted
    |by apply step_status|by apply step_marked].
Qed.

Lemma created_told new x x' : created time_json new x x' -> told x -> well_keyed x' -> told x'.
Proof.
  intros (evs & x1 & Htrim & H1 & Ha & H2) [_ Ht Hr] Hk.
  apply insert_events_story in H2 as (es & Hm & Hs & Ho).
  unfold insert_servers in H1. destruct (_ && _) eqn:E; [|done]. injection H1 as <-.
  apply andb_true_iff in E as [E _]. cbn in Hs, Ho. split; [done|rewrite Hs; by apply Forall_app|].
  rewrite Ho, Hs, replay_app, Hr. cbn [mbind option_bind].
  rewrite (replay_announced EventServerCreated new) with evs es _; [|by left|by apply fits_clean|done|done]. f_equal.
  apply config_table_insert. rewrite <- Hs. apply Hk.
Qed.

Lemma updated_told s x x' : updated time_json s x x' -> told x -> well_keyed x' -> told x'.
Proof.
  intros (now & old & e & n & x1 & H1 & Hn & -> & Htrim & Ha & H2) [Hk0 Ht Hr] Hk.
  apply insert_events_story in H2 as (es & Hm & Hs & Ho).
  apply update_server_story in H1 as (Hs1 & Ho1 & -> & Hc).
  destruct (hit_elem old (servers x) Hn) as (row & Hrow & Eid).
  rewrite Hs1 in Hs, Hc. rewrite Ho1 in Ho.
  assert (clean (updated_row now old old)) as Hclean.
  { pose proof (proj1 (Forall_forall _ _) Hc _ (replace_row_elem now old _ row Hrow Eid)) as Hrc.
    unfold clean, updated_row in *. cbn [ServerID ServerName IPv4 CurrentStatus HealthCheckMethod SSHUser SSHKey
      AgentEndpoint SSHPort] in *. by rewrite <- Eid. }
  split; [done|rewrite Hs; apply replace_row_trimmed; [by apply is_trimmed_iff; apply is_trimmed_iff in Htrim|done]|].
  cbn in Hm. destruct (stored_event e) as [e'|] eqn:He; [|done]. injection Hm as <-.
  rewrite Ho, Hs, replay_app, Hr. cbn [replay mbind option_bind].
  rewrite (apply_announced _ EventServerUpdated (updated_row now old old) e e') by (done || by right). cbn [mbind option_bind]. f_equal.
  cbn [ServerID updated_row]. rewrite config_table_replace; [done|apply Hk0|].
  rewrite <- Eid. apply list_elem_of_fmap. by exists row.
Qed.

Lemma deleted_told id x x' :
  parse_uuid id = Some id -> deleted id x x' -> told x -> well_keyed x' -> told x'.
Proof.
  intros Hu (e & n & x1 & H1 & Hn & (_ & Hid & Hty & Hp & _) & H2) [Hk0 Ht Hr] Hk.
  apply insert_events_story in H2 as (es & Hm & Hs & Ho).
  unfold delete_server in H1. rewrite Hu in H1. injection H1 as <- <-. cbn in Hs, Ho.
  split; [done| |].
  - rewrite Hs. apply Forall_forall. intros s Hin. apply list_elem_of_In, filter_In in Hin as [Hin _].
    apply (proj1 (Forall_forall _ _) Ht). by apply list_elem_of_In.
  - cbn in Hm. destruct (stored_event e) as [e'|] eqn:He; [|done]. injection Hm as <-.
    apply stored_event_inv in He as (Hj & Hty' & _). rewrite Hp in Hj.
    rewrite Ho, Hs, replay_app, Hr. cbn [replay mbind option_bind]. unfold apply_event.
    rewrite Hty', Hty, String.eqb_refl, (delete_payload_id id _ (parse_uuid_plain _ _ Hu) Hj). cbn [mbind option_bind]. f_equal. symmetry. apply config_table_filter. apply Hk0.
Qed.

Lemma status_told x x' : status_changed x x' -> told x -> well_keyed x' -> told x'.
Proof.
  intros (now & s & st & n & Hin & H1) [Hk0 Ht Hr] Hk.
  apply update_server_story in H1 as (Hs & Ho & _ & _).
  pose proof (proj1 (Forall_forall _ _) Ht s Hin) as Htrim.
  assert (is_trimmed (trimmed (with_status st s))) as Htrim' by apply trimmed_is_trimmed.
  split; [done|rewrite Hs; by apply replace_row_trimmed|].
  rewrite Ho, Hs, Hr. rewrite config_table_replace; [|apply Hk0|apply list_elem_of_fmap; by exists s].
  f_equal. symmetry. apply insert_id. cbn [ServerID trimmed with_status].
  rewrite config_table_lookup by (done || apply Hk0). f_equal.
  apply is_trimmed_iff in Htrim as [E1 E2]. unfold server_config. cbn. by rewrite E1, E2.
Qed.

Lemma config_table_some l id : is_Some (config_table l !! id) -> id ∈ ids l.
Proof.
  intros [c Hc]. destruct (decide (id ∈ ids l)) as [|Hnot]; [done|]. by rewrite config_table_lookup_none in Hc.
Qed.

(** The status consumer writes the whole row that it read before, and adds no
    event: that is the truth exactly as long as nobody changed the row in
    between (see [RegistryFlow.edit_lost]). *)
Lemma stale_write_told now st s x n x' :
  update_server now (trimmed (with_status st s)) x = (Ok n, x') -> told x ->
  told x' <-> forall c, config_table (servers x) !! ServerID s = Some c -> c = server_config (trimmed s).
Proof.
  intros H1 Hx. assert (well_keyed x') as Hk by (eapply (update_server_keyed time_json); [exact H1|apply Hx]).
  destruct Hx as [Hk0 Ht Hr]. apply update_server_story in H1 as (Hs & Ho & _ & _).
  set (old := trimmed (with_status st s)) in *.
  assert (ServerID s ∈ ids (servers x) -> config_table (servers x') =
    <[ServerID s := server_config (trimmed s)]> (config_table (servers x))) as Hreplace.
  { intros Hin. rewrite Hs. by apply (config_table_replace now old (servers x)); [apply Hk0|]. }
  split.
  - intros [_ _ Hr'] c Hc. rewrite Ho, Hr in Hr'. injection Hr' as Hr'.
    rewrite Hreplace in Hr' by (apply config_table_some; by eexists).
    rewrite Hr', lookup_insert_eq in Hc. congruence.
  - intros Hsame. split; [done|rewrite Hs; apply replace_row_trimmed; [apply trimmed_is_trimmed|done]|].
    rewrite Ho, Hr. f_equal. destruct (decide (ServerID s ∈ ids (servers x))) as [Hin|Hnot].
    + rewrite (Hreplace Hin). symmetry. apply insert_id. change (ids (servers x)) with (ServerID <$> servers x) in Hin.
      apply list_elem_of_fmap in Hin as (row & E & Hrow). rewrite E. rewrite <- (Hsame (server_config row)).
      * apply config_table_lookup; [apply Hk0|done].
      * rewrite E. apply config_table_lookup; [apply Hk0|done].
    + rewrite Hs. f_equal. unfold replace_row. rewrite <- (map_id (servers x)) at 1. apply map_ext_in. intros r Hrin.
      rewrite (proj2 (String.eqb_neq _ _)); [done|]. cbn. intros E. apply Hnot. rewrite <- E.
      apply list_elem_of_fmap. exists r. split; [done|]. by apply list_elem_of_In.
Qed.

Lemma marked_told x x' : marked x x' -> told x -> well_keyed x' -> told x'.
Proof.
  intros (eids & [= <-]) [_ Ht Hr] Hk. split; [done..|]. change (replay ∅ (map (mark_event eids) (outbox x)) = Some (config_table (servers x))). rewrite <- Hr. clear.
  generalize (∅ : gmap string Config). induction (outbox x) as [|e l IH]; intros t; [done|].
  assert (apply_event t (mark_event eids e) = apply_event t e) as E by (unfold apply_event, mark_event; by case_bool_decide).
  cbn [map replay]. rewrite E. by destruct (apply_event t e); cbn.
Qed.

Lemma canonical_step_told x x' : canonical_step x x' -> told x -> told x'.
Proof.
  intros Hst Hx. assert (well_keyed x') as Hk by (eapply mstep_well_keyed; [by apply canonical_mstep|apply Hx]).
  destruct Hst; eauto using created_told, updated_told, deleted_told, status_told, marked_told.
Qed.

Lemma told_empty : told (MState [] []).
Proof. split; [|constructor|done]. repeat split; constructor. Qed.

(** Whatever was reached from empty tables can be relied on. *)
Lemma reachable_told x : rtc canonical_step (MState [] []) x -> told x.
Proof.
  apply (rtc_ind_r (fun y => told y)); [apply told_empty|].
  intros y z _ Hst Hy. by eapply canonical_step_told.
Qed.
End story.

(** ** The handlers, among other clients *)

(** What sms-management is asked to do. *)
Inductive call :=
  | CallCreate (input : ServerInput)
  | CallUpdate (id : string) (input : ServerInput)
  | CallDelete (id : string)
  | CallImport (fileBytes : string)
  | CallRelay.

Section calls.
Context {W} {srv : Host W} {db : Db W mstate} `{!HostLaws srv}.
Context `{pg : Postgres} `{!PostgresLaws} (time_json : Z -> string).
Context (Htime : forall t, valid_utf8 (time_json t) = true).
Context `{!SharedLaws db (canonical_step time_json)}.
Context `{!Frame srv (tables (db := db))} `{!Frame db (streams (srv := srv))}.
Context (Encrypt : string -> proc W (res string)) (ParseRequestURI : string -> bool).
Context (OpenReader : string -> option sheet) (is_ipv4 : string -> bool) (maxLen : Z) (streamName : string) (batchSize : Z).
Context (Hencrypt : encrypt_quiet Encrypt).

Definition serve (c : call) : proc W unit :=
  match c with
  | CallCreate input => CreateServer Encrypt ParseRequestURI time_json input ;;- mret tt
  | CallUpdate id input => UpdateServer Encrypt ParseRequestURI time_json id input ;;- mret tt
  | CallDelete id => DeleteServer id ;;- mret tt
  | CallImport fileBytes => ImportServers time_json OpenReader is_ipv4 fileBytes ;;- mret tt
  | CallRelay => processOutboxEvents maxLen streamName batchSize
  end.

(** Deletions name the server by the text that the database prints. *)
Definition canonical_call (c : call) : Prop :=
  match c with CallDelete id => parse_uuid id = Some id | _ => True end.

Lemma among_canonical (P : mstate -> mstate -> Prop) x x' :
  (forall y y', P y y' -> canonical_step time_json y y') -> among (canonical_step time_json) P x x' ->
  rtc (canonical_step time_json) x x'.
Proof. intros HP (x1 & Hx & Hst). eapply rtc_r; [exact Hx|by apply HP]. Qed.

Lemma storing_canonical l x x' : storing (R := canonical_step time_json) time_json l x x' ->
  rtc (canonical_step time_json) x x'.
Proof.
  induction 1 as [x|l x x1 x' Hst _ IH|l l' x x1 x' (new & Hst & _) _ IH]; [done|by eapply rtc_l|].
  eapply rtc_l; [by eapply canonical_created|done].
Qed.

Lemma serve_canonical c w x : canonical_call c -> tables w = DView x None ->
  wp (serve c) (fun _ w' => exists x', tables w' = DView x' None /\ rtc (canonical_step time_json) x x') w.
Proof.
  intros Hc Hv. destruct c as [input|id input|id|bytes|]; cbn [serve canonical_call] in *.
  - apply wp_bind. eapply wp_mono; [by apply CreateServer_refines|]. cbn beta. intros r w' (x' & Hv' & Hr).
    apply wp_ret. exists x'. split; [done|].
    destruct r as [s|e]; [|destruct Hr as [Hr|[s Hr]]; [done|]];
      by eapply among_canonical, Hr; intros y y'; apply canonical_created.
  - apply wp_bind. eapply wp_mono; [by apply UpdateServer_refines|]. cbn beta. intros r w' (x' & Hv' & Hr).
    apply wp_ret. exists x'. split; [done|].
    destruct r as [s|e]; [destruct Hr as (x0 & H0 & _ & Hr); trans x0; [done|]|destruct Hr as [Hr|[s Hr]]; [done|]];
      by eapply among_canonical, Hr; intros y y'; apply canonical_updated.
  - apply wp_bind. eapply wp_mono; [by apply DeleteServer_refines|]. cbn beta. intros r w' (x' & Hv' & Hr).
    apply wp_ret. exists x'. split; [done|].
    destruct r as [u|e]; [|destruct Hr as [Hr|Hr]; [done|]];
      by eapply among_canonical, Hr; intros y y'; apply canonical_deleted.
  - apply wp_bind. eapply wp_mono; [by apply ImportServers_refines|]. cbn beta. intros r w' (x' & Hv' & Hr).
    apply wp_ret. exists x'. split; [done|]. destruct r as [r|e]; [|by destruct Hr as [l Hl]; eapply storing_canonical].
    destruct Hr as (f & header & rows & _ & _ & Hr). destruct (find_columns _ _ _ _). eapply storing_canonical, Hr.
  - eapply wp_mono; [by apply processOutboxEvents_spec|]. cbn beta.
    intros _ w' (x1 & x2 & H1 & H2 & [[Hv' _]|[Hv' _]] & _); [exists x2; split; [done|]; by trans x1|].
    eexists. split; [exact Hv'|]. eapply rtc_r; [by trans x1|]. apply canonical_marked. by eexists.
Qed.

Lemma serve_all_canonical calls w x : Forall canonical_call calls -> tables w = DView x None ->
  wp (for_each serve calls) (fun _ w' => exists x', tables w' = DView x' None /\ rtc (canonical_step time_json) x x') w.
Proof.
  intros Hc. revert w x. induction Hc as [|c calls Hc _ IH]; intros w x Hv; [apply wp_ret; by exists x|].
  cbn [for_each]. apply wp_bind. eapply wp_mono; [by apply serve_canonical|]. cbn beta. intros _ w1 (x1 & Hv1 & H1).
  eapply wp_mono; [by apply IH|]. cbn beta. intros _ w2 (x2 & Hv2 & H2). exists x2. split; [done|by trans x1].
Qed.
End calls.

(** C5: whatever a service of sms-management is asked to do, in any order and
    under any faults, while other services do the like between its statements:
    keys stay unique, and a reader that follows the events of the outbox from
    the beginning has exactly the configurations of the registered servers, so
    that no change of a server goes unannounced, and none is announced that was
    not made.  Deletions must name the server by the text the database prints
    for its identifier (see [ghost_server]), and the consumer of status reports
    must not write a row that was changed since it read it (see
    [stale_write_told]). *)
Theorem outbox_tells_all {W} {srv : Host W} {db : Db W mstate} `{!HostLaws srv} `{pg : Postgres} `{!PostgresLaws}
    (time_json : Z -> string) `{!SharedLaws db (canonical_step time_json)} `{!Frame srv (tables (db := db))}
    `{!Frame db (streams (srv := srv))} (Encrypt : string -> proc W (res string)) (ParseRequestURI : string -> bool)
    (OpenReader : string -> option sheet) (is_ipv4 : string -> bool) (maxLen : Z) (streamName : string) (batchSize : Z)
    (calls : list call) (w : W) (x : mstate) :
  (forall t, valid_utf8 (time_json t) = true) -> encrypt_quiet Encrypt -> Forall canonical_call calls ->
  tables w = DView x None -> rtc (canonical_step time_json) (MState [] []) x ->
  wp (for_each (serve time_json Encrypt ParseRequestURI OpenReader is_ipv4 maxLen streamName batchSize) calls)
    (fun _ w' => exists x', tables w' = DView x' None /\ rtc (canonical_step time_json) x x' /\
      well_keyed x' /\ replay ∅ (outbox x') = Some (config_table (servers x'))) w.
Proof.
  intros Htime He Hc Hv Hx. eapply wp_mono; [by apply serve_all_canonical|]. cbn beta. intros _ w' (x' & Hv' & Hx').
  assert (rtc (canonical_step time_json) (MState [] []) x') as Hr by (by trans x).
  exists x'. by destruct (reachable_told time_json Htime x' Hr).
Qed.

(** A database that stores well-formed text and prints identifiers in lower
    case. *)
Definition strict_pg : Postgres := {|
  parse_uuid := fun s => if negb (String.eqb s "") && plain_text (ToLower s) then Some (ToLower s) else None;
  jsonb := fun s => match parse s with Some _ => Some s | None => None end;
  fits_server := fun s => forallb valid_utf8 [ServerID s; ServerName s; IPv4 s; CurrentStatus s;
      HealthCheckMethod s; SSHUser s; SSHKey s; AgentEndpoint s] &&
    (- 2 ^ 31 <=? SSHPort s)%Z && (SSHPort s <? 2 ^ 31)%Z;
  fits_event := fun _ => true;
  ILIKE := fun a b => true;
  order_by := fun _ l => Some l;
  by_created_at := fun l => l;
|}.

Lemma strict_pg_laws : @PostgresLaws strict_pg.
Proof.
  split.
  - intros s u. cbn. destruct (_ && _) eqn:E; [|done]. intros [= <-]. by apply andb_true_iff in E as [_ E].
  - done.
  - by intros c l l' [= <-].
  - intros m s Hm Hd. unfold jsonb, strict_pg. rewrite (parse_Marshal_flat m Hm). intros [= <-].
    exists m. split; [by apply parse_Marshal_flat|done].
  - intros s. cbn -[forallb]. rewrite !andb_true_iff, Z.leb_le, Z.ltb_lt. intros [[Hf H1] H2].
    split; [|lia]. apply Forall_forall. intros t Ht.
    apply (proj1 (forallb_forall _ _) Hf). by apply list_elem_of_In.
Qed.

Definition story_row (id name ip : string) : Server := {|
  ServerID := id; ServerName := name; IPv4 := ip; CurrentStatus := "UNKNOWN";
  HealthCheckMethod := "ICMP"; SSHPort := 0; SSHUser := ""; SSHKey := ""; AgentEndpoint := "";
  ConsecutiveFailures := 0; CreatedAt := 5; UpdatedAt := 5 |}.
Definition story_event (id ty aggregate payload : string) : OutboxEvent := {|
  ID := id; AggregateType := "Server"; AggregateID := aggregate; EventType := ty;
  Payload := payload; IsProcessed := false; ECreatedAt := 6 |}.
Definition now_json (t : Z) : string := "now".
Definition story_a : Server := story_row "id-a" "web" "10.0.0.1".
Definition story_b : Server := story_row "id-b" "db" "10.0.0.2".
Definition story_created : mstate :=
  MState [story_a; story_b]
    [story_event "e1" "ServerCreated" "id-a" (server_json now_json story_a);
     story_event "e2" "ServerCreated" "id-b" (server_json now_json story_b)].
Definition story_deleted : mstate :=
  MState [story_a] (outbox story_created ++ [story_event "e3" "ServerDeleted" "id-b" (delete_payload "id-b")]).

Lemma now_json_valid (t : Z) : valid_utf8 (now_json t) = true.
Proof. by vm_compute. Qed.

Lemma story_registers : canonical_step (pg := strict_pg) now_json (MState [] []) story_created.
Proof.
  apply (canonical_created _ _ _ [story_a; story_b]).
  exists (outbox story_created), (MState [story_a; story_b] []).
  split; [by repeat constructor|]. split; [by vm_compute|]. split; [by repeat constructor|by vm_compute].
Qed.

Lemma story_deletes : canonical_step (pg := strict_pg) now_json story_created story_deleted.
Proof.
  apply (canonical_deleted _ _ _ "id-b"); [done|].
  exists (story_event "e3" "ServerDeleted" "id-b" (delete_payload "id-b")), 1%Z, (MState [story_a] (outbox story_created)).
  split; [by vm_compute|]. split; [done|]. split; [by repeat constructor|by vm_compute].
Qed.

Lemma story_reachable : rtc (canonical_step (pg := strict_pg) now_json) (MState [] []) story_deleted.
Proof. eapply rtc_l; [apply story_registers|apply rtc_once, story_deletes]. Qed.

(** One service edits a server and publishes; another deletes a server while
    the edit is under way. *)
Abbreviation clients := (canonical_step (pg := strict_pg) now_json).
Definition oworld : Type := hview * ((dview mstate * list fault) * list (move clients)).
Definition ohost : Host oworld := framed _ sure_host.
Definition odb : Db oworld mstate := framed_r _ (crowd_db mstate clients).
#[export] Instance ohost_frame : Frame ohost (tables (db := odb)).
Proof. apply (framed_snd sure_host (fun w => w.1.1)). Qed.
#[export] Instance odb_frame : Frame odb (streams (srv := ohost)).
Proof. apply (framed_r_fst (crowd_db mstate clients) redis). Qed.

Definition deletes (x : mstate) : mstate := if decide (x = story_created) then story_deleted else x.
Lemma deletes_canonical x : rtc clients x (deletes x).
Proof. unfold deletes. destruct (decide _) as [->|]; [apply rtc_once, story_deletes|done]. Qed.

Definition rename : ServerInput := {|
  in_ServerName := "renamed"; in_IPv4 := "10.0.0.1"; in_HealthCheckMethod := "ICMP"; in_SSHPort := 0;
  in_SSHUser := ""; in_SSHKey := ""; in_AgentEndpoint := "" |}.
Definition story_calls : proc oworld unit :=
  for_each (serve (srv := ohost) (db := odb) (pg := strict_pg) now_json plain_encrypt (fun _ => true) (fun _ => None)
    (fun _ => true) 1000 "server.events" 2) [CallUpdate "id-a" rename; CallRelay].
Definition story_world : oworld :=
  (HView 0 empty_redis, ((DView story_created None, []), [stay; move_by deletes deletes_canonical])).

Lemma outbox_tells_all_witness :
  let x := committed (story_calls story_world).2.2.1.1 in
  map ServerName (servers x) = ["renamed"] /\
  map EventType (outbox x) = ["ServerCreated"; "ServerCreated"; "ServerDeleted"; "ServerUpdated"] /\
  wp story_calls (fun _ w' => exists x', tables (db := odb) w' = DView x' None /\ rtc clients story_created x' /\
    well_keyed x' /\ replay ∅ (outbox x') = Some (config_table (servers x'))) story_world.
Proof.
  split; [by vm_compute|]. split; [by vm_compute|].
  refine (@outbox_tells_all _ ohost odb _ strict_pg strict_pg_laws now_json _ _ _ plain_encrypt (fun _ => true)
    (fun _ => None) (fun _ => true) 1000 "server.events" 2 [CallUpdate "id-a" rename; CallRelay]
    story_world story_created now_json_valid _ _ eq_refl (rtc_once _ _ story_registers)).
  - by intros key w.
  - by repeat constructor.
Defined.

(** Deleting by another spelling of the identifier takes the row away, but the
    event names a server that no reader knows: they keep it for ever. *)
Lemma ghost_server : exists x x', told x /\ deleted (pg := strict_pg) "ID-B" x x' /\
  config_table (servers x') !! "id-b" = None /\ default ∅ (replay ∅ (outbox x')) !! "id-b" = Some (server_config story_b).
Proof.
  exists story_created, (MState [story_a] (outbox story_created ++ [story_event "e3" "ServerDeleted" "ID-B" (delete_payload "ID-B")])).
  split_and!; [split| |by vm_compute|by vm_compute].
  - split_and!; refine (bool_decide_unpack _ _); by vm_compute.
  - by repeat constructor.
  - by vm_compute.
  - exists (story_event "e3" "ServerDeleted" "ID-B" (delete_payload "ID-B")), 1%Z, (MState [story_a] (outbox story_created)).
    split; [by vm_compute|]. split; [done|]. split; [by repeat constructor|by vm_compute].
Qed.
