(* ===== verification/Access.v ===== *)
(** Access control as the gRPC servers see it: request metadata, the
    principal in the context, the interceptors
    (handler/grpc/middlewares/) and the role permissions
    (infrastructure/security/) that sms-identity, sms-management and
    sms-reporting each carry a copy of. *)
From S2P Require Import Prelude GoStd.

(** ** gRPC statuses *)
Inductive code := InvalidArgument | NotFound | AlreadyExists | PermissionDenied | Unauthenticated | Internal.

#[export] Instance code_eq_dec : EqDecision code.
Proof. solve_decision. Defined.

(** The text of a status, which may quote the text of an error. *)
Inductive message := Text (s : string) | ErrorText (e : err) | TextAnd (s : string) (e : err).

#[export] Instance message_eq_dec : EqDecision message.
Proof. solve_decision. Defined.

Record status := Status { s_code : code; s_message : message }.

#[export] Instance status_eq_dec : EqDecision status.
Proof. solve_decision. Defined.

(** How a handler ends. *)
Inductive outcome (A : Type) :=
  | Reply (a : A)
  | Refused (s : status)
  | Panicked.
Arguments Reply {A} a.
Arguments Refused {A} s.
Arguments Panicked {A}.

#[export] Instance outcome_eq_dec {A} `{EqDecision A} : EqDecision (outcome A).
Proof. solve_decision. Defined.

Definition refuse {A} (c : code) (s : string) : outcome A := Refused (Status c (Text s)).

(** ** Context *)
Record Principal := {
  UserID : string; Username : string; Email : string; RoleID : string; RoleCode : string; SessionID : string;
}.

#[export] Instance Principal_eq_dec : EqDecision Principal.
Proof. solve_decision. Defined.

(** Metadata keys are lower-case; a key may have several values. *)
Abbreviation MD := (gmap string (list string)).

(** The address of the peer, the incoming metadata, the principal. *)
Record ctx := Ctx { ctx_peer : option string; ctx_md : option MD; ctx_principal : option Principal }.

Definition SetPrincipal (c : ctx) (p : Principal) : ctx := Ctx (ctx_peer c) (ctx_md c) (Some p).
Definition GetPrincipal (c : ctx) : option Principal := ctx_principal c.

Definition ErrNoActor : err := ErrS "unauthorized".
Definition GetActorFromCtx (c : ctx) : res Principal :=
  match GetPrincipal c with Some p => Ok p | None => Err ErrNoActor end.

Definition md_Get (m : MD) (k : string) : list string := default [] (m !! ToLower k).

(** ** Permissions *)
Definition PermServerCreate : string := "server:create".
Definition PermServerRead : string := "server:read".
Definition PermServerUpdate : string := "server:update".
Definition PermServerDelete : string := "server:delete".
Definition PermServerImport : string := "server:import".
Definition PermServerExport : string := "server:export".
Definition PermReportRequest : string := "report:request".

Definition RoleCodeAdmin : string := "ADMIN".
Definition RoleCodeUser : string := "USER".

Abbreviation Authorizer := (gmap string (gmap string bool)).

Definition NewAuthorizer : Authorizer :=
  let adminPerms : gmap string bool := list_to_map [
    (PermServerCreate, true); (PermServerRead, true); (PermServerUpdate, true); (PermServerDelete, true);
    (PermServerImport, true); (PermServerExport, true); (PermReportRequest, true)] in
  let userPerms : gmap string bool := list_to_map [(PermServerRead, true)] in
  list_to_map [(RoleCodeAdmin, adminPerms); (RoleCodeUser, userPerms)].

Definition HasPermission (a : Authorizer) (principal : option Principal) (required : string) : bool :=
  if String.eqb required "" then true
  else
    match principal with
    | None => false
    | Some p =>
      if String.eqb (RoleCode p) RoleCodeAdmin then true
      else match a !! RoleCode p with
           | None => false
           | Some perms => default false (perms !! required)
           end
    end.

(** ** Interceptors *)
Section interceptors.
Context {W Req Resp : Type}.

Definition handler : Type := ctx -> Req -> proc W (outcome Resp).
(** The method that is called is known to the interceptor. *)
Definition interceptor : Type := string -> handler -> handler.

(** [grpc.ChainUnaryInterceptor]: the first one is outermost. *)
Definition chain (l : list interceptor) (method : string) (h : handler) : handler :=
  foldr (fun i h => i method h) h l.

Definition HeaderUserID : string := "x-user-id".
Definition HeaderUserRole : string := "x-user-role".
Definition HeaderUserEmail : string := "x-user-email".
Definition HeaderUserName : string := "x-user-name".

Definition md_principal (md : MD) : Principal :=
  let getVal k := match md_Get md k with v :: _ => v | [] => "" end in
  {| UserID := getVal HeaderUserID; Username := getVal HeaderUserName; Email := getVal HeaderUserEmail;
     RoleID := ""; RoleCode := getVal HeaderUserRole; SessionID := "" |}.

Definition AuthMetadataInterceptor : interceptor := fun _ h c req =>
  match ctx_md c with
  | None => h c req
  | Some md =>
    let principal := md_principal md in
    h (if String.eqb (UserID principal) "" then c else SetPrincipal c principal) req
  end.

Definition PermissionInterceptor (authorizer : option Authorizer) (methodPermissions : gmap string string)
    : interceptor := fun method h c req =>
  match authorizer with
  | None => mret (refuse Internal "internal server error")
  | Some a =>
    match methodPermissions !! method with
    | None => h c req
    | Some requiredPermission =>
      match GetPrincipal c with
      | None => mret (refuse Unauthenticated "unauthorized")
      | Some principal =>
        if HasPermission a (Some principal) requiredPermission then h c req
        else mret (refuse PermissionDenied "forbidden")
      end
    end
  end.

Definition RecoveryInterceptor : interceptor := fun _ h c req =>
  r <-- h c req;
  mret (match r with Panicked => refuse Internal "internal server error" | r => r end).

(** The validator is a library; a request that is no message has no rules. *)
Definition ValidationInterceptor (Validate : Req -> option (option err)) : interceptor := fun _ h c req =>
  match Validate req with
  | None => mret (refuse InvalidArgument "invalid request type")
  | Some (Some e) => mret (Refused (Status InvalidArgument (TextAnd "invalid request: " e)))
  | Some None => h c req
  end.
End interceptors.

(** ** The servers that install them (app/app.go, app/run.go) *)
Definition management_method (name : string) : string := "/server_management.v1.ServerManagementService/" +:+ name.
Definition management_permissions : gmap string string := list_to_map [
  (management_method "CreateServer", PermServerCreate);
  (management_method "ViewServers", PermServerRead);
  (management_method "UpdateServer", PermServerUpdate);
  (management_method "DeleteServer", PermServerDelete);
  (management_method "ImportServers", PermServerImport);
  (management_method "ExportServers", PermServerExport)].

Definition RequestReport_FullMethodName : string := "/reporting.v1.ReportingService/RequestReport".
Definition reporting_permissions : gmap string string :=
  {[RequestReport_FullMethodName := PermReportRequest]}.

Section servers.
Context {W Req Resp : Type}.

Definition management_server (method : string) (h : handler) : handler (W := W) (Req := Req) (Resp := Resp) :=
  chain [AuthMetadataInterceptor; PermissionInterceptor (Some NewAuthorizer) management_permissions] method h.

Definition reporting_server (method : string) (h : handler) : handler (W := W) (Req := Req) (Resp := Resp) :=
  chain [AuthMetadataInterceptor; PermissionInterceptor (Some NewAuthorizer) reporting_permissions] method h.
End servers.

(** ** What the roles may do *)

(** The reference: administrators everything, users only look. *)
Definition role_may (role required : string) : bool :=
  String.eqb role RoleCodeAdmin || (String.eqb role RoleCodeUser && String.eqb required PermServerRead).

Lemma HasPermission_role p required :
  required <> "" -> HasPermission NewAuthorizer (Some p) required = role_may (RoleCode p) required.
Proof.
  intros Hr. unfold HasPermission, role_may. rewrite (proj2 (String.eqb_neq _ _) Hr).
  destruct (String.eqb_spec (RoleCode p) RoleCodeAdmin) as [E|E]; [done|].
  unfold NewAuthorizer. cbv zeta. rewrite !list_to_map_cons, !list_to_map_nil.
  rewrite lookup_insert_ne by done.
  destruct (String.eqb_spec (RoleCode p) RoleCodeUser) as [->|E'].
  - rewrite lookup_insert_eq. destruct (String.eqb_spec required PermServerRead) as [->|E''].
    + by rewrite lookup_insert_eq.
    + by rewrite lookup_insert_ne, lookup_empty by done.
  - by rewrite lookup_insert_ne, lookup_empty by done.
Qed.

(** Who calls, according to the headers that the gateway forwards. *)
Definition caller (c : ctx) : option Principal :=
  match ctx_md c with
  | None => ctx_principal c
  | Some md => if String.eqb (UserID (md_principal md)) "" then ctx_principal c else Some (md_principal md)
  end.

(** The context a handler behind [AuthMetadataInterceptor] runs in. *)
Definition calling (c : ctx) : ctx := Ctx (ctx_peer c) (ctx_md c) (caller c).

Lemma AuthMetadata_calling {W Req Resp} m (h : handler (W := W) (Req := Req) (Resp := Resp)) c req :
  AuthMetadataInterceptor m h c req = h (calling c) req.
Proof.
  unfold AuthMetadataInterceptor, calling, caller. destruct c as [peer [md|] p]; cbn; [|done].
  by destruct (String.eqb _ _).
Qed.

Section gate.
Context {W Req Resp : Type} (rules : gmap string string).
Context (Hrules : map_Forall (fun _ perm => perm <> "") rules).

(** What a server with these rules answers, and when its handler runs. *)
Lemma gate_spec method (h : handler (W := W) (Req := Req) (Resp := Resp)) c req w :
  chain [AuthMetadataInterceptor; PermissionInterceptor (Some NewAuthorizer) rules] method h c req w =
  match rules !! method with
  | None => h (calling c) req w
  | Some required =>
    match caller c with
    | None => (refuse Unauthenticated "unauthorized", w)
    | Some p => if role_may (RoleCode p) required then h (calling c) req w
                else (refuse PermissionDenied "forbidden", w)
    end
  end.
Proof.
  cbn [chain foldr]. rewrite AuthMetadata_calling. unfold PermissionInterceptor.
  destruct (rules !! method) as [required|] eqn:E; [|done].
  change (GetPrincipal (calling c)) with (caller c). destruct (caller c) as [p|]; [|done].
  rewrite HasPermission_role by (by apply (Hrules method)). by destruct (role_may _ _).
Qed.
End gate.

Lemma management_rules : map_Forall (fun _ perm => perm <> "") management_permissions.
Proof. refine (bool_decide_unpack _ _). by vm_compute. Qed.
Lemma reporting_rules : map_Forall (fun _ perm => perm <> "") reporting_permissions.
Proof. refine (bool_decide_unpack _ _). by vm_compute. Qed.

Lemma management_method_inj a b : management_method a = management_method b -> a = b.
Proof. unfold management_method. intros E. by apply (inj _) in E. Qed.

Lemma management_rule name perm :
  management_permissions !! management_method name = Some perm ->
  String.eqb perm PermServerRead = String.eqb name "ViewServers".
Proof.
  intros Hp. apply elem_of_list_to_map_2 in Hp. rewrite !elem_of_cons, elem_of_nil in Hp.
  repeat destruct Hp as [Hp|Hp]; try done; apply pair_equal_spec in Hp as [Hn ->];
    by apply management_method_inj in Hn as ->.
Qed.

(** The gRPC server of sms-management lets a call to one of its methods
    reach the handler exactly when the forwarded headers name a user whose role
    is [ADMIN], or [USER] for viewing; any other call changes nothing and is
    refused, as unauthenticated when nobody is named. *)
Lemma management_access {W Req Resp} (name perm : string) (h : handler (W := W) (Req := Req) (Resp := Resp))
    (c : ctx) (req : Req) (w : W) :
  management_permissions !! management_method name = Some perm ->
  management_server (management_method name) h c req w =
  match caller c with
  | None => (refuse Unauthenticated "unauthorized", w)
  | Some p =>
    if String.eqb (RoleCode p) RoleCodeAdmin ||
       (String.eqb (RoleCode p) RoleCodeUser && String.eqb name "ViewServers")
    then h (calling c) req w
    else (refuse PermissionDenied "forbidden", w)
  end.
Proof.
  intros Hp. unfold management_server. rewrite gate_spec by apply management_rules. rewrite Hp.
  destruct (caller c) as [p|]; [|done]. unfold role_may.
  by rewrite (management_rule name perm Hp).
Qed.

Definition echo : handler (W := nat) (Req := string) (Resp := string) := fun c req n => (Reply req, S n).
Definition user_md (id role : string) : MD := {[HeaderUserID := [id]; HeaderUserRole := [role]]}.

Lemma management_access_witness :
  management_permissions !! management_method "DeleteServer" = Some PermServerDelete /\
  management_server (management_method "DeleteServer") echo (Ctx None (Some (user_md "7" "USER")) None) "x" 0 =
    (refuse PermissionDenied "forbidden", 0) /\
  management_server (management_method "ViewServers") echo (Ctx None (Some (user_md "7" "USER")) None) "x" 0 = (Reply "x", 1) /\
  management_server (management_method "DeleteServer") echo (Ctx None (Some (user_md "7" "ADMIN")) None) "x" 0 = (Reply "x", 1) /\
  management_server (management_method "DeleteServer") echo (Ctx None (Some (user_md "" "ADMIN")) None) "x" 0 =
    (refuse Unauthenticated "unauthorized", 0).
Proof.
  split_and!; [by vm_compute|by rewrite (management_access "DeleteServer" PermServerDelete) by (by vm_compute)
    |by rewrite (management_access "ViewServers" PermServerRead) by (by vm_compute)
    |by rewrite (management_access "DeleteServer" PermServerDelete) by (by vm_compute)
    |by rewrite (management_access "DeleteServer" PermServerDelete) by (by vm_compute)].
Defined.
