(* ===== verification/Http.v ===== *)
(** What the services use of Go's net/http: headers, cookies, requests and
    responses. *)
From S2P Require Import Prelude GoStd Json.
From Stdlib Require Import Ascii.

(** Header keys are in canonical form; a key may have several values. *)
Abbreviation HttpHeader := (gmap string (list string)).

Definition Header_Values (h : HttpHeader) (k : string) : list string := default [] (h !! k).
Definition Header_Get (h : HttpHeader) (k : string) : string :=
  match Header_Values h k with v :: _ => v | [] => "" end.

Record request := {
  Method : string;
  Header : HttpHeader;
  Query : string -> string;                (* the first value of a parameter, or "" *)
  Body : res string;                       (* reading it may fail *)
}.

(** The header of a response as the handler set it, in order. *)
Record response := { rs_status : Z; rs_header : list (string * string); rs_body : string }.

#[export] Instance response_eq_dec : EqDecision response.
Proof. solve_decision. Defined.

Definition StatusOK : Z := 200.
Definition StatusAccepted : Z := 202.
Definition StatusBadRequest : Z := 400.
Definition StatusUnauthorized : Z := 401.
Definition StatusForbidden : Z := 403.
Definition StatusNotFound : Z := 404.
Definition StatusMethodNotAllowed : Z := 405.
Definition StatusRequestEntityTooLarge : Z := 413.
Definition StatusInternalServerError : Z := 500.

Definition newline : string := String (of_byte 10) "".

(** [http.Error]. *)
Definition http_Error (msg : string) (code : Z) : response := {|
  rs_status := code;
  rs_header := [("Content-Type", "text/plain; charset=utf-8"); ("X-Content-Type-Options", "nosniff")];
  rs_body := msg +:+ newline |}.

(** ** Cookies *)

(** [textproto.TrimString]. *)
Definition ascii_space (c : ascii) : bool := bool_decide (byte_of c ∈ [32; 9; 10; 13]%Z).
Fixpoint trim_front (s : string) : string :=
  match s with
  | String c s' => if ascii_space c then trim_front s' else s
  | "" => ""
  end.
Definition TrimString (s : string) : string := str_rev (trim_front (str_rev (trim_front s))).

(** [strings.Cut (s, "=")]: before and after the first one. *)
Fixpoint cut_equal (s : string) : string * string :=
  match s with
  | "" => ("", "")
  | String c s => if (byte_of c =? 61)%Z then ("", s) else let '(a, b) := cut_equal s in (String c a, b)
  end.

Definition valid_cookie_byte (c : ascii) : bool :=
  in_range 32 126 (byte_of c) && negb (bool_decide (byte_of c ∈ [34; 59; 92]%Z)).
Fixpoint str_forall (p : ascii -> bool) (s : string) : bool :=
  match s with "" => true | String c s => p c && str_forall p s end.
Fixpoint str_filter (p : ascii -> bool) (s : string) : string :=
  match s with "" => "" | String c s => if p c then String c (str_filter p s) else str_filter p s end.

Definition dquoted (s : string) : option string :=
  match s with
  | String q s' =>
    match str_rev s' with
    | String q' r => if (byte_of q =? 34)%Z && (byte_of q' =? 34)%Z then Some (str_rev r) else None
    | "" => None
    end
  | "" => None
  end.

Definition parseCookieValue (raw : string) : option string :=
  let raw := default raw (dquoted raw) in
  if str_forall valid_cookie_byte raw then Some raw else None.

Definition cookie_parts (line : string) : list string := map TrimString (Split line ";").

(** [r.Cookie (name)], for a name that is a token. *)
Definition Cookie (h : HttpHeader) (name : string) : option string :=
  let values := concat (map (fun line => omap (fun part =>
      let '(n, v) := cut_equal part in
      if String.eqb (TrimString n) name then parseCookieValue v else None) (cookie_parts line))
    (Header_Values h "Cookie")) in
  head values.

(** [Cookie.String] of a cookie with path "/" and SameSite=Lax, for a name that
    is a token. *)
Definition cookie_value (v : string) : string :=
  let v := str_filter valid_cookie_byte v in
  if Contains v " " || Contains v "," then String (of_byte 34) (v +:+ String (of_byte 34) "") else v.

Definition set_cookie (name value : string) (maxAge : Z) (httpOnly : bool) : string :=
  name +:+ "=" +:+ cookie_value value +:+ "; Path=/" +:+
  (if (0 <? maxAge)%Z then "; Max-Age=" +:+ Itoa maxAge else if (maxAge <? 0)%Z then "; Max-Age=0" else "") +:+
  (if httpOnly then "; HttpOnly" else "") +:+ "; SameSite=Lax".

Example set_cookie_access : set_cookie "access_token" "a.b" 900 true = "access_token=a.b; Path=/; Max-Age=900; HttpOnly; SameSite=Lax".
Proof. by vm_compute. Qed.
Example Cookie_second : Cookie {["Cookie" := ["a=1; jwt_token=xyz"]]} "jwt_token" = Some "xyz".
Proof. by vm_compute. Qed.

(** ** Splitting at a byte *)
Lemma str_forall_app p s t : str_forall p (s +:+ t) = str_forall p s && str_forall p t.
Proof. induction s as [|c s IH]; [done|]. rewrite str_app_cons. cbn. by rewrite IH, andb_assoc. Qed.

(** A string without the byte [sep]. *)
Definition without (sep : ascii) : string -> Prop := fun s => str_forall (fun c => negb (Ascii.eqb c sep)) s = true.

Lemma Split_last sep s : without sep s -> Split s sep = [s].
Proof.
  unfold without. induction s as [|c s IH]; [done|]. cbn. rewrite andb_true_iff, negb_true_iff.
  intros [-> Hs]. by rewrite IH.
Qed.
Lemma Split_next sep s t : without sep s -> Split (s +:+ String sep t) sep = s :: Split t sep.
Proof.
  unfold without. induction s as [|c s IH].
  - intros _. rewrite str_app_nil_l. cbn [Split]. by rewrite Ascii.eqb_refl.
  - cbn [str_forall]. rewrite andb_true_iff, negb_true_iff, str_app_cons. intros [Hc Hs]. cbn [Split].
    by rewrite Hc, IH.
Qed.
Lemma Split_nonempty sep s : Split s sep <> [].
Proof. destruct s; cbn; by repeat case_match. Qed.
Lemma Split_join sep (l : list string) :
  l <> [] -> Forall (without sep) l -> Split (join (String sep "") l) sep = l.
Proof.
  intros Hne. induction 1 as [|s l Hs Hl IH]; [done|]. destruct l as [|s' l]; [by apply Split_last|].
  change (join _ (s :: s' :: l)) with (s +:+ String sep "" +:+ join (String sep "") (s' :: l)).
  by rewrite str_app_cons, str_app_nil_l, Split_next, IH.
Qed.
Lemma join_Split sep s : join (String sep "") (Split s sep) = s.
Proof.
  induction s as [|c s IH]; [done|]. cbn [Split]. destruct (Ascii.eqb_spec c sep) as [->|].
  - destruct (Split s sep) as [|x l] eqn:E; [by apply Split_nonempty in E|].
    change (join _ ("" :: x :: l)) with ("" +:+ String sep "" +:+ join (String sep "") (x :: l)).
    by rewrite IH, str_app_nil_l, str_app_cons, str_app_nil_l.
  - destruct (Split s sep) as [|x l]; [by cbn in IH; subst|].
    rewrite <- IH. by destruct l.
Qed.

Lemma Split_iff sep s l : l <> [] -> Forall (without sep) l -> Split s sep = l <-> s = join (String sep "") l.
Proof. intros Hne Hl. split; [intros <-; by rewrite join_Split|intros ->; by apply Split_join]. Qed.
Lemma Split_without sep s : Forall (without sep) (Split s sep).
Proof.
  induction s as [|c s IH]; [by repeat constructor|]. cbn [Split]. destruct (Ascii.eqb_spec c sep) as [->|Hne]; [by constructor|].
  destruct IH as [|x l Hx Hl]; (constructor; [|done]); unfold without in *; cbn; rewrite (proj2 (Ascii.eqb_neq _ _) Hne); done.
Qed.
