(* ===== verification/Identity.v ===== *)
(** sms-identity: users, sessions and refresh tokens (domain/), their GORM
    repositories and the Redis store of revoked sessions (repository/impl/),
    the tokens (infrastructure/security/token_manager.go, authenticator.go) and
    the authentication service (service/auth_service.go). *)
From S2P Require Import Prelude GoStd Sql Redis Host Access.

(** ** Domain (domain/) *)
Record User := {
  U_ID : Z; U_Email : string; U_Password : string; U_RoleCode : string;
  U_CreatedAt : Z; U_UpdatedAt : Z; U_DeletedAt : option Z;      (* gorm.Model *)
}.

Record AuthSession := {
  S_ID : string; S_UserID : Z; S_ExpiresAt : Z; S_LastUsedAt : option Z; S_RevokedAt : option Z;
  S_IPAddress : string; S_UserAgent : string; S_CreatedAt : Z; S_UpdatedAt : Z;
}.

Record RefreshToken := {
  T_ID : string; T_SessionID : string; T_UserID : Z; T_TokenHash : string; T_ExpiresAt : Z;
  T_RevokedAt : option Z; T_ReplacedBy : option string; T_CreatedAt : Z; T_UpdatedAt : Z;
}.

#[export] Instance User_eq_dec : EqDecision User.
Proof. solve_decision. Defined.
#[export] Instance AuthSession_eq_dec : EqDecision AuthSession.
Proof. solve_decision. Defined.
#[export] Instance RefreshToken_eq_dec : EqDecision RefreshToken.
Proof. solve_decision. Defined.

(** The zero value of [uuid.UUID]. *)
Definition nil_uuid : string := "00000000-0000-0000-0000-000000000000".

(** ** The tables *)
Record istate := IState { users : list User; sessions : list AuthSession; tokens : list RefreshToken }.

Definition session_ids (x : istate) : list string := map S_ID (sessions x).
Definition token_ids (x : istate) : list string := map T_ID (tokens x).
Definition token_hashes (x : istate) : list string := map T_TokenHash (tokens x).

(** gorm.ErrRecordNotFound, and a violated key or column size. *)
Definition ErrRecordNotFound : err := ErrS "gorm.ErrRecordNotFound".
Definition ErrConstraint : err := ErrS "postgres: constraint violation".

Definition first_row {A} (p : A -> bool) (l : list A) : res A :=
  match List.find p l with Some a => Ok a | None => Err ErrRecordNotFound end.

Definition update_rows {A} (p : A -> bool) (f : A -> A) (l : list A) : list A :=
  map (fun a => if p a then f a else a) l.

(** [ip_address] is a varchar(45). *)
Definition insert_session (s : AuthSession) (x : istate) : res unit * istate :=
  if bool_decide (S_ID s ∉ session_ids x) && (Z.of_nat (String.length (S_IPAddress s)) <=? 45)%Z
  then (Ok tt, IState (users x) (sessions x ++ [s]) (tokens x))
  else (Err ErrConstraint, x).

Definition insert_token (t : RefreshToken) (x : istate) : res unit * istate :=
  if bool_decide (T_ID t ∉ token_ids x) && bool_decide (T_TokenHash t ∉ token_hashes x)
  then (Ok tt, IState (users x) (sessions x) (tokens x ++ [t]))
  else (Err ErrConstraint, x).

Definition update_sessions (p : AuthSession -> bool) (f : AuthSession -> AuthSession) (x : istate)
    : res unit * istate :=
  (Ok tt, IState (users x) (update_rows p f (sessions x)) (tokens x)).

Definition update_tokens (p : RefreshToken -> bool) (f : RefreshToken -> RefreshToken) (x : istate)
    : res unit * istate :=
  (Ok tt, IState (users x) (sessions x) (update_rows p f (tokens x))).

(** A query: [find (p)], or all the rows. *)
Definition query {A} (f : istate -> res A) (x : istate) : res A * istate := (f x, x).

(** The columns [revoked_at] and [updated_at]. *)
Definition revoke_session (t u : Z) (s : AuthSession) : AuthSession := {|
  S_ID := S_ID s; S_UserID := S_UserID s; S_ExpiresAt := S_ExpiresAt s; S_LastUsedAt := S_LastUsedAt s;
  S_RevokedAt := Some t; S_IPAddress := S_IPAddress s; S_UserAgent := S_UserAgent s;
  S_CreatedAt := S_CreatedAt s; S_UpdatedAt := u |}.

Definition revoke_token (t u : Z) (r : RefreshToken) : RefreshToken := {|
  T_ID := T_ID r; T_SessionID := T_SessionID r; T_UserID := T_UserID r; T_TokenHash := T_TokenHash r;
  T_ExpiresAt := T_ExpiresAt r; T_RevokedAt := Some t; T_ReplacedBy := T_ReplacedBy r;
  T_CreatedAt := T_CreatedAt r; T_UpdatedAt := u |}.

Definition replace_token (new : string) (t u : Z) (r : RefreshToken) : RefreshToken := {|
  T_ID := T_ID r; T_SessionID := T_SessionID r; T_UserID := T_UserID r; T_TokenHash := T_TokenHash r;
  T_ExpiresAt := T_ExpiresAt r; T_RevokedAt := Some t; T_ReplacedBy := Some new;
  T_CreatedAt := T_CreatedAt r; T_UpdatedAt := u |}.

Definition unrevoked (o : option Z) : bool := match o with None => true | Some _ => false end.

(** [revoked_at IS NULL AND expires_at > now]. *)
Definition active (now : Z) (s : AuthSession) : bool := unrevoked (S_RevokedAt s) && (now <? S_ExpiresAt s)%Z.

(** ** Repositories (repository/impl/) *)
Section repositories.
Context {W} {srv : Host W} {db : Db W istate}.

(** user_repository_impl.go; a missing user is no error. *)
Definition find_user (p : User -> bool) : proc W (res (option User)) :=
  r <-- exec (query (fun x => first_row (fun u => p u && unrevoked (U_DeletedAt u)) (users x)));
  mret (match r with
        | Ok u => Ok (Some u)
        | Err e => if errors_Is e ErrRecordNotFound then Ok None else Err e
        end).
Definition FindByEmail (email : string) : proc W (res (option User)) :=
  find_user (fun u => String.eqb (U_Email u) email).
Definition FindByID (id : Z) : proc W (res (option User)) := find_user (fun u => (U_ID u =? id)%Z).

(** auth_session_repository_impl.go *)
Definition Session_Create (s : AuthSession) : proc W (res AuthSession) :=
  now <-- time_Now;
  id <-- uuid_New;                          (* gen_random_uuid () *)
  let row := {|
    S_ID := if String.eqb (S_ID s) nil_uuid then id else S_ID s; S_UserID := S_UserID s;
    S_ExpiresAt := S_ExpiresAt s; S_LastUsedAt := S_LastUsedAt s; S_RevokedAt := S_RevokedAt s;
    S_IPAddress := S_IPAddress s; S_UserAgent := S_UserAgent s; S_CreatedAt := now; S_UpdatedAt := now |} in
  _ <-? exec (insert_session row);
  mret (Ok row).

Definition FindActiveByID (id : string) : proc W (res AuthSession) :=
  now <-- time_Now;
  exec (query (fun x => first_row (fun s => String.eqb (S_ID s) id && active now s) (sessions x))).

Definition ListActiveByUserID (userID : Z) : proc W (res (list AuthSession)) :=
  now <-- time_Now;
  exec (query (fun x => Ok (List.filter (fun s => (S_UserID s =? userID)%Z && active now s) (sessions x)))).

(** [Update ("revoked_at", time.Now ())]. *)
Definition revoke_sessions (p : AuthSession -> bool) : proc W (res unit) :=
  t <-- time_Now;
  u <-- time_Now;
  exec (update_sessions p (revoke_session t u)).
Definition Session_RevokeByID (id : string) : proc W (res unit) :=
  revoke_sessions (fun s => String.eqb (S_ID s) id).
Definition RevokeAllByUserID (userID : Z) : proc W (res unit) :=
  revoke_sessions (fun s => (S_UserID s =? userID)%Z && unrevoked (S_RevokedAt s)).

(** refresh_token_repository_impl.go *)
Definition Token_Create (r : RefreshToken) : proc W (res RefreshToken) :=
  now <-- time_Now;
  id <-- uuid_New;                          (* gen_random_uuid () *)
  let row := {|
    T_ID := if String.eqb (T_ID r) nil_uuid then id else T_ID r; T_SessionID := T_SessionID r;
    T_UserID := T_UserID r; T_TokenHash := T_TokenHash r; T_ExpiresAt := T_ExpiresAt r;
    T_RevokedAt := T_RevokedAt r; T_ReplacedBy := T_ReplacedBy r; T_CreatedAt := now; T_UpdatedAt := now |} in
  _ <-? exec (insert_token row);
  mret (Ok row).

Definition FindByTokenHash (tokenHash : string) : proc W (res RefreshToken) :=
  exec (query (fun x => first_row (fun r => String.eqb (T_TokenHash r) tokenHash) (tokens x))).

Definition revoke_tokens (p : RefreshToken -> bool) : proc W (res unit) :=
  t <-- time_Now;
  u <-- time_Now;
  exec (update_tokens p (revoke_token t u)).
Definition Token_RevokeByID (id : string) : proc W (res unit) := revoke_tokens (fun r => String.eqb (T_ID r) id).
Definition RevokeBySessionID (sessionID : string) : proc W (res unit) :=
  revoke_tokens (fun r => String.eqb (T_SessionID r) sessionID && unrevoked (T_RevokedAt r)).
Definition RevokeByUserID (userID : Z) : proc W (res unit) :=
  revoke_tokens (fun r => (T_UserID r =? userID)%Z && unrevoked (T_RevokedAt r)).

Definition MarkReplacement (oldTokenID newTokenID : string) : proc W (res unit) :=
  t <-- time_Now;
  u <-- time_Now;
  exec (update_tokens (fun r => String.eqb (T_ID r) oldTokenID) (replace_token newTokenID t u)).

(** revocation_store_redis.go *)
Definition revoked_key (sessionID : string) : string := "revoked_session:" +:+ sessionID.
Definition MarkRevoked (sessionID : string) (expiresAt : Z) : proc W (res unit) :=
  now <-- time_Now;
  let ttl := RoundSecond (expiresAt - now) in
  if (ttl <=? 0)%Z then mret (Ok tt)
  else rdb (SetEx (revoked_key sessionID) "revoked" ttl).
End repositories.

(** ** Tokens (infrastructure/security/) *)

(** The claims of an access token; those that the issuer leaves out are read
    back as empty strings. *)
Record claims := {
  cl_UserID : string; cl_SessionID : string; cl_Username : string; cl_Email : string;
  cl_RoleID : string; cl_RoleCode : string; cl_exp : Z; cl_iat : Z;
}.

(** Cryptography and the libraries that parse tokens and identifiers. *)
Class Crypto := {
  sha256_hex : string -> string;
  (** bcrypt: does the password match the hash? *)
  CompareHashAndPassword : string -> string -> bool;
  (** HS256 under a secret; reading checks signature, method and expiry. *)
  jwt_sign : string -> claims -> res string;
  jwt_parse : Z -> string -> string -> option claims;
  uuid_Parse : string -> option string;
}.

(** What a JWT library promises. *)
Class CryptoLaws `{cr : Crypto} : Prop := {
  jwt_roundtrip : forall secret c tok now, jwt_sign secret c = Ok tok ->
    jwt_parse now secret tok = if (Unix now <? cl_exp c)%Z then Some c else None;
  jwt_nonempty : forall secret c tok, jwt_sign secret c = Ok tok -> tok <> "";
  uuid_Parse_canonical : forall s u, uuid_Parse s = Some u -> uuid_Parse u = Some u;
}.

Definition ErrInvalidCredentials : err := ErrS "service.ErrInvalidCredentials".
Definition ErrInvalidRefreshToken : err := ErrS "service.ErrInvalidRefreshToken".
Definition ErrUserNotFound : err := ErrS "service.ErrUserNotFound".
Definition ErrUnauthorized : err := ErrS "service.ErrUnauthorized".

Record LoginResult := {
  LR_AccessToken : string; LR_RefreshToken : string; LR_ExpiresIn : Z; LR_User : User;
}.
Record RefreshResult := { RR_AccessToken : string; RR_RefreshToken : string; RR_ExpiresIn : Z }.

Section service.
Context {W} {srv : Host W} {db : Db W istate} `{cr : Crypto} (jwtSecret : string).

(** token_manager.go *)
Definition HashToken (token : string) : string := sha256_hex token.
Definition GenerateRefreshToken : proc W string := uuid_New.
Definition GenerateAccessToken (userID : Z) (roleCode sessionID : string) : proc W (res string) :=
  t1 <-- time_Now;
  t2 <-- time_Now;
  mret (jwt_sign jwtSecret {|
    cl_UserID := Itoa userID; cl_SessionID := sessionID; cl_Username := ""; cl_Email := ""; cl_RoleID := "";
    cl_RoleCode := roleCode; cl_exp := Unix (t1 + 15 * Minute); cl_iat := Unix t2 |}).

(** authenticator.go, with a Redis client *)
Definition ErrInvalidToken : err := ErrS "invalid token".
Definition ErrSessionRevoked : err := ErrS "session is already revoked".

Definition principal_of (c : claims) : Principal := {|
  UserID := cl_UserID c; Username := cl_Username c; Email := cl_Email c; RoleID := cl_RoleID c;
  RoleCode := cl_RoleCode c; SessionID := cl_SessionID c |}.

Definition Authenticate (tokenString : string) : proc W (res Principal) :=
  now <-- time_Now;
  match jwt_parse now jwtSecret tokenString with
  | None => mret (Err ErrInvalidToken)
  | Some c =>
    if negb (String.eqb (cl_SessionID c) "") then
      isRevoked <-- rdb (ExistsKey (revoked_key (cl_SessionID c)));
      match isRevoked with
      | Ok true => mret (Err ErrSessionRevoked)
      | _ => mret (Ok (principal_of c))
      end
    else mret (Ok (principal_of c))
  end.

(** auth_service.go *)
Definition wrap_err {A} (msg : string) (r : res A) : res A :=
  match r with Ok a => Ok a | Err e => Err (ErrWrap msg e) end.

Definition refresh_lifetime : Z := 7 * 24 * Hour.

Definition Login (email password ipAddress userAgent : string) : proc W (res LoginResult) :=
  found <-? (r <-- FindByEmail email; mret (wrap_err "failed to find user" r));
  match found with
  | None => mret (Err ErrInvalidCredentials)
  | Some user =>
    if negb (CompareHashAndPassword (U_Password user) password) then mret (Err ErrInvalidCredentials)
    else
      now <-- time_Now;
      let refreshExpiresAt := (now + refresh_lifetime)%Z in
      rawRefreshToken <-- GenerateRefreshToken;
      session <-? (r <-- Session_Create {|
          S_ID := nil_uuid; S_UserID := U_ID user; S_ExpiresAt := refreshExpiresAt; S_LastUsedAt := Some now;
          S_RevokedAt := None; S_IPAddress := ipAddress; S_UserAgent := userAgent;
          S_CreatedAt := zero_time; S_UpdatedAt := zero_time |};
        mret (wrap_err "failed to create session" r));
      _ <-? (r <-- Token_Create {|
          T_ID := nil_uuid; T_SessionID := S_ID session; T_UserID := U_ID user;
          T_TokenHash := HashToken rawRefreshToken; T_ExpiresAt := refreshExpiresAt; T_RevokedAt := None;
          T_ReplacedBy := None; T_CreatedAt := zero_time; T_UpdatedAt := zero_time |};
        mret (wrap_err "failed to create refresh token" r));
      accessToken <-? (r <-- GenerateAccessToken (U_ID user) (U_RoleCode user) (S_ID session);
                       mret (wrap_err "failed to sign access token" r));
      mret (Ok {| LR_AccessToken := accessToken; LR_RefreshToken := rawRefreshToken;
                  LR_ExpiresIn := 15 * 60; LR_User := user |})
  end.

Definition LogoutAll (userID : Z) : proc W (res unit) :=
  active_sessions <-? ListActiveByUserID userID;
  RevokeAllByUserID userID ;;-
  RevokeByUserID userID ;;-
  for_each (fun session => MarkRevoked (S_ID session) (S_ExpiresAt session)) active_sessions ;;-
  mret (Ok tt).

Definition Logout (sessionIDStr : string) : proc W (res unit) :=
  match uuid_Parse sessionIDStr with
  | None => mret (Err ErrInvalidRefreshToken)
  | Some sessionID =>
    found <-- FindActiveByID sessionID;
    match found with
    | Err _ => mret (Ok tt)
    | Ok session =>
      Session_RevokeByID sessionID ;;-
      RevokeBySessionID sessionID ;;-
      MarkRevoked (S_ID session) (S_ExpiresAt session) ;;-
      mret (Ok tt)
    end
  end.

(** Lines 149-174: the exchange of a token that was found good. *)
Definition rotate (foundToken : RefreshToken) (session : AuthSession) (user : User) : proc W (res RefreshResult) :=
  rawRefreshToken <-- GenerateRefreshToken;
  now <-- time_Now;
  let newRefreshExpiresAt := Z.min (now + refresh_lifetime) (S_ExpiresAt session) in
  Token_RevokeByID (T_ID foundToken) ;;-
  created <-- Token_Create {|
    T_ID := nil_uuid; T_SessionID := S_ID session; T_UserID := U_ID user;
    T_TokenHash := HashToken rawRefreshToken; T_ExpiresAt := newRefreshExpiresAt; T_RevokedAt := None;
    T_ReplacedBy := None; T_CreatedAt := zero_time; T_UpdatedAt := zero_time |};
  MarkReplacement (T_ID foundToken) (match created with Ok t => T_ID t | Err _ => nil_uuid end) ;;-
  accessToken <-? (r <-- GenerateAccessToken (U_ID user) (U_RoleCode user) (S_ID session);
                   mret (wrap_err "failed to generate new access token" r));
  mret (Ok {| RR_AccessToken := accessToken; RR_RefreshToken := rawRefreshToken; RR_ExpiresIn := 15 * 60 |}).

Definition Refresh (refreshToken : string) : proc W (res RefreshResult) :=
  if String.eqb refreshToken "" then mret (Err ErrInvalidRefreshToken)
  else
    found <-- FindByTokenHash (HashToken refreshToken);
    match found with
    | Err _ => mret (Err ErrInvalidRefreshToken)
    | Ok foundToken =>
      if negb (unrevoked (T_RevokedAt foundToken)) then
        (* the token was used before *)
        LogoutAll (T_UserID foundToken) ;;- mret (Err ErrInvalidRefreshToken)
      else
        now <-- time_Now;
        if (T_ExpiresAt foundToken <? now)%Z then mret (Err ErrInvalidRefreshToken)
        else
          session <-- FindActiveByID (T_SessionID foundToken);
          match session with
          | Err _ => mret (Err ErrInvalidRefreshToken)
          | Ok session =>
            user <-- FindByID (S_UserID session);
            match user with
            | Ok (Some user) => rotate foundToken session user
            | _ => mret (Err ErrUserNotFound)
            end
          end
    end.
End service.
