(* ===== verification/IdentitySpec.v ===== *)
(** sms-identity, the theorems: what is revoked stays revoked whatever follows
    and whatever fails, refresh tokens work once, a logout locks the session
    out, and what each handler of the service answers. *)
From S2P Require Import Prelude GoStd Sql Redis Host World Access Identity.

(** ** What no handler undoes *)
Definition session_revoked (x : istate) (sid : string) : Prop :=
  exists s, s ∈ sessions x /\ S_ID s = sid /\ S_RevokedAt s <> None.
Definition token_revoked (x : istate) (hash : string) : Prop :=
  exists t, t ∈ tokens x /\ T_TokenHash t = hash /\ T_RevokedAt t <> None.
(** Every refresh token of the session is revoked. *)
Definition closed (x : istate) (sid : string) : Prop :=
  forall t, t ∈ tokens x -> T_SessionID t = sid -> T_RevokedAt t <> None.

Definition well_keyed (x : istate) : Prop :=
  NoDup (session_ids x) /\ NoDup (token_ids x) /\ NoDup (token_hashes x).

Record kept (x x' : istate) : Prop := {
  kept_keyed : well_keyed x';
  kept_users : users x' = users x;
  kept_session : forall sid, session_revoked x sid -> session_revoked x' sid;
  kept_token : forall h, token_revoked x h -> token_revoked x' h;
  kept_closed : forall sid, session_revoked x sid -> closed x sid -> closed x' sid;
}.

Lemma kept_refl x : well_keyed x -> kept x x.
Proof. by split. Qed.

Lemma kept_trans x y z : kept x y -> kept y z -> kept x z.
Proof. intros [] []. split; try congruence; eauto. Qed.

Section rows.
Context {A : Type} (p : A -> bool) (f : A -> A).

Lemma map_update_rows {B} (g : A -> B) l : (forall a, g (f a) = g a) -> map g (update_rows p f l) = map g l.
Proof.
  intros Hg. unfold update_rows. rewrite map_map. apply map_ext. intros a. by destruct (p a).
Qed.

Lemma elem_of_update_rows b l : b ∈ update_rows p f l <-> exists a, a ∈ l /\ b = if p a then f a else a.
Proof. unfold update_rows. rewrite list_elem_of_fmap. naive_solver. Qed.
End rows.

Lemma NoDup_map_snoc {A B} (g : A -> B) l a :
  NoDup (map g l) -> g a ∉ map g l -> NoDup (map g (l ++ [a])).
Proof.
  intros Hn Ha. rewrite map_app. apply NoDup_app. split; [done|]. split; [|apply NoDup_singleton].
  intros b Hb Hb'. by apply list_elem_of_singleton in Hb' as ->.
Qed.

(** *** Each statement keeps it *)
Lemma kept_insert_session s x x' :
  well_keyed x -> insert_session s x = (Ok tt, x') -> kept x x'.
Proof.
  unfold insert_session. intros (H1 & H2 & H3). destruct (_ && _) eqn:E; [|done]. intros [= <-].
  apply andb_true_iff in E as [E _]. apply bool_decide_eq_true in E.
  split; [split_and!; [by apply NoDup_map_snoc|done..]|done| |done|done].
  intros sid (r & Hr & Hs). exists r. split; [|done]. apply elem_of_app. by left.
Qed.

Lemma kept_insert_token t x0 x x' :
  kept x0 x -> ~ session_revoked x0 (T_SessionID t) -> insert_token t x = (Ok tt, x') -> kept x0 x'.
Proof.
  unfold insert_token. intros [(H1 & H2 & H3) Hu Hses Htok Hcl] Hs. destruct (_ && _) eqn:E; [|done]. intros [= <-].
  apply andb_true_iff in E as [E1 E2]. apply bool_decide_eq_true in E1, E2.
  split; [split_and!; [done|by apply NoDup_map_snoc..]|done|done| |].
  - intros h Hh. destruct (Htok h Hh) as (r & Hr & Ht). exists r. split; [|done]. apply elem_of_app. by left.
  - intros sid Hsid Hc r [Hr|Hr]%elem_of_app Er; [by apply (Hcl sid)|].
    apply list_elem_of_singleton in Hr as ->. by subst sid.
Qed.

Lemma kept_revoke_sessions p t u x : well_keyed x -> kept x (update_sessions p (revoke_session t u) x).2.
Proof.
  intros (H1 & H2 & H3). split; [|done| |done|done].
  - split_and!; [|done..]. unfold session_ids. cbn. by rewrite map_update_rows.
  - intros sid (r & Hr & Hid & Hs). exists (if p r then revoke_session t u r else r).
    split; [apply elem_of_update_rows; by exists r|]. by destruct (p r).
Qed.

Lemma kept_update_tokens p f x :
  (forall r, T_ID (f r) = T_ID r) -> (forall r, T_TokenHash (f r) = T_TokenHash r) ->
  (forall r, T_SessionID (f r) = T_SessionID r) -> (forall r, T_RevokedAt (f r) <> None) ->
  well_keyed x -> kept x (update_tokens p f x).2.
Proof.
  intros F1 F2 F3 F4 (H1 & H2 & H3). split; [|done|done| |].
  - split_and!; [done|unfold token_ids|unfold token_hashes]; cbn; by rewrite map_update_rows.
  - intros h (r & Hr & Hh & Ht). exists (if p r then f r else r).
    split; [apply elem_of_update_rows; by exists r|]. destruct (p r); [by rewrite F2|done].
  - intros sid _ Hc r (r0 & Hr & ->)%elem_of_update_rows Er. destruct (p r0); [apply F4|by apply Hc].
Qed.

Lemma unique_row {A B} (g : A -> B) (l : list A) a b :
  NoDup (map g l) -> a ∈ l -> b ∈ l -> g a = g b -> a = b.
Proof.
  induction l as [|c l IH]; intros Hn Ha Hb E; [by apply elem_of_nil in Ha|].
  cbn in Hn. inversion Hn as [|k m Hnot Hn' Ek]; subst.
  apply elem_of_cons in Ha as [->|Ha]; apply elem_of_cons in Hb as [->|Hb]; auto.
  - destruct Hnot. rewrite E. apply list_elem_of_fmap. eauto.
  - destruct Hnot. rewrite <- E. apply list_elem_of_fmap. eauto.
Qed.

Lemma unrevoked_session x s :
  well_keyed x -> s ∈ sessions x -> S_RevokedAt s = None -> ~ session_revoked x (S_ID s).
Proof.
  intros (Hk & _) Hs Hr (s' & Hs' & E & Hr'). by rewrite (unique_row S_ID _ s' s Hk Hs' Hs E) in Hr'.
Qed.

Lemma first_row_ok {A} (p : A -> bool) l a : first_row p l = Ok a -> a ∈ l /\ p a = true.
Proof.
  unfold first_row. destruct (List.find p l) eqn:E; [|done]. intros [= <-].
  apply List.find_some in E as [Hin Hp]. split; [by apply list_elem_of_In|done].
Qed.

Lemma unrevoked_true o : unrevoked o = true <-> o = None.
Proof. by destruct o. Qed.

(** *** So does every handler

    Other clients may do in between what undoes no revocation. *)
Class KeepsRevoked (R : istate -> istate -> Prop) : Prop :=
  keeps_revoked : forall x x', R x x' -> well_keyed x -> kept x x'.

#[export] Instance nobody_keeps : KeepsRevoked nobody.
Proof. by intros x x' []. Qed.

Lemma others_keep {R} {HR : KeepsRevoked R} x0 x x1 : rtc R x x1 -> kept x0 x -> kept x0 x1.
Proof.
  induction 1 as [|x y z Hxy _ IH]; intros Hx; [done|]. apply IH. eapply kept_trans; [done|].
  apply keeps_revoked; [done|apply Hx].
Qed.

Section later.
Context {W R} {wo : SharedWorld W istate R} {HR : KeepsRevoked R} `{cr : Crypto} (jwtSecret : string).
Context (x0 : istate) (h0 : hview).

(** The marks of the sessions that were revoked stay as they were. *)
Definition marks_kept (r : rstate) : Prop :=
  forall sid, session_revoked x0 sid -> r_str r !! revoked_key sid = r_str (redis h0) !! revoked_key sid.

Definition later (w : W) : Prop :=
  exists x, tables w = DView x None /\ kept x0 x /\ marks_kept (redis (host w)) /\ (clock h0 <= clock (host w))%Z.

Lemma later_now w : later w -> wp time_Now (fun _ w' => later w') w.
Proof.
  intros (x & Hv & Hx & Hm & Hc). apply wp_time_Now. intros t w' Ht Hle Hh. exists x. rewrite Ht, Hh. split_and!; try done. cbn. lia.
Qed.

Lemma later_uuid w : later w -> wp uuid_New (fun _ w' => later w') w.
Proof.
  intros (x & Hv & Hx & Hm & Hc). apply wp_uuid_New. intros t w' Ht Hle Hh. exists x. rewrite Ht, Hh. split_and!; try done. lia.
Qed.

Lemma later_exec {A} (f : istate -> res A * istate) w :
  (forall a x x', kept x0 x -> f x = (Ok a, x') -> kept x0 x') ->
  later w -> wp (exec f) (fun _ w' => later w') w.
Proof.
  intros Hf (x & Hv & Hx & Hm & Hc). apply (wp_sql_shared _ _ _ x); [done| |].
  - intros a w' x1 x' Hx1 E Hv' Hh. apply (others_keep x0) in Hx1; [|done]. exists x'. rewrite Hh. eauto.
  - intros e w' x1 x' Hx1 Hx' Hv' Hh _. apply (others_keep x0) in Hx1; [|done]. exists x'. rewrite Hh.
    destruct Hx' as [->|[a E]]; eauto.
Qed.

Lemma later_revoke_sessions p w : later w -> wp (revoke_sessions p) (fun _ w' => later w') w.
Proof.
  intros Hw. apply wp_bind. eapply wp_mono; [by apply later_now|]. cbn beta. intros t w1 H1.
  apply wp_bind. eapply wp_mono; [by apply later_now|]. cbn beta. intros u w2 H2.
  apply later_exec; [|done]. intros a x x' Hx [= _ <-].
  eapply kept_trans; [done|]. apply (kept_revoke_sessions p t u). apply Hx.
Qed.

Lemma later_update_tokens p (f : Z -> Z -> RefreshToken -> RefreshToken) w :
  (forall t u r, T_ID (f t u r) = T_ID r) -> (forall t u r, T_TokenHash (f t u r) = T_TokenHash r) ->
  (forall t u r, T_SessionID (f t u r) = T_SessionID r) -> (forall t u r, T_RevokedAt (f t u r) <> None) ->
  later w ->
  wp (t <-- time_Now; u <-- time_Now; exec (update_tokens p (f t u))) (fun _ w' => later w') w.
Proof.
  intros F1 F2 F3 F4 Hw. apply wp_bind. eapply wp_mono; [by apply later_now|]. cbn beta. intros t w1 H1.
  apply wp_bind. eapply wp_mono; [by apply later_now|]. cbn beta. intros u w2 H2.
  apply later_exec; [|done]. intros a x x' Hx [= _ <-].
  eapply kept_trans; [done|]. apply (kept_update_tokens p (f t u)); auto. apply Hx.
Qed.

Lemma later_revoke_tokens p w : later w -> wp (revoke_tokens p) (fun _ w' => later w') w.
Proof. by apply later_update_tokens. Qed.

Lemma later_MarkReplacement old new w : later w -> wp (MarkReplacement old new) (fun _ w' => later w') w.
Proof. by apply later_update_tokens. Qed.

Lemma later_Token_Create t w :
  ~ session_revoked x0 (T_SessionID t) -> later w -> wp (Token_Create t) (fun _ w' => later w') w.
Proof.
  intros Ht Hw. apply wp_bind. eapply wp_mono; [by apply later_now|]. cbn beta. intros now w1 H1.
  apply wp_bind. eapply wp_mono; [by apply later_uuid|]. cbn beta. intros id w2 H2.
  apply wp_try. eapply wp_mono; [apply later_exec; [|exact H2]|].
  - intros [] x x' Hx E. eapply kept_insert_token; [exact Hx| |exact E]. exact Ht.
  - cbn beta. intros [u|e] w3 H3; [by apply wp_ret|done].
Qed.

Lemma fresh_session s x x' :
  kept x0 x -> insert_session s x = (Ok tt, x') -> ~ session_revoked x0 (S_ID s).
Proof.
  unfold insert_session. intros Hx. destruct (_ && _) eqn:E; [|done]. intros _ Hs.
  apply andb_true_iff in E as [E _]. apply bool_decide_eq_true in E. apply E.
  apply (kept_session _ _ Hx) in Hs as (r & Hr & <- & _). apply list_elem_of_fmap. eauto.
Qed.

Lemma later_Session_Create s w :
  later w -> wp (Session_Create s) (fun r w' => later w' /\
    forall s', r = Ok s' -> ~ session_revoked x0 (S_ID s')) w.
Proof.
  intros Hw. apply wp_bind. eapply wp_mono; [by apply later_now|]. cbn beta. intros now w1 H1.
  apply wp_bind. eapply wp_mono; [by apply later_uuid|]. cbn beta. intros id w2 (x & Hv & Hx & Hm & Hc).
  apply wp_try. apply (wp_sql_shared _ _ _ x); [done| |].
  - intros [] w' x1 x' Hx1 E Hv' Hh. apply (others_keep x0) in Hx1; [|done]. apply wp_ret.
    split; [|intros s' [= <-]; by eapply fresh_session].
    exists x'. rewrite Hh. split_and!; [done| |done|done]. eapply kept_trans; [done|].
    eapply kept_insert_session; [apply Hx1|done].
  - intros e w' x1 x' Hx1 Hx' Hv' Hh _. apply (others_keep x0) in Hx1; [|done]. split; [|done].
    exists x'. rewrite Hh. split_and!; [done| |done|done].
    destruct Hx' as [->|[[] E]]; [done|]. eapply kept_trans; [done|].
    eapply kept_insert_session; [apply Hx1|done].
Qed.

Lemma revoked_key_inj a b : revoked_key a = revoked_key b -> a = b.
Proof. unfold revoked_key. intros E. by apply (inj _) in E. Qed.

Lemma later_MarkRevoked sid e w :
  ~ session_revoked x0 sid -> later w -> wp (MarkRevoked sid e) (fun _ w' => later w') w.
Proof.
  intros Hs Hw. apply wp_bind. eapply wp_mono; [by apply later_now|]. cbn beta. intros now w1 (x & Hv & Hx & Hm & Hc).
  cbv zeta. case_match; [apply wp_ret; by exists x|].
  assert (forall v r, r = set_str (revoked_key sid) v (redis (host w1)) -> marks_kept r) as Hset.
  { intros v r -> sid' Hs'. cbn. rewrite lookup_insert_ne; [by apply Hm|].
    intros E%revoked_key_inj. by subst. }
  apply wp_redis.
  - intros [] w' t s' Ht Hle Hh Hr. exists x. rewrite Ht, Hh. cbn in Hr |- *. split_and!; eauto; lia.
  - intros er w' t s' Ht Hle Hh [->|[[[] Hr]|[]]] _; exists x; rewrite Ht, Hh; cbn in *; split_and!; eauto; lia.
Qed.

(** A session that was found active was not revoked at the beginning. *)
Lemma active_not_revoked x s now :
  kept x0 x -> s ∈ sessions x -> active now s = true -> ~ session_revoked x0 (S_ID s).
Proof.
  intros Hx Hs Ha Hr. apply andb_true_iff in Ha as [Ha _]. apply unrevoked_true in Ha.
  apply (unrevoked_session x s); [apply Hx|done..|]. by apply Hx.
Qed.

Lemma later_query {A} (f : istate -> res A) (P : A -> Prop) w :
  later w -> (forall x a, kept x0 x -> f x = Ok a -> P a) ->
  wp (exec (query f)) (fun r w' => later w' /\ forall a, r = Ok a -> P a) w.
Proof.
  intros (x & Hv & Hx & Hm & Hc) HP. apply (wp_sql_query_shared _ _ _ x); [done|]. intros r w' x1 Hx1 Hv' Hh Hr.
  apply (others_keep x0) in Hx1; [|done].
  split; [exists x1; by rewrite Hh|]. intros a ->. apply (HP x1); [done|]. symmetry. apply Hr. by left.
Qed.

Lemma later_FindActiveByID id w :
  later w -> wp (FindActiveByID id) (fun r w' => later w' /\
    forall s, r = Ok s -> S_ID s = id /\ ~ session_revoked x0 (S_ID s)) w.
Proof.
  intros Hw. apply wp_bind. eapply wp_mono; [by apply later_now|]. cbn beta. intros now w1 H1.
  apply later_query; [done|]. intros x s Hx Hs. apply first_row_ok in Hs as [Hin Hp].
  apply andb_true_iff in Hp as [Hid Ha]. apply String.eqb_eq in Hid.
  split; [done|by eapply active_not_revoked].
Qed.

Lemma later_ListActive uid w :
  later w -> wp (ListActiveByUserID uid) (fun r w' => later w' /\
    forall l, r = Ok l -> Forall (fun s => ~ session_revoked x0 (S_ID s)) l) w.
Proof.
  intros Hw. apply wp_bind. eapply wp_mono; [by apply later_now|]. cbn beta. intros now w1 H1.
  apply later_query; [done|]. intros x l Hx [= <-]. apply Forall_forall. intros s Hs.
  apply list_elem_of_In, filter_In in Hs as [Hin Hp]. apply list_elem_of_In in Hin.
  apply andb_true_iff in Hp as [_ Ha]. by eapply active_not_revoked.
Qed.

Lemma later_find_user p w : later w -> wp (find_user p) (fun _ w' => later w') w.
Proof.
  intros Hw. apply wp_bind. eapply wp_mono; [apply (later_query _ (fun _ => True)); [exact Hw|done]|].
  cbn beta. intros r w1 [H1 _]. by apply wp_ret.
Qed.

Lemma later_GenerateAccessToken uid role sid w :
  later w -> wp (GenerateAccessToken jwtSecret uid role sid) (fun _ w' => later w') w.
Proof.
  intros Hw. apply wp_bind. eapply wp_mono; [by apply later_now|]. cbn beta. intros t1 w1 H1.
  apply wp_bind. eapply wp_mono; [by apply later_now|]. cbn beta. intros t2 w2 H2. by apply wp_ret.
Qed.

(** Wrapping the error of a statement changes nothing else. *)
Lemma wp_wrap {A} msg (m : proc W (res A)) (Q : res A -> W -> Prop) w :
  wp m (fun r w' => Q (wrap_err msg r) w') w -> wp (r <-- m; mret (wrap_err msg r)) Q w.
Proof. intros Hm. apply wp_bind. eapply wp_mono; [exact Hm|]. cbn beta. intros r w' Hq. by apply wp_ret. Qed.
End later.

(** ** The handlers *)
Section handlers.
Context {W R} {wo : SharedWorld W istate R} {HR : KeepsRevoked R} `{cr : Crypto} (jwtSecret : string).
Context (x0 : istate) (h0 : hview).

Lemma later_Login email password ip agent w :
  later x0 h0 w -> wp (Login jwtSecret email password ip agent) (fun _ w' => later x0 h0 w') w.
Proof.
  intros Hw. apply wp_try, wp_wrap. eapply wp_mono; [by apply later_find_user|]. cbn beta.
  intros [[user|]|e] w1 H1; cbn [wrap_err]; [|by apply wp_ret|done].
  destruct (negb _); [by apply wp_ret|].
  apply wp_bind. eapply wp_mono; [by apply later_now|]. cbn beta. intros now w2 H2.
  apply wp_bind. eapply wp_mono; [by apply later_uuid|]. cbn beta. intros raw w3 H3.
  apply wp_try, wp_wrap. eapply wp_mono; [by apply later_Session_Create|]. cbn beta.
  intros [s|e] w4 [H4 Hs]; cbn [wrap_err]; [|done]. specialize (Hs s eq_refl).
  apply wp_try, wp_wrap. eapply wp_mono; [apply later_Token_Create; [exact Hs|exact H4]|]. cbn beta.
  intros [t|e] w5 H5; cbn [wrap_err]; [|done].
  apply wp_try, wp_wrap. eapply wp_mono; [by apply later_GenerateAccessToken|]. cbn beta.
  intros [tok|e] w6 H6; cbn [wrap_err]; [by apply wp_ret|done].
Qed.

Lemma later_LogoutAll uid w : later x0 h0 w -> wp (LogoutAll uid) (fun _ w' => later x0 h0 w') w.
Proof.
  intros Hw. apply wp_try. eapply wp_mono; [by apply later_ListActive|]. cbn beta.
  intros [l|e] w1 [H1 Hl]; [|done]. specialize (Hl l eq_refl).
  apply wp_bind. eapply wp_mono; [by apply later_revoke_sessions|]. cbn beta. intros _ w2 H2.
  apply wp_bind. eapply wp_mono; [by apply later_revoke_tokens|]. cbn beta. intros _ w3 H3.
  apply wp_bind. eapply wp_mono.
  { apply (wp_for_each _ (fun l w' => later x0 h0 w' /\ Forall (fun s => ~ session_revoked x0 (S_ID s)) l)); [done|].
    intros s l' w' [H' [Hs Hl']%Forall_cons]. eapply wp_mono; [by apply later_MarkRevoked|]. done. }
  cbn beta. intros _ w4 [H4 _]. by apply wp_ret.
Qed.

Lemma later_Logout sid w : later x0 h0 w -> wp (Logout sid) (fun _ w' => later x0 h0 w') w.
Proof.
  intros Hw. unfold Logout. destruct (uuid_Parse sid) as [id|]; [|by apply wp_ret].
  apply wp_bind. eapply wp_mono; [by apply later_FindActiveByID|]. cbn beta.
  intros [s|e] w1 [H1 Hs]; [|by apply wp_ret]. destruct (Hs s eq_refl) as [_ Hr].
  apply wp_bind. eapply wp_mono; [by apply later_revoke_sessions|]. cbn beta. intros _ w2 H2.
  apply wp_bind. eapply wp_mono; [by apply later_revoke_tokens|]. cbn beta. intros _ w3 H3.
  apply wp_bind. eapply wp_mono; [by apply later_MarkRevoked|]. cbn beta. intros _ w4 H4. by apply wp_ret.
Qed.

Lemma later_rotate t s u w :
  ~ session_revoked x0 (S_ID s) -> later x0 h0 w -> wp (rotate jwtSecret t s u) (fun _ w' => later x0 h0 w') w.
Proof.
  intros Hs Hw. apply wp_bind. eapply wp_mono; [by apply later_uuid|]. cbn beta. intros raw w1 H1.
  apply wp_bind. eapply wp_mono; [by apply later_now|]. cbn beta. intros now w2 H2.
  apply wp_bind. eapply wp_mono; [by apply later_revoke_tokens|]. cbn beta. intros _ w3 H3.
  apply wp_bind. eapply wp_mono; [apply later_Token_Create; [exact Hs|exact H3]|]. cbn beta. intros c w4 H4.
  apply wp_bind. eapply wp_mono; [by apply later_MarkReplacement|]. cbn beta. intros _ w5 H5.
  apply wp_try, wp_wrap. eapply wp_mono; [by apply later_GenerateAccessToken|]. cbn beta.
  intros [tok|e] w6 H6; cbn [wrap_err]; [by apply wp_ret|done].
Qed.

Lemma later_Refresh rt w :
  later x0 h0 w ->
  wp (Refresh jwtSecret rt) (fun r w' => later x0 h0 w' /\ (token_revoked x0 (HashToken rt) -> is_ok r = false)) w.
Proof.
  intros Hw. unfold Refresh. destruct (String.eqb rt ""); [by apply wp_ret|].
  apply wp_bind. eapply wp_mono.
  { apply (later_query x0 h0 _ (fun t => token_revoked x0 (HashToken rt) -> T_RevokedAt t <> None)); [exact Hw|].
    intros x t Hx Ht Hrev. apply first_row_ok in Ht as [Hin Hh]. apply String.eqb_eq in Hh.
    apply (kept_token _ _ Hx) in Hrev as (t' & Ht' & Hh' & Hr'). destruct (kept_keyed _ _ Hx) as (_ & _ & Hk).
    by rewrite (unique_row T_TokenHash _ t t' Hk Hin Ht') by congruence. }
  cbn beta. intros [t|e] w1 [H1 Ht]; [|by apply wp_ret]. specialize (Ht t eq_refl).
  destruct (T_RevokedAt t) as [at_|]; cbn [unrevoked negb].
  { apply wp_bind. eapply wp_mono; [by apply later_LogoutAll|]. cbn beta. intros _ w2 H2. by apply wp_ret. }
  apply wp_bind. eapply wp_mono; [by apply later_now|]. cbn beta. intros now w2 H2.
  destruct (_ <? now)%Z; [by apply wp_ret|].
  apply wp_bind. eapply wp_mono; [by apply later_FindActiveByID|]. cbn beta.
  intros [s|e] w3 [H3 Hs]; [|by apply wp_ret]. destruct (Hs s eq_refl) as [_ Hsr].
  apply wp_bind. eapply wp_mono; [by apply later_find_user|]. cbn beta.
  intros [[u|]|e] w4 H4; [|by apply wp_ret..].
  eapply wp_mono; [by apply later_rotate|]. cbn beta. intros r w5 H5. split; [done|]. intros Hr. by destruct (Ht Hr).
Qed.
End handlers.

(** ** Any operations *)
Inductive op :=
  | OpLogin (email password ip agent : string)
  | OpRefresh (refreshToken : string)
  | OpLogout (sessionID : string)
  | OpLogoutAll (userID : Z).

Definition run_op {W R} {wo : SharedWorld W istate R} `{cr : Crypto} (jwtSecret : string) (o : op) : proc W unit :=
  match o with
  | OpLogin e p i a => Login jwtSecret e p i a ;;- mret tt
  | OpRefresh t => Refresh jwtSecret t ;;- mret tt
  | OpLogout s => Logout s ;;- mret tt
  | OpLogoutAll u => LogoutAll u ;;- mret tt
  end.

Section operations.
Context {W R} {wo : SharedWorld W istate R} {HR : KeepsRevoked R} `{cr : Crypto} (jwtSecret : string) (x0 : istate) (h0 : hview).

Lemma wp_ignore {A} (m : proc W A) (Q : W -> Prop) w :
  wp m (fun _ w' => Q w') w -> wp (m ;;- mret tt) (fun _ w' => Q w') w.
Proof. intros Hm. apply wp_bind. eapply wp_mono; [exact Hm|]. cbn beta. intros r w' Hq. by apply wp_ret. Qed.

Lemma later_op o w : later x0 h0 w -> wp (run_op jwtSecret o) (fun _ w' => later x0 h0 w') w.
Proof.
  intros Hw. destruct o; apply wp_ignore; [by apply later_Login| |by apply later_Logout|by apply later_LogoutAll].
  eapply wp_mono; [by apply later_Refresh|]. by intros r w' [H1 _].
Qed.

Lemma later_ops l w : later x0 h0 w -> wp (for_each (run_op jwtSecret) l) (fun _ w' => later x0 h0 w') w.
Proof.
  intros Hw. apply (wp_for_each _ (fun _ w' => later x0 h0 w')); [done|]. intros o l' w' H'. by apply later_op.
Qed.
End operations.

Lemma later_start {W R} {wo : SharedWorld W istate R} (w : W) x :
  tables w = DView x None -> well_keyed x -> later x (host w) w.
Proof. intros Hv Hk. exists x. split_and!; [done|by apply kept_refl|done|lia]. Qed.

(** C6: a refresh token that is revoked is never exchanged again: not at
    once, not after any sequence of logins, refreshes and logouts of anybody,
    whatever requests to the database and to Redis fail meanwhile, and while
    other clients of the database do anything that undoes no revocation; keys
    stay unique and no other revocation is undone either. *)
Theorem revoked_for_good {W R} {wo : SharedWorld W istate R} {HR : KeepsRevoked R} `{cr : Crypto} (jwtSecret : string)
    (l : list op) (rt : string) (w : W) (x : istate) :
  tables w = DView x None -> well_keyed x -> token_revoked x (HashToken rt) ->
  wp (for_each (run_op jwtSecret) l ;;- Refresh jwtSecret rt) (fun r w' =>
    is_ok r = false /\ exists x', tables w' = DView x' None /\ kept x x') w.
Proof.
  intros Hv Hk Hr. apply wp_bind. eapply wp_mono; [by apply later_ops, later_start|]. cbn beta. intros _ w1 H1.
  eapply wp_mono; [by apply later_Refresh|]. cbn beta. intros r w2 [(x2 & Hv2 & Hx2 & _) Hok].
  split; [by apply Hok|]. by exists x2.
Qed.

(** ** When every request is answered *)

(** The mark that keeps access tokens of session [sid] out lasts until half a
    second before [e], or that time has come. *)
Definition cut_off (h : hview) (sid : string) (e : Z) : Prop :=
  (e - Second / 2 <= clock h)%Z \/
  exists d, r_str (redis h) !! revoked_key sid = Some ("revoked", d) /\ (e - Second / 2 <= d)%Z.

Lemma RoundSecond_lower d : (d - Second / 2 <= RoundSecond d)%Z.
Proof.
  unfold RoundSecond, Second. change (1000000000 / 2)%Z with 500000000%Z.
  destruct (Z.ltb_spec d 0); Z.to_euclidean_division_equations; lia.
Qed.

(** Statements that only take time. *)
Definition quiet {W R} {wo : SharedWorld W istate R} (w w' : W) : Prop :=
  redis (host w') = redis (host w) /\ (clock (host w) <= clock (host w'))%Z.

Lemma quiet_refl {W R} {wo : SharedWorld W istate R} (w : W) : quiet w w.
Proof. split; [done|lia]. Qed.
Lemma quiet_trans {W R} {wo : SharedWorld W istate R} (a b c : W) : quiet a b -> quiet b c -> quiet a c.
Proof. intros [H1 H2] [H3 H4]. split; [congruence|lia]. Qed.

Section quiet.
Context {W R} {wo : SharedWorld W istate R}.

Lemma quiet_now (w : W) x :
  tables w = DView x None -> wp time_Now (fun t w' => tables w' = DView x None /\ quiet w w' /\
    (clock (host w) <= t)%Z /\ clock (host w') = t) w.
Proof.
  intros Hv. apply wp_time_Now. intros t w' Ht Hle Hh. rewrite Ht. unfold quiet. rewrite Hh. done.
Qed.

Lemma quiet_uuid (w : W) x :
  tables w = DView x None -> wp uuid_New (fun _ w' => tables w' = DView x None /\ quiet w w') w.
Proof. intros Hv. apply wp_uuid_New. intros t w' Ht Hle Hh. by rewrite Ht. Qed.

Lemma quiet_find_user_shared p (w : W) x :
  tables w = DView x None ->
  wp (find_user p) (fun r w' => exists x1, rtc R x x1 /\ tables w' = DView x1 None /\ quiet w w' /\
    ((exists u, r = Ok (Some u)) \/ Answers wo ->
     r = Ok (List.find (fun u => p u && unrevoked (U_DeletedAt u)) (users x1)))) w.
Proof.
  intros Hv. apply wp_bind. eapply wp_mono; [apply (wp_sql_query_shared _ (fun r w' => exists x1, rtc R x x1 /\
    tables w' = DView x1 None /\ quiet w w' /\ (is_ok r = true \/ Answers wo ->
      r = first_row (fun u => p u && unrevoked (U_DeletedAt u)) (users x1))) _ x Hv)|].
  { intros r w' x1 Hx Hv' Hh Hr. exists x1. unfold quiet. rewrite Hh. done. }
  cbn beta. intros r w1 (x1 & Hx & H1 & Q1 & Hr).
  apply wp_ret. exists x1. split_and!; [done..|]. unfold first_row in Hr. intros Hok.
  destruct r as [u|e].
  - specialize (Hr (or_introl eq_refl)). by destruct (List.find _ _); simplify_eq.
  - destruct Hok as [[u Hu]|Hans]; [by destruct (errors_Is e ErrRecordNotFound)|].
    specialize (Hr (or_intror Hans)). by destruct (List.find _ _); simplify_eq.
Qed.
End quiet.

Section calm.
Context {W} {wo : World W istate} `{cr : Crypto} (jwtSecret : string).

Lemma quiet_query {A} (f : istate -> res A) (w : W) x :
  tables w = DView x None ->
  wp (exec (query f)) (fun r w' => tables w' = DView x None /\ quiet w w' /\
    (is_ok r = true \/ Answers wo -> r = f x)) w.
Proof.
  intros Hv. apply (wp_sql_query _ _ _ x); [done|]. intros r w' Hv' Hh Hr. unfold quiet. rewrite Hh.
  split_and!; try done.
Qed.

(** The sessions found active: the clock of the query lies between. *)
Lemma quiet_FindActive id (w : W) x :
  tables w = DView x None ->
  wp (FindActiveByID id) (fun r w' => tables w' = DView x None /\ quiet w w' /\
    exists now, (clock (host w) <= now <= clock (host w'))%Z /\
      (is_ok r = true \/ Answers wo ->
       r = first_row (fun s => String.eqb (S_ID s) id && active now s) (sessions x))) w.
Proof.
  intros Hv. apply wp_bind. eapply wp_mono; [by apply quiet_now|]. cbn beta. intros now w1 (H1 & Q1 & Hle & Hc).
  eapply wp_mono; [by apply quiet_query|]. cbn beta. intros r w2 (H2 & Q2 & Hr).
  split; [done|]. split; [by eapply quiet_trans|]. exists now. split; [|done].
  destruct Q1, Q2. lia.
Qed.

Lemma quiet_find_user p (w : W) x :
  tables w = DView x None ->
  wp (find_user p) (fun r w' => tables w' = DView x None /\ quiet w w' /\
    ((exists u, r = Ok (Some u)) \/ Answers wo ->
     r = Ok (List.find (fun u => p u && unrevoked (U_DeletedAt u)) (users x)))) w.
Proof.
  intros Hv. eapply wp_mono; [by apply quiet_find_user_shared|]. cbn beta.
  by intros r w' (x1 & ->%rtc_nobody & H).
Qed.

Context {Hans : Answers wo}.

Lemma calm_update (f : Z -> Z -> istate -> res unit * istate) (w : W) x :
  (forall t u y, (f t u y).1 = Ok tt) -> tables w = DView x None ->
  wp (t <-- time_Now; u <-- time_Now; exec (f t u)) (fun _ w' => exists t u,
    tables w' = DView (f t u x).2 None /\ quiet w w') w.
Proof.
  intros Hf Hv. apply wp_bind. eapply wp_mono; [by apply quiet_now|]. cbn beta. intros t w1 (H1 & Q1 & _).
  apply wp_bind. eapply wp_mono; [by apply quiet_now|]. cbn beta. intros u w2 (H2 & Q2 & _).
  assert (forall w', host w' = host w2 -> quiet w w') as Hq.
  { intros w' Hh. eapply quiet_trans; [done|]. eapply quiet_trans; [done|]. unfold quiet. rewrite Hh. split; [done|lia]. }
  specialize (Hf t u x). apply (wp_sql _ _ _ x); [done| |].
  - intros [] w' x' E Hv' Hh. exists t, u. rewrite E. auto.
  - intros e w' x' _ Hv' Hh Ha. destruct (Ha Hans) as [-> E]. rewrite E in Hf. done.
Qed.

Lemma calm_MarkRevoked sid e (w : W) x :
  tables w = DView x None ->
  wp (MarkRevoked sid e) (fun _ w' => tables w' = DView x None /\ (clock (host w) <= clock (host w'))%Z /\
    cut_off (host w') sid e /\
    forall sid' e', sid' <> sid -> cut_off (host w) sid' e' -> cut_off (host w') sid' e') w.
Proof.
  intros Hv. apply wp_bind. eapply wp_mono; [by apply quiet_now|]. cbn beta. intros now w1 (H1 & [Q1 Q1'] & Hle & Hc).
  pose proof (RoundSecond_lower (e - now)) as Hround. cbv zeta. case_match eqn:E.
  - apply Z.leb_le in E. apply wp_ret. split_and!; [done|done| |].
    + left. lia.
    + intros sid' e' _ [Hold|Hold]; [left; lia|right; by rewrite Q1].
  - apply wp_redis; [|intros er w' t s' _ _ _ _ []; done].
    intros [] w' t s' Ht Hle' Hh Hr. rewrite Ht, Hh. cbn in Hr. subst s'. cbn [clock redis].
    split_and!; [done|lia| |].
    + right. eexists. cbn. rewrite lookup_insert_eq. split; [done|]. lia.
    + intros sid' e' Hne [Hold|(d & Hd & Hle2)]; [left; cbn; lia|right; exists d].
      cbn. rewrite lookup_insert_ne by (by intros ?%revoked_key_inj). by rewrite Q1.
Qed.

(** The refresh tokens of the session. *)
Definition token_of (x : istate) (sid hash : string) : Prop :=
  exists t, t ∈ tokens x /\ T_TokenHash t = hash /\ T_SessionID t = sid.

(** Session [s] is locked out. *)
Definition locked_out (x : istate) (s : AuthSession) (x' : istate) (h : hview) : Prop :=
  kept x x' /\ session_revoked x' (S_ID s) /\
  (forall hash, token_of x (S_ID s) hash -> token_revoked x' hash) /\ cut_off h (S_ID s) (S_ExpiresAt s).

Lemma revoke_that_token p t u x r :
  r ∈ tokens x -> (T_RevokedAt r = None -> p r = true) ->
  token_revoked (update_tokens p (revoke_token t u) x).2 (T_TokenHash r).
Proof.
  intros Hr Hp. exists (if p r then revoke_token t u r else r).
  split; [apply elem_of_update_rows; by exists r|].
  destruct (T_RevokedAt r) as [a|] eqn:E; [by destruct (p r); cbn; rewrite ?E|]. by rewrite (Hp eq_refl).
Qed.

Lemma revoke_that_session p t u x s :
  s ∈ sessions x -> p s = true -> session_revoked (update_sessions p (revoke_session t u) x).2 (S_ID s).
Proof.
  intros Hs Hp. exists (revoke_session t u s). split; [|done]. apply elem_of_update_rows. exists s. by rewrite Hp.
Qed.

Lemma find_that_session x s now :
  well_keyed x -> s ∈ sessions x -> active now s = true ->
  first_row (fun r => String.eqb (S_ID r) (S_ID s) && active now r) (sessions x) = Ok s.
Proof.
  intros (Hk & _) Hs Ha. unfold first_row. destruct (List.find _ _) as [r|] eqn:E.
  - apply List.find_some in E as [Hr Hp]. apply list_elem_of_In in Hr. apply andb_true_iff in Hp as [Hp _].
    apply String.eqb_eq in Hp. by rewrite (unique_row S_ID _ r s Hk Hr Hs Hp).
  - apply list_elem_of_In in Hs. pose proof (List.find_none _ _ E s Hs) as Hf. cbn beta in Hf.
    by rewrite String.eqb_refl, Ha in Hf.
Qed.

Lemma Logout_calm sid s (w : W) x :
  tables w = DView x None -> well_keyed x -> uuid_Parse sid = Some (S_ID s) ->
  s ∈ sessions x -> S_RevokedAt s = None ->
  wp (Logout sid) (fun r w' => r = Ok tt /\ ((clock (host w') < S_ExpiresAt s)%Z ->
    exists x', tables w' = DView x' None /\ locked_out x s x' (host w'))) w.
Proof.
  intros Hv Hk Hid Hs Hrev. unfold Logout. rewrite Hid.
  apply wp_bind. eapply wp_mono; [by apply quiet_FindActive|]. cbn beta.
  intros r w1 (H1 & Q1 & now & Hnow & Hr). specialize (Hr (or_intror Hans)).
  destruct (active now s) eqn:Ha.
  2:{ assert (S_ExpiresAt s <= now)%Z as Hexp.
      { unfold active in Ha. rewrite Hrev in Ha. cbn in Ha. by apply Z.ltb_ge in Ha. }
      destruct r as [s'|e].
      - symmetry in Hr. apply first_row_ok in Hr as [Hs' Hp]. apply andb_true_iff in Hp as [Hp Hp'].
        apply String.eqb_eq in Hp. destruct Hk as (Hk & _).
        rewrite (unique_row S_ID _ s' s Hk Hs' Hs Hp) in Hp'. congruence.
      - apply wp_ret. split; [done|]. lia. }
  rewrite (find_that_session x s now Hk Hs Ha) in Hr. subst r.
  apply wp_bind. eapply wp_mono; [by apply (calm_update (fun t u => update_sessions _ (revoke_session t u)) _ x)|].
  cbn beta. intros _ w2 (t & u & H2 & Q2). set (x2 := (update_sessions _ _ x).2) in H2.
  apply wp_bind. eapply wp_mono; [by apply (calm_update (fun t u => update_tokens _ (revoke_token t u)) _ x2)|].
  cbn beta. intros _ w3 (t' & u' & H3 & Q3). set (x3 := (update_tokens _ _ x2).2) in H3.
  apply wp_bind. eapply wp_mono; [by apply calm_MarkRevoked|]. cbn beta. intros _ w4 (H4 & Hc4 & Hcut & _).
  apply wp_ret. split; [done|]. intros _. exists x3. split; [by rewrite H4|].
  assert (kept x x2) as K2 by (by apply kept_revoke_sessions).
  assert (kept x2 x3) as K3 by (apply kept_update_tokens; [done..|apply K2]).
  split_and!; [by eapply kept_trans| | |done].
  - apply (kept_session _ _ K3). apply revoke_that_session; [done|apply String.eqb_refl].
  - intros hash (r & Hr & <- & Hsr). apply (revoke_that_token _ _ _ x2); [exact Hr|].
    intros Hun. by rewrite Hsr, String.eqb_refl, Hun.
Qed.

(** An access token of a session that was cut off is not accepted. *)
Lemma Authenticate_later tok sid e x h (w : W) :
  later x h w -> session_revoked x sid -> cut_off h sid e -> sid <> "" ->
  (forall now c, jwt_parse now jwtSecret tok = Some c -> cl_SessionID c = sid) ->
  wp (Authenticate jwtSecret tok) (fun r w' => later x h w' /\
    ((clock (host w') < e - Second / 2)%Z -> is_ok r = false)) w.
Proof.
  intros Hw Hs Hcut Hsid Hc. apply wp_bind. eapply wp_mono; [by apply later_now|]. cbn beta.
  intros now w1 (y & Hv & Hy & Hm & Hck). assert (later x h w1) as H1 by (by exists y).
  destruct (jwt_parse now jwtSecret tok) as [c|] eqn:Ec; [|by apply wp_ret].
  rewrite (Hc _ _ Ec), (proj2 (String.eqb_neq _ _) Hsid). cbn [negb].
  apply wp_bind, wp_redis; [|intros er w' t s' _ _ _ _ []; done].
  intros a w' t s' Ht Hle Hh [-> ->]. assert (later x h w') as H2.
  { exists y. rewrite Ht, Hh. split_and!; [done..|cbn; lia]. }
  rewrite (Hm sid Hs). destruct (live t _) eqn:El; apply wp_ret; (split; [done|]); [done|].
  rewrite Hh. cbn. intros Hlt. destruct Hcut as [Hcut|(d & Hd & Hcut)]; [lia|].
  rewrite Hd in El. cbn in El. apply Z.ltb_ge in El. lia.
Qed.
End calm.

(** Time does not go back in what keeps revocations. *)
Lemma later_clock {W} {wo : World W istate} {A} (m : proc W A) :
  (forall x h w, later x h w -> wp m (fun _ w' => later x h w') w) ->
  forall x h w, later x h w -> wp m (fun _ w' => later x h w' /\ (clock (host w) <= clock (host w'))%Z) w.
Proof.
  intros Hm x h w Hw. apply wp_and; [by apply Hm|]. destruct Hw as (y & Hv & Hy & _).
  eapply wp_mono; [apply (Hm y (host w) w), later_start; [done|apply Hy]|]. cbn beta.
  by intros _ w' (z & _ & _ & _ & Hc).
Qed.

Lemma later_Authenticate {W} {wo : World W istate} `{cr : Crypto} jwtSecret tok x h (w : W) :
  later x h w -> wp (Authenticate jwtSecret tok) (fun _ w' => later x h w') w.
Proof.
  intros Hw. apply wp_bind. eapply wp_mono; [by apply later_now|]. cbn beta.
  intros now w1 H1. destruct (jwt_parse now jwtSecret tok) as [c|] eqn:Ec; [|by apply wp_ret].
  destruct (negb _); [|by apply wp_ret]. destruct H1 as (y & Hv & Hy & Hm & Hck). apply wp_bind, wp_redis.
  - intros a w' t s' Ht Hle Hh [_ ->].
    assert (later x h w') by (exists y; rewrite Ht, Hh; split_and!; [done..|cbn; lia]). destruct a; by apply wp_ret.
  - intros er w' t s' Ht Hle Hh Hf _. apply wp_ret. exists y. rewrite Ht, Hh. split_and!; [done..| |cbn; lia].
    destruct Hf as [->|[(b & Hb & ->)|[]]]; done.
Qed.

(** C15: a logout is final.  When every request is answered: after the session
    is logged out, and after any logins, refreshes and logouts of anybody that
    follow, no access token of the session is accepted and no refresh token of
    the session is exchanged, until half a second before the session would have
    ended by itself. *)
Theorem logout_is_final {W} {wo : World W istate} {Hans : Answers wo} `{cr : Crypto} (jwtSecret : string)
    (sid accessToken refreshToken : string) (s : AuthSession) (l : list op) (w : W) (x : istate) :
  tables w = DView x None -> well_keyed x ->
  uuid_Parse sid = Some (S_ID s) -> S_ID s <> "" -> s ∈ sessions x -> S_RevokedAt s = None ->
  (forall now c, jwt_parse now jwtSecret accessToken = Some c -> cl_SessionID c = S_ID s) ->
  token_of x (S_ID s) (HashToken refreshToken) ->
  wp (Logout sid ;;- for_each (run_op jwtSecret) l ;;-
      a <-- Authenticate jwtSecret accessToken;
      r <-- Refresh jwtSecret refreshToken;
      mret (is_ok a, is_ok r)) (fun accepted w' =>
    (clock (host w') < S_ExpiresAt s - Second / 2)%Z -> accepted = (false, false)) w.
Proof.
  intros Hv Hk Hid Hne Hs Hrev Htok Href.
  apply wp_bind. eapply wp_mono; [apply wp_and; [by apply Logout_calm|by apply later_Logout, later_start]|].
  cbn beta. intros r1 w1 [[_ H1] L1].
  assert (forall x1 h1, later x1 h1 w1 ->
    ((clock (host w1) < S_ExpiresAt s)%Z -> session_revoked x1 (S_ID s) /\ token_revoked x1 (HashToken refreshToken) /\
       cut_off h1 (S_ID s) (S_ExpiresAt s)) ->
    wp (for_each (run_op jwtSecret) l ;;- a <-- Authenticate jwtSecret accessToken;
        r <-- Refresh jwtSecret refreshToken; mret (is_ok a, is_ok r)) (fun accepted w' =>
      (clock (host w') < S_ExpiresAt s - Second / 2)%Z -> accepted = (false, false)) w1) as Hrest.
  { clear L1 H1. intros x1 h1 L1 Hlock.
    apply wp_bind. eapply wp_mono; [apply later_clock; [|exact L1]; intros; by apply later_ops|].
    cbn beta. intros _ w2 [L2 C2]. apply wp_bind. eapply wp_mono; [apply wp_and|].
    - apply later_clock; [|exact L2]. intros. by apply later_Authenticate.
    - apply wp_under with (P := (clock (host w1) < S_ExpiresAt s)%Z). intros Hlt. destruct (Hlock Hlt) as (Hl1 & _ & Hl3).
      by apply (Authenticate_later jwtSecret accessToken (S_ID s) (S_ExpiresAt s) x1 h1).
    - cbn beta. intros a w3 [[L3 C3] Ha]. apply wp_bind. eapply wp_mono; [apply wp_and|].
      + apply (later_clock (Refresh jwtSecret refreshToken)) with (x := x1) (h := h1); [|exact L3].
        intros. eapply wp_mono; [by apply later_Refresh|]. by intros ? ? [].
      + apply (later_Refresh jwtSecret x1 h1 refreshToken w3 L3).
      + cbn beta. intros r w4 [[L4 C4] [_ Hr]]. apply wp_ret. intros Hlt.
        assert (clock (host w1) < S_ExpiresAt s)%Z as Hlt1 by (change (Second / 2)%Z with 500000000%Z in Hlt; lia).
        destruct (Hlock Hlt1) as (_ & Hl2 & _). destruct (Ha Hlt1) as [_ Ha'].
        rewrite Ha' by lia. by rewrite (Hr Hl2). }
  destruct (decide (clock (host w1) < S_ExpiresAt s)%Z) as [Hlt|Hge].
  - destruct (H1 Hlt) as (x1 & Hv1 & Hk1 & Hs1 & Ht1 & Hcut).
    apply (Hrest x1 (host w1)); [apply later_start; [done|apply Hk1]|]. intros _. auto.
  - apply (Hrest x (host w)); [done|]. intros Hlt. by destruct Hge.
Qed.

(** ** Exchanging a refresh token *)

(** A new row for session [s] and user [u], which ends no later than the
    session. *)
Definition fresh_token (s : AuthSession) (u : User) (refreshToken : string) `{cr : Crypto} (n : RefreshToken) : Prop :=
  T_TokenHash n = HashToken refreshToken /\ T_SessionID n = S_ID s /\ T_UserID n = U_ID u /\
  T_RevokedAt n = None /\ (T_ExpiresAt n <= S_ExpiresAt s)%Z.

(** The old token is revoked, and points to the new one when that could be
    stored: its identifier and its hash must not be taken. *)
Definition exchanged `{cr : Crypto} (t : RefreshToken) (s : AuthSession) (u : User) (refreshToken : string)
    (x x' : istate) : Prop :=
  exists o, o ∈ tokens x' /\ T_TokenHash o = T_TokenHash t /\ T_RevokedAt o <> None /\
    ((exists n, n ∈ tokens x' /\ fresh_token s u refreshToken n /\ T_ReplacedBy o = Some (T_ID n)) \/
     T_ReplacedBy o = Some nil_uuid /\
     exists r, T_TokenHash r = HashToken refreshToken /\ (T_ID r ∈ token_ids x \/ T_TokenHash r ∈ token_hashes x)).

Section exchange.
Context {W} {wo : World W istate} {Hans : Answers wo} `{cr : Crypto} (jwtSecret : string).

Lemma calm_Token_Create t (w : W) x :
  tables w = DView x None ->
  wp (Token_Create t) (fun r w' => exists x' row, tables w' = DView x' None /\ quiet w w' /\
    T_SessionID row = T_SessionID t /\ T_UserID row = T_UserID t /\ T_TokenHash row = T_TokenHash t /\
    T_ExpiresAt row = T_ExpiresAt t /\ T_RevokedAt row = T_RevokedAt t /\
    match r with
    | Ok row' => row' = row /\ insert_token row x = (Ok tt, x')
    | Err _ => x' = x /\ (T_ID row ∈ token_ids x \/ T_TokenHash row ∈ token_hashes x)
    end) w.
Proof.
  intros Hv. apply wp_bind. eapply wp_mono; [by apply quiet_now|]. cbn beta. intros now w1 (H1 & Q1 & _).
  apply wp_bind. eapply wp_mono; [by apply quiet_uuid|]. cbn beta. intros id w2 (H2 & Q2).
  assert (forall w', host w' = host w2 -> quiet w w') as Hq.
  { intros w' Hh. eapply quiet_trans; [done|]. eapply quiet_trans; [done|]. unfold quiet. rewrite Hh. split; [done|lia]. }
  apply wp_try. apply (wp_sql _ _ _ x); [done| |].
  - intros [] w' x' E Hv' Hh. apply wp_ret.
    match type of E with insert_token ?r _ = _ => exists x', r end. split_and!; try done. by apply Hq.
  - intros e w' x' _ Hv' Hh Ha. destruct (Ha Hans) as [-> E].
    match type of E with insert_token ?r _ = _ => exists x, r end. split_and!; try done; [by apply Hq|].
    unfold insert_token in E. destruct (_ && _) eqn:Eb; [done|].
    apply andb_false_iff in Eb as [Eb|Eb]; apply bool_decide_eq_false in Eb; [left|right]; exact (dec_stable Eb).
Qed.

Lemma calm_GenerateAccessToken uid role sid (w : W) x :
  tables w = DView x None ->
  wp (GenerateAccessToken jwtSecret uid role sid) (fun _ w' => tables w' = DView x None /\ quiet w w') w.
Proof.
  intros Hv. apply wp_bind. eapply wp_mono; [by apply quiet_now|]. cbn beta. intros t1 w1 (H1 & Q1 & _).
  apply wp_bind. eapply wp_mono; [by apply quiet_now|]. cbn beta. intros t2 w2 (H2 & Q2 & _).
  apply wp_ret. split; [done|by eapply quiet_trans].
Qed.

Lemma rotate_calm t s u (w : W) x :
  tables w = DView x None -> well_keyed x -> t ∈ tokens x ->
  wp (rotate jwtSecret t s u) (fun r w' => exists x', tables w' = DView x' None /\ token_revoked x' (T_TokenHash t) /\
    forall a, r = Ok a -> exchanged t s u (RR_RefreshToken a) x x') w.
Proof.
  intros Hv Hk Ht.
  apply wp_bind. eapply wp_mono; [by apply quiet_uuid|]. cbn beta. intros raw w1 (H1 & _).
  apply wp_bind. eapply wp_mono; [by apply quiet_now|]. cbn beta. intros now w2 (H2 & _).
  apply wp_bind. eapply wp_mono; [by apply (calm_update (fun t' u' => update_tokens _ (revoke_token t' u')) _ x)|].
  cbn beta. intros _ w3 (t1 & u1 & H3 & _). set (x1 := (update_tokens _ _ x).2) in H3.
  assert (token_ids x1 = token_ids x /\ token_hashes x1 = token_hashes x) as [Eids Ehash].
  { split; [unfold token_ids|unfold token_hashes]; cbn; by rewrite map_update_rows. }
  assert (revoke_token t1 u1 t ∈ tokens x1) as Ho.
  { apply elem_of_update_rows. exists t. by rewrite String.eqb_refl. }
  apply wp_bind. eapply wp_mono; [apply calm_Token_Create; exact H3|]. cbn beta.
  intros c w4 (x2 & row & H4 & _ & F1 & F2 & F3 & F4 & F5 & Hc). cbn in F1, F2, F3, F4, F5.
  apply wp_bind. eapply wp_mono; [by apply (calm_update (fun t' u' => update_tokens _ (replace_token _ t' u')) _ x2)|].
  cbn beta. intros _ w5 (t2 & u2 & H5 & _). set (x3 := (update_tokens _ _ x2).2) in H5.
  set (new := match c with Ok n => T_ID n | Err _ => nil_uuid end) in *.
  assert (revoke_token t1 u1 t ∈ tokens x2) as Ho2.
  { destruct c as [n|e]; [|destruct Hc as [-> _]; exact Ho]. destruct Hc as [_ E].
    unfold insert_token in E. destruct (_ && _); [|done]. injection E as <-. apply elem_of_app. by left. }
  set (o := replace_token new t2 u2 (revoke_token t1 u1 t)).
  assert (o ∈ tokens x3) as Ho3.
  { apply elem_of_update_rows. exists (revoke_token t1 u1 t). cbn. by rewrite String.eqb_refl. }
  apply wp_try, wp_wrap. eapply wp_mono; [by apply calm_GenerateAccessToken|]. cbn beta.
  assert (token_revoked x3 (T_TokenHash t)) as Hrev by (exists o; done).
  intros [tok|e] w6 (H6 & _); cbn [wrap_err]; [apply wp_ret|]; exists x3; (split; [done|]); (split; [done|]); [|done].
  intros a [= <-]. exists o. cbn [RR_RefreshToken]. split_and!; [done..|].
  destruct c as [n|e]; [left|right].
  - destruct Hc as [-> E]. exists row. split_and!; [|unfold fresh_token; rewrite F4; split_and!; try done; lia|done].
    unfold insert_token in E. destruct (_ && _) eqn:Eb; [|done]. injection E as E2.
    apply andb_true_iff in Eb as [Eb _]. apply bool_decide_eq_true in Eb.
    apply elem_of_update_rows. exists row. rewrite <- E2. cbn. split; [apply elem_of_app; right; by apply list_elem_of_singleton|].
    destruct (String.eqb_spec (T_ID row) (T_ID t)) as [E|E]; [|done]. destruct Eb. rewrite E, Eids.
    apply list_elem_of_fmap. eauto.
  - destruct Hc as [_ Hc]. split; [done|]. exists row. by rewrite Eids, Ehash in Hc.
Qed.

(** Every session of the user is over, with its refresh tokens, and its access
    tokens are cut off. *)
Definition all_out (uid : Z) (x x' : istate) (h : hview) : Prop :=
  kept x x' /\
  (forall s, s ∈ sessions x -> S_UserID s = uid -> S_RevokedAt s = None ->
     session_revoked x' (S_ID s) /\ ((clock h < S_ExpiresAt s)%Z -> cut_off h (S_ID s) (S_ExpiresAt s))) /\
  (forall t, t ∈ tokens x -> T_UserID t = uid -> token_revoked x' (T_TokenHash t)).

Lemma calm_marks l (w : W) x y :
  tables w = DView x None -> NoDup (map S_ID (sessions y)) -> Forall (fun s => s ∈ sessions y) l ->
  wp (for_each (fun s => MarkRevoked (S_ID s) (S_ExpiresAt s)) l) (fun _ w' => tables w' = DView x None /\
    (clock (host w) <= clock (host w'))%Z /\ Forall (fun s => cut_off (host w') (S_ID s) (S_ExpiresAt s)) l) w.
Proof.
  intros Hv Hk Hl.
  eapply wp_mono; [apply (wp_for_each _ (fun l' w' => tables w' = DView x None /\ (clock (host w) <= clock (host w'))%Z /\
    Forall (fun s => s ∈ sessions y) l' /\
    Forall (fun s => s ∈ l' \/ cut_off (host w') (S_ID s) (S_ExpiresAt s)) l))|].
  - split_and!; [done|lia|done|]. apply Forall_forall. auto.
  - intros s l' w1 (H1 & C1 & [Hs Hl']%Forall_cons & Hf). eapply wp_mono; [by apply calm_MarkRevoked|]. cbn beta.
    intros _ w2 (H2 & C2 & Hcut & Hold). rewrite H2. split_and!; [done|lia|done|].
    apply Forall_forall. intros s' Hs'. pose proof (proj1 (Forall_forall _ _) Hf s' Hs') as [[->|Hin]%elem_of_cons|Hc]; [by right|by left|].
    right. destruct (decide (S_ID s' = S_ID s)) as [E|E]; [|by apply Hold].
    by rewrite (unique_row S_ID _ s' s Hk (proj1 (Forall_forall _ _) Hl s' Hs') Hs E).
  - cbn beta. intros _ w' (H' & C' & _ & Hf). split_and!; [done..|]. eapply Forall_impl; [exact Hf|].
    cbn beta. intros s [Hs|Hs]; [by apply elem_of_nil in Hs|done].
Qed.

Lemma LogoutAll_calm uid (w : W) x :
  tables w = DView x None -> well_keyed x ->
  wp (LogoutAll uid) (fun r w' => r = Ok tt /\ exists x', tables w' = DView x' None /\ all_out uid x x' (host w')) w.
Proof.
  intros Hv Hk. apply wp_try. apply wp_bind. eapply wp_mono; [by apply quiet_now|]. cbn beta.
  intros now w1 (H1 & Q1 & _ & Hnow). eapply wp_mono; [by apply quiet_query|]. cbn beta.
  intros r w2 (H2 & Q2 & Hr). rewrite (Hr (or_intror Hans)). clear Hr.
  set (l := List.filter _ _).
  apply wp_bind. eapply wp_mono; [by apply (calm_update (fun t u => update_sessions _ (revoke_session t u)) _ x)|].
  cbn beta. intros _ w3 (t & u & H3 & Q3). set (x2 := (update_sessions _ _ x).2) in H3.
  apply wp_bind. eapply wp_mono; [by apply (calm_update (fun t u => update_tokens _ (revoke_token t u)) _ x2)|].
  cbn beta. intros _ w4 (t' & u' & H4 & Q4). set (x3 := (update_tokens _ _ x2).2) in H4.
  assert (kept x x2) as K2 by (by apply kept_revoke_sessions).
  assert (kept x2 x3) as K3 by (apply kept_update_tokens; [done..|apply K2]).
  apply wp_bind. eapply wp_mono; [apply (calm_marks l w4 x3 x); [exact H4|apply Hk|]|].
  { apply Forall_forall. intros s Hs. apply list_elem_of_In, filter_In in Hs as [Hs _]. by apply list_elem_of_In. }
  cbn beta. intros _ w5 (H5 & C5 & Hcut). apply wp_ret. split; [done|]. exists x3. split; [done|].
  destruct Q1, Q2, Q3, Q4. split_and!; [by eapply kept_trans| |].
  - intros s Hs Hu Hun. split.
    + apply (kept_session _ _ K3). apply revoke_that_session; [done|]. by rewrite Hun, Hu, Z.eqb_refl.
    + intros Hlt. apply (proj1 (Forall_forall _ _) Hcut s). apply list_elem_of_In, filter_In.
      split; [by apply list_elem_of_In|]. unfold active. rewrite Hu, Hun, Z.eqb_refl. cbn. apply Z.ltb_lt. lia.
  - intros r' Hr' Hu. apply (revoke_that_token _ _ _ x2); [exact Hr'|]. intros Hun. by rewrite Hu, Z.eqb_refl, Hun.
Qed.
End exchange.

(** ** The theorems on refresh tokens *)

(** What entitles to an exchange: an unrevoked refresh token that has not
    expired, of an active session, of a user who is not deleted. *)
Definition entitled {W} {wo : World W istate} `{cr : Crypto} (x : istate) (refreshToken : string) (w w' : W)
    (t : RefreshToken) (s : AuthSession) (u : User) : Prop :=
  t ∈ tokens x /\ T_TokenHash t = HashToken refreshToken /\ T_RevokedAt t = None /\
  (clock (host w) <= T_ExpiresAt t)%Z /\
  s ∈ sessions x /\ S_ID s = T_SessionID t /\ S_RevokedAt s = None /\ (clock (host w) < S_ExpiresAt s)%Z /\
  u ∈ users x /\ U_ID u = S_UserID s /\ U_DeletedAt u = None.

Lemma Refresh_sound {W} {wo : World W istate} `{cr : Crypto} jwtSecret rt (w : W) x :
  tables w = DView x None -> well_keyed x ->
  wp (Refresh jwtSecret rt) (fun r w' => forall a, r = Ok a -> exists t s u, entitled x rt w w' t s u /\
    (Answers wo -> exists x', tables w' = DView x' None /\ token_revoked x' (HashToken rt) /\
       exchanged t s u (RR_RefreshToken a) x x')) w.
Proof.
  intros Hv Hk. unfold Refresh. destruct (String.eqb rt ""); [by apply wp_ret|].
  apply wp_bind. eapply wp_mono; [by apply quiet_query|]. cbn beta. intros [t|e] w1 (H1 & [_ Q1] & Ht); [|by apply wp_ret].
  specialize (Ht (or_introl eq_refl)). symmetry in Ht. apply first_row_ok in Ht as [Hin Hh]. apply String.eqb_eq in Hh.
  destruct (T_RevokedAt t) as [at_|] eqn:Hun; cbn [unrevoked negb].
  { apply wp_bind, wp_run. by apply wp_ret. }
  apply wp_bind. eapply wp_mono; [by apply quiet_now|]. cbn beta. intros now w2 (H2 & [_ Q2] & Hnow & _).
  destruct (Z.ltb_spec (T_ExpiresAt t) now) as [|Hexp]; [by apply wp_ret|].
  apply wp_bind. eapply wp_mono; [by apply quiet_FindActive|]. cbn beta.
  intros [s|e] w3 (H3 & [_ Q3] & now' & Hnow' & Hs); [|by apply wp_ret].
  specialize (Hs (or_introl eq_refl)). symmetry in Hs. apply first_row_ok in Hs as [Hsin Hsp].
  apply andb_true_iff in Hsp as [Hsid Hact]. apply String.eqb_eq in Hsid.
  apply andb_true_iff in Hact as [Hsun Hsexp]. apply unrevoked_true in Hsun. apply Z.ltb_lt in Hsexp.
  apply wp_bind. eapply wp_mono; [by apply quiet_find_user|]. cbn beta.
  intros [[u|]|e] w4 (H4 & _ & Hu); [|by apply wp_ret..].
  specialize (Hu (or_introl (ex_intro _ u eq_refl))). injection Hu as Hu. symmetry in Hu.
  apply List.find_some in Hu as [Huin Hup]. apply andb_true_iff in Hup as [Hid Hdel].
  apply Z.eqb_eq in Hid. apply unrevoked_true in Hdel.
  eapply wp_mono; [apply wp_under with (P := Answers wo); intros Hans; by apply (rotate_calm jwtSecret t s u w4 x)|].
  cbn beta. intros r w5 Hx a ->. exists t, s, u. split.
  - unfold entitled. split_and!; try done; [lia|lia|by apply list_elem_of_In].
  - intros Hans. destruct (Hx Hans) as (x' & Hv' & Hrev & Hex). exists x'. rewrite <- Hh. auto.
Qed.

Lemma Refresh_reuse {W} {wo : World W istate} {Hans : Answers wo} `{cr : Crypto} jwtSecret rt (w : W) x t :
  tables w = DView x None -> well_keyed x -> rt <> "" ->
  t ∈ tokens x -> T_TokenHash t = HashToken rt -> T_RevokedAt t <> None ->
  wp (Refresh jwtSecret rt) (fun r w' => r = Err ErrInvalidRefreshToken /\
    exists x', tables w' = DView x' None /\ all_out (T_UserID t) x x' (host w')) w.
Proof.
  intros Hv Hk Hne Hin Hh Hrev. unfold Refresh. rewrite (proj2 (String.eqb_neq _ _) Hne).
  apply wp_bind. eapply wp_mono; [by apply quiet_query|]. cbn beta. intros r w1 (H1 & Q1 & Hr).
  specialize (Hr (or_intror Hans)). assert (r = Ok t) as ->.
  { rewrite Hr. unfold first_row. destruct (List.find _ _) as [t'|] eqn:E.
    - apply List.find_some in E as [Hin' Hp]. apply list_elem_of_In in Hin'. apply String.eqb_eq in Hp.
      destruct Hk as (_ & _ & Hk). by rewrite (unique_row T_TokenHash _ t' t Hk Hin' Hin) by congruence.
    - apply list_elem_of_In in Hin. pose proof (List.find_none _ _ E t Hin) as Hf. cbn beta in Hf.
      by rewrite Hh, String.eqb_refl in Hf. }
  destruct (T_RevokedAt t); [cbn [unrevoked negb]|done].
  apply wp_bind. eapply wp_mono; [by apply LogoutAll_calm|]. cbn beta. intros r w2 [_ Hx]. by apply wp_ret.
Qed.


(** A refresh token works once: when every request is answered, of two
    exchanges of the same token at most one succeeds, whatever logins,
    refreshes and logouts happen in between. *)
Theorem Refresh_once {W} {wo : World W istate} {Hans : Answers wo} `{cr : Crypto} (jwtSecret rt : string)
    (l : list op) (w : W) (x : istate) :
  tables w = DView x None -> well_keyed x ->
  wp (first <-- Refresh jwtSecret rt;
      for_each (run_op jwtSecret) l ;;-
      second <-- Refresh jwtSecret rt;
      mret (is_ok first && is_ok second)) (fun both _ => both = false) w.
Proof.
  intros Hv Hk. apply wp_bind. eapply wp_mono; [apply wp_and; [by apply Refresh_sound|
    by apply later_Refresh, later_start]|]. cbn beta. intros r w1 [Hr [L1 _]].
  destruct r as [a|e].
  2:{ apply wp_bind, wp_any. intros _ w2. apply wp_bind, wp_any. intros r w3. by apply wp_ret. }
  destruct (Hr a eq_refl) as (t & s & u & _ & Hx). destruct (Hx Hans) as (x1 & Hv1 & Hrev & _).
  assert (well_keyed x1) as Hk1.
  { destruct L1 as (y & Hv' & Hy & _). rewrite Hv1 in Hv'. injection Hv' as <-. apply Hy. }
  apply wp_bind. eapply wp_mono; [by apply later_ops, later_start|]. cbn beta. intros _ w2 L2.
  apply wp_bind. eapply wp_mono; [by apply later_Refresh|]. cbn beta. intros r2 w3 [_ H2].
  apply wp_ret. by rewrite (H2 Hrev).
Qed.

(** ** Logging in *)

(** The user that an email and a password name. *)
Definition credentials `{cr : Crypto} (x : istate) (email password : string) : option User :=
  match List.find (fun u => String.eqb (U_Email u) email && unrevoked (U_DeletedAt u)) (users x) with
  | Some u => if CompareHashAndPassword (U_Password u) password then Some u else None
  | None => None
  end.

(** An access token that says who its bearer is, good for fifteen minutes. *)
Definition speaks_for `{cr : Crypto} (jwtSecret tok : string) (u : User) (sid : string) (issued : Z) : Prop :=
  exists c, jwt_sign jwtSecret c = Ok tok /\ cl_UserID c = Itoa (U_ID u) /\ cl_RoleCode c = U_RoleCode u /\
    cl_SessionID c = sid /\ cl_Username c = "" /\ cl_Email c = "" /\ cl_RoleID c = "" /\
    (Unix (issued + 15 * Minute) <= cl_exp c)%Z.

(** A session of seven days with its refresh token, for [u]. *)
Definition opened `{cr : Crypto} (u : User) (now : Z) (ip agent raw : string) (s : AuthSession) (t : RefreshToken) : Prop :=
  S_UserID s = U_ID u /\ S_ExpiresAt s = (now + refresh_lifetime)%Z /\ S_RevokedAt s = None /\
  S_IPAddress s = ip /\ S_UserAgent s = agent /\
  T_SessionID t = S_ID s /\ T_UserID t = U_ID u /\ T_TokenHash t = HashToken raw /\
  T_ExpiresAt t = (now + refresh_lifetime)%Z /\ T_RevokedAt t = None.

Section login.
Context {W R} {wo : SharedWorld W istate R} `{cr : Crypto} (jwtSecret : string).

Lemma GenerateAccessToken_spec u sid (w : W) x :
  tables w = DView x None ->
  wp (GenerateAccessToken jwtSecret (U_ID u) (U_RoleCode u) sid) (fun r w' => tables w' = DView x None /\ quiet w w' /\
    forall tok, r = Ok tok -> speaks_for jwtSecret tok u sid (clock (host w))) w.
Proof.
  intros Hv. apply wp_bind. eapply wp_mono; [by apply quiet_now|]. cbn beta. intros t1 w1 (H1 & Q1 & Ht1 & _).
  apply wp_bind. eapply wp_mono; [by apply quiet_now|]. cbn beta. intros t2 w2 (H2 & Q2 & _).
  apply wp_ret. split_and!; [done|by eapply quiet_trans|]. intros tok Htok. eexists. split; [exact Htok|].
  cbn. split_and!; try done. apply Unix_mono. lia.
Qed.

(** A row that is inserted under a new identifier, after what others do. *)
Lemma stored {A} (row : Z -> string -> A) (insert : A -> istate -> res unit * istate) (w : W) x :
  tables w = DView x None ->
  wp (now <-- time_Now; id <-- uuid_New; _ <-? exec (insert (row now id)); mret (Ok (row now id))) (fun r w' =>
    quiet w w' /\ forall a, r = Ok a -> exists now id x1 x', a = row now id /\ rtc R x x1 /\
      insert a x1 = (Ok tt, x') /\ tables w' = DView x' None) w.
Proof.
  intros Hv. apply wp_bind. eapply wp_mono; [by apply quiet_now|]. cbn beta. intros now w1 (H1 & Q1 & _).
  apply wp_bind. eapply wp_mono; [by apply quiet_uuid|]. cbn beta. intros id w2 (H2 & Q2).
  assert (forall w', host w' = host w2 -> quiet w w') as Hq.
  { intros w' Hh. eapply quiet_trans; [done|]. eapply quiet_trans; [done|]. unfold quiet. rewrite Hh. split; [done|lia]. }
  apply wp_try. apply (wp_sql_shared _ _ _ x); [done| |].
  2:{ intros e w' x1 x' _ _ _ Hh _. split; [auto|done]. }
  intros [] w' x1 x' Hx E Hv' Hh. apply wp_ret. split; [auto|]. intros a [= <-]. by exists now, id, x1, x'.
Qed.

Lemma stored_session s (w : W) x :
  S_ID s = nil_uuid -> tables w = DView x None ->
  wp (Session_Create s) (fun r w' => quiet w w' /\ forall s', r = Ok s' -> exists x1 x', rtc R x x1 /\
    insert_session s' x1 = (Ok tt, x') /\ tables w' = DView x' None /\ S_UserID s' = S_UserID s /\
    S_ExpiresAt s' = S_ExpiresAt s /\ S_RevokedAt s' = S_RevokedAt s /\ S_IPAddress s' = S_IPAddress s /\
    S_UserAgent s' = S_UserAgent s) w.
Proof.
  intros Hid Hv. eapply wp_mono; [by apply (stored (fun now id => {|
    S_ID := if String.eqb (S_ID s) nil_uuid then id else S_ID s; S_UserID := S_UserID s;
    S_ExpiresAt := S_ExpiresAt s; S_LastUsedAt := S_LastUsedAt s; S_RevokedAt := S_RevokedAt s;
    S_IPAddress := S_IPAddress s; S_UserAgent := S_UserAgent s; S_CreatedAt := now; S_UpdatedAt := now |}) insert_session)|].
  cbn beta. intros r w' [Q Hr]. split; [done|]. intros s' E.
  destruct (Hr s' E) as (now & id & x1 & x' & -> & Hx & Hi & Hv'). exists x1, x'. split_and!; done.
Qed.

Lemma stored_token t (w : W) x :
  T_ID t = nil_uuid -> tables w = DView x None ->
  wp (Token_Create t) (fun r w' => quiet w w' /\ forall t', r = Ok t' -> exists x1 x', rtc R x x1 /\
    insert_token t' x1 = (Ok tt, x') /\ tables w' = DView x' None /\ T_SessionID t' = T_SessionID t /\
    T_UserID t' = T_UserID t /\ T_TokenHash t' = T_TokenHash t /\ T_ExpiresAt t' = T_ExpiresAt t /\
    T_RevokedAt t' = T_RevokedAt t) w.
Proof.
  intros Hid Hv. eapply wp_mono; [by apply (stored (fun now id => {|
    T_ID := if String.eqb (T_ID t) nil_uuid then id else T_ID t; T_SessionID := T_SessionID t;
    T_UserID := T_UserID t; T_TokenHash := T_TokenHash t; T_ExpiresAt := T_ExpiresAt t;
    T_RevokedAt := T_RevokedAt t; T_ReplacedBy := T_ReplacedBy t; T_CreatedAt := now; T_UpdatedAt := now |}) insert_token)|].
  cbn beta. intros r w' [Q Hr]. split; [done|]. intros t' E.
  destruct (Hr t' E) as (now & id & x1 & x' & -> & Hx & Hi & Hv'). exists x1, x'. split_and!; done.
Qed.

(** The tables after a login, among what others do to them: the new session,
    then its refresh token. *)
Definition session_opened (x : istate) (s : AuthSession) (t : RefreshToken) (x' : istate) : Prop :=
  exists x1 x2, rtc R x x1 /\ S_ID s ∉ session_ids x1 /\
    rtc R (IState (users x1) (sessions x1 ++ [s]) (tokens x1)) x2 /\
    x' = IState (users x2) (sessions x2) (tokens x2 ++ [t]).

(** A login.  New tokens are answered only for the credentials of a user;
    then a session of seven days and its refresh token are stored, and the access
    token speaks for that user and session for fifteen minutes.  Refused
    credentials change nothing, and when every request is answered wrong
    credentials are refused. *)
Lemma Login_spec email password ip agent (w : W) x :
  tables w = DView x None ->
  wp (Login jwtSecret email password ip agent) (fun r w' =>
    match r with
    | Ok a => redis (host w') = redis (host w) /\ LR_ExpiresIn a = 900%Z /\ exists x1 now s t x',
        rtc R x x1 /\ credentials x1 email password = Some (LR_User a) /\
        (clock (host w) <= now <= clock (host w'))%Z /\
        opened (LR_User a) now ip agent (LR_RefreshToken a) s t /\
        speaks_for jwtSecret (LR_AccessToken a) (LR_User a) (S_ID s) now /\
        tables w' = DView x' None /\ session_opened x1 s t x'
    | Err e => e = ErrInvalidCredentials -> exists x1, rtc R x x1 /\ tables w' = DView x1 None
    end /\
    (Answers wo -> (forall x1, rtc R x x1 -> credentials x1 email password = None) -> r = Err ErrInvalidCredentials)) w.
Proof.
  intros Hv. apply wp_try, wp_wrap. eapply wp_mono; [by apply quiet_find_user_shared|]. cbn beta.
  intros r w1 (x1 & Hx1 & H1 & [R1 Q1] & Hr).
  destruct r as [[u|]|e]; cbn [wrap_err].
  3:{ split; [done|]. intros Hans. by specialize (Hr (or_intror Hans)). }
  2:{ apply wp_ret. split; [by exists x1|done]. }
  specialize (Hr (or_introl (ex_intro _ u eq_refl))). injection Hr as Hr.
  assert (credentials x1 email password =
    if CompareHashAndPassword (U_Password u) password then Some u else None) as Hcred.
  { unfold credentials. by rewrite <- Hr. }
  destruct (CompareHashAndPassword (U_Password u) password); cbn [negb]; [|by apply wp_ret; split; [exists x1|]].
  assert ((Answers wo -> (forall y, rtc R x y -> credentials y email password = None) -> False)) as Hno.
  { intros _ Hn. specialize (Hn x1 Hx1). congruence. }
  apply wp_bind. eapply wp_mono; [by apply quiet_now|]. cbn beta. intros now w2 (H2 & [R2 Q2] & Hnow & Hck).
  apply wp_bind. eapply wp_mono; [by apply quiet_uuid|]. cbn beta. intros raw w3 (H3 & [R3 Q3]).
  apply wp_try, wp_wrap. eapply wp_mono; [apply stored_session; [reflexivity|exact H3]|]. cbn beta.
  intros [s|e] w4 [[R4 Q4] Hs]; cbn [wrap_err]; [|by split; [|intros Ha Hn; destruct (Hno Ha Hn)]].
  destruct (Hs s eq_refl) as (x2 & x4 & Hx2 & E4 & H4 & G1 & G2 & G3 & G4 & G5). cbn in G1, G2, G3, G4, G5.
  apply wp_try, wp_wrap. eapply wp_mono; [apply stored_token; [reflexivity|exact H4]|]. cbn beta.
  intros [t|e] w5 [[R5 Q5] Ht]; cbn [wrap_err]; [|by split; [|intros Ha Hn; destruct (Hno Ha Hn)]].
  destruct (Ht t eq_refl) as (x3 & x5 & Hx3 & E5 & H5 & F1 & F2 & F3 & F4 & F5). cbn in F1, F2, F3, F4, F5.
  apply wp_try, wp_wrap. eapply wp_mono; [by apply GenerateAccessToken_spec|]. cbn beta.
  intros [tok|e] w6 (H6 & [R6 Q6] & Htok); cbn [wrap_err]; [|by split; [|intros Ha Hn; destruct (Hno Ha Hn)]].
  apply wp_ret. split; [|by intros Ha Hn; destruct (Hno Ha Hn)]. cbn [LR_User LR_AccessToken LR_RefreshToken LR_ExpiresIn].
  split; [congruence|]. split; [done|]. exists x1, now, s, t, x5. split_and!; [done|done|lia|lia| | |by rewrite H6|].
  - unfold opened. split_and!; congruence.
  - destruct (Htok tok eq_refl) as (c & Hc). exists c. destruct Hc as (? & ? & ? & ? & ? & ? & ? & Hexp).
    split_and!; try done. etransitivity; [|exact Hexp]. apply Unix_mono. lia.
  - unfold insert_session in E4. case_bool_decide as Hfresh; [|done]. destruct (_ <=? _)%Z; [|done]. injection E4 as <-.
    unfold insert_token in E5. destruct (_ && _); [|done]. injection E5 as <-. by exists x2, x3.
Qed.
End login.

(** ** Accepting an access token *)

(** At time [t] the session has a mark that has not run out. *)
Definition marked (r : rstate) (t : Z) (sid : string) : bool := live t (r_str r !! revoked_key sid).

(** What the bearer of a token is told, at time [now], the mark being read at
    time [t]. *)
Definition verdict `{cr : Crypto} (jwtSecret : string) (r : rstate) (now t : Z) (tok : string) : res Principal :=
  match jwt_parse now jwtSecret tok with
  | None => Err ErrInvalidToken
  | Some c => if negb (String.eqb (cl_SessionID c) "") && marked r t (cl_SessionID c)
              then Err ErrSessionRevoked else Ok (principal_of c)
  end.

(** [Authenticate] gives its verdict, changing nothing; only if Redis does
    not answer may it accept a valid token without looking at the mark. *)
Lemma Authenticate_spec {W R} {wo : SharedWorld W istate R} `{cr : Crypto} (jwtSecret tok : string) (w : W) (x : istate) :
  tables w = DView x None ->
  wp (Authenticate jwtSecret tok) (fun r w' => tables w' = DView x None /\ redis (host w') = redis (host w) /\
    exists now t, (clock (host w) <= now <= t)%Z /\ (t <= clock (host w'))%Z /\
      (r = verdict jwtSecret (redis (host w)) now t tok \/
       ~ Answers wo /\ exists c, jwt_parse now jwtSecret tok = Some c /\ r = Ok (principal_of c))) w.
Proof.
  intros Hv. apply wp_bind. eapply wp_mono; [by apply quiet_now|]. cbn beta.
  intros now w1 (H1 & [Q1 C1] & Hnow & Hck). unfold verdict.
  destruct (jwt_parse now jwtSecret tok) as [c|] eqn:Ej.
  2:{ apply wp_ret. split_and!; [done..|]. exists now, now. split_and!; [lia|lia|lia|]. left. by rewrite Ej. }
  destruct (String.eqb (cl_SessionID c) "") eqn:Es; cbn [negb andb].
  { apply wp_ret. split_and!; [done..|]. exists now, now. split_and!; [lia|lia|lia|]. left. by rewrite Ej, Es. }
  apply wp_bind, wp_redis.
  - intros a w' t s' Ht Hle Hh [-> ->]. unfold marked. rewrite <- Q1.
    destruct (live t _) eqn:El; apply wp_ret; rewrite Ht, Hh; cbn [redis clock]; (split_and!; [done..|]);
      exists now, t; (split_and!; [lia|lia|lia|]); left; by rewrite Ej, Es, El.
  - intros er w' t s' Ht Hle Hh Hf Hans. assert (s' = redis (host w1)) as ->.
    { destruct Hf as [->|[(b & Hb & ->)|[]]]; done. }
    apply wp_ret. rewrite Ht, Hh. cbn [redis clock]. split_and!; [done..|].
    exists now, t. split_and!; [lia|lia|lia|]. right. split; [done|]. by exists c.
Qed.

Section granted.
Context {W R} {wo : SharedWorld W istate R} {Hans : Answers wo} `{cr : Crypto} `{!CryptoLaws} (jwtSecret : string).

(** The principal of a user's access token. *)
Definition principal_for (u : User) (sid : string) : Principal := {|
  UserID := Itoa (U_ID u); Username := ""; Email := ""; RoleID := ""; RoleCode := U_RoleCode u; SessionID := sid |}.

Lemma Authenticate_granted tok u sid issued (w : W) x :
  tables w = DView x None -> speaks_for jwtSecret tok u sid issued ->
  wp (Authenticate jwtSecret tok) (fun r w' => tables w' = DView x None /\ redis (host w') = redis (host w) /\
    (clock (host w) <= clock (host w'))%Z /\
    (forall p, r = Ok p -> p = principal_for u sid) /\
    ((Unix (clock (host w')) < Unix (issued + 15 * Minute))%Z ->
     r_str (redis (host w)) !! revoked_key sid = None -> r = Ok (principal_for u sid))) w.
Proof.
  intros Hv (c & Hsign & Hu & Hrole & Hsid & Hname & Hmail & Hrid & Hexp).
  eapply wp_mono; [by apply Authenticate_spec|]. cbn beta. intros r w' (Hv' & Hr & now & t & Hnow & Ht & Hver).
  destruct Hver as [->|[[] _]]; [|done]. unfold verdict. rewrite (jwt_roundtrip _ _ _ now Hsign).
  assert (principal_of c = principal_for u sid) as Hp.
  { unfold principal_of, principal_for. congruence. }
  split_and!; [done|done|lia| |].
  - destruct (_ <? _)%Z; [|done]. rewrite <- Hp. by destruct (_ && _); intros p [= <-].
  - intros Hlt Hnone. rewrite (proj2 (Z.ltb_lt _ _)).
    + rewrite Hsid. unfold marked. rewrite Hnone. cbn. by rewrite andb_false_r, <- Hp.
    + eapply Z.le_lt_trans; [|eapply Z.lt_le_trans; [exact Hlt|exact Hexp]]. apply Unix_mono. lia.
Qed.
End granted.

(** ** The theorems at work *)

(** A toy library that keeps the promises: tokens are the claims, separated by
    bars, behind the secret. *)
Definition toy_encode (secret : string) (c : claims) : string :=
  let bar s t := s +:+ "|" +:+ t in
  bar secret (bar (cl_UserID c) (bar (cl_SessionID c) (bar (cl_Username c) (bar (cl_Email c)
    (bar (cl_RoleID c) (bar (cl_RoleCode c) (bar (Itoa (cl_exp c)) (Itoa (cl_iat c))))))))).

Definition toy_decode (secret tok : string) : option claims :=
  match Split tok (Ascii.ascii_of_N 124) with
  | [k; u; s; n; m; ri; rc; e; i] =>
    if String.eqb k secret
    then Some {| cl_UserID := u; cl_SessionID := s; cl_Username := n; cl_Email := m; cl_RoleID := ri;
                 cl_RoleCode := rc; cl_exp := (Atoi e).1; cl_iat := (Atoi i).1 |}
    else None
  | _ => None
  end.

#[export] Instance claims_eq_dec : EqDecision claims.
Proof. solve_decision. Defined.

Definition toy_crypto : Crypto := {|
  sha256_hex := fun s => "sha:" +:+ s;
  CompareHashAndPassword := fun h p => String.eqb h ("bcrypt:" +:+ p);
  jwt_sign := fun secret c =>
    if decide (toy_decode secret (toy_encode secret c) = Some c) then Ok (toy_encode secret c) else Err (ErrS "jwt");
  jwt_parse := fun now secret tok =>
    match toy_decode secret tok with
    | Some c => if (Unix now <? cl_exp c)%Z then Some c else None
    | None => None
    end;
  uuid_Parse := fun s => if String.eqb s "" then None else Some s;
|}.

Lemma toy_crypto_laws : @CryptoLaws toy_crypto.
Proof.
  split; swap 1 2.
  { intros secret c tok Hs. unfold jwt_sign, toy_crypto in Hs. destruct (decide _); [|done]. injection Hs as <-.
    by destruct secret. }
  - intros secret c tok now Hs. unfold jwt_sign, jwt_parse, toy_crypto in *.
    destruct (decide _) as [E|]; [|done]. injection Hs as <-. by rewrite E.
  - intros s u Hp. unfold uuid_Parse, toy_crypto in *. destruct (String.eqb s "") eqn:E; [done|].
    injection Hp as <-. by rewrite E.
Qed.

Definition ann : User := {|
  U_ID := 7; U_Email := "ann@x.org"; U_Password := "bcrypt:pw"; U_RoleCode := "ADMIN";
  U_CreatedAt := 0; U_UpdatedAt := 0; U_DeletedAt := None |}.
Definition ann_session : AuthSession := {|
  S_ID := "s-1"; S_UserID := 7; S_ExpiresAt := 1000 * Hour; S_LastUsedAt := None; S_RevokedAt := None;
  S_IPAddress := "10.0.0.9:555"; S_UserAgent := "curl"; S_CreatedAt := 0; S_UpdatedAt := 0 |}.
Definition ann_token (id hash : string) (revoked : option Z) : RefreshToken := {|
  T_ID := id; T_SessionID := "s-1"; T_UserID := 7; T_TokenHash := hash; T_ExpiresAt := 1000 * Hour;
  T_RevokedAt := revoked; T_ReplacedBy := None; T_CreatedAt := 0; T_UpdatedAt := 0 |}.
Definition ann_tables : istate :=
  IState [ann] [ann_session] [ann_token "t-0" "sha:old" (Some 5%Z); ann_token "t-1" "sha:new" None].
Definition ann_access : string := toy_encode "secret" {|
  cl_UserID := "7"; cl_SessionID := "s-1"; cl_Username := ""; cl_Email := ""; cl_RoleID := ""; cl_RoleCode := "ADMIN";
  cl_exp := 900; cl_iat := 0 |}.

Definition calm_ann : hview * dview istate := (HView 0 empty_redis, DView ann_tables None).
Definition stormy_ann (fs gs : list fault) : (hview * list fault) * (dview istate * list fault) :=
  ((HView 0 empty_redis, fs), (DView ann_tables None, gs)).

Lemma ann_keyed : well_keyed ann_tables.
Proof. split_and!; refine (bool_decide_unpack _ _); by vm_compute. Qed.

Definition ann_ops : list op :=
  [OpLogin "ann@x.org" "pw" "10.0.0.9:556" "curl"; OpRefresh "new"; OpLogout "s-1"; OpLogoutAll 7; OpRefresh "old"].

(** Another service exchanges the good token of the same user meanwhile. *)
Definition keeping (x x' : istate) : Prop := well_keyed x -> kept x x'.
#[export] Instance keeping_keeps : KeepsRevoked keeping.
Proof. by intros x x' Hx. Qed.

Definition other_refresh (x : istate) : istate :=
  committed (tables (wo := calm istate) (Refresh (srv := calm_host istate) (db := calm_db istate) (cr := toy_crypto)
    "secret" "new" (HView (7 * Second) empty_redis, DView x None)).2).

Lemma other_refresh_keeps x : rtc keeping x (other_refresh x).
Proof.
  apply rtc_once. intros Hk. unfold other_refresh. set (w := (HView (7 * Second) empty_redis, DView x None)).
  pose proof (later_Refresh (wo := calm istate) (cr := toy_crypto) "secret" x (host (wo := calm istate) w) "new" w
    (later_start (wo := calm istate) w x eq_refl Hk)) as Hwp.
  apply wp_run in Hwp as [(y & Hy & Hkept & _) _]. cbn [world_host world_db calm] in Hy. by rewrite Hy.
Qed.

Definition crowded_ann (fs gs : list fault) : (hview * list fault) * ((dview istate * list fault) * list (move keeping)) :=
  ((HView 0 empty_redis, fs), ((DView ann_tables None, gs), [stay; move_by other_refresh other_refresh_keeps])).

Lemma revoked_for_good_witness :
  wp (for_each (run_op (wo := crowded istate keeping) (cr := toy_crypto) "secret") ann_ops ;;-
      Refresh (srv := crowded_host istate keeping) (db := crowded_db istate keeping) (cr := toy_crypto) "secret" "old") (fun r w' =>
    is_ok r = false /\ exists x', tables (wo := crowded istate keeping) w' = DView x' None /\ kept ann_tables x')
    (crowded_ann [FailAfter; NoFault; FailBefore] [NoFault; FailBefore; FailAfter; NoFault; FailAfter]).
Proof.
  apply (revoked_for_good (wo := crowded istate keeping) (cr := toy_crypto)); [reflexivity|apply ann_keyed|].
  exists (ann_token "t-0" "sha:old" (Some 5%Z)). split; [by left|done].
Defined.

Lemma logout_is_final_witness :
  let run := (Logout (srv := calm_host istate) (db := calm_db istate) (cr := toy_crypto) "s-1" ;;-
      for_each (run_op (wo := calm istate) (cr := toy_crypto) "secret") ann_ops ;;-
      a <-- Authenticate (srv := calm_host istate) (cr := toy_crypto) "secret" ann_access;
      r <-- Refresh (srv := calm_host istate) (db := calm_db istate) (cr := toy_crypto) "secret" "new";
      mret (is_ok a, is_ok r)) in
  (clock (host (wo := calm istate) (run calm_ann).2) < 1000 * Hour - Second / 2)%Z /\
  wp run (fun accepted w' =>
    (clock (host (wo := calm istate) w') < S_ExpiresAt ann_session - Second / 2)%Z -> accepted = (false, false)) calm_ann.
Proof.
  split; [by vm_compute|].
  refine (logout_is_final (wo := calm istate) (Hans := calm_answers istate) (cr := toy_crypto) "secret" "s-1"
    ann_access "new" ann_session ann_ops calm_ann ann_tables _ _ _ _ _ _ _ _); try done; [apply ann_keyed|by left| |].
  - intros now c. unfold jwt_parse, toy_crypto.
    change (toy_decode "secret" ann_access) with (toy_decode "secret" ann_access).
    destruct (toy_decode "secret" ann_access) as [c'|] eqn:E; [|done].
    destruct (_ <? _)%Z; [|done]. intros [= <-]. vm_compute in E. by injection E as <-.
  - exists (ann_token "t-1" "sha:new" None). split; [by right; left|done].
Defined.


Lemma Refresh_once_witness :
  wp (first <-- Refresh (srv := calm_host istate) (db := calm_db istate) (cr := toy_crypto) "secret" "new";
      for_each (run_op (wo := calm istate) (cr := toy_crypto) "secret") ann_ops ;;-
      second <-- Refresh (srv := calm_host istate) (db := calm_db istate) (cr := toy_crypto) "secret" "new";
      mret (is_ok first && is_ok second)) (fun both _ => both = false) calm_ann.
Proof.
  exact (Refresh_once (wo := calm istate) (Hans := calm_answers istate) (cr := toy_crypto) "secret" "new" ann_ops
    calm_ann ann_tables eq_refl ann_keyed).
Defined.

(** ** Finding: two refreshes at once

    The token is read and revoked in statements of their own, outside of a
    transaction, and the revocation does not ask whether it changed anything.
    A client that exchanges a token while another exchanges it (here between
    the first two statements) gets a pair of tokens as well: no reuse is
    noticed, and both new refresh tokens are good. *)
Definition late_refresh :=
  Refresh (srv := crowded_host istate keeping) (db := crowded_db istate keeping) (cr := toy_crypto) "secret" "new"
    (crowded_ann [] []).

Lemma two_refreshes_at_once :
  is_ok late_refresh.1 = true /\
  is_ok (Refresh (srv := calm_host istate) (db := calm_db istate) (cr := toy_crypto) "secret" "new"
    (HView (7 * Second) empty_redis, calm_ann.2)).1 = true /\
  length (List.filter (fun t => unrevoked (T_RevokedAt t)) (tokens ann_tables)) = 1 /\
  length (List.filter (fun t => unrevoked (T_RevokedAt t)) (tokens (committed late_refresh.2.2.1.1))) = 2.
Proof. by vm_compute. Qed.
