(* ===== verification/IdentityApi.v ===== *)
(** sms-identity, the edges: the gRPC server with its cookies
    (handler/grpc/auth_server.go), the CSRF manager and interceptor, the
    authentication interceptor, the forward-auth endpoint
    (handler/forward_auth.go) and the seeding of users
    (infrastructure/database/seed.go). *)
From Stdlib Require Import Ascii.
From S2P Require Import Prelude GoStd Sql Redis Host World Access Crypto Http Identity IdentitySpec.

(** ** CSRF (infrastructure/security/csrf.go) *)
Definition csrfTokenLength : nat := 32.
Definition CSRFCookieName : string := "csrf_token".
Definition CSRFHeaderName : string := "X-CSRF-Token".
Definition CSRFTTL : Z := 24 * Hour.

Definition ErrMissingCSRF : err := ErrS "missing CSRF token".
Definition ErrCSRFMismatch : err := ErrS "CSRF token mismatch".

Definition GenerateCSRFToken {W} {ae : AEAD W} : proc W (res string) :=
  b <-? rand_read csrfTokenLength;
  mret (Ok (hex_EncodeToString b)).

(** The digests are compared. *)
Definition ValidateCSRFToken `{cr : Identity.Crypto} (cookieValue headerValue : string) : option err :=
  if String.eqb cookieValue "" || String.eqb headerValue "" then Some ErrMissingCSRF
  else if String.eqb (sha256_hex cookieValue) (sha256_hex headerValue) then None
  else Some ErrCSRFMismatch.

(** ** Interceptors (handler/grpc/middlewares/) *)
Definition auth_method (name : string) : string := "/portal.auth.v1.AuthService/" +:+ name.
Definition stateChangingMethods : gset string :=
  {[auth_method "Login"; auth_method "Logout"; auth_method "LogoutAll"]}.

Definition first_trimmed (l : list string) : string := match l with v :: _ => TrimSpace v | [] => "" end.

Section interceptors.
Context {W Req Resp : Type} `{cr : Identity.Crypto}.

Definition CSRFInterceptor : interceptor (W := W) (Req := Req) (Resp := Resp) := fun method h c req =>
  if negb (bool_decide (method ∈ stateChangingMethods)) then h c req
  else
    match ctx_md c with
    | None => h c req
    | Some md =>
      let cookieToken := first_trimmed (md_Get md "cookie-csrf-token") in
      let headerToken := first_trimmed (md_Get md "x-csrf-token") in
      if String.eqb cookieToken "" && String.eqb headerToken "" then h c req
      else
        match ValidateCSRFToken cookieToken headerToken with
        | Some er => mret (Refused (Status PermissionDenied (TextAnd "CSRF validation failed: " er)))
        | None => h c req
        end
    end.

(** authentication.go; sms-identity does not install it. *)
Definition extractBearerTokenFromMetadata (c : ctx) : string + string :=
  match ctx_md c with
  | None => inl "missing token"
  | Some md =>
    match md_Get md "authorization" with
    | [] => inl "missing token"
    | v :: _ =>
      match SplitN2 (TrimSpace v) " " with
      | [bearer; token] =>
        if negb (String.eqb bearer "Bearer") || String.eqb (TrimSpace token) "" then inl "invalid token"
        else inr (TrimSpace token)
      | _ => inl "invalid token"
      end
    end
  end.

Definition AuthenticationInterceptor (authenticate : option (string -> proc W (res Principal)))
    (publicMethods : gset string) : interceptor (W := W) (Req := Req) (Resp := Resp) := fun method h c req =>
  match authenticate with
  | None => mret (refuse Internal "internal server error")
  | Some authenticate =>
    if bool_decide (method ∈ publicMethods) then h c req
    else
      match extractBearerTokenFromMetadata c with
      | inl msg => mret (refuse Unauthenticated msg)
      | inr tokenString =>
        r <-- authenticate tokenString;
        match r with
        | Err _ => mret (refuse Unauthenticated "invalid authorize format")
        | Ok principal => h (SetPrincipal c principal) req
        end
      end
  end.
End interceptors.

(** ** The gRPC server *)
Definition authCookie (name value : string) (maxAge : Z) (httpOnly : bool) : string := set_cookie name value maxAge httpOnly.
Definition clearCookie (name : string) : string := set_cookie name "" (-1) (negb (String.eqb name "csrf_token")).

(** A reply, and the header metadata that was set before it. *)
Record with_header (A : Type) := WithHeader { header : list (string * string); body : A }.
Arguments WithHeader {A} header body.
Arguments header {A} w.
Arguments body {A} w.

Record LoginRequest := { Identifier : string; LoginPassword : string }.
Record TokenResponse := { AccessToken : string; RefreshTokenText : string; TokenType : string; ExpiresIn : Z }.

Definition getClientIP (c : ctx) : string := default "" (ctx_peer c).

Definition getUserAgent (c : ctx) : string :=
  match ctx_md c with
  | None => ""
  | Some md =>
    match md_Get md "grpcgateway-user-agent" with
    | v :: _ => v
    | [] => match md_Get md "user-agent" with v :: _ => v | [] => "" end
    end
  end.

Definition token_cookies (access refresh csrf : string) (expiresIn : Z) : list (string * string) := [
  ("Set-Cookie-Access-Token", authCookie "access_token" access expiresIn true);
  ("Set-Cookie-Refresh-Token", authCookie "refresh_token" refresh 604800 true);
  ("Set-Cookie-Csrf-Token", authCookie "csrf_token" csrf 86400 false)].

Definition cleared_cookies : list (string * string) := [
  ("Clear-Cookie", clearCookie "access_token"); ("Clear-Cookie", clearCookie "refresh_token");
  ("Clear-Cookie", clearCookie "csrf_token")].

(** [fmt.Sscanf (id, "%d", &userID)] into an unsigned integer. *)
Definition scan_uint (s : string) : option Z :=
  match Config.sscanf_d s with
  | Some v => if (v <? 0)%Z || String.prefix "+" (Config.skip_blanks s) then None else Some v
  | None => None
  end.

Section server.
Context {W R} {wo : SharedWorld W istate R} {ae : AEAD W} `{cr : Identity.Crypto} (jwtSecret : string).

Definition cookies_of (access refresh : string) (expiresIn : Z) : proc W (list (string * string)) :=
  csrf <-- GenerateCSRFToken;
  mret (match csrf with Ok t => token_cookies access refresh t expiresIn | Err _ => [] end).

Definition AuthServer_Login : handler (W := W) (Req := option LoginRequest) (Resp := with_header TokenResponse) := fun c req =>
  match req with
  | None => mret (refuse InvalidArgument "identifier and password are required")
  | Some req =>
    if String.eqb (Identifier req) "" || String.eqb (LoginPassword req) ""
    then mret (refuse InvalidArgument "identifier and password are required")
    else
      r <-- Login jwtSecret (Identifier req) (LoginPassword req) (getClientIP c) (getUserAgent c);
      match r with
      | Err er =>
        if errors_Is er ErrInvalidCredentials then mret (refuse Unauthenticated "invalid credentials")
        else mret (refuse Internal "failed to login")
      | Ok result =>
        hs <-- cookies_of (LR_AccessToken result) (LR_RefreshToken result) (LR_ExpiresIn result);
        mret (Reply (WithHeader hs {| AccessToken := LR_AccessToken result; RefreshTokenText := LR_RefreshToken result;
                                      TokenType := "Bearer"; ExpiresIn := LR_ExpiresIn result |}))
      end
  end.

Definition AuthServer_RefreshToken : handler (W := W) (Req := option string) (Resp := with_header TokenResponse) := fun _ req =>
  match req with
  | None | Some "" => mret (refuse InvalidArgument "refresh token is required")
  | Some refreshToken =>
    r <-- Refresh jwtSecret refreshToken;
    match r with
    | Err er =>
      if errors_Is er ErrInvalidRefreshToken then mret (refuse Unauthenticated "invalid refresh token")
      else mret (refuse Internal "failed to refresh token")
    | Ok result =>
      hs <-- cookies_of (RR_AccessToken result) (RR_RefreshToken result) (RR_ExpiresIn result);
      mret (Reply (WithHeader hs {| AccessToken := RR_AccessToken result; RefreshTokenText := RR_RefreshToken result;
                                    TokenType := "Bearer"; ExpiresIn := RR_ExpiresIn result |}))
    end
  end.

Definition AuthServer_Logout : handler (W := W) (Req := unit) (Resp := with_header string) := fun c _ =>
  match GetPrincipal c with
  | Some principal =>
    if negb (String.eqb (SessionID principal) "") then Logout (SessionID principal) ;;- mret tt else mret tt
  | None => mret tt
  end ;;-
  mret (Reply (WithHeader cleared_cookies "Logout successful")).

Definition AuthServer_LogoutAll : handler (W := W) (Req := unit) (Resp := with_header string) := fun c _ =>
  let reply := Reply (WithHeader cleared_cookies "Logout all successful") in
  match GetPrincipal c with
  | Some principal =>
    if negb (String.eqb (UserID principal) "") then
      match scan_uint (UserID principal) with
      | None => mret (Refused (Status Internal (Text "invalid user id format in token")))
      | Some userID =>
        (if (0 <? userID)%Z then LogoutAll userID ;;- mret tt else mret tt) ;;-
        mret reply
      end
    else mret reply
  | None => mret reply
  end.

(** app/run.go: the only interceptor is the CSRF one. *)
Definition identity_server {Req Resp} (name : string) (h : handler (W := W) (Req := Req) (Resp := Resp)) :
    handler (W := W) (Req := Req) (Resp := Resp) :=
  CSRFInterceptor (auth_method name) h.
End server.

(** ** Forward authentication *)
Section forward_auth.
Context {W} {srv : Host W} `{cr : Identity.Crypto} (jwtSecret : string).

Definition extractToken (r : request) : string :=
  let authHeader := Header_Get (Header r) "Authorization" in
  if HasPrefix authHeader "Bearer " then TrimPrefix authHeader "Bearer "
  else
    match Http.Cookie (Header r) "jwt_token" with
    | Some v => v
    | None => ""
    end.

(** The last cookie of that name. *)
Definition csrf_cookie (h : HttpHeader) : string :=
  foldl (fun cookieToken cookieStr =>
    if Contains cookieStr "csrf_token=" then
      foldl (fun cookieToken part =>
        let part := TrimSpace part in
        if HasPrefix part "csrf_token=" then TrimPrefix part "csrf_token=" else cookieToken)
        cookieToken (Split cookieStr ";")
    else cookieToken) "" (Header_Values h "Cookie").

Definition state_changing (method : string) : bool :=
  bool_decide (ToUpper method ∈ ["POST"; "PUT"; "DELETE"; "PATCH"]).

Definition validateCSRF (r : request) : option err :=
  if negb (state_changing (Header_Get (Header r) "X-Forwarded-Method")) then None
  else ValidateCSRFToken (csrf_cookie (Header r)) (Header_Get (Header r) "X-Csrf-Token").

Definition err_text (e : err) : string := match e with ErrS s => s | ErrWrap s _ => s end.

Definition admitted (principal : Principal) : response := {|
  rs_status := StatusOK;
  rs_header := [("X-User-Id", UserID principal); ("X-User-Role", RoleCode principal);
                ("X-User-Email", Email principal); ("X-User-Name", Username principal)];
  rs_body := "" |}.

Definition Verify (r : request) : proc W response :=
  let token := extractToken r in
  if String.eqb token "" then mret (http_Error "Unauthorized: No token provided" StatusUnauthorized)
  else
    auth <-- Authenticate jwtSecret token;
    match auth with
    | Err er => mret (http_Error ("Unauthorized: " +:+ err_text er) StatusUnauthorized)
    | Ok principal =>
      match (if String.eqb (Header_Get (Header r) "Authorization") "" then validateCSRF r else None) with
      | Some er => mret (http_Error ("Forbidden: CSRF validation failed - " +:+ err_text er) StatusForbidden)
      | None => mret (admitted principal)
      end
    end.
End forward_auth.

(** ** Seeding (infrastructure/database/seed.go) *)
Section seed.
Context {W} {wo : World W istate}.
(** bcrypt.GenerateFromPassword, with its salt. *)
Context (GenerateFromPassword : string -> proc W (res string)).

(** The identifier is a sequence of the database; the email is unique, also
    among deleted users. *)
Definition next_id (l : list User) : Z := (1 + foldr Z.max 0 (map U_ID l))%Z.
Definition insert_user (email password role : string) (now : Z) (x : istate) : res unit * istate :=
  if bool_decide (email ∈ map U_Email (users x)) then (Err ErrConstraint, x)
  else (Ok tt, IState (users x ++ [{| U_ID := next_id (users x); U_Email := email; U_Password := password;
          U_RoleCode := role; U_CreatedAt := now; U_UpdatedAt := now; U_DeletedAt := None |}]) (sessions x) (tokens x)).

(** A count that fails leaves zero. *)
Definition seedSingleUser (email password role : string) : proc W unit :=
  count <-- exec (query (fun x => Ok (Z.of_nat (length
    (List.filter (fun u => String.eqb (U_Email u) email && unrevoked (U_DeletedAt u)) (users x))))));
  if (match count with Ok n => n | Err _ => 0 end =? 0)%Z then
    hash <-- GenerateFromPassword password;
    now <-- time_Now;
    exec (insert_user email (match hash with Ok h => h | Err _ => "" end) role now) ;;-
    mret tt
  else mret tt.

Definition SeedUsers (adminEmail adminPassword userEmail userPassword : string) : proc W unit :=
  (if String.eqb adminEmail "" || String.eqb adminPassword "" then mret tt
   else seedSingleUser adminEmail adminPassword RoleCodeAdmin) ;;-
  (if String.eqb userEmail "" || String.eqb userPassword "" then mret tt
   else seedSingleUser userEmail userPassword RoleCodeUser).
End seed.

(** ** The forward-auth endpoint *)

(** A request that passes the CSRF check: it authenticates by header, it does
    not change state, or it repeats the token of its cookie. *)
Definition csrf_passes `{cr : Identity.Crypto} (r : request) : Prop :=
  Header_Get (Header r) "Authorization" <> "" \/
  ToUpper (Header_Get (Header r) "X-Forwarded-Method") ∉ ["POST"; "PUT"; "DELETE"; "PATCH"] \/
  let c := csrf_cookie (Header r) in let h := Header_Get (Header r) "X-Csrf-Token" in
  c <> "" /\ h <> "" /\ sha256_hex c = sha256_hex h.

Lemma csrf_check `{cr : Identity.Crypto} (r : request) :
  (if String.eqb (Header_Get (Header r) "Authorization") "" then validateCSRF r else None) = None <-> csrf_passes r.
Proof.
  unfold csrf_passes, validateCSRF, state_changing, ValidateCSRFToken.
  destruct (String.eqb_spec (Header_Get (Header r) "Authorization") "") as [E|E]; [|by split; [left|]].
  rewrite E. case_bool_decide as Hm; cbn [negb]; [|split; [by right; left|done]].
  destruct (String.eqb_spec (csrf_cookie (Header r)) "") as [E1|E1]; cbn [orb]; [naive_solver|].
  destruct (String.eqb_spec (Header_Get (Header r) "X-Csrf-Token") "") as [E2|E2]; cbn [orb]; [naive_solver|].
  destruct (String.eqb_spec (sha256_hex (csrf_cookie (Header r))) (sha256_hex (Header_Get (Header r) "X-Csrf-Token")));
    naive_solver.
Qed.

(** What the endpoint answers for a verdict on the token. *)
Definition answers_for `{cr : Identity.Crypto} (r : request) (v : res Principal) (a : response) : Prop :=
  match v with
  | Err _ => rs_status a = StatusUnauthorized
  | Ok p => csrf_passes r /\ a = admitted p \/ ~ csrf_passes r /\ rs_status a = StatusForbidden
  end.

(** C30: the forward-auth endpoint changes nothing.  It admits a request,
    naming the principal of its token in the headers, exactly when the token is
    valid, its session is not marked as revoked and the CSRF check passes;
    otherwise it answers 401 or 403.  Only when Redis does not answer is the mark
    not looked at. *)
Theorem Verify_effect {W R} {wo : SharedWorld W istate R} `{cr : Identity.Crypto} (jwtSecret : string) (r : request)
    (w : W) (x : istate) :
  tables w = DView x None ->
  wp (Verify jwtSecret r) (fun a w' => tables w' = DView x None /\ redis (host w') = redis (host w) /\
    (extractToken r = "" -> rs_status a = StatusUnauthorized) /\
    (extractToken r <> "" -> exists now t, (clock (host w) <= now <= t)%Z /\ (t <= clock (host w'))%Z /\
       (answers_for r (verdict jwtSecret (redis (host w)) now t (extractToken r)) a \/
        ~ Answers wo /\ exists c, jwt_parse now jwtSecret (extractToken r) = Some c /\
          answers_for r (Ok (principal_of c)) a))) w.
Proof.
  intros Hv. unfold Verify. destruct (String.eqb_spec (extractToken r) "") as [E|E]; [by apply wp_ret|].
  apply wp_bind. eapply wp_mono; [by apply Authenticate_spec|]. cbn beta.
  intros v w1 (Hv1 & Hr1 & now & t & Hnow & Ht & Hver).
  assert (forall a w', w' = w1 -> answers_for r v a -> tables w' = DView x None /\ redis (host w') = redis (host w) /\
    (extractToken r = "" -> rs_status a = StatusUnauthorized) /\
    (extractToken r <> "" -> exists now t, (clock (host w) <= now <= t)%Z /\ (t <= clock (host w'))%Z /\
       (answers_for r (verdict jwtSecret (redis (host w)) now t (extractToken r)) a \/
        ~ Answers wo /\ exists c, jwt_parse now jwtSecret (extractToken r) = Some c /\
          answers_for r (Ok (principal_of c)) a))) as Hdone.
  { intros a w' -> Ha. split_and!; [done..|]. intros _. exists now, t. split_and!; [lia|lia|lia|].
    destruct Hver as [<-|(Hans & c & Hc & ->)]; [by left|right; eauto]. }
  destruct v as [p|e]; [|by apply wp_ret, Hdone]. pose proof (csrf_check r) as Hcsrf.
  destruct (if String.eqb (Header_Get (Header r) "Authorization") "" then _ else _) as [e|]; apply wp_ret, Hdone; try done.
  - right. split; [|done]. intros Hp. by apply Hcsrf in Hp.
  - left. by rewrite <- Hcsrf.
Qed.

(** ** Logging in *)

(** Reading random bytes disturbs neither the tables nor the host. *)
Class QuietRandom {W R} (wo : SharedWorld W istate R) (ae : AEAD W) : Prop :=
  quiet_random : forall n (w : W), wp (rand_read n) (fun _ w' => tables w' = tables w /\ host w' = host w) w.

(** The session that a reply to a login opened, among what others do. *)
Definition logged_in `{cr : Identity.Crypto} (R : istate -> istate -> Prop) (jwtSecret : string) (x : istate)
    (q : LoginRequest) (c : ctx) (rep : with_header TokenResponse) (from till : Z) (x' : istate) : Prop :=
  exists x1 u now s t, rtc R x x1 /\ credentials x1 (Identifier q) (LoginPassword q) = Some u /\ (from <= now <= till)%Z /\
    opened u now (getClientIP c) (getUserAgent c) (RefreshTokenText (body rep)) s t /\
    speaks_for jwtSecret (AccessToken (body rep)) u (S_ID s) now /\
    ExpiresIn (body rep) = 900%Z /\
    (header rep = [] \/ exists csrf, header rep = token_cookies (AccessToken (body rep)) (RefreshTokenText (body rep)) csrf 900) /\
    session_opened (R := R) x1 s t x'.

Section login.
Context {W R} {wo : SharedWorld W istate R} {ae : AEAD W} {Hq : QuietRandom wo ae} `{cr : Identity.Crypto} (jwtSecret : string).

Lemma cookies_of_spec access refresh n (w : W) :
  wp (cookies_of access refresh n) (fun hs w' => tables w' = tables w /\ host w' = host w /\
    (hs = [] \/ exists csrf, hs = token_cookies access refresh csrf n)) w.
Proof.
  apply wp_bind, wp_try. eapply wp_mono; [apply Hq|]. cbn beta. intros [b|e] w' [Ht Hh].
  - apply wp_ret, wp_ret. split_and!; [done..|]. right. by eexists.
  - apply wp_ret. split_and!; [done..|by left].
Qed.

Lemma AuthServer_Login_spec c q (w : W) x :
  tables w = DView x None ->
  wp (AuthServer_Login jwtSecret c q) (fun r w' =>
    (forall rep, r = Reply rep -> exists q' x', q = Some q' /\ redis (host w') = redis (host w) /\ tables w' = DView x' None /\
        logged_in R jwtSecret x q' c rep (clock (host w)) (clock (host w')) x') /\
    r <> Panicked /\
    (forall st, r = Refused st -> s_code st ∈ [InvalidArgument; PermissionDenied] -> tables w' = DView x None) /\
    forall q', q = Some q' -> Identifier q' <> "" -> LoginPassword q' <> "" -> Answers wo ->
      (forall x1, rtc R x x1 -> credentials x1 (Identifier q') (LoginPassword q') = None) ->
      r = refuse Unauthenticated "invalid credentials" /\ exists x1, rtc R x x1 /\ tables w' = DView x1 None) w.
Proof.
  intros Hv. unfold AuthServer_Login. destruct q as [q|]; [|by apply wp_ret].
  destruct (String.eqb_spec (Identifier q) "") as [E1|E1].
  { apply wp_ret. split_and!; try done. by intros q' [= <-]. }
  destruct (String.eqb_spec (LoginPassword q) "") as [E2|E2].
  { apply wp_ret. split_and!; try done. by intros q' [= <-]. }
  cbn [orb]. apply wp_bind. eapply wp_mono; [by apply Login_spec|]. cbn beta.
  intros [a|e] w1 [Hr Hn].
  - destruct Hr as (Hred & Hexp & x1 & now & s & t & x' & Hx1 & Hc & Hnow & Ho & Hs & Hv1 & Hopen).
    apply wp_bind. eapply wp_mono; [apply cookies_of_spec|]. cbn beta. intros hs w2 (Ht & Hh & Hhs).
    apply wp_ret. split_and!; try done.
    + intros rep [= <-]. exists q, x'. split; [done|]. split; [congruence|]. split; [by rewrite Ht|].
      exists x1, (LR_User a), now, s, t.
      cbn [body header AccessToken RefreshTokenText ExpiresIn]. rewrite Hh. split_and!; try done; try lia.
      by rewrite Hexp in Hhs.
    + intros q' [= <-] _ _ Hans Hnone. by specialize (Hn Hans Hnone).
  - destruct (errors_Is e ErrInvalidCredentials) eqn:Ei; apply wp_ret; split_and!; try done.
    + intros st [= <-] Hst. rewrite !elem_of_cons, elem_of_nil in Hst. naive_solver.
    + intros q' [= <-] _ _ Hans Hnone. specialize (Hn Hans Hnone). injection Hn as ->. auto.
    + intros st [= <-] Hst. rewrite !elem_of_cons, elem_of_nil in Hst. naive_solver.
    + intros q' [= <-] _ _ Hans Hnone. specialize (Hn Hans Hnone). injection Hn as ->. done.
Qed.
End login.

Lemma CSRF_cases {W Req Resp} `{cr : Identity.Crypto} m (h : handler (W := W) (Req := Req) (Resp := Resp)) c req (w : W) :
  CSRFInterceptor m h c req w = h c req w \/
  exists e, CSRFInterceptor m h c req w = (Refused (Status PermissionDenied (TextAnd "CSRF validation failed: " e)), w).
Proof.
  unfold CSRFInterceptor. destruct (negb _); [by left|]. destruct (ctx_md c) as [md|]; [|by left].
  destruct (_ && _); [by left|]. destruct (ValidateCSRFToken _ _) as [e|]; [right; by exists e|by left].
Qed.


(** ** What the edges leave out *)

(** An incoming gRPC call has no principal, and the server installs no
    interceptor that sets one: logging out through it changes nothing, although
    it is reported as successful. *)
Lemma logout_does_nothing {W R} {wo : SharedWorld W istate R} `{cr : Identity.Crypto} peer md (w : W) :
  let out := identity_server "Logout" AuthServer_Logout (Ctx peer md None) tt w in
  out.2 = w /\ forall st, out.1 = Refused st -> s_code st = PermissionDenied.
Proof.
  cbn zeta. unfold identity_server.
  by destruct (CSRF_cases (auth_method "Logout") AuthServer_Logout (Ctx peer md None) tt w) as [-> |[e ->]];
    (split; [done|]); intros st [= <-].
Qed.

Lemma logout_all_does_nothing {W R} {wo : SharedWorld W istate R} `{cr : Identity.Crypto} peer md (w : W) :
  let out := identity_server "LogoutAll" AuthServer_LogoutAll (Ctx peer md None) tt w in
  out.2 = w /\ forall st, out.1 = Refused st -> s_code st = PermissionDenied.
Proof.
  cbn zeta. unfold identity_server.
  by destruct (CSRF_cases (auth_method "LogoutAll") AuthServer_LogoutAll (Ctx peer md None) tt w) as [-> |[e ->]];
    (split; [done|]); intros st [= <-].
Qed.

(** A browser sends back the cookies of [token_cookies] in one line; the
    endpoint looks for one that is not among them. *)
Definition cookie_line (access refresh csrf : string) : string :=
  "access_token=" +:+ cookie_value access +:+ "; refresh_token=" +:+ cookie_value refresh +:+
  "; csrf_token=" +:+ cookie_value csrf.

Example cookies_are_not_enough {W} {srv : Host W} `{cr : Identity.Crypto} (w : W) :
  rs_status (Verify "secret" {|
    Method := "GET"; Header := {["Cookie" := [cookie_line "aa.bb.cc" "1-2-3" "00ff"]]}; Query := fun _ => "";
    Body := Ok "" |} w).1 = StatusUnauthorized.
Proof. reflexivity. Qed.

(** ** Seeding *)

(** The rows that seeding may add: the configured users, with their roles. *)
Definition seeded (adminEmail userEmail : string) (u : User) : Prop :=
  U_DeletedAt u = None /\
  (U_Email u = adminEmail /\ U_RoleCode u = RoleCodeAdmin \/ U_Email u = userEmail /\ U_RoleCode u = RoleCodeUser).

Definition emails (x : istate) : list string := map U_Email (users x).

(** Rows were only added, all of them satisfying [P]. *)
Definition grown (P : User -> Prop) (x x' : istate) : Prop :=
  sessions x' = sessions x /\ tokens x' = tokens x /\ (NoDup (emails x) -> NoDup (emails x')) /\
  exists l, users x' = users x ++ l /\ Forall P l.

Lemma grown_refl P x : grown P x x.
Proof. split_and!; [done..|]. exists []. by rewrite app_nil_r. Qed.
Lemma grown_trans P x y z : grown P x y -> grown P y z -> grown P x z.
Proof.
  intros (S1 & T1 & N1 & l1 & E1 & F1) (S2 & T2 & N2 & l2 & E2 & F2).
  split_and!; [congruence|congruence|auto|]. exists (l1 ++ l2). rewrite E2, E1, app_assoc, Forall_app. auto.
Qed.

Lemma insert_user_grown (P : User -> Prop) email password role now x r x' :
  (forall u, U_Email u = email -> U_RoleCode u = role -> U_DeletedAt u = None -> P u) ->
  insert_user email password role now x = (r, x') ->
  grown P x x' /\ email ∈ emails x'.
Proof.
  intros HP. unfold insert_user. case_bool_decide as He; intros [= <- <-]; [by split; [apply grown_refl|]|].
  split; [|unfold emails; cbn; rewrite map_app, elem_of_app; right; by left]. split_and!; [done..| |].
  - intros Hnd. unfold emails. cbn. rewrite map_app. apply NoDup_app. split_and!; [done| |apply NoDup_singleton].
    intros e Hin ->%list_elem_of_singleton. done.
  - eexists. split; [done|]. apply Forall_singleton. by apply HP.
Qed.

Section seeding.
Context {W} {wo : World W istate} (GenerateFromPassword : string -> proc W (res string)).
Context (Hbcrypt : forall p w, wp (GenerateFromPassword p) (fun _ w' => tables w' = tables w) w).

Lemma seedSingleUser_grown (P : User -> Prop) email password role (w : W) x :
  (forall u, U_Email u = email -> U_RoleCode u = role -> U_DeletedAt u = None -> P u) ->
  tables w = DView x None ->
  wp (seedSingleUser GenerateFromPassword email password role) (fun _ w' => exists x', tables w' = DView x' None /\
    grown P x x' /\ (Answers wo -> email ∈ emails x')) w.
Proof.
  intros HP Hv. apply wp_bind. eapply wp_mono; [by apply quiet_query|]. cbn beta. intros r w1 (H1 & _ & Hr).
  set (l := List.filter _ _) in Hr. case_match eqn:Ec.
  - apply wp_bind. eapply wp_mono; [apply Hbcrypt|]. cbn beta. intros h w2 H2. rewrite H1 in H2.
    apply wp_bind. eapply wp_mono; [by apply quiet_now|]. cbn beta. intros now w3 (H3 & _).
    apply wp_bind. apply (wp_sql _ _ _ x); [done| |].
    + intros [] w' x' E Hv' _. apply wp_ret. exists x'.
      destruct (insert_user_grown P _ _ _ _ _ _ _ HP E). auto.
    + intros e w' x' Hx Hv' _ Ha. apply wp_ret. exists x'. split; [done|]. destruct Hx as [->|[a E]].
      * split; [apply grown_refl|]. intros Hans. destruct (Ha Hans) as [_ E].
        unfold insert_user in E. by case_bool_decide.
      * by destruct (insert_user_grown P _ _ _ _ _ _ _ HP E).
  - apply wp_ret. exists x. split_and!; [done|apply grown_refl|]. intros Hans.
    rewrite (Hr (or_intror Hans)) in Ec. destruct l as [|u l'] eqn:El; [done|].
    assert (u ∈ l) as Hu by (rewrite El; by left). apply list_elem_of_In, filter_In in Hu as [Hu Hp].
    apply andb_true_iff in Hp as [Hp _]. apply String.eqb_eq in Hp as <-.
    unfold emails. apply list_elem_of_fmap. exists u. split; [done|by apply list_elem_of_In].
Qed.
End seeding.

(** Seeding under any faults.  It only adds users, at most one per email
    and only the configured administrator and user, with these roles and not
    deleted; when every request is answered a configured email is taken
    afterwards, so that seeding again adds nothing. *)
Theorem SeedUsers_effect {W} {wo : World W istate} (GenerateFromPassword : string -> proc W (res string))
    (adminEmail adminPassword userEmail userPassword : string) (w : W) (x : istate) :
  (forall p w, wp (GenerateFromPassword p) (fun _ w' => tables w' = tables w) w) ->
  tables w = DView x None ->
  wp (SeedUsers GenerateFromPassword adminEmail adminPassword userEmail userPassword) (fun _ w' => exists x',
    tables w' = DView x' None /\ grown (seeded adminEmail userEmail) x x' /\
    (Answers wo -> (adminEmail <> "" -> adminPassword <> "" -> adminEmail ∈ emails x') /\
       (userEmail <> "" -> userPassword <> "" -> userEmail ∈ emails x'))) w.
Proof.
  intros Hb Hv. apply wp_bind.
  apply (wp_mono _ (fun _ w1 => exists x1, tables w1 = DView x1 None /\ grown (seeded adminEmail userEmail) x x1 /\
    (Answers wo -> adminEmail <> "" -> adminPassword <> "" -> adminEmail ∈ emails x1))).
  - destruct (String.eqb_spec adminEmail ""), (String.eqb_spec adminPassword ""); cbn [orb];
      try (apply wp_ret; exists x; split_and!; [done|apply grown_refl|done]).
    eapply wp_mono; [apply (seedSingleUser_grown _ Hb (seeded adminEmail userEmail) _ _ _ _ x); [|exact Hv]|].
    + intros u He Hr Hd. split; [done|]. by left.
    + cbn beta. naive_solver.
  - cbn beta. intros _ w1 (x1 & H1 & G1 & A1).
    assert (forall x2, grown (seeded adminEmail userEmail) x1 x2 -> adminEmail ∈ emails x1 -> adminEmail ∈ emails x2) as Hkeep.
    { intros x2 (_ & _ & _ & l & E & _) Hin. unfold emails. rewrite E, map_app, elem_of_app. by left. }
    destruct (String.eqb_spec userEmail ""), (String.eqb_spec userPassword ""); cbn [orb];
      try (apply wp_ret; exists x1; naive_solver).
    eapply wp_mono; [apply (seedSingleUser_grown _ Hb (seeded adminEmail userEmail) _ _ _ _ x1); [|exact H1]|].
    + intros u He Hr Hd. split; [done|]. by right.
    + cbn beta. intros _ w2 (x2 & H2 & G2 & A2). exists x2. split_and!; [done|by eapply grown_trans|].
      intros Hans. split; auto.
Qed.

(** ** The theorems at work *)
Definition toy_random {W} : AEAD W := {|
  Seal := fun _ _ text => text; Open := fun _ _ text => Some text;
  rand_read := fun n w => (Ok (toy_bytes n), w) |}.

#[export] Instance toy_random_quiet {W R} (wo : SharedWorld W istate R) : QuietRandom wo toy_random.
Proof. intros n w. by split. Qed.

Definition bearer_request (tok : string) : request := {|
  Method := "GET"; Header := {["Authorization" := ["Bearer " +:+ tok]]}; Query := fun _ => ""; Body := Ok "" |}.

Definition seed_hash {W} (p : string) : proc W (res string) := mret (Ok ("bcrypt:" +:+ p)).

Lemma Verify_effect_witness :
  rs_status (Verify (srv := calm_host istate) (cr := toy_crypto) "secret" (bearer_request ann_access) calm_ann).1 = 200%Z /\
  wp (Verify (srv := stormy_host istate) (cr := toy_crypto) "secret" (bearer_request ann_access))
    (fun a w' => tables (wo := stormy istate) w' = DView ann_tables None /\
    redis (host (wo := stormy istate) w') = empty_redis /\
    (extractToken (bearer_request ann_access) = "" -> rs_status a = StatusUnauthorized) /\
    (extractToken (bearer_request ann_access) <> "" ->
     exists now t, (0 <= now <= t)%Z /\ (t <= clock (host (wo := stormy istate) w'))%Z /\
       (answers_for (cr := toy_crypto) (bearer_request ann_access)
          (verdict (cr := toy_crypto) "secret" empty_redis now t (extractToken (bearer_request ann_access))) a \/
        ~ Answers (stormy istate) /\ exists c,
          jwt_parse (Crypto := toy_crypto) now "secret" (extractToken (bearer_request ann_access)) = Some c /\
          answers_for (cr := toy_crypto) (bearer_request ann_access) (Ok (principal_of c)) a)))
    (stormy_ann [FailBefore] []).
Proof.
  split; [by vm_compute|].
  exact (Verify_effect (wo := stormy istate) (cr := toy_crypto) "secret" (bearer_request ann_access)
    (stormy_ann [FailBefore] []) ann_tables eq_refl).
Defined.

Definition ann_login : LoginRequest := {| Identifier := "ann@x.org"; LoginPassword := "pw" |}.
Definition ann_ctx : ctx := Ctx (Some "10.0.0.9:555") None None.


Lemma SeedUsers_effect_witness :
  map U_Email (users (committed (tables (wo := calm istate)
    (SeedUsers (wo := calm istate) seed_hash "root@x.org" "r00t" "ann@x.org" "pw" calm_ann).2))) = ["ann@x.org"; "root@x.org"] /\
  wp (SeedUsers (wo := stormy istate) seed_hash "root@x.org" "r00t" "ann@x.org" "pw") (fun _ w' => exists x',
    tables (wo := stormy istate) w' = DView x' None /\ grown (seeded "root@x.org" "ann@x.org") ann_tables x' /\
    (Answers (stormy istate) -> ("root@x.org" <> "" -> "r00t" <> "" -> "root@x.org" ∈ emails x') /\
       ("ann@x.org" <> "" -> "pw" <> "" -> "ann@x.org" ∈ emails x'))) (stormy_ann [] [FailBefore; FailAfter]).
Proof.
  split; [by vm_compute|].
  exact (SeedUsers_effect (wo := stormy istate) seed_hash "root@x.org" "r00t" "ann@x.org" "pw"
    (stormy_ann [] [FailBefore; FailAfter]) ann_tables (fun _ _ => eq_refl) eq_refl).
Defined.
