(* ===== verification/Calendar.v ===== *)
(** Dates as text ([Time.Format]), the inverse of [ParseDate], and the float64
    arithmetic of the reports ([Duration.Hours], percentages), which is that of
    the Standard Library's executable model of IEEE 754. *)
From S2P Require Import Prelude GoStd.
From Stdlib Require Import Ascii SpecFloat.

(** ** Civil dates *)

(** The year of an era of 400 years (from March) and the day of that year:
    whole centuries, then cycles of four years, then years. *)
Definition year_and_day (doe : Z) : Z * Z :=
  (let c := Z.min (doe / 36524) 3 in
   let r := doe - 36524 * c in
   let q := r / 1461 in
   let r := r - 1461 * q in
   let a := Z.min (r / 365) 3 in
   (100 * c + 4 * q + a, r - 365 * a))%Z.

(** The month (from March) and the day of that month. *)
Definition month_and_day (doy : Z) : Z * Z :=
  (let mp := (5 * doy + 2) / 153 in (mp, doy - (153 * mp + 2) / 5 + 1))%Z.

(** The date of a day counted from the epoch. *)
Definition civil_from_days (n : Z) : Z * Z * Z :=
  (let z := n + 719468 in
   let era := z / 146097 in
   let '(yoe, doy) := year_and_day (z - era * 146097) in
   let '(mp, d) := month_and_day doy in
   let m := if mp <? 10 then mp + 3 else mp - 9 in
   let y := yoe + era * 400 in
   ((if m <=? 2 then y + 1 else y), m, d))%Z.

Definition digit_char (d : Z) : ascii := of_byte (48 + d).
Definition pad2 (n : Z) : string := String (digit_char (n / 10)) (String (digit_char (n mod 10)) "").
(** At least four digits. *)
Definition pad4 (n : Z) : string :=
  if in_range 0 9999 n then pad2 (n / 100) +:+ pad2 (n mod 100) else Itoa n.

Definition date_text (n : Z) : string :=
  let '(y, m, d) := civil_from_days n in pad4 y +:+ "-" +:+ pad2 m +:+ "-" +:+ pad2 d.

(** [Format "2006-01-02"] and [Format "2006-01-02T15:04:05Z"] of a time whose
    location is [zone] nanoseconds ahead of UTC. *)
Definition FormatDate (zone t : Z) : string := date_text ((t + zone) / day).
Definition clock_text (s : Z) : string :=
  pad2 (s / 3600) +:+ ":" +:+ pad2 (s / 60 mod 60) +:+ ":" +:+ pad2 (s mod 60).
Definition FormatInstant (zone t : Z) : string :=
  FormatDate zone t +:+ "T" +:+ clock_text ((t + zone) mod day / Second) +:+ "Z".

Example FormatInstant_ex : FormatInstant 0 1752580805000000000 = "2025-07-15T12:00:05Z".
Proof. by vm_compute. Qed.

(** *** Back and forth *)

Lemma year_and_day_spec doe :
  (0 <= doe < 146097)%Z ->
  let '(yoe, doy) := year_and_day doe in
  (0 <= yoe <= 399)%Z /\ (0 <= doy <= 365)%Z /\ (yoe * 365 + yoe / 4 - yoe / 100 + doy)%Z = doe.
Proof.
  intros Hd. unfold year_and_day. cbv zeta.
  set (c := Z.min (doe / 36524) 3). assert (0 <= c <= 3 /\ 36524 * c <= doe <= 36524 * c + 36524)%Z as [Hc Hr].
  { subst c. pose proof (Z.div_mod doe 36524 ltac:(done)). pose proof (Z.mod_pos_bound doe 36524 ltac:(done)).
    assert (0 <= doe / 36524 <= 4)%Z by lia. lia. }
  assert (doe < 36524 * c + 36524 \/ c = 3)%Z as Hlast.
  { subst c. pose proof (Z.div_mod doe 36524 ltac:(done)). pose proof (Z.mod_pos_bound doe 36524 ltac:(done)). lia. }
  clearbody c. set (r := (doe - 36524 * c)%Z). set (q := (r / 1461)%Z).
  assert (0 <= q <= 24 /\ 1461 * q <= r <= 1461 * q + 1460)%Z as [Hq Hr2].
  { pose proof (Z.div_mod r 1461 ltac:(done)) as E. pose proof (Z.mod_pos_bound r 1461 ltac:(done)). fold q in E.
    subst r. lia. }
  clearbody q. set (r2 := (r - 1461 * q)%Z). set (a := Z.min (r2 / 365) 3).
  assert (0 <= a <= 3 /\ 365 * a <= r2 <= 365 * a + 365)%Z as [Ha Hr3].
  { subst a. pose proof (Z.div_mod r2 365 ltac:(done)). pose proof (Z.mod_pos_bound r2 365 ltac:(done)).
    subst r2. lia. }
  clearbody a. split; [lia|]. split; [lia|].
  assert ((100 * c + 4 * q + a) / 4 = 25 * c + q)%Z as ->.
  { symmetry. apply (Z.div_unique_pos _ _ _ a); lia. }
  assert ((100 * c + 4 * q + a) / 100 = c)%Z as ->.
  { symmetry. apply (Z.div_unique_pos _ _ _ (4 * q + a)); lia. }
  subst r2 r. lia.
Qed.

Definition month_agrees (doy : Z) : bool :=
  let '(mp, d) := month_and_day doy in
  in_range 0 11 mp && in_range 1 31 d && ((153 * mp + 2) / 5 + d - 1 =? doy)%Z.

Lemma month_and_day_spec doy :
  (0 <= doy <= 365)%Z ->
  let '(mp, d) := month_and_day doy in
  (0 <= mp <= 11)%Z /\ (1 <= d <= 31)%Z /\ ((153 * mp + 2) / 5 + d - 1)%Z = doy.
Proof.
  intros Hd. assert (forallb (fun k => month_agrees (Z.of_nat k)) (seq 0 366) = true) as Hall by (by vm_compute).
  rewrite forallb_forall in Hall. specialize (Hall (Z.to_nat doy) ltac:(apply in_seq; lia)).
  rewrite Z2Nat.id in Hall by lia. unfold month_agrees in Hall. destruct (month_and_day doy) as [mp d].
  unfold in_range in Hall. rewrite !andb_true_iff, !Z.leb_le, Z.eqb_eq in Hall. tauto.
Qed.

Lemma days_from_civil_from_days n :
  let '(y, m, d) := civil_from_days n in days_from_civil y m d = n /\ (1 <= m <= 12)%Z /\ (1 <= d <= 31)%Z.
Proof.
  unfold civil_from_days. set (z := (n + 719468)%Z). set (era := (z / 146097)%Z).
  assert (0 <= z - era * 146097 < 146097)%Z as Hz.
  { pose proof (Z.div_mod z 146097 ltac:(done)) as E. pose proof (Z.mod_pos_bound z 146097 ltac:(done)).
    fold era in E. lia. }
  pose proof (year_and_day_spec _ Hz) as Hyd. destruct (year_and_day _) as [yoe doy]. destruct Hyd as (Hy & Hdoy & E).
  pose proof (month_and_day_spec _ Hdoy) as Hmd. destruct (month_and_day _) as [mp d]. destruct Hmd as (Hm & Hd & E').
  split; [|by destruct (Z.ltb_spec mp 10); lia].
  unfold days_from_civil.
  assert (forall y', y' = (yoe + era * 400)%Z -> (y' / 400 = era)%Z /\ (y' - y' / 400 * 400 = yoe)%Z) as Hera.
  { intros y' ->. rewrite Z.div_add, (Z.div_small yoe) by lia. lia. }
  destruct (Z.ltb_spec mp 10).
  - rewrite (proj2 (Z.leb_gt (mp + 3) 2)), (proj2 (Z.ltb_lt 2 (mp + 3))) by lia.
    destruct (Hera (yoe + era * 400)%Z eq_refl) as [-> ->]. replace (mp + 3 - 3)%Z with mp by lia.
    subst z. lia.
  - rewrite (proj2 (Z.leb_le (mp - 9) 2)), (proj2 (Z.ltb_ge 2 (mp - 9))) by lia.
    destruct (Hera (yoe + era * 400 + 1 - 1)%Z ltac:(lia)) as [-> ->]. replace (mp - 9 + 9)%Z with mp by lia.
    subst z. lia.
Qed.

(** ** float64 *)
Definition f64 : Type := spec_float.
Definition f64_of_int (z : Z) : f64 := binary_normalize 53 1024 z 0 false.
Definition f64_mul : f64 -> f64 -> f64 := SFmul 53 1024.
Definition f64_div : f64 -> f64 -> f64 := SFdiv 53 1024.
Definition f64_add : f64 -> f64 -> f64 := SFadd 53 1024.
Definition f64_ge (a b : f64) : bool := SFleb b a.

(** [int (f)], towards zero. *)
Definition int_of_f64 (f : f64) : Z :=
  match f with
  | S754_finite s m e =>
    let v := if (0 <=? e)%Z then (Z.pos m * 2 ^ e)%Z else (Z.pos m / 2 ^ (- e))%Z in
    if s then (- v)%Z else v
  | _ => 0%Z
  end.

(** [Duration.Hours]. *)
Definition Hours (d : Z) : f64 :=
  f64_add (f64_of_int (Z.quot d Hour)) (f64_div (f64_of_int (Z.rem d Hour)) (f64_of_int Hour)).

(** [Time.Sub] saturates. *)
Definition Sub (t u : Z) : Z := Z.max min_int64 (Z.min max_int64 (t - u)).

Example percent_third : f64_div (f64_mul (f64_of_int 1) (f64_of_int 100)) (f64_of_int 3) =
  S754_finite false 4691249611844267 (-47).
Proof. by vm_compute. Qed.
