(* ===== verification/ManagementApi.v ===== *)
(** sms-management, the interface: the gRPC methods
    (handler/grpc/server_handler.go), the REST import and export
    (handler/rest/import_export_handler.go), the export of the service
    (service/import_export.go) with the theorems on what a caller is told. *)
From S2P Require Import Prelude GoStd Sql Json Redis Host ManagementData ManagementService ManagementOutbox World Access Http Calendar.
From Stdlib Require Import Ascii.

(** ** Export (service/import_export.go) *)

(** [t.Format] with the layouts ["2006-01-02 15:04:05"], ["20060102_150405"]
    and [time.RFC3339], at [zone] nanoseconds east of UTC. *)
Definition FormatDateTime (zone t : Z) : string :=
  date_text ((t + zone) / day) +:+ " " +:+ clock_text ((t + zone) mod day / Second).
Definition no_char (bad : ascii) (s : string) : string :=
  String.concat "" (Split s bad).
Definition FormatStamp (zone t : Z) : string :=
  no_char "-" (date_text ((t + zone) / day)) +:+ "_" +:+ no_char ":" (clock_text ((t + zone) mod day / Second)).
Definition FormatRFC3339 (zone t : Z) : string :=
  let offset := (zone / Minute)%Z in
  date_text ((t + zone) / day) +:+ "T" +:+ clock_text ((t + zone) mod day / Second) +:+
  (if (zone / Second =? 0)%Z then "Z"
   else (if (offset <? 0)%Z then "-" else "+") +:+ pad2 (Z.abs offset / 60) +:+ ":" +:+ pad2 (Z.abs offset mod 60)).

Example FormatRFC3339_ex : FormatRFC3339 (7 * Hour) 1752580805000000000 = "2025-07-15T19:00:05+07:00" /\
  FormatStamp 0 1752580805000000000 = "20250715_120005" /\ FormatDateTime 0 1752580805000000000 = "2025-07-15 12:00:05".
Proof. by vm_compute. Qed.

Definition export_header : list string := ["Server Name"; "IPv4 Address"; "Status"; "Created At"; "Last Updated"].
Definition export_row (zone : Z) (s : Server) : list string := [
  ServerName s; IPv4 s; CurrentStatus s; FormatDateTime zone (CreatedAt s); FormatDateTime zone (UpdatedAt s)].
(** The rows given to the stream writer, the first one being row 1. *)
Definition export_rows (zone : Z) (l : list Server) : list (list string) :=
  export_header :: map (export_row zone) l.

(** An empty text leaves the zero time; the end is the midnight after.  The
    two copies differ in how they wrap the message. *)
Definition parseCreatedDateRange (createdFrom createdTo : string) : string + Z * Z :=
  match (if String.eqb createdFrom "" then Ok zero_time else ParseDate createdFrom) with
  | Err _ => inl "Created From must use YYYY-MM-DD format."
  | Ok from =>
    match (if String.eqb createdTo "" then Ok zero_time
           else match ParseDate createdTo with Ok to => Ok (to + day)%Z | Err e => Err e end) with
    | Err _ => inl "Created To must use YYYY-MM-DD format."
    | Ok to =>
      if negb (IsZero from) && negb (IsZero to) && negb (from <? to)%Z
      then inl "Created From must be before or equal to Created To."
      else inr (from, to)
    end
  end.

(** handler/rest/import_export_handler.go *)
Definition rest_parseCreatedDateRange := parseCreatedDateRange.

(** ** gRPC messages *)
Record CreateServerRequest := {
  rq_ServerName : string; rq_Ipv4 : string; rq_HealthCheckMethod : string; rq_SshPort : Z;
  rq_SshUser : string; rq_SshKey : string; rq_AgentEndpoint : string;
}.
Record UpdateServerRequest := { rq_ServerId : string; rq_Server : CreateServerRequest }.
Record ViewServersRequest := {
  rq_Page : Z; rq_Limit : Z; rq_FilterStatus : string; rq_FilterName : string;
  rq_CreatedFrom : string; rq_CreatedTo : string; rq_SortBy : string; rq_SortDirection : string;
}.

(** A server as the interface shows it. *)
Record PBServer := {
  pb_ServerId : string; pb_ServerName : string; pb_Ipv4 : string; pb_CurrentStatus : string;
  pb_CreatedAt : string; pb_UpdatedAt : string; pb_HealthCheckMethod : string; pb_SshPort : Z;
  pb_SshUser : string; pb_SshKey : string; pb_AgentEndpoint : string;
}.

#[export] Instance PBServer_eq_dec : EqDecision PBServer.
Proof. solve_decision. Defined.

Definition mapServerToPB (zone : Z) (s : Server) : PBServer := {|
  pb_ServerId := ServerID s; pb_ServerName := ServerName s; pb_Ipv4 := IPv4 s; pb_CurrentStatus := CurrentStatus s;
  pb_CreatedAt := FormatRFC3339 zone (CreatedAt s); pb_UpdatedAt := FormatRFC3339 zone (UpdatedAt s);
  pb_HealthCheckMethod := HealthCheckMethod s; pb_SshPort := wrap32 (SSHPort s);
  pb_SshUser := SSHUser s; pb_SshKey := "";   (* never return to frontend *)
  pb_AgentEndpoint := AgentEndpoint s |}.

Definition mapError (e : err) : status :=
  let isErr := errors_Is e in
  Status
    (if isErr ErrServerNotFound then NotFound
     else if isErr ErrIPv4Exists || isErr ErrNameExists then AlreadyExists
     else if isErr ErrFileTooLarge || isErr ErrInvalidFormat || isErr ErrNoSheets || isErr ErrEmptyFile || isErr ErrMissingCols
     then InvalidArgument
     else if isErr ErrInvalidSSHPort || isErr ErrInvalidSSHUser || isErr ErrInvalidSSHKey || isErr ErrInvalidSSHKeyFormat ||
             isErr ErrInvalidAgentEndpoint || isErr ErrInvalidAgentEndpointFormat || isErr ErrInvalidStatusFilter
     then InvalidArgument
     else Internal)
    (ErrorText e).

Definition answer {A B} (f : A -> B) (r : res A) : outcome B :=
  match r with Ok a => Reply (f a) | Err e => Refused (mapError e) end.

(** The settings of a request; no method means ICMP. *)
Definition input_of (req : CreateServerRequest) : ServerInput := {|
  in_ServerName := rq_ServerName req; in_IPv4 := rq_Ipv4 req;
  in_HealthCheckMethod := if String.eqb (rq_HealthCheckMethod req) "" then MethodICMP else rq_HealthCheckMethod req;
  in_SSHPort := rq_SshPort req; in_SSHUser := rq_SshUser req; in_SSHKey := rq_SshKey req;
  in_AgentEndpoint := rq_AgentEndpoint req |}.

Definition filter_of (req : ViewServersRequest) (range : Z * Z) : ServerListFilter := {|
  Page := rq_Page req; PageSize := rq_Limit req; ManagementData.Status := rq_FilterStatus req; Name := rq_FilterName req;
  CreatedFrom := range.1; CreatedTo := range.2; SortBy := rq_SortBy req; SortDirection := rq_SortDirection req |}.

Record ViewServersResponse := { TotalCount : Z; Servers : list PBServer }.
Record ExportServersResponse := { FileContent : string; Filename : string }.

Section api.
Context {W} {wo : World W mstate} `{pg : Postgres}.
(** As in the service; [net.ParseIP] finds an address; the zone of the process;
    [excelize] writes the rows to a file; [err.Error()]. *)
Context (Encrypt : string -> proc W (res string)) (ParseRequestURI : string -> bool) (time_json : Z -> string).
Context (ParseIP : string -> bool) (OpenReader : string -> option sheet) (is_ipv4 : string -> bool).
Context (zone : Z) (write_sheet : list (list string) -> res string) (Error : err -> string).

Definition generateServerExcel (l : list Server) : res string := write_sheet (export_rows zone l).

Definition ExportServers (f : ServerListFilter) : proc W (res (string * string)) :=
  r <-- Search f;
  match r with
  | Err e => mret (Err (ErrWrap "failed to fetch servers for export" e))
  | Ok (l, _) =>
    match generateServerExcel l with
    | Err e => mret (Err e)
    | Ok buf =>
      now <-- time_Now;
      mret (Ok (buf, "servers_export_" +:+ FormatStamp zone now +:+ ".xlsx"))
    end
  end.

(** *** handler/grpc/server_handler.go *)
Definition request_required {A} : outcome A := refuse InvalidArgument "request is required".

(** What is wrong with a request before the service sees it. *)
Definition malformed_create (req : CreateServerRequest) : option string :=
  if String.eqb (rq_ServerName req) "" then Some "Server name is required."
  else if (100 <? Z.of_nat (String.length (rq_ServerName req)))%Z then Some "Server name is too long."
  else if String.eqb (rq_Ipv4 req) "" then Some "IPv4 address is required."
  else if negb (ParseIP (rq_Ipv4 req)) then Some "Invalid IPv4 address."
  else None.

Definition CreateServer_grpc : handler (W := W) (Req := option CreateServerRequest) (Resp := PBServer) := fun _ req =>
  match req with
  | None => mret request_required
  | Some req =>
    match malformed_create req with
    | Some msg => mret (refuse InvalidArgument msg)
    | None =>
      r <-- CreateServer Encrypt ParseRequestURI time_json (input_of req);
      mret (answer (mapServerToPB zone) r)
    end
  end.

Definition UpdateServer_grpc : handler (W := W) (Req := option UpdateServerRequest) (Resp := PBServer) := fun _ req =>
  match req with
  | None => mret request_required
  | Some req =>
    r <-- UpdateServer Encrypt ParseRequestURI time_json (rq_ServerId req) (input_of (rq_Server req));
    mret (answer (mapServerToPB zone) r)
  end.

Definition DeleteServer_grpc : handler (W := W) (Req := option string) (Resp := bool) := fun _ req =>
  match req with
  | None => mret request_required
  | Some id => r <-- DeleteServer id; mret (answer (fun _ => true) r)
  end.

Definition ViewServers_grpc : handler (W := W) (Req := option ViewServersRequest) (Resp := ViewServersResponse) := fun _ req =>
  match req with
  | None => mret request_required
  | Some req =>
    match parseCreatedDateRange (rq_CreatedFrom req) (rq_CreatedTo req) with
    | inl msg => mret (refuse InvalidArgument msg)
    | inr range =>
      r <-- SearchServers (filter_of req range);
      mret (answer (fun '(l, n) => {| TotalCount := n; Servers := map (mapServerToPB zone) l |}) r)
    end
  end.

Definition ImportServers_grpc : handler (W := W) (Req := option string) (Resp := ImportResult) := fun _ req =>
  match req with
  | None => mret request_required
  | Some content => r <-- ImportServers time_json OpenReader is_ipv4 content; mret (answer id r)
  end.

Definition ExportServers_grpc : handler (W := W) (Req := option ViewServersRequest) (Resp := ExportServersResponse) := fun _ req =>
  match req with
  | None => mret request_required
  | Some req =>
    match parseCreatedDateRange (rq_CreatedFrom req) (rq_CreatedTo req) with
    | inl msg => mret (refuse InvalidArgument msg)
    | inr range =>
      r <-- ExportServers (filter_of req range);
      mret (answer (fun '(buf, name) => {| FileContent := buf; Filename := name |}) r)
    end
  end.

(** *** handler/rest/import_export_handler.go *)

(** [mime/multipart]: the form name and the data of each part of a body up to
    the first error. *)
Context (NextParts : string -> string -> list (string * string)).

Definition maxSize : nat := 2097152.

Definition writeJSON (status : Z) (data : json) : response := {|
  rs_status := status; rs_header := [("Content-Type", "application/json")]; rs_body := Marshal data +:+ newline |}.
Definition writeError (status : Z) (message : string) : response :=
  writeJSON status (JObj [("code", JInt status); ("message", JStr message)]).

Definition extractBoundary (contentType : string) : string :=
  match List.find (fun part => HasPrefix part "boundary=") (map TrimSpace (Split contentType ";")) with
  | Some part => TrimPrefix part "boundary="
  | None => ""
  end.

Definition extractFileFromMultipart (contentType raw : string) : option string :=
  let boundary := extractBoundary contentType in
  if String.eqb boundary "" || negb (HasPrefix raw "--") then None
  else snd <$> List.find (fun part => String.eqb part.1 "file") (NextParts boundary raw).

(** A slice that nothing was appended to is nil. *)
Definition json_names (l : list string) : json :=
  match l with [] => JNull | l => JArr (map JStr l) end.

Definition import_status (e : err) : Z :=
  if errors_Is e ErrFileTooLarge then StatusRequestEntityTooLarge
  else if errors_Is e ErrInvalidFormat || errors_Is e ErrEmptyFile || errors_Is e ErrNoSheets || errors_Is e ErrMissingCols
  then StatusBadRequest
  else StatusInternalServerError.

Definition HandleImport (r : request) : proc W response :=
  if negb (String.eqb (Method r) "POST") then mret (writeError StatusMethodNotAllowed "Method not allowed.")
  else
    match Body r with
    | Err _ => mret (writeError StatusBadRequest "Failed to read request body.")
    | Ok raw =>
      if decide (maxSize < String.length raw)
      then mret (writeError StatusBadRequest "Failed to read request body.")    (* http.MaxBytesReader *)
      else
        let fileBytes := default raw (extractFileFromMultipart (Header_Get (Header r) "Content-Type") raw) in
        result <-- ImportServers time_json OpenReader is_ipv4 fileBytes;
        match result with
        | Err e => mret (writeError (import_status e) (Error e))
        | Ok result =>
          mret (writeJSON StatusOK (JObj [
            ("failCount", JInt (FailCount result)); ("failedServers", json_names (FailedServers result));
            ("successCount", JInt (SuccessCount result)); ("successfulServers", json_names (SuccessfulServers result))]))
        end
    end.

Definition at_least (n low fallback : Z) : Z := if (n <? low)%Z then fallback else n.

Definition HandleExport (r : request) : proc W response :=
  if negb (String.eqb (Method r) "GET") then mret (writeError StatusMethodNotAllowed "Method not allowed.")
  else
    let q := Query r in
    match rest_parseCreatedDateRange (q "createdFrom") (q "createdTo") with
    | inl msg => mret (writeError StatusBadRequest msg)
    | inr range =>
      result <-- ExportServers {|
        Page := at_least (Atoi (q "page")).1 1 1; PageSize := at_least (Atoi (q "limit")).1 1 100;
        ManagementData.Status := q "filterStatus"; Name := q "filterName"; CreatedFrom := range.1; CreatedTo := range.2;
        SortBy := q "sortBy"; SortDirection := q "sortDirection" |};
      match result with
      | Err e => mret (writeError StatusInternalServerError (Error e))
      | Ok (fileBytes, filename) => mret {|
          rs_status := StatusOK;
          rs_header := [("Content-Type", "application/vnd.openxmlformats-officedocument.spreadsheetml.sheet");
            ("Content-Disposition", "attachment; filename=" +:+ String dquote (filename +:+ String dquote ""))];
          rs_body := fileBytes |}
      end
    end.
End api.

(** ** What the answers mean *)
#[export] Instance management_frame {W} {wo : World W mstate} : Frame world_host (ManagementService.tables (db := world_db)).
Proof. exact world_host_frame. Qed.

Section answers.
Context {W} {wo : World W mstate} {Hans : Answers wo} `{pg : Postgres}.
Context (Encrypt : string -> proc W (res string)) (ParseRequestURI : string -> bool) (time_json : Z -> string).
Context (ParseIP : string -> bool) (zone : Z).

(** Some server has this text, without surrounding white space, there. *)
Definition has_server (field : Server -> string) (v : string) (x : mstate) : bool :=
  existsb (fun s => String.eqb (field s) (TrimSpace v)) (servers x).

(** What is wrong with a creation, given the servers that exist. *)
Definition create_refusal (x : mstate) (req : CreateServerRequest) : option status :=
  let i := input_of req in
  match malformed_create ParseIP req with
  | Some msg => Some (Status InvalidArgument (Text msg))
  | None =>
    if has_server ServerName (rq_ServerName req) x then Some (Status AlreadyExists (ErrorText ErrNameExists))
    else if has_server IPv4 (rq_Ipv4 req) x then Some (Status AlreadyExists (ErrorText ErrIPv4Exists))
    else match validate_create ParseRequestURI i with
         | Some e => Some (Status InvalidArgument (ErrorText e))
         | None => None
         end
  end.

(** The server that a creation asks for. *)
Definition as_requested (req : CreateServerRequest) (s : Server) : Prop :=
  ServerName s = TrimSpace (rq_ServerName req) /\ IPv4 s = TrimSpace (rq_Ipv4 req) /\
  HealthCheckMethod s = (if String.eqb (rq_HealthCheckMethod req) "" then MethodICMP else rq_HealthCheckMethod req) /\
  CurrentStatus s = ServerStatusUnknown.

Lemma existsb_find {A} (p : A -> bool) l : existsb p l = match List.find p l with Some _ => true | None => false end.
Proof. induction l as [|a l IH]; cbn; [done|]. by destruct (p a). Qed.

Lemma validate_create_code i e : validate_create ParseRequestURI i = Some e -> mapError e = Status InvalidArgument (ErrorText e).
Proof. unfold validate_create. by repeat case_match; intros; simplify_eq. Qed.

Lemma CreateServer_answers i w x :
  encrypt_quiet (db := world_db) Encrypt -> ManagementService.tables w = DView x None ->
  wp (CreateServer Encrypt ParseRequestURI time_json i) (fun r w' =>
    if has_server ServerName (in_ServerName i) x then r = Err ErrNameExists /\ ManagementService.tables w' = DView x None
    else if has_server IPv4 (in_IPv4 i) x then r = Err ErrIPv4Exists /\ ManagementService.tables w' = DView x None
    else match validate_create ParseRequestURI i with
         | Some e => r = Err e /\ ManagementService.tables w' = DView x None
         | None =>
           match r with
           | Err e => ManagementService.tables w' = DView x None
           | Ok s => exists x', ManagementService.tables w' = DView x' None /\ created time_json [s] x x' /\
               exists now uuid key, s = fill_defaults now uuid (trimmed (new_server (clean_input i) key))
           end
         end) w.
Proof.
  intros He Hv. apply wp_try. eapply wp_mono; [by apply (existing_spec _ _ x)|]. cbn beta.
  intros r1 w1 (x1 & ->%rtc_nobody & H1 & Hr1). rewrite (Hr1 answers_db). clear Hr1. unfold has_server. rewrite existsb_find.
  destruct (List.find _ (servers x)) as [s1|]; [by apply wp_ret|].
  apply wp_try. eapply wp_mono; [by apply (existing_spec _ _ x)|]. cbn beta.
  intros r2 w2 (x1 & ->%rtc_nobody & H2 & Hr2). rewrite (Hr2 answers_db). clear Hr2. rewrite existsb_find.
  destruct (List.find _ (servers x)) as [s2|]; [by apply wp_ret|].
  destruct (validate_create ParseRequestURI i); [by apply wp_ret|].
  apply wp_try. eapply wp_mono; [by apply encrypt_key_spec|]. cbn beta.
  intros [key|e3] w3 H3; [|done].
  apply (wp_transaction_reliable _ (fun s x' => created time_json [s] x x' /\
    exists now uuid, s = fill_defaults now uuid (trimmed (new_server (clean_input i) key))) _ _ x); [exact H3| | |done].
  - intros w4 H4. eapply wp_mono; [by apply create_tx_spec|]. by intros [s|e] w5.
  - intros s x' w' [Hc (now & u & Hs)] Hv'. exists x'. split; [done|]. split; [done|]. by exists now, u, key.
Qed.
End answers.

(** *** Searching *)
Section search.
Context {W} {wo : World W mstate} {Hans : Answers wo} `{pg : Postgres}.

(** The servers a filter selects, in its order. *)
Definition selection (f : ServerListFilter) (x : mstate) : option (list Server) :=
  order_by (order_clause f) (List.filter (matches f) (servers x)).

Lemma Search_spec f w x :
  ManagementService.tables w = DView x None ->
  wp (Search f) (fun r w' => ManagementService.tables w' = DView x None /\
    r = match selection f x with
        | None => Err ErrInvalidText
        | Some l => Ok (limit_rows (PageSize f) (offset_rows (wrap64 ((Page f - 1) * PageSize f)) l),
                        wrap32 (Z.of_nat (length (List.filter (matches f) (servers x)))))
        end) w.
Proof.
  intros Hv. apply wp_try. eapply wp_mono; [by apply (wp_query _ _ x)|]. cbn beta.
  intros r w1 [H1 Hr]. rewrite (Hr (or_intror answers_db)). cbn.
  apply wp_try. eapply wp_mono; [apply (wp_query _ _ x); [exact H1|]|].
  { intros y. by destruct (order_by _ _). }
  cbn beta. intros r2 w2 [H2 Hr2]. rewrite (Hr2 (or_intror answers_db)). unfold selection.
  destruct (order_by _ _); cbn; [by apply wp_ret|done].
Qed.

Definition page {A} (n : Z) (p : nat) (l : list A) : list A := take (Z.to_nat n) (drop ((p - 1) * Z.to_nat n) l).

Lemma pages_cover {A} (n : Z) (k : nat) (l : list A) :
  concat (map (fun p => page n p l) (seq 1 k)) = take (k * Z.to_nat n) l.
Proof.
  induction k as [|k IH]; [done|].
  rewrite seq_S, map_app, concat_app, IH. cbn [map concat app]. rewrite app_nil_r. unfold page.
  replace (1 + k - 1) with k by lia. rewrite take_take_drop. f_equal. lia.
Qed.

Lemma limit_page {A} n p (l : list A) :
  (1 <= n <= 100)%Z -> (1 <= Z.of_nat p < 2 ^ 31)%Z ->
  limit_rows n (offset_rows (wrap64 ((Z.of_nat p - 1) * n)) l) = page n p l.
Proof.
  intros Hn Hp. unfold limit_rows, offset_rows, page.
  destruct (Z.ltb_spec n 0); [lia|]. rewrite wrap64_id by (unfold min_int64, max_int64; nia).
  do 2 f_equal. rewrite Z2Nat.inj_mul by lia. f_equal. lia.
Qed.
End search.

(** ** The theorems *)


Definition admin_ctx : ctx := Ctx None (Some (user_md "1" "ADMIN")) None.
Definition api_world : hview * dview mstate := (HView 0 empty_redis, DView sample_tables None).
Definition api_request (name ip method : string) : CreateServerRequest := {|
  rq_ServerName := name; rq_Ipv4 := ip; rq_HealthCheckMethod := method; rq_SshPort := 0; rq_SshUser := "";
  rq_SshKey := ""; rq_AgentEndpoint := "" |}.


Definition on_page (p : nat) (req : ViewServersRequest) : ViewServersRequest := {|
  rq_Page := Z.of_nat p; rq_Limit := rq_Limit req; rq_FilterStatus := rq_FilterStatus req;
  rq_FilterName := rq_FilterName req; rq_CreatedFrom := rq_CreatedFrom req; rq_CreatedTo := rq_CreatedTo req;
  rq_SortBy := rq_SortBy req; rq_SortDirection := rq_SortDirection req |}.


Definition two_servers : mstate := MState [sample_row; imported_server "db" "10.0.0.2"; imported_server "app" "10.0.0.3"] [].
Definition list_request (limit : Z) : ViewServersRequest := {|
  rq_Page := 1; rq_Limit := limit; rq_FilterStatus := "UNKNOWN"; rq_FilterName := ""; rq_CreatedFrom := "";
  rq_CreatedTo := ""; rq_SortBy := "server_name"; rq_SortDirection := "desc" |}.

Definition unknown_servers : list Server := [imported_server "db" "10.0.0.2"; imported_server "app" "10.0.0.3"].


(** ** Findings *)

(** The file that an export writes is refused by an import: the import does not
    know the heading of the address column. *)
Lemma export_not_importable {W} {wo : World W mstate} `{pg : Postgres} (time_json : Z -> string)
    (OpenReader : string -> option sheet) (is_ipv4 : string -> bool) zone l file w :
  OpenReader file = Some {| sheet_name := "Sheet1"; sheet_rows := Ok (export_rows zone l) |} ->
  String.length file <= maxFileSize ->
  ImportServers time_json OpenReader is_ipv4 file w = (Err ErrMissingCols, w).
Proof.
  intros Ho Hl. unfold ImportServers. rewrite decide_False by lia. rewrite Ho. reflexivity.
Qed.

(** A gRPC export that names no limit exports no server. *)
Lemma export_without_limit_is_empty {W} {wo : World W mstate} {Hans : Answers wo} `{pg : Postgres}
    zone (write_sheet : list (list string) -> res string) c req range file w x :
  parseCreatedDateRange (rq_CreatedFrom req) (rq_CreatedTo req) = inr range -> rq_Limit req = 0%Z ->
  write_sheet (export_rows zone []) = Ok file -> ManagementService.tables w = DView x None ->
  wp (ExportServers_grpc zone write_sheet c (Some req)) (fun out _ =>
    match out with Reply a => FileContent a = file | _ => True end) w.
Proof.
  intros Hr Hl Hw Hv. unfold ExportServers_grpc. rewrite Hr. do 2 apply wp_bind.
  eapply wp_mono; [by apply Search_spec|]. cbn beta. intros r w' [_ ->].
  destruct (selection _ x) as [l|]; [|by do 2 apply wp_ret].
  change (limit_rows (PageSize (filter_of req range)) ?l) with (limit_rows (rq_Limit req) l).
  rewrite Hl. unfold limit_rows. cbn [Z.ltb Z.compare Z.to_nat]. rewrite take_0. unfold generateServerExcel. rewrite Hw.
  apply wp_bind, wp_any. intros now w2. do 2 apply wp_ret. done.
Qed.

(** A REST import never answers that the file is too large: the body is cut
    off at the same size before. *)
Lemma import_never_413 {W} {wo : World W mstate} `{pg : Postgres} (time_json : Z -> string)
    (OpenReader : string -> option sheet) (is_ipv4 : string -> bool) (Error : err -> string)
    (NextParts : string -> string -> list (string * string)) r raw w :
  Body r = Ok raw -> Method r = "POST" -> maxSize < String.length raw ->
  rs_status (HandleImport time_json OpenReader is_ipv4 Error NextParts r w).1 = StatusBadRequest.
Proof.
  intros Hb Hm Hl. unfold HandleImport. rewrite Hm, Hb. replace (negb _) with false by reflexivity.
  destruct (decide (maxSize < String.length raw)) as [|n]; [reflexivity|destruct (n Hl)].
Qed.
