(* ===== verification/AgentHandler.v ===== *)
(** sms-agent-handler: the HTTP endpoint that agents report to
    (handler/rest/), and the promise it makes together with the sweeper of
    sms-monitoring: nobody is reported silent who was heard of in time. *)
From S2P Require Import Prelude GoStd Json Redis Host Http Monitoring Broker MonitoringWorkers.

Section agent_handler.
Context {W} {srv : Host W}.

(** *** heartbeat_handler.go *)
Definition decode_heartbeat (s : string) : option string :=
  j ← decode_first s; m ← members j; string_field "server_id" m.

Definition zsetKey : string := "monitoring:agent:heartbeats".
Definition streamKey : string := "sms.events.heartbeat".

Definition HandleHeartbeat (r : request) : proc W response :=
  match (match Body r with Ok s => decode_heartbeat s | Err _ => None end) with
  | None => mret (http_Error "Invalid payload" StatusBadRequest)
  | Some serverID =>
    if String.eqb serverID "" then mret (http_Error "server_id is required" StatusBadRequest)
    else
      now <-- time_Now;
      r <-- rdb (ZAdd zsetKey serverID (Unix now));
      match r with
      | Err _ => mret (http_Error "Internal server error" StatusInternalServerError)
      | Ok _ =>
        rdb (XAdd streamKey None [("server_id", serverID)]) ;;-      (* an error is only logged *)
        mret {| rs_status := StatusOK; rs_header := [("Content-Type", "application/json")];
                rs_body := "{" +:+ quote "status" +:+ ": " +:+ quote "ok" +:+ "}" |}
      end
  end.

(** *** middleware.go *)
Definition Middleware (masterKey : string) (next : request -> proc W response) (r : request) : proc W response :=
  let expectedKey := TrimSpace masterKey in
  let providedKey := Header_Get (Header r) "X-Master-Key" in
  if String.eqb providedKey "" || negb (String.eqb providedKey expectedKey)
  then mret (http_Error "Unauthorized: Invalid or missing X-Master-Key" StatusUnauthorized)
  else next r.

(** app/run.go: the routes; the router (gorilla/mux) answers the other paths
    and methods itself. *)
Definition agent_router (masterKey path : string) (r : request) : proc W response :=
  if negb (String.eqb path "/api/v1/agent/heartbeat") then mret (http_Error "404 page not found" StatusNotFound)
  else if negb (String.eqb (Method r) "POST")
  then mret {| rs_status := StatusMethodNotAllowed; rs_header := []; rs_body := "" |}
  else Middleware masterKey HandleHeartbeat r.
End agent_handler.

(** ** What a request comes to *)
Definition beat_ok : response := {|
  rs_status := StatusOK; rs_header := [("Content-Type", "application/json")];
  rs_body := "{" +:+ quote "status" +:+ ": " +:+ quote "ok" +:+ "}" |}.

(** The refusal of a request, or the server it speaks for. *)
Definition beat (masterKey path : string) (r : request) : response + string :=
  let key := Header_Get (Header r) "X-Master-Key" in
  if negb (String.eqb path "/api/v1/agent/heartbeat") then inl (http_Error "404 page not found" StatusNotFound)
  else if negb (String.eqb (Method r) "POST")
  then inl {| rs_status := StatusMethodNotAllowed; rs_header := []; rs_body := "" |}
  else if String.eqb key "" || negb (String.eqb key (TrimSpace masterKey))
  then inl (http_Error "Unauthorized: Invalid or missing X-Master-Key" StatusUnauthorized)
  else match (match Body r with Ok s => decode_heartbeat s | Err _ => None end) with
       | None => inl (http_Error "Invalid payload" StatusBadRequest)
       | Some id => if String.eqb id "" then inl (http_Error "server_id is required" StatusBadRequest) else inr id
       end.

(** Redis after the score of [id] was written at [now]. *)
Definition heard (id : string) (now : Z) (r : rstate) : rstate :=
  set_zset zsetKey (<[id := Unix now]> (zset_at r zsetKey)) r.

Section agent_spec.
Context {W} {srv : Host W} `{!HostLaws srv}.

Lemma HandleHeartbeat_spec r id w :
  (match Body r with Ok s => decode_heartbeat s | Err _ => None end) = Some id -> id <> "" ->
  wp (HandleHeartbeat r) (fun a w' => exists now, (clock (view w) <= now <= clock (view w'))%Z /\
    let r1 := heard id now (redis (view w)) in
    (a = beat_ok /\ (redis (view w') = r1 \/ exists st,
       xadd_spec None [("server_id", id)] (stream_at r1 streamKey) st /\ redis (view w') = set_stream streamKey st r1)) \/
    (a = http_Error "Internal server error" StatusInternalServerError /\
       (redis (view w') = redis (view w) \/ redis (view w') = r1))) w.
Proof.
  intros Hb Hid. unfold HandleHeartbeat. rewrite Hb, (proj2 (String.eqb_neq _ _) Hid).
  apply wp_bind, wp_now. intros now w1 Hnow Hv1. apply wp_bind, wp_rdb; rewrite Hv1; cbn [clock redis].
  - intros [] w2 t s' Ht Hv2 ->. apply wp_bind, wp_rdb; rewrite Hv2; cbn [clock redis].
    + intros [] w3 t3 s3 Ht3 Hv3 (st & Hst & ->). apply wp_ret. exists now. rewrite Hv3. split; [cbn; lia|].
      left. split; [done|]. right. by exists st.
    + intros e w3 t3 s3 Ht3 Hv3 Hf. apply wp_ret. exists now. rewrite Hv3. split; [cbn; lia|].
      left. split; [done|]. destruct Hf as [->|[([] & st & Hst & ->)|[]]]; [by left|]. right. by exists st.
  - intros e w2 t s' Ht Hv2 Hf. apply wp_ret. exists now. rewrite Hv2. split; [cbn; lia|].
    right. split; [done|]. destruct Hf as [->|[([] & ->)|[]]]; auto.
Qed.

Lemma agent_router_spec masterKey path r w :
  wp (agent_router masterKey path r) (fun a w' =>
    match beat masterKey path r with
    | inl refusal => a = refusal /\ w' = w
    | inr id => exists now, (clock (view w) <= now <= clock (view w'))%Z /\
        let r1 := heard id now (redis (view w)) in
        (a = beat_ok /\ (redis (view w') = r1 \/ exists st,
           xadd_spec None [("server_id", id)] (stream_at r1 streamKey) st /\ redis (view w') = set_stream streamKey st r1)) \/
        (a = http_Error "Internal server error" StatusInternalServerError /\
           (redis (view w') = redis (view w) \/ redis (view w') = r1))
    end) w.
Proof.
  unfold agent_router, beat, Middleware. destruct (negb _); [by apply wp_ret|]. destruct (negb _); [by apply wp_ret|].
  destruct (_ || _); [by apply wp_ret|].
  destruct (match Body r with Ok s => decode_heartbeat s | Err _ => None end) as [id|] eqn:Eb.
  - destruct (String.eqb_spec id "") as [->|Hid]; [|by apply HandleHeartbeat_spec].
    unfold HandleHeartbeat. rewrite Eb. by apply wp_ret.
  - unfold HandleHeartbeat. rewrite Eb. by apply wp_ret.
Qed.

Context (evals : W -> list (string * bool)) `{!Frame srv evals}.

Lemma agent_router_evals masterKey path r w :
  wp (agent_router masterKey path r) (fun _ w' => evals w' = evals w) w.
Proof.
  unfold agent_router, Middleware, HandleHeartbeat. repeat (case_match; try by apply wp_ret).
  apply wp_bind, wp_bind. eapply wp_mono; [apply (wp_frame srv evals)|]. cbn beta. intros t w1 E1. apply wp_ret.
  apply wp_bind. eapply wp_mono; [apply (wp_frame srv evals)|]. cbn beta. intros [u|e] w2 E2.
  - apply wp_bind. eapply wp_mono; [apply (wp_frame srv evals)|]. cbn beta. intros u' w3 E3. apply wp_ret. congruence.
  - apply wp_ret. congruence.
Qed.

(** Server [id] was heard of at [since] or later. *)
Definition known_since (id : string) (since : Z) (w : W) : Prop :=
  (since <= clock (view w))%Z /\ exists s, heartbeats w !! id = Some s /\ (Unix since <= s)%Z.

(** Later requests do not make a server older. *)
Lemma agent_router_known masterKey path r id since w :
  known_since id since w ->
  wp (agent_router masterKey path r) (fun _ w' => known_since id since w' /\ evals w' = evals w) w.
Proof.
  intros (Hc & s & Hs & Hle). apply wp_and; [|apply agent_router_evals].
  eapply wp_mono; [apply agent_router_spec|]. cbn beta. intros a w'. destruct (beat masterKey path r) as [|j].
  { intros [_ ->]. split; [done|]. by exists s. }
  intros (now & [Hn1 Hn2] & Hr). split; [lia|].
  assert (heartbeats w' = heartbeats w \/ heartbeats w' = <[j := Unix now]> (heartbeats w)) as Hh.
  { unfold heartbeats. destruct Hr as [[_ [->|(st & _ & ->)]]|[_ [->| ->]]]; [right|right|by left|right];
      unfold heard; cbn -[zset_at]; try by rewrite zset_at_set_zset.
    unfold zset_at. cbn. by rewrite lookup_insert_eq. }
  destruct Hh as [-> | ->]; [by exists s|].
  destruct (decide (j = id)) as [->|Hne]; [rewrite lookup_insert_eq|rewrite lookup_insert_ne by done; by exists s].
  exists (Unix now). split; [done|]. apply Unix_mono. lia.
Qed.
End agent_spec.

(** What the endpoint does with a request, whatever commands fail: a wrong
    path, method, key or body is refused and changes nothing; otherwise the
    answer is 200 exactly when the time of the request was recorded for the
    server the body names, and one heartbeat event at most was appended; a 500
    may have recorded the time and appends nothing. *)
Theorem heartbeat_effect {W} {srv : Host W} `{!HostLaws srv} (masterKey path : string) (r : request) (w : W) :
  wp (agent_router masterKey path r) (fun a w' =>
    match beat masterKey path r with
    | inl refusal => a = refusal /\ w' = w
    | inr id => exists now, (clock (view w) <= now <= clock (view w'))%Z /\
        let r1 := heard id now (redis (view w)) in
        (a = beat_ok /\ (redis (view w') = r1 \/ exists st,
           xadd_spec None [("server_id", id)] (stream_at r1 streamKey) st /\ redis (view w') = set_stream streamKey st r1)) \/
        (a = http_Error "Internal server error" StatusInternalServerError /\
           (redis (view w') = redis (view w) \/ redis (view w') = r1))
    end) w.
Proof. apply agent_router_spec. Qed.

Definition beat_request (key id : string) : request := {|
  Method := "POST"; Header := {["X-Master-Key" := [key]]}; Query := fun _ => "";
  Body := Ok ("{" +:+ quote "server_id" +:+ ":" +:+ quote id +:+ "}") |}.

Lemma heartbeat_effect_witness :
  let w0 : hview * list fault := (HView 0 empty_redis, [FailAfter]) in
  (agent_router (srv := flaky_host) "key" "/api/v1/agent/heartbeat" (beat_request "key" "c") w0).1 =
    http_Error "Internal server error" StatusInternalServerError /\
  (agent_router (srv := flaky_host) "key" "/api/v1/agent/heartbeat" (beat_request "kez" "c") w0).1 =
    http_Error "Unauthorized: Invalid or missing X-Master-Key" StatusUnauthorized /\
  wp (agent_router (srv := flaky_host) "key" "/api/v1/agent/heartbeat" (beat_request "key" "c")) (fun a w' =>
    exists now, (0 <= now <= clock (view (Service := flaky_host) w'))%Z /\
      let r1 := heard "c" now empty_redis in
      (a = beat_ok /\ (redis (view (Service := flaky_host) w') = r1 \/ exists st,
         xadd_spec None [("server_id", "c")] (stream_at r1 streamKey) st /\
         redis (view (Service := flaky_host) w') = set_stream streamKey st r1)) \/
      (a = http_Error "Internal server error" StatusInternalServerError /\
         (redis (view (Service := flaky_host) w') = empty_redis \/ redis (view (Service := flaky_host) w') = r1))) w0.
Proof.
  cbv zeta. split; [by vm_compute|]. split; [by vm_compute|].
  pose proof (heartbeat_effect (srv := flaky_host) "key" "/api/v1/agent/heartbeat" (beat_request "key" "c")
    (HView 0 empty_redis, [FailAfter])) as E.
  replace (beat "key" "/api/v1/agent/heartbeat" (beat_request "key" "c")) with (@inr response string "c") in E
    by (by vm_compute). exact E.
Defined.



(** With the same key the agent and the sweeper see one table. *)
Lemma heartbeat_keys_agree : zsetKey = AgentHeartbeatZSetKey.
Proof. reflexivity. Qed.
