(* ===== verification/Simulator.v ===== *)
(** sms-simulator: the fleet of simulated servers.  Its control interface and
    its flapper (server/http/handler.go) keep the set of addresses that are
    down in the packet filter (nft/nft.go); its push worker
    (server/push/push.go) sends the heartbeats of the servers that are up. *)
From stdpp Require Import pretty.
From S2P Require Import Prelude GoStd Json Redis Host Http Calendar.
From S2P Require AgentHandler.
From Stdlib Require Import Ascii.

(** ** The packet filter as the nft command reaches it *)

(** [exec.Command("nft", args...)]: its output, or an error. *)
Inductive nftcmd : Type -> Type := Command (args : list string) : nftcmd string.

(** An address as nft prints it. *)
Definition is_octet (p : string) : bool :=
  match digits p with Some n => (n <=? 255)%Z && String.eqb (Itoa n) p | None => false end.
Definition ipv4_text (s : string) : bool :=
  match Split s "." with
  | [a; b; c; d] => forallb is_octet [a; b; c; d]
  | _ => false
  end.

Definition is_blank (c : ascii) : bool := bool_decide (byte_of c ∈ [32; 9; 10]%Z).
Definition blank (s : string) : Prop := str_forall is_blank s = true.

Definition tab : string := String (of_byte 9) "".
Definition nft_heading : string :=
  "table inet sim {" +:+ newline +:+ tab +:+ "set down_ips {" +:+ newline +:+ tab +:+ tab +:+ "type ipv4_addr" +:+
  newline +:+ tab +:+ tab.
Definition nft_closing : string := newline +:+ tab +:+ "}" +:+ newline +:+ "}" +:+ newline.

(** The elements come in any order, separated by commas and white space. *)
Definition elements_text (l : list (string * string)) (last : string) : string :=
  join "," (map (fun p => p.1 +:+ p.2) l) +:+ last.
Definition listing (s : gset string) (out : string) : Prop :=
  (s = ∅ /\ out = nft_heading +:+ nft_closing) \/
  exists l last, map snd l ≡ₚ elements s /\ l <> [] /\ Forall (fun p => blank p.1) l /\ blank last /\
    out = nft_heading +:+ "elements = {" +:+ elements_text l last +:+ "}" +:+ nft_closing.

Definition flush_args : list string := ["flush"; "set"; "inet"; "sim"; "down_ips"].
Definition add_args (ip : string) : list string := ["add"; "element"; "inet"; "sim"; "down_ips"; "{"; ip; "}"].
Definition delete_args (ip : string) : list string := ["delete"; "element"; "inet"; "sim"; "down_ips"; "{"; ip; "}"].
Definition list_args : list string := ["list"; "set"; "inet"; "sim"; "down_ips"].

(** The set of the simulator holds addresses only; nothing is said of the other
    commands. *)
Definition nft_spec : service_spec nftcmd (gset string) := fun A c =>
  match c in nftcmd A return gset string -> A -> gset string -> Prop with
  | Command args => fun s out s' =>
      (args = flush_args -> s' = ∅) /\
      (forall ip, args = add_args ip -> ipv4_text ip = true -> s' = {[ip]} ∪ s) /\
      (forall ip, args = delete_args ip -> ipv4_text ip = true -> ip ∈ s /\ s' = s ∖ {[ip]}) /\
      (args = list_args -> s' = s /\ (set_Forall (fun ip => ipv4_text ip = true) s -> listing s out))
  end.

(** A command that fails did nothing, or its output was lost. *)
Definition nft_fails : service_fails nftcmd (gset string) := lost_or_done nft_spec.

Abbreviation Nft W := (Service W nftcmd (gset string)).
Abbreviation NftLaws srv := (ServiceLaws srv nft_spec nft_fails).

(** A filter that carries out what can be carried out. *)
Class NftAnswers {W} (nft : Nft W) : Prop := nft_answers : forall args w,
  args = list_args \/ (exists ip, args = add_args ip /\ ipv4_text ip = true) \/
  (exists ip, args = delete_args ip /\ ip ∈ view w) -> is_ok (Prelude.request (Command args) w).1 = true.

(** ** strings.Index *)
Fixpoint Index (s sub : string) : option nat :=
  if HasPrefix s sub then Some 0
  else match s with
       | "" => None
       | String _ s => S <$> Index s sub
       end.

Section nft.
Context {W} {nft : Nft W}.

Definition nft_run (args : list string) : proc W (res string) := Prelude.request (Command args).
Definition FlushDownIPs : proc W (res string) := nft_run flush_args.
Definition AddDownIP (ip : string) : proc W (res string) := nft_run (add_args ip).
Definition DeleteDownIP (ip : string) : proc W (res string) := nft_run (delete_args ip).

Definition parse_down (output : string) : gset string :=
  match Index output "elements = {" with
  | None => ∅
  | Some idx =>
    let rest := str_drop (idx + String.length "elements = {") output in
    match Index rest "}" with
    | None => ∅
    | Some endIdx =>
      let elements := TrimSpace (str_take endIdx rest) in
      if String.eqb elements "" then ∅
      else list_to_set (List.filter (fun ip => negb (String.eqb ip "")) (map TrimSpace (Split elements ",")))
    end
  end.

Definition ListDownIPs : proc W (res (gset string)) :=
  out <-? nft_run list_args; mret (Ok (parse_down out)).
End nft.

(** ** The control interface (server/http/handler.go) *)
Record Server := { TotalIPs : Z; Subnet : string }.

(** [json:"ips"]: an element that is null keeps what an earlier value of the
    same field put there. *)
Fixpoint decode_items (old : list string) (l : list json) : option (list string) :=
  match l with
  | [] => Some []
  | j :: l =>
    s ← match j with JStr s => Some s | JNull => Some (hd "" old) | _ => None end;
    ips ← decode_items (tl old) l;
    Some (s :: ips)
  end.
Fixpoint ips_field (acc : list string) (m : list (string * json)) : option (list string) :=
  match m with
  | [] => Some acc
  | (k, j) :: m =>
    if String.eqb (fold_name k) (fold_name "ips") then
      match j with
      | JNull => ips_field [] m
      | JArr l => ips ← decode_items acc l; ips_field ips m
      | _ => None
      end
    else ips_field acc m
  end.
Definition decode_toggle (s : string) : option (list string) :=
  j ← decode_first s; m ← members j; ips_field [] m.

Definition cleanIPs (ips : list string) : list string :=
  List.filter (fun ip => negb (String.eqb ip "")) (map TrimSpace ips).

Fixpoint octets (count : nat) (octet3 octet4 : Z) : list (Z * Z) :=
  match count with
  | O => []
  | S count => (octet3, octet4) ::
      if (254 <? octet4 + 1)%Z then octets count (octet3 + 1) 1 else octets count octet3 (octet4 + 1)
  end.
Definition address (subnet : string) (o : Z * Z) : string := subnet +:+ "." +:+ Itoa o.1 +:+ "." +:+ Itoa o.2.
Definition generateIPs (count : Z) (subnet : string) : list string :=
  map (address subnet) (octets (Z.to_nat count) 0 1).

Definition ok_response : response := {|
  rs_status := StatusOK; rs_header := []; rs_body := Marshal (JObj [("status", JStr "ok")]) +:+ newline |}.
Definition nft_error : response := http_Error "nft error" StatusInternalServerError.
Definition not_allowed : response := http_Error "method not allowed" StatusMethodNotAllowed.

Section simulator.
Context {W} {nft : Nft W}.

Definition handleHealth (r : request) : proc W response :=
  mret {| rs_status := StatusOK; rs_header := []; rs_body := "{" +:+ quote "status" +:+ ": " +:+ quote "ok" +:+ "}" |}.

Definition handleReset (r : request) : proc W response :=
  if negb (String.eqb (Method r) "POST") then mret not_allowed
  else
    out <-- FlushDownIPs;
    mret (match out with Ok _ => ok_response | Err _ => nft_error end).

(** The addresses to switch, or the refusal of the request. *)
Definition toggled (r : request) : response + list string :=
  if negb (String.eqb (Method r) "POST") then inl not_allowed
  else match (match Body r with Ok s => decode_toggle s | Err _ => None end) with
       | None => inl (http_Error "invalid json" StatusBadRequest)
       | Some ips => inr (cleanIPs ips)
       end.

Fixpoint add_all (ips : list string) : proc W (res unit) :=
  match ips with
  | [] => mret (Ok tt)
  | ip :: ips => _ <-? AddDownIP ip; add_all ips
  end.

Definition handleDown (r : request) : proc W response :=
  match toggled r with
  | inl refusal => mret refusal
  | inr ips => r <-- add_all ips; mret (match r with Ok _ => ok_response | Err _ => nft_error end)
  end.

Definition handleUp (r : request) : proc W response :=
  match toggled r with
  | inl refusal => mret refusal
  | inr ips => for_each DeleteDownIP ips ;;- mret ok_response
  end.

Definition handleStatus (s : Server) (r : request) : proc W response :=
  down <-- ListDownIPs;
  mret (match down with
        | Ok downSet => {| rs_status := StatusOK; rs_header := [];
            rs_body := Marshal (JObj [("total", JInt (TotalIPs s)); ("down", JInt (Z.of_nat (size downSet)))]) +:+ newline |}
        | Err _ => nft_error
        end).

(** [SetupMux]: exact patterns, the rest is not found. *)
Definition SetupMux (s : Server) (path : string) (r : request) : proc W response :=
  if String.eqb path "/up" then handleUp r
  else if String.eqb path "/down" then handleDown r
  else if String.eqb path "/status" then handleStatus s r
  else if String.eqb path "/reset" then handleReset r
  else if String.eqb path "/health" then handleHealth r
  else mret (http_Error "404 page not found" StatusNotFound).

(** *** The flapper *)

(** How many addresses one flap turns over; the percentage is a float64. *)
Definition flipCount (totalIPs : Z) (percent : f64) : Z :=
  let n := int_of_f64 (f64_div (f64_mul (f64_of_int totalIPs) percent) (f64_of_int 100)) in
  let n := if (n <? 1)%Z && (0 <? totalIPs)%Z then 1%Z else n in
  if (totalIPs <? n)%Z then totalIPs else n.

(** [rng.Perm]. *)
Context (Perm : nat -> proc W (list nat)).

Definition pickRandom (ips : list string) (n : Z) : proc W (list string) :=
  let n := if (Z.of_nat (length ips) <? n)%Z then Z.of_nat (length ips) else n in
  if (n <=? 0)%Z then mret []
  else
    perm <-- Perm (length ips);
    mret (map (fun i => nth i ips "") (take (Z.to_nat n) perm)).

Fixpoint flap (downSet : gset string) (selected : list string) : proc W (res unit) :=
  match selected with
  | [] => mret (Ok tt)
  | ip :: selected =>
    if decide (ip ∈ downSet) then _ <-? DeleteDownIP ip; flap (downSet ∖ {[ip]}) selected
    else _ <-? AddDownIP ip; flap ({[ip]} ∪ downSet) selected
  end.

Definition flapOnce (ips : list string) (flips : Z) : proc W (res unit) :=
  downSet <-? ListDownIPs;
  selected <-- pickRandom ips flips;
  flap downSet selected.

(** One tick of [StartAutoFlapper]; its error is only logged. *)
Definition StartAutoFlapper_tick (s : Server) (percent : f64) : proc W unit :=
  flapOnce (generateIPs (TotalIPs s) (Subnet s)) (flipCount (TotalIPs s) percent) ;;- mret tt.
(** Its goroutine, for so many ticks. *)
Fixpoint StartAutoFlapper_loop (s : Server) (percent : f64) (ticks : nat) : proc W unit :=
  match ticks with
  | O => mret tt
  | S ticks => StartAutoFlapper_tick s percent ;;- StartAutoFlapper_loop s percent ticks
  end.
End simulator.

(** ** The push worker (server/push/push.go) *)
Section push.
Context {W} {srv : Host W} {nft : Nft W}.

(** The identifiers that push, or the old ones when Redis does not answer. *)
Definition refreshServers (pushServerIDs : list string) : proc W (list string) :=
  r <-- rdb (SMembers "server:all_ids");
  match r with
  | Err _ => mret pushServerIDs
  | Ok serverIDs =>
    methods <-- collect (fun id => rdb (HGet ("server:info:" +:+ id) "health_check_method")) serverIDs;
    mret (map fst (List.filter (fun im => match im.2 with
                                          | Ok (Some m) => String.eqb m "AGENT_PUSH"
                                          | _ => false
                                          end) (zip serverIDs methods)))
  end.

Definition heartbeat (masterKey id : string) (now : Z) : request := {|
  Method := "POST";
  Header := {["Content-Type" := ["application/json"]; "X-Master-Key" := [masterKey]]};
  Query := fun _ => "";
  Body := Ok (Marshal (JObj [("server_id", JStr id); ("timestamp", JInt (Unix now))])) |}.

(** One tick: the requests of the servers that are up, each of which a goroutine
    of its own then posts; an address that Redis does not know is "". *)
Fixpoint push_all (masterKey : string) (downSet : gset string) (ids : list string) : proc W (list request) :=
  match ids with
  | [] => mret []
  | id :: ids =>
    r <-- rdb (HGet ("server:info:" +:+ id) "ipv4");
    let ip := match r with Ok (Some ip) => ip | _ => "" end in
    if decide (ip ∈ downSet) then push_all masterKey downSet ids
    else
      now <-- time_Now;
      rest <-- push_all masterKey downSet ids;
      mret (heartbeat masterKey id now :: rest)
  end.

Definition push_tick (masterKey : string) (tickCount : Z) (pushServerIDs : list string)
    : proc W (Z * list string * list request) :=
  let tickCount := wrap64 (tickCount + 1) in
  ids <-- (if (Z.rem tickCount 6 =? 0)%Z then refreshServers pushServerIDs else mret pushServerIDs);
  down <-- ListDownIPs;
  requests <-- push_all masterKey (match down with Ok s => s | Err _ => ∅ end) ids;
  mret (tickCount, ids, requests).

(** [StartAgentPushWorker]: the identifiers, then so many ticks; what is posted. *)
Fixpoint push_loop (masterKey : string) (tickCount : Z) (pushServerIDs : list string) (ticks : nat) : proc W (list request) :=
  match ticks with
  | O => mret []
  | S ticks =>
    t <-- push_tick masterKey tickCount pushServerIDs;
    rest <-- push_loop masterKey t.1.1 t.1.2 ticks;
    mret (t.2 ++ rest)
  end.
Definition StartAgentPushWorker (masterKey : string) (ticks : nat) : proc W (list request) :=
  ids <-- refreshServers [];
  push_loop masterKey 0 ids ticks.
End push.

(** ** Addresses *)
Definition addr_char (c : ascii) : bool := is_digit c || Ascii.eqb c ".".

Lemma str_forall_mono (p q : ascii -> bool) s :
  (forall c, p c = true -> q c = true) -> str_forall p s = true -> str_forall q s = true.
Proof. intros H. induction s as [|c s IH]; [done|]. cbn. rewrite !andb_true_iff. intros [? ?]. auto. Qed.

Lemma str_forall_rev p s : str_forall p (str_rev s) = str_forall p s.
Proof.
  induction s as [|c s IH]; [done|]. rewrite str_rev_cons, str_forall_app, IH. cbn.
  by rewrite andb_true_r, andb_comm.
Qed.

Lemma digits_onto_digits acc s n : digits_onto acc s = Some n -> str_forall is_digit s = true.
Proof.
  revert acc. induction s as [|c s IH]; intros acc; [done|]. cbn. unfold digit_of, is_digit.
  destruct (in_range 48 57 (byte_of c)); [|done]. cbn. by intros ?%IH.
Qed.

Lemma octet_digits p : is_octet p = true -> p <> "" /\ str_forall is_digit p = true.
Proof.
  unfold is_octet, digits. destruct p as [|c p]; [done|]. split; [done|].
  destruct (digits_onto 0 (String c p)) eqn:E; [|done]. by eapply digits_onto_digits.
Qed.

Lemma Itoa_nonneg n : (0 <= n)%Z -> exists x : N, n = Z.of_N x /\ Itoa n = pretty x.
Proof. intros Hn. exists (Z.to_N n). split; [lia|]. by destruct n. Qed.

Lemma is_octet_Itoa n : (0 <= n)%Z -> is_octet (Itoa n) = (n <=? 255)%Z.
Proof.
  intros (x & -> & E)%Itoa_nonneg. unfold is_octet. by rewrite E, digits_pretty_N, <- E, String.eqb_refl, andb_true_r.
Qed.

Lemma Itoa_digits n : (0 <= n)%Z -> str_forall is_digit (Itoa n) = true.
Proof.
  intros (x & -> & ->)%Itoa_nonneg. pose proof (digits_pretty_N x) as H. unfold digits in H.
  destruct (pretty x); [done|]. by eapply digits_onto_digits.
Qed.

Lemma digits_without sep s : is_digit sep = false -> str_forall is_digit s = true -> without sep s.
Proof.
  intros Hsep. apply str_forall_mono. intros c Hc. apply negb_true_iff, Ascii.eqb_neq. intros ->. congruence.
Qed.

Lemma Itoa_without n : (0 <= n)%Z -> without "." (Itoa n).
Proof. intros. apply digits_without; [done|by apply Itoa_digits]. Qed.

(** *** The addresses of the fleet *)
Lemma octets_codes n a b :
  (1 <= b <= 254)%Z ->
  map (fun o => 254 * o.1 + o.2)%Z (octets n a b) = seqZ (254 * a + b) (Z.of_nat n) /\
  Forall (fun o => a <= o.1 /\ 1 <= o.2 <= 254)%Z (octets n a b).
Proof.
  revert a b. induction n as [|n IH]; intros a b Hb; cbn [octets]; [done|].
  rewrite seqZ_cons by lia. replace (Z.pred (Z.of_nat (S n))) with (Z.of_nat n) by lia.
  destruct (Z.ltb_spec 254 (b + 1)).
  - destruct (IH (a + 1) 1)%Z as [E Hall]; [lia|]. cbn [map]. rewrite E. split; [f_equal; f_equal; lia|].
    constructor; [cbn; lia|]. eapply Forall_impl; [exact Hall|]. cbn. lia.
  - destruct (IH a (b + 1))%Z as [E Hall]; [lia|]. cbn [map]. rewrite E. split; [f_equal; f_equal; lia|].
    constructor; [cbn; lia|]. eapply Forall_impl; [exact Hall|]. cbn. lia.
Qed.

Lemma octets_lookup n i :
  i < n -> octets n 0 1 !! i = Some (Z.of_nat i / 254, Z.of_nat i mod 254 + 1)%Z.
Proof.
  intros Hi. destruct (octets_codes n 0 1) as [E Hall]; [lia|].
  assert (map (fun o => 254 * o.1 + o.2)%Z (octets n 0 1) !! i = Some (254 * 0 + 1 + Z.of_nat i)%Z) as Hl.
  { rewrite E. apply lookup_seqZ_lt. lia. }
  apply list_lookup_fmap_Some in Hl as ([x y] & Hc & Ho). rewrite Forall_lookup in Hall. specialize (Hall _ _ Ho).
  cbn in *. rewrite Ho. f_equal. f_equal.
  - apply (Z.div_unique_pos _ _ _ (y - 1)); lia.
  - rewrite <- (Z.mod_unique_pos (Z.of_nat i) 254 x (y - 1)); lia.
Qed.

Lemma octets_length n a b : length (octets n a b) = n.
Proof. revert a b. induction n as [|n IH]; intros a b; cbn; [done|]. by destruct (_ <? _)%Z; rewrite IH. Qed.

(** The address of the [i]-th server, and when it is an address at all. *)
Lemma generateIPs_lookup count subnet i :
  (Z.of_nat i < count)%Z ->
  generateIPs count subnet !! i =
    Some (subnet +:+ "." +:+ Itoa (Z.of_nat i / 254) +:+ "." +:+ Itoa (Z.of_nat i mod 254 + 1)).
Proof. intros Hi. unfold generateIPs. rewrite list_lookup_fmap, octets_lookup by lia. done. Qed.

Lemma generateIPs_length count subnet : length (generateIPs count subnet) = Z.to_nat count.
Proof. unfold generateIPs. by rewrite length_map, octets_length. Qed.

Lemma address_split subnet o :
  (0 <= o.1)%Z -> (0 <= o.2)%Z -> without "." subnet ->
  forall net, Split (net +:+ "." +:+ address subnet o) "." = Split net "." ++ [subnet; Itoa o.1; Itoa o.2].
Proof.
  intros H1 H2 Hs net. unfold address.
  pose proof Itoa_without as Hw.
  rewrite !str_app_cons, !str_app_nil_l.
  assert (Split (subnet +:+ String "." (Itoa o.1 +:+ String "." (Itoa o.2))) "." = [subnet; Itoa o.1; Itoa o.2]) as E.
  { rewrite !Split_next, Split_last by auto. done. }
  induction net as [|c net IH].
  - rewrite str_app_nil_l. cbn [Split]. rewrite Ascii.eqb_refl. by rewrite E.
  - rewrite str_app_cons. cbn [Split]. rewrite IH. destruct (Ascii.eqb c "."); [done|].
    destruct (Split net ".") eqn:En; [by apply Split_nonempty in En|done].
Qed.

(** A subnet of two octets. *)
Definition subnet2 (a b : Z) : string := Itoa a +:+ "." +:+ Itoa b.

Lemma ipv4_text_address a b o :
  (0 <= a <= 255)%Z -> (0 <= b <= 255)%Z -> (0 <= o.1)%Z -> (0 <= o.2 <= 255)%Z ->
  ipv4_text (address (subnet2 a b) o) = (o.1 <=? 255)%Z.
Proof.
  intros Ha Hb H1 H2. unfold ipv4_text.
  assert (address (subnet2 a b) o = Itoa a +:+ "." +:+ address (Itoa b) o) as ->.
  { unfold address, subnet2. by rewrite !str_app_assoc. }
  rewrite address_split by (try apply Itoa_without; lia).
  rewrite Split_last by (apply Itoa_without; lia). cbn [app forallb].
  rewrite !is_octet_Itoa by lia. rewrite (proj2 (Z.leb_le a 255)), (proj2 (Z.leb_le b 255)), (proj2 (Z.leb_le o.2 255)) by lia.
  by destruct (o.1 <=? 255)%Z.
Qed.

Lemma Itoa_inj m n : (0 <= m)%Z -> (0 <= n)%Z -> Itoa m = Itoa n -> m = n.
Proof.
  intros (x & -> & Ex)%Itoa_nonneg (y & -> & Ey)%Itoa_nonneg E. rewrite Ex, Ey in E.
  apply (f_equal digits) in E. rewrite !digits_pretty_N in E. congruence.
Qed.

Lemma address_inj a b o o' :
  (0 <= a)%Z -> (0 <= b)%Z -> (0 <= o.1)%Z -> (0 <= o.2)%Z -> (0 <= o'.1)%Z -> (0 <= o'.2)%Z ->
  address (subnet2 a b) o = address (subnet2 a b) o' -> o = o'.
Proof.
  intros Ha Hb H1 H2 H1' H2' E.
  assert (forall o, address (subnet2 a b) o = Itoa a +:+ "." +:+ address (Itoa b) o) as Ea.
  { intros o0. unfold address, subnet2. by rewrite !str_app_assoc. }
  rewrite !Ea in E. apply (f_equal (fun s => Split s ".")) in E.
  rewrite !address_split in E by (try done; by apply Itoa_without).
  apply app_inv_head in E. destruct o as [x y], o' as [x' y']. cbn in *. simplify_eq.
  f_equal; by apply Itoa_inj.
Qed.

Lemma generateIPs_NoDup count a b : (0 <= a)%Z -> (0 <= b)%Z -> NoDup (generateIPs count (subnet2 a b)).
Proof.
  intros Ha Hb. unfold generateIPs. destruct (octets_codes (Z.to_nat count) 0 1) as [E Hall]; [lia|].
  apply NoDup_fmap_2_strong.
  - rewrite Forall_forall in Hall. intros o o' Ho Ho' Heq.
    pose proof (Hall _ Ho). pose proof (Hall _ Ho'). eapply address_inj; try exact Heq; lia.
  - apply (NoDup_fmap_1 (fun o => 254 * o.1 + o.2)%Z). change (fmap ?f ?l) with (map f l). rewrite E. apply NoDup_seqZ.
Qed.

(** ** What nft lists is read back *)
Lemma ipv4_chars ip : ipv4_text ip = true -> ip <> "" /\ str_forall addr_char ip = true.
Proof.
  unfold ipv4_text. intros H. rewrite <- (join_Split "." ip).
  destruct (Split ip ".") as [|a [|b [|c [|d [|? ?]]]]]; try done.
  cbn [forallb] in H. rewrite !andb_true_iff in H. destruct H as (Ha & Hb & Hc & Hd & _).
  apply octet_digits in Ha as [Hne Ha], Hb as [_ Hb], Hc as [_ Hc], Hd as [_ Hd].
  assert (forall s, str_forall is_digit s = true -> str_forall addr_char s = true) as Hm.
  { intros s. apply str_forall_mono. intros x Hx. unfold addr_char. by rewrite Hx. }
  apply Hm in Ha, Hb, Hc, Hd. cbn [join]. split.
  - by destruct a.
  - rewrite !str_forall_app, Ha, Hb, Hc, Hd. done.
Qed.

(** A text whose first byte belongs to an address. *)
Definition begins (s : string) : Prop := exists c t, s = String c t /\ addr_char c = true.

Lemma begins_app s t : begins s -> begins (s +:+ t).
Proof. intros (c & u & -> & Hc). exists c, (u +:+ t). by rewrite str_app_cons. Qed.

Lemma address_begins ip : ip <> "" -> str_forall addr_char ip = true -> begins ip /\ begins (str_rev ip).
Proof.
  intros Hne H. assert (forall s, s <> "" -> str_forall addr_char s = true -> begins s) as Hb.
  { intros [|c s] Hs; [done|]. cbn. intros [Hc _]%andb_true_iff. by exists c, s. }
  split; [by apply Hb|]. apply Hb; [|by rewrite str_forall_rev].
  intros E. apply (f_equal str_rev) in E. rewrite str_rev_involutive in E. done.
Qed.

Lemma begins_trimmed ws s :
  ws = white_space \/ ws = map str_rev white_space -> begins s -> trimmed_left ws s.
Proof.
  intros Hws (c & t & -> & Hc). unfold trimmed_left.
  destruct c as [[] [] [] [] [] [] [] []]; try discriminate Hc;
    destruct Hws as [-> | ->]; repeat constructor.
Qed.

Lemma trim_left_blank ws b s fuel :
  ws = white_space \/ ws = map str_rev white_space -> blank b -> begins s ->
  String.length b <= fuel -> trim_left fuel ws (b +:+ s) = s.
Proof.
  intros Hws. revert fuel. induction b as [|c b IH]; intros fuel Hb Hs Hl.
  - rewrite str_app_nil_l. by apply trim_left_fix, begins_trimmed.
  - unfold blank in Hb. cbn in Hb. apply andb_true_iff in Hb as [Hc Hb]. destruct fuel as [|fuel]; [cbn in Hl; lia|].
    rewrite str_app_cons.
    assert (trim_left (S fuel) ws (String c (b +:+ s)) = trim_left fuel ws (b +:+ s)) as ->.
    { generalize (b +:+ s) as u. intros u. clear IH.
      destruct c as [[] [] [] [] [] [] [] []]; try discriminate Hc; destruct Hws as [-> | ->]; by destruct u. }
    apply IH; try done. cbn in Hl. lia.
Qed.

Lemma TrimSpace_blanks b s b' :
  blank b -> blank b' -> begins s -> begins (str_rev s) -> TrimSpace (b +:+ s +:+ b') = s.
Proof.
  intros Hb Hb' Hs Hr. unfold TrimSpace. cbv zeta.
  rewrite trim_left_blank; [|by left|done|by apply begins_app|rewrite str_length_app; lia].
  rewrite str_rev_app, trim_left_blank; [by rewrite str_rev_involutive|by right| |done|].
  - unfold blank. by rewrite str_forall_rev.
  - rewrite str_rev_length, str_length_app. lia.
Qed.

Lemma TrimSpace_address b e : blank b -> e <> "" -> str_forall addr_char e = true -> TrimSpace (b +:+ e) = e.
Proof.
  intros Hb Hne He. destruct (address_begins e Hne He) as [? ?].
  rewrite <- (str_app_nil_r (b +:+ e)), str_app_assoc. by apply TrimSpace_blanks.
Qed.

Lemma Index_char c s t : without c s -> Index (s +:+ String c t) (String c "") = Some (String.length s).
Proof.
  unfold without. induction s as [|x s IH]; [intros _|].
  - rewrite str_app_nil_l. cbn [Index]. assert (HasPrefix (String c t) (String c "") = true) as ->; [|done].
    apply HasPrefix_split. exists t. by rewrite str_app_cons, str_app_nil_l.
  - cbn [str_forall]. rewrite andb_true_iff, negb_true_iff, str_app_cons. intros [Hx Hs]. cbn [Index].
    destruct (HasPrefix (String x (s +:+ String c t)) (String c "")) eqn:E.
    { apply HasPrefix_split in E as [u E]. rewrite str_app_cons in E. injection E as -> _.
      by rewrite Ascii.eqb_refl in Hx. }
    by rewrite IH.
Qed.

Lemma str_take_all s t : str_take (String.length s) (s +:+ t) = s.
Proof. induction s as [|c s IH]; [by destruct t|]. rewrite str_app_cons. cbn. by rewrite IH. Qed.

(** The elements after the first: a comma, blanks, an address. *)
Lemma core_ends (e : string) (l : list (string * string)) :
  begins e -> begins (str_rev e) -> Forall (fun p => begins (str_rev p.2)) l ->
  let core := join "," (e :: map (fun p => p.1 +:+ p.2) l) in begins core /\ begins (str_rev core).
Proof.
  intros He Hr Hl. cbn zeta. revert e He Hr. induction Hl as [|p l Hp Hl IH]; intros e He Hr; [done|].
  cbn [map]. change (join "," (e :: ?x :: ?l)) with (e +:+ "," +:+ join "," (x :: l)).
  split; [by apply begins_app|].
  rewrite !str_rev_app, str_app_assoc. apply begins_app.
  clear IH He Hr e. revert p Hp. induction Hl as [|q l Hq Hl IH]; intros p Hp; cbn [map].
  - cbn [join]. rewrite str_rev_app. by apply begins_app.
  - change (join "," (?e :: ?x :: ?l)) with (e +:+ "," +:+ join "," (x :: l)).
    rewrite !str_rev_app, !str_app_assoc. apply begins_app. by apply IH.
Qed.

Lemma elements_start r :
  Index (nft_heading +:+ "elements = {" +:+ r) "elements = {" = Some (String.length nft_heading) /\
  str_drop (String.length nft_heading + String.length "elements = {") (nft_heading +:+ "elements = {" +:+ r) = r.
Proof. split; [by destruct r|reflexivity]. Qed.

Lemma not_comma c : addr_char c = true \/ is_blank c = true -> c <> ","%char /\ c <> "}"%char.
Proof. intros H. by split; intros ->; destruct H. Qed.

Lemma part_without sep b e :
  sep = ","%char \/ sep = "}"%char -> blank b -> str_forall addr_char e = true -> without sep (b +:+ e).
Proof.
  intros Hsep Hb He. unfold without. rewrite str_forall_app, andb_true_iff.
  split; [eapply str_forall_mono, Hb|eapply str_forall_mono, He]; intros c Hc;
    apply negb_true_iff, Ascii.eqb_neq; intros ->; destruct Hsep as [-> | ->]; by destruct (not_comma _ (or_intror Hc)) || by destruct (not_comma _ (or_introl Hc)).
Qed.

Lemma join_without c l : c <> ","%char -> Forall (without c) l -> without c (join "," l).
Proof.
  intros Hc. induction 1 as [|s l Hs Hl IH]; [done|]. destruct l as [|s' l]; [done|].
  change (join "," (s :: s' :: l)) with (s +:+ "," +:+ join "," (s' :: l)).
  unfold without in *. rewrite !str_forall_app, Hs, IH. cbn [str_forall].
  by destruct (Ascii.eqb_spec "," c).
Qed.

Lemma filter_nonempty l : Forall (fun s => s <> "") l -> List.filter (fun ip => negb (String.eqb ip "")) l = l.
Proof. induction 1 as [|s l Hs _ IH]; [done|]. cbn. by rewrite (proj2 (String.eqb_neq _ _) Hs), IH. Qed.

Lemma parse_elements (l : list (string * string)) last rest :
  l <> [] -> Forall (fun p => blank p.1 /\ ipv4_text p.2 = true) l -> blank last ->
  parse_down (nft_heading +:+ "elements = {" +:+ elements_text l last +:+ "}" +:+ rest) = list_to_set (map snd l).
Proof.
  intros Hne Hl Hlast. unfold parse_down. destruct (elements_start (elements_text l last +:+ "}" +:+ rest)) as [-> ->].
  assert (Forall (fun p => blank p.1 /\ p.2 <> "" /\ str_forall addr_char p.2 = true) l) as Hc.
  { eapply Forall_impl; [exact Hl|]. intros p [Hb [? ?]%ipv4_chars]. done. }
  assert (without "}" (elements_text l last)) as Hw.
  { unfold elements_text, without. rewrite str_forall_app, andb_true_iff. split.
    - apply join_without; [done|]. apply Forall_map. eapply Forall_impl; [exact Hc|].
      intros p (? & _ & ?). by apply part_without; [right|..].
    - rewrite <- (str_app_nil_r last). by apply part_without; [right|..]. }
  rewrite str_app_cons, str_app_nil_l, Index_char, str_take_all by done.
  destruct l as [|[b e] l]; [done|]. apply Forall_cons in Hc as [(Hb & He & Hae) Hc]. cbn [fst snd] in *.
  destruct (address_begins e He Hae) as [Hbe Hre].
  set (core := join "," (e :: map (fun p => p.1 +:+ p.2) l)).
  assert (elements_text ((b, e) :: l) last = b +:+ core +:+ last) as ->.
  { unfold elements_text, core. cbn [map fst snd]. rewrite <- str_app_assoc. f_equal. destruct l as [|p l]; [done|].
    cbn [map]. change (join "," (?e :: ?x :: ?l)) with (e +:+ "," +:+ join "," (x :: l)). by rewrite str_app_assoc. }
  destruct (core_ends e l) as [H1 H2]; try done.
  { eapply Forall_impl; [exact Hc|]. intros p (_ & ? & ?). by apply address_begins. }
  rewrite TrimSpace_blanks by done.
  rewrite (proj2 (String.eqb_neq core "")); [|destruct H1 as (c & t & E & _); unfold core; by rewrite E].
  unfold core. rewrite Split_join; [|done|].
  - assert (map TrimSpace (e :: map (fun p => p.1 +:+ p.2) l) = e :: map snd l) as ->.
    { cbn [map]. f_equal; [rewrite <- (str_app_nil_l e) at 1; by apply TrimSpace_address|].
      rewrite map_map. apply map_ext_Forall. eapply Forall_impl; [exact Hc|].
      intros p (? & ? & ?). by apply TrimSpace_address. }
    rewrite filter_nonempty; [done|]. constructor; [done|]. apply Forall_map. eapply Forall_impl; [exact Hc|].
    by intros p (_ & ? & _).
  - constructor.
    + rewrite <- (str_app_nil_l e). by apply part_without; [left|..].
    + apply Forall_map. eapply Forall_impl; [exact Hc|]. intros p (? & _ & ?). by apply part_without; [left|..].
Qed.

Lemma parse_listing (s : gset string) out :
  set_Forall (fun ip => ipv4_text ip = true) s -> listing s out -> parse_down out = s.
Proof.
  intros Hs [[-> ->]|(l & last & Hp & Hne & Hb & Hlast & ->)]; [by vm_compute|].
  rewrite parse_elements; [|done| |done].
  - apply set_eq. intros ip. by rewrite elem_of_list_to_set, Hp, elem_of_elements.
  - apply Forall_forall. intros p Hin. rewrite Forall_forall in Hb. split; [by apply Hb|].
    apply Hs. rewrite <- elem_of_elements, <- Hp. apply list_elem_of_fmap. by exists p.
Qed.

(** ** What a flap does *)

(** Turn over the addresses of [b]. *)
Definition flipped (a b : gset string) : gset string := (a ∖ b) ∪ (b ∖ a).

Lemma flipped_nil a : flipped a ∅ = a.
Proof. unfold flipped. set_solver. Qed.
Lemma flipped_cons a ip (l : list string) :
  ip ∉ l -> flipped (flipped a {[ip]}) (list_to_set l) = flipped a (list_to_set (ip :: l)).
Proof. unfold flipped. set_solver. Qed.
Lemma flipped_out a ip : ip ∈ a -> a ∖ {[ip]} = flipped a {[ip]}.
Proof. unfold flipped. set_solver. Qed.
Lemma flipped_in a ip : ip ∉ a -> {[ip]} ∪ a = flipped a {[ip]}.
Proof. unfold flipped. set_solver. Qed.

Lemma lookup_nth {A} (l : list A) i d : i < length l -> l !! i = Some (nth i l d).
Proof. intros Hi. destruct (nth_lookup_or_length l i d); [done|lia]. Qed.

Section flap_spec.
Context {W} {nft : Nft W} `{!NftLaws nft} (Perm : nat -> proc W (list nat)).

(** The addresses that are down. *)
Definition down (w : W) : gset string := view w.

(** What the flapper relies on of math/rand. *)
Definition permutes : Prop := forall n w, wp (Perm n) (fun p w' => p ≡ₚ seq 0 n /\ down w' = down w) w.

Lemma nft_run_spec args w :
  wp (nft_run args) (fun r w' => match r with
    | Ok out => nft_spec _ (Command args) (down w) out (down w')
    | Err _ => (down w' = down w \/ exists out, nft_spec _ (Command args) (down w) out (down w'))
    end /\ is_ok r = is_ok (Prelude.request (Command args) w).1) w.
Proof.
  apply wp_and; [|by apply wp_run].
  apply (wp_request nft nft_spec nft_fails); [done|]. intros e w' H. exact H.
Qed.

(** One address is turned over, or perhaps not when the command fails. *)
Definition turned (r : res string) (ip : string) (w w' : W) : Prop :=
  (down w' = flipped (down w) {[ip]} \/ is_ok r = false /\ down w' = down w) /\ (NftAnswers nft -> is_ok r = true).

Lemma AddDownIP_spec ip w :
  ipv4_text ip = true -> ip ∉ down w -> wp (AddDownIP ip) (fun r w' => turned r ip w w') w.
Proof.
  intros Hip Hn. eapply wp_mono; [apply nft_run_spec|]. cbn beta. intros r w' [H Hr].
  split; [|intros HA; rewrite Hr; apply HA; right; left; by exists ip].
  rewrite <- flipped_in by done. destruct r as [out|e]; [left; by apply H|].
  destruct H as [H|[out H]]; [by right|left]. by apply H.
Qed.

Lemma DeleteDownIP_spec ip w :
  ipv4_text ip = true -> ip ∈ down w -> wp (DeleteDownIP ip) (fun r w' => turned r ip w w') w.
Proof.
  intros Hip Hin. eapply wp_mono; [apply nft_run_spec|]. cbn beta. intros r w' [H Hr].
  split; [|intros HA; rewrite Hr; apply HA; right; right; by exists ip].
  rewrite <- flipped_out by done. destruct r as [out|e]; [left; by apply H|].
  destruct H as [H|[out H]]; [by right|left]. by apply H.
Qed.

Lemma ListDownIPs_spec w :
  set_Forall (fun ip => ipv4_text ip = true) (down w) ->
  wp ListDownIPs (fun r w' => down w' = down w /\
    match r with Ok s => s = down w | Err _ => True end /\ (NftAnswers nft -> is_ok r = true)) w.
Proof.
  intros Hs. apply wp_try. eapply wp_mono; [apply nft_run_spec|]. cbn beta. intros r w' [H Hr].
  assert (NftAnswers nft -> is_ok r = true) as Hans by (intros HA; rewrite Hr; apply HA; by left).
  destruct r as [out|e].
  - apply wp_ret. destruct H as (_ & _ & _ & H). destruct (H eq_refl) as [E Hl]. split_and!; try done.
    apply parse_listing; auto.
  - split_and!; try done. destruct H as [H|[out (_ & _ & _ & H)]]; [done|]. by destruct (H eq_refl).
Qed.

Lemma flap_spec selected w :
  NoDup selected -> Forall (fun ip => ipv4_text ip = true) selected ->
  wp (flap (down w) selected) (fun r w' => exists k, k <= length selected /\
    down w' = flipped (down w) (list_to_set (take k selected)) /\ (NftAnswers nft -> k = length selected)) w.
Proof.
  intros Hd Ha. revert w. induction Hd as [|ip l Hn Hd IH]; intros w; cbn [flap].
  { apply wp_ret. exists 0. split; [done|]. by rewrite take_nil, flipped_nil. }
  apply Forall_cons in Ha as [Hip Ha]. specialize (IH Ha).
  assert (forall m s', s' = flipped (down w) {[ip]} -> wp m (fun r w' => turned r ip w w') w ->
    wp (_ <-? m; flap s' l) (fun r w' => exists k, k <= S (length l) /\
      down w' = flipped (down w) (list_to_set (take k (ip :: l))) /\ (NftAnswers nft -> k = S (length l))) w) as Hgo.
  { intros m s' -> Hm. apply wp_try. eapply wp_mono; [exact Hm|]. cbn beta. intros [out|e] w' [Hw Hr].
    - destruct Hw as [Hw|[[=] _]]. rewrite <- Hw. eapply wp_mono; [apply IH|]. cbn beta.
      intros r w'' (k & Hk & Hw'' & Hrel). exists (S k). split; [lia|]. cbn [take]. rewrite Hw'', Hw.
      split; [|intros HR; specialize (Hrel HR); lia]. apply flipped_cons. intros Hin. by apply elem_of_take in Hin as (? & ?%list_elem_of_lookup_2 & _).
    - destruct Hw as [Hw|[_ Hw]]; [exists 1|exists 0]; (split; [lia|]); (split; [|intros HR; by specialize (Hr HR)]).
      + rewrite Hw. cbn [take list_to_set]. f_equal. set_solver.
      + rewrite Hw. cbn [take]. by rewrite flipped_nil. }
  case_decide as E; (eapply Hgo; [|by first [apply DeleteDownIP_spec|apply AddDownIP_spec]]).
  - by apply flipped_out.
  - by apply flipped_in.
Qed.

Lemma pickRandom_spec ips n w :
  permutes -> NoDup ips -> (0 <= n <= Z.of_nat (length ips))%Z ->
  wp (pickRandom Perm ips n) (fun l w' => down w' = down w /\ NoDup l /\ (forall ip, ip ∈ l -> ip ∈ ips) /\
    Z.of_nat (length l) = n) w.
Proof.
  intros Hp Hd Hn. unfold pickRandom. rewrite (proj2 (Z.ltb_ge _ _)) by lia.
  destruct (Z.leb_spec n 0); [apply wp_ret; split_and!; [done|constructor|by intros ? ?%elem_of_nil|cbn; lia]|].
  apply wp_bind. eapply wp_mono; [apply Hp|]. cbn beta. intros p w' [Hperm Hw]. apply wp_ret.
  assert (forall i, i ∈ take (Z.to_nat n) p -> i < length ips) as Hlt.
  { intros i Hi. apply elem_of_take in Hi as (j & Hj%list_elem_of_lookup_2 & _). rewrite Hperm in Hj.
    by apply elem_of_seq in Hj as [_ Hj]. }
  split; [done|]. split; [|split].
  - apply NoDup_fmap_2_strong.
    + intros i j Hi%Hlt Hj%Hlt E. eapply NoDup_lookup; [exact Hd|by apply (lookup_nth _ _ "")|].
      rewrite E. by apply lookup_nth.
    + assert (NoDup p) as Hnd by (rewrite Hperm; apply NoDup_seq).
      rewrite <- (take_drop (Z.to_nat n) p) in Hnd. by apply NoDup_app in Hnd as [? _].
  - intros ip (i & -> & Hi%Hlt)%list_elem_of_fmap. apply list_elem_of_In, nth_In. done.
  - rewrite length_map, length_take, Hperm, length_seq. lia.
Qed.
End flap_spec.

Lemma flipCount_range total percent : (0 < total)%Z -> (1 <= flipCount total percent <= total)%Z.
Proof.
  intros Ht. unfold flipCount. rewrite (proj2 (Z.ltb_lt 0 total)) by done. rewrite andb_true_r.
  set (n := int_of_f64 _). cbv zeta. destruct (Z.ltb_spec n 1).
  - destruct (Z.ltb_spec total 1); lia.
  - destruct (Z.ltb_spec total n); lia.
Qed.

(** The fleet has 256 times 254 addresses. *)
Definition fleet_size : Z := 65024.

Lemma generateIPs_ipv4 total a b :
  (total <= fleet_size)%Z -> (0 <= a <= 255)%Z -> (0 <= b <= 255)%Z ->
  Forall (fun ip => ipv4_text ip = true) (generateIPs total (subnet2 a b)).
Proof.
  intros Ht Ha Hb. apply Forall_lookup. intros i ip Hi. pose proof (lookup_lt_Some _ _ _ Hi) as Hl.
  rewrite generateIPs_length in Hl. unfold generateIPs in Hi. rewrite list_lookup_fmap, octets_lookup in Hi by done.
  injection Hi as <-. unfold fleet_size in Ht.
  pose proof (Z.mod_pos_bound (Z.of_nat i) 254 ltac:(lia)). pose proof (Z.div_pos (Z.of_nat i) 254 ltac:(lia) ltac:(lia)).
  rewrite ipv4_text_address; cbn; [|lia..]. apply Z.leb_le. apply Z.lt_succ_r, Z.div_lt_upper_bound; lia.
Qed.

(** One server more and the fleet leaves the subnet. *)
Lemma fleet_overflow a b :
  (0 <= a <= 255)%Z -> (0 <= b <= 255)%Z ->
  exists ip, last (generateIPs (fleet_size + 1) (subnet2 a b)) = Some ip /\ ipv4_text ip = false.
Proof.
  intros Ha Hb. exists (address (subnet2 a b) (256, 1))%Z. split; [|by rewrite ipv4_text_address by (cbn; lia)].
  rewrite last_lookup, generateIPs_length. unfold fleet_size, generateIPs.
  rewrite list_lookup_fmap, octets_lookup by lia.
  replace (Z.of_nat (pred (Z.to_nat (65024 + 1)))) with 65024%Z by lia. done.
Qed.

(** A turn_of of [n] addresses of the fleet, or fewer when a command fails. *)
Definition turn_of (fleet : list string) (n : Z) (answers : Prop) (l : list string) : Prop :=
  NoDup l /\ (forall ip, ip ∈ l -> ip ∈ fleet) /\ (Z.of_nat (length l) <= n)%Z /\ (answers -> Z.of_nat (length l) = n).

Lemma flapper_tick_spec {W} {nft : Nft W} `{!NftLaws nft} (Perm : nat -> proc W (list nat))
    (total a b : Z) (percent : f64) (w : W) :
  permutes Perm -> (0 < total <= fleet_size)%Z -> (0 <= a <= 255)%Z -> (0 <= b <= 255)%Z ->
  set_Forall (fun ip => ipv4_text ip = true) (down w) ->
  wp (StartAutoFlapper_tick Perm {| TotalIPs := total; Subnet := subnet2 a b |} percent) (fun _ w' => exists l,
    turn_of (generateIPs total (subnet2 a b)) (flipCount total percent) (NftAnswers nft) l /\
    down w' = flipped (down w) (list_to_set l)) w.
Proof.
  intros Hp Ht Ha Hb Hs. pose proof (flipCount_range total percent ltac:(lia)) as Hn. unfold turn_of.
  apply wp_bind. cbn [TotalIPs Subnet]. eapply wp_mono; [|intros r w' H; apply wp_ret; exact H].
  apply wp_try. eapply wp_mono; [by apply ListDownIPs_spec|]. cbn beta. intros [s|e] w1 (Hw1 & Hr & Hrel).
  2: { exists []. cbn. rewrite flipped_nil. split_and!; [constructor|by intros ? ?%elem_of_nil|lia| |done].
       intros HR. by specialize (Hrel HR). }
  subst s. apply wp_bind. eapply wp_mono.
  { apply pickRandom_spec; [done|apply generateIPs_NoDup; lia|rewrite generateIPs_length; lia]. }
  cbn beta. intros l w2 (Hw2 & Hd & Hl & Hlen). rewrite <- Hw1, <- Hw2.
  pose proof (generateIPs_ipv4 total a b ltac:(lia) Ha Hb) as Hall. rewrite Forall_forall in Hall.
  eapply wp_mono; [apply flap_spec; [done|apply Forall_forall; auto]|]. cbn beta. intros r w3 (k & Hk & Hw3 & HR).
  exists (take k l). split_and!; [| | | |done].
  - rewrite <- (take_drop k l) in Hd. by apply NoDup_app in Hd as [? _].
  - intros ip (i & Hi%list_elem_of_lookup_2 & _)%elem_of_take. auto.
  - rewrite length_take. lia.
  - intros HRel. rewrite length_take, (HR HRel). lia.
Qed.


(** *** The theorem at work *)

(** A packet filter that lists the addresses on one line each; it refuses to
    delete what is not there. *)
Definition list_text (s : gset string) : string :=
  match elements s with
  | [] => nft_heading +:+ nft_closing
  | l => nft_heading +:+ "elements = {" +:+ elements_text (map (fun ip => (newline +:+ tab, ip)) l) " " +:+ "}" +:+ nft_closing
  end.
Definition toy_nft : Nft (gset string) := {|
  Prelude.request := fun A c s =>
    match c in nftcmd A return res A * gset string with
    | Command args =>
      let ip := nth 6 args "" in
      if decide (args = flush_args) then (Ok "", ∅)
      else if decide (args = list_args) then (Ok (list_text s), s)
      else if decide (args = add_args ip) then (Ok "", {[ip]} ∪ s)
      else if decide (args = delete_args ip) then
        (if decide (ip ∈ s) then (Ok "", s ∖ {[ip]}) else (Err (ErrS "exit status 1"), s))
      else (Err (ErrS "exit status 1"), s)
    end;
  Prelude.view := fun s => s;
|}.

Lemma list_text_listing s : listing s (list_text s).
Proof.
  unfold list_text. destruct (elements s) as [|ip l] eqn:E; [left|right].
  - split; [|done]. by apply elements_empty_inv, leibniz_equiv in E.
  - exists (map (fun ip => (newline +:+ tab, ip)) (ip :: l)), " ". rewrite E. split_and!; try done.
    + rewrite map_map. by rewrite map_id.
    + apply Forall_map, Forall_true. by intros.
Qed.

#[export] Instance toy_nft_laws : NftLaws toy_nft.
Proof.
  split; intros A [args] s x s' E; unfold view; cbn in *; repeat case_decide; simplify_eq; try by left.
  all: split_and!; try done; try (intros ? [=]; congruence); try (intros ? [=] ?; congruence).
  - intros _. split; [done|]. intros _. apply list_text_listing.
  - by intros ip ->.
  - intros ip ->. unfold add_args, delete_args in *. simplify_eq.
  - intros ip ->. unfold add_args, delete_args in *. simplify_eq.
  - by intros ip ->.
Qed.
Lemma toy_nft_answers : NftAnswers toy_nft.
Proof.
  intros args s [->|[(ip & -> & _)|(ip & -> & Hip)]]; cbn; repeat case_decide; try done.
Qed.
#[local] Instance toy_nft_answers_instance : NftAnswers toy_nft := toy_nft_answers.

(** A fleet of 300 addresses of which two are down; one in a hundred flaps. *)
Definition toy_Perm (n : nat) : proc (gset string) (list nat) := mret (rev (seq 0 n)).
Definition toy_down : gset string := {["10.1.1.46"; "10.1.0.7"]}.
Definition toy_fleet : Server := {| TotalIPs := 300; Subnet := subnet2 10 1 |}.


(** ** The heartbeats reach their endpoint *)
Lemma decode_first_flat m : flat m -> decode_first (Marshal (JObj m)) = Some (JObj m).
Proof.
  intros Hm%parse_Marshal_flat. unfold parse, decode_first in *.
  destruct (parse_value _ _) as [[j t]|]; [|done]. cbn in *. destruct (skip_ws t); by simplify_eq.
Qed.

(** What the push worker posts, the endpoint of sms-agent-handler accepts as a
    heartbeat of that server. *)
Lemma heartbeat_accepted masterKey id now :
  masterKey <> "" -> TrimSpace masterKey = masterKey -> id <> "" -> valid_utf8 id = true ->
  AgentHandler.beat masterKey "/api/v1/agent/heartbeat" (heartbeat masterKey id now) = inr id.
Proof.
  intros Hk Ht Hid Hv.
  assert (AgentHandler.decode_heartbeat (Marshal (JObj [("server_id", JStr id); ("timestamp", JInt (Unix now))])) = Some id) as Hb.
  { unfold AgentHandler.decode_heartbeat. rewrite decode_first_flat; [reflexivity|].
    repeat constructor; try done. }
  unfold AgentHandler.beat, heartbeat. cbn [Method Header Body]. rewrite Hb, Ht, !String.eqb_refl. cbn [negb].
  unfold Header_Get, Header_Values. rewrite lookup_insert_ne, lookup_singleton_eq by done. cbn.
  by rewrite (proj2 (String.eqb_neq _ _) Hk), (proj2 (String.eqb_neq _ _) Hid).
Qed.
