(* ===== verification/ObservationLogger.v ===== *)
(** sms-monitoring: the buffered logger of observations
    (infrastructure/elasticsearch/observation_logger.go).  Its goroutines take
    turns in any order: callers put observations into a channel, a ticker and
    the flusher move them in batches to Elasticsearch, shutdown closes the
    channel.  The channel has a buffer (a capacity of at least one). *)
From S2P Require Import Prelude GoStd Json Config Redis Host.

Record ObservationLog := { o_ServerID : string; o_IsSuccess : bool; o_Timestamp : Z }.

#[export] Instance ObservationLog_eq_dec : EqDecision ObservationLog.
Proof. solve_decision. Defined.

(** The logger: its channel, the batch of the flusher, and whether the flusher
    has returned; [l_accepted] and [l_flushed] record what went into the
    channel and the batches that were flushed, with Elasticsearch's verdict. *)
Record logger := Logger {
  l_ch : list ObservationLog; l_closed : bool; l_batch : list ObservationLog; l_stopped : bool;
  l_accepted : list ObservationLog; l_flushed : list (list ObservationLog * bool);
}.

(** What the runtime schedules next: a caller, the flusher at its channel, the
    ticker, the shutdown. *)
Inductive turn := Log (serverID : string) (isSuccess : bool) | Receive | Tick | Close.

#[export] Instance turn_eq_dec : EqDecision turn.
Proof. solve_decision. Defined.

Section logger.
Context {W} {srv : Host W}.
(** One bulk request: an error, or whether some document had an error; the
    client may be nil.  The JSON text of a time. *)
Context (Bulk : option (string -> proc W (res bool))) (index : string) (time_json : Z -> string).
Context (cfg : ObservationLoggerConfig).

Definition NewObservationLogger : logger := Logger [] false [] false [] [].

Definition document (o : ObservationLog) : string :=
  Marshal (JObj [("server_id", JStr (o_ServerID o)); ("is_success", JBool (o_IsSuccess o));
                 ("timestamp", JStr (time_json (o_Timestamp o)))]).

Definition newline : string := bytes [10]%Z.
Definition bulk_body (batch : list ObservationLog) : string :=
  let q := String dquote "" in
  String.concat "" (map (fun o =>
    "{" +:+ q +:+ "index" +:+ q +:+ ":{" +:+ q +:+ "_index" +:+ q +:+ ":" +:+ q +:+ index +:+ q +:+ "}}" +:+ newline +:+
    document o +:+ newline) batch).

(** [for i := 0; i < l.retryMax; i++]: whether a request was taken. *)
Fixpoint bulk_tries (bulk : string -> proc W (res bool)) (n : nat) (body : string) : proc W bool :=
  match n with
  | O => mret false
  | S n =>
    resp <-- bulk body;
    match resp with
    | Ok false => mret true
    | _ => bulk_tries bulk n body
    end
  end.

Definition flush (batch : list ObservationLog) : proc W bool :=
  match Bulk with
  | None => mret false
  | Some bulk => bulk_tries bulk (Z.to_nat (RetryMax cfg)) (bulk_body batch)
  end.

Definition flushing (l : logger) : proc W logger :=
  taken <-- flush (l_batch l);
  mret (Logger (l_ch l) (l_closed l) [] (l_stopped l) (l_accepted l) (l_flushed l ++ [(l_batch l, taken)])).

(** Sending on a closed channel panics; a full channel drops. *)
Definition LogObservation (serverID : string) (isSuccess : bool) (l : logger) : proc W (option logger) :=
  now <-- time_Now;
  if l_closed l then mret None
  else if (Z.of_nat (length (l_ch l)) <? ChannelSize cfg)%Z then
    let o := {| o_ServerID := serverID; o_IsSuccess := isSuccess; o_Timestamp := now |} in
    mret (Some (Logger (l_ch l ++ [o]) false (l_batch l) (l_stopped l) (l_accepted l ++ [o]) (l_flushed l)))
  else mret (Some l).

(** [obs, ok := <-l.ch]: one case of the flusher's select. *)
Definition receive (l : logger) : proc W logger :=
  match l_ch l with
  | [] =>
    if l_closed l then
      l <-- (if bool_decide (l_batch l = []) then mret l else flushing l);
      mret (Logger (l_ch l) true (l_batch l) true (l_accepted l) (l_flushed l))
    else mret l                                             (* blocked *)
  | o :: ch =>
    let l := Logger ch (l_closed l) (l_batch l ++ [o]) (l_stopped l) (l_accepted l) (l_flushed l) in
    if (O_BatchSize cfg <=? Z.of_nat (length (l_batch l)))%Z then flushing l else mret l
  end.

Definition tick (l : logger) : proc W logger :=
  if bool_decide (l_batch l = []) then mret l else flushing l.

Definition Shutdown (l : logger) : logger :=
  Logger (l_ch l) true (l_batch l) (l_stopped l) (l_accepted l) (l_flushed l).

Definition take_turn (t : turn) (l : logger) : proc W (option logger) :=
  match t with
  | Log serverID isSuccess => LogObservation serverID isSuccess l
  | Receive => if l_stopped l then mret (Some l) else l <-- receive l; mret (Some l)
  | Tick => if l_stopped l then mret (Some l) else l <-- tick l; mret (Some l)
  | Close => mret (Some (Shutdown l))
  end.

Fixpoint run_turns (ts : list turn) (l : logger) : proc W (option logger) :=
  match ts with
  | [] => mret (Some l)
  | t :: ts =>
    r <-- take_turn t l;
    match r with
    | Some l => run_turns ts l
    | None => mret None
    end
  end.

(** ** Invariant *)
Record kept (l : logger) : Prop := {
  kept_all : concat (map fst (l_flushed l)) ++ l_batch l ++ l_ch l = l_accepted l;
  kept_batches : Forall (fun b => b.1 <> [] /\ (Z.of_nat (length b.1) <= Z.max 1 (O_BatchSize cfg))%Z) (l_flushed l);
  kept_batch : (Z.of_nat (length (l_batch l)) < Z.max 1 (O_BatchSize cfg))%Z;
  kept_channel : (Z.of_nat (length (l_ch l)) <= Z.max 0 (ChannelSize cfg))%Z;
  kept_stopped : l_stopped l = true -> l_closed l = true /\ l_ch l = [] /\ l_batch l = [];
}.

Lemma NewObservationLogger_kept : kept NewObservationLogger.
Proof. split; cbn; try done; lia. Qed.

Lemma flushing_kept l w :
  concat (map fst (l_flushed l)) ++ l_batch l ++ l_ch l = l_accepted l ->
  Forall (fun b => b.1 <> [] /\ (Z.of_nat (length b.1) <= Z.max 1 (O_BatchSize cfg))%Z) (l_flushed l) ->
  l_batch l <> [] -> (Z.of_nat (length (l_batch l)) <= Z.max 1 (O_BatchSize cfg))%Z ->
  (Z.of_nat (length (l_ch l)) <= Z.max 0 (ChannelSize cfg))%Z -> l_stopped l = false ->
  wp (flushing l) (fun l' _ => kept l' /\ l_ch l' = l_ch l /\ l_batch l' = [] /\ l_closed l' = l_closed l /\
    l_stopped l' = false) w.
Proof.
  intros Hall Hbs Hne Hb Hch Hst. apply wp_bind, wp_any. intros taken w1. apply wp_ret. split; [|done].
  split; cbn; [|by apply Forall_app; split; [|constructor; [|constructor]]|lia|done|by rewrite Hst].
  rewrite map_app, concat_app, <- Hall. cbn. by rewrite app_nil_r, <- !app_assoc.
Qed.

Lemma receive_kept l w :
  kept l -> l_stopped l = false ->
  wp (receive l) (fun l' _ => kept l' /\ l_closed l' = l_closed l /\
    length (l_ch l') = pred (length (l_ch l)) /\ (l_ch l = [] -> l_closed l = true -> l_stopped l' = true)) w.
Proof.
  intros [Hall Hbs Hb Hch _] Hst. unfold receive. destruct (l_ch l) as [|o ch] eqn:Ech.
  - destruct (l_closed l) eqn:Ecl; [|apply wp_ret; split_and!; try done; [split; try done|]; by rewrite ?Ech, ?Hst].
    apply wp_bind. eapply (wp_mono _ (fun l' _ => kept l' /\ l_ch l' = [] /\ l_batch l' = [])).
    + case_bool_decide as E.
      * apply wp_ret. split; [|by rewrite Ech, E]. split; rewrite ?Ech; try done.
      * eapply wp_mono; [apply flushing_kept; rewrite ?Ech; try done; lia|]. cbn beta. rewrite Ech. by intros l' w' (H & ? & ? & _).
    + cbn beta. intros l' w' ([Ha Hb' Hc Hd He] & E1 & E2). apply wp_ret. split; [by split|by cbn; rewrite E1].
  - cbn [l_batch]. destruct (Z.leb_spec (O_BatchSize cfg) (Z.of_nat (length (l_batch l ++ [o])))) as [Hle|Hgt].
    + rewrite length_app in Hle. cbn in Hle, Hch.
      eapply wp_mono; [apply flushing_kept; cbn;
        [by rewrite <- Hall, <- app_assoc|done|by destruct (l_batch l)|rewrite length_app; cbn; lia|lia|done]|].
      cbn beta. intros l' w' (H & E1 & _ & E3 & _). cbn in E1, E3. split_and!; try done. by rewrite E1.
    + apply wp_ret. cbn in Hch. split_and!; cbn; try done. split; cbn; try done; [by rewrite <- Hall, <- app_assoc|lia|lia|by rewrite Hst].
Qed.

Lemma LogObservation_kept id ok l w :
  (l_stopped l = true -> l_closed l = true) -> kept l ->
  wp (LogObservation id ok l) (fun r _ => match r with Some l' => kept l' | None => l_closed l = true end) w.
Proof.
  intros Hsc [Hall Hbs Hb Hch Hst]. apply wp_bind, wp_any. intros now w1.
  destruct (l_closed l) eqn:Ecl; [by apply wp_ret|].
  destruct (Z.ltb_spec (Z.of_nat (length (l_ch l))) (ChannelSize cfg)); [|apply wp_ret; by split; rewrite ?Ecl].
  apply wp_ret. split; cbn; try done; [by rewrite <- Hall, !app_assoc|rewrite length_app; cbn; lia|].
  intros E. specialize (Hsc E). congruence.
Qed.

Lemma tick_kept l w : kept l -> l_stopped l = false -> wp (tick l) (fun l' _ => kept l') w.
Proof.
  intros Hk Hs. unfold tick. case_bool_decide; [by apply wp_ret|].
  destruct Hk as [Hall Hbs Hb Hch Hst]. eapply wp_mono; [apply flushing_kept; try done; lia|]. by intros l' w' [? _].
Qed.

Lemma take_turn_kept t l w :
  kept l -> wp (take_turn t l) (fun r _ => match r with Some l' => kept l' | None => l_closed l = true end) w.
Proof.
  intros Hk. destruct t as [id ok| | |]; cbn [take_turn].
  - apply LogObservation_kept; [|done]. intros E. by apply (kept_stopped _ Hk).
  - destruct (l_stopped l) eqn:Es; [by apply wp_ret|]. apply wp_bind. eapply wp_mono; [by apply receive_kept|].
    cbn beta. intros l' w' [? _]. by apply wp_ret.
  - destruct (l_stopped l) eqn:Es; [by apply wp_ret|]. apply wp_bind. eapply wp_mono; [by apply tick_kept|].
    cbn beta. intros l' w' ?. by apply wp_ret.
  - apply wp_ret. destruct Hk. split; try done. cbn. intros E. by destruct (kept_stopped0 E) as (_ & ? & ?).
Qed.

Lemma run_turns_kept ts l w :
  kept l -> wp (run_turns ts l) (fun r _ => match r with Some l' => kept l' | None => True end) w.
Proof.
  revert l w. induction ts as [|t ts IH]; intros l w Hk; cbn [run_turns]; [by apply wp_ret|].
  apply wp_bind. eapply wp_mono; [by apply take_turn_kept|]. cbn beta. intros [l'|] w' H; [by apply IH|by apply wp_ret].
Qed.

(** A closed logger whose flusher gets its turns ends. *)
Lemma drain l w :
  kept l -> l_closed l = true ->
  wp (run_turns (repeat Receive (S (length (l_ch l)))) l) (fun r _ =>
    match r with Some l' => kept l' /\ l_stopped l' = true | None => False end) w.
Proof.
  remember (length (l_ch l)) as n eqn:En. revert l w En. induction n as [|n IH]; intros l w En Hk Hc.
  - cbn [repeat run_turns take_turn]. destruct (l_stopped l) eqn:Es; [by apply wp_bind, wp_ret, wp_ret|].
    do 2 apply wp_bind. eapply wp_mono; [by apply receive_kept|]. cbn beta. intros l' w' (Hk' & _ & _ & Hs').
    do 2 apply wp_ret. split; [done|]. apply Hs'; [|done]. by apply nil_length_inv.
  - change (repeat Receive (S (S n))) with (Receive :: repeat Receive (S n)). cbn [run_turns take_turn].
    destruct (l_stopped l) eqn:Es.
    { destruct (kept_stopped _ Hk Es) as (_ & E & _). by rewrite E in En. }
    do 2 apply wp_bind. eapply wp_mono; [by apply receive_kept|]. cbn beta. intros l' w' (Hk' & Hc' & Hn & _).
    apply wp_ret. apply IH; [rewrite Hn, <- En; done|done|congruence].
Qed.

Lemma take_turn_accepted t l w :
  wp (take_turn t l) (fun r _ => match r with Some l' => l_accepted l' = l_accepted l \/
    exists o, t = Log (o_ServerID o) (o_IsSuccess o) /\ l_accepted l' = l_accepted l ++ [o] | None => True end) w.
Proof.
  assert (forall l' w', wp (flushing l') (fun l'' _ => l_accepted l'' = l_accepted l') w') as Hf.
  { intros l' w'. apply wp_bind, wp_any. intros. by apply wp_ret. }
  destruct t as [id ok| | |]; cbn [take_turn].
  - apply wp_bind, wp_any. intros now w1. destruct (l_closed l); [by apply wp_ret|].
    destruct (_ <? _)%Z; apply wp_ret; [right|by left].
    by exists {| o_ServerID := id; o_IsSuccess := ok; o_Timestamp := now |}.
  - destruct (l_stopped l); [by apply wp_ret; left|]. apply wp_bind.
    eapply (wp_mono _ (fun l' _ => l_accepted l' = l_accepted l)); [|by intros l' w' ?; apply wp_ret; left].
    unfold receive. destruct (l_ch l) as [|o ch].
    + destruct (l_closed l); [|by apply wp_ret]. apply wp_bind.
      case_bool_decide; [by do 2 apply wp_ret|]. eapply wp_mono; [apply Hf|]. cbn beta. intros l' w' E. by apply wp_ret.
    + cbn [l_batch]. destruct (_ <=? _)%Z; [|by apply wp_ret]. eapply wp_mono; [apply Hf|]. by intros l' w' E.
  - destruct (l_stopped l); [by apply wp_ret; left|]. apply wp_bind.
    eapply (wp_mono _ (fun l' _ => l_accepted l' = l_accepted l)); [|by intros l' w' ?; apply wp_ret; left].
    unfold tick. case_bool_decide; [by apply wp_ret|]. apply Hf.
  - apply wp_ret. by left.
Qed.

Lemma take_turn_open t l w :
  l_closed l = false -> t <> Close ->
  wp (take_turn t l) (fun r _ => exists l', r = Some l' /\ l_closed l' = false) w.
Proof.
  intros Hc Ht. assert (forall l' w', wp (flushing l') (fun l'' _ => l_closed l'' = l_closed l') w') as Hf.
  { intros l' w'. apply wp_bind, wp_any. intros. by apply wp_ret. }
  destruct t as [id ok| | |]; cbn [take_turn]; [| | |done].
  - apply wp_bind, wp_any. intros now w1. rewrite Hc. destruct (_ <? _)%Z; apply wp_ret; eauto.
  - destruct (l_stopped l); [by apply wp_ret; eauto|]. apply wp_bind. unfold receive. rewrite Hc.
    destruct (l_ch l) as [|o ch]; [do 2 apply wp_ret; eauto|]. cbn [l_batch].
    destruct (_ <=? _)%Z; [|do 2 apply wp_ret; eauto].
    eapply wp_mono; [apply Hf|]. cbn beta. intros l' w' E. cbn in E. apply wp_ret. rewrite ?Hc in E. eauto.
  - destruct (l_stopped l); [by apply wp_ret; eauto|]. apply wp_bind. unfold tick.
    case_bool_decide; [do 2 apply wp_ret; eauto|]. eapply wp_mono; [apply Hf|]. cbn beta. intros l' w' E.
    apply wp_ret. exists l'. split; [done|congruence].
Qed.

Lemma run_turns_open ts l w :
  l_closed l = false -> Close ∉ ts -> wp (run_turns ts l) (fun r _ => r <> None) w.
Proof.
  revert l w. induction ts as [|t ts IH]; intros l w Hc Ht; cbn [run_turns]; [by apply wp_ret|].
  apply not_elem_of_cons in Ht as [Hne Ht]. apply wp_bind. eapply wp_mono; [by apply take_turn_open|].
  cbn beta. intros r w' (l' & -> & Hc'). by apply IH.
Qed.

Lemma receives_accepted n l w :
  wp (run_turns (repeat Receive n) l) (fun r _ =>
    match r with Some l' => l_accepted l' = l_accepted l | None => True end) w.
Proof.
  revert l w. induction n as [|n IH]; intros l w; cbn [repeat run_turns]; [by apply wp_ret|].
  apply wp_bind. eapply wp_mono; [apply take_turn_accepted|]. cbn beta. intros [l'|] w'; [|by intros; apply wp_ret].
  intros [E|(o & [=] & _)]. eapply wp_mono; [apply IH|]. cbn beta. intros [l''|] w''; [congruence|done].
Qed.
End logger.


(** ** Finding *)

(** An observation logged after the shutdown panics: the workers that are still
    running then take the process down. *)
Lemma log_after_shutdown_panics {W} {srv : Host W} cfg id ok l w :
  (LogObservation cfg id ok (Shutdown l) w).1 = None.
Proof.
  apply (proj1 (wp_run _ (fun r _ => r = None) w)). apply wp_bind, wp_any. intros now w'. by apply wp_ret.
Qed.
