(* ===== verification/Reporting.v ===== *)
(** sms-reporting: requests for reports and the replica of the servers
    (domain/, repository/impl/), the consumer that keeps the replica
    (consumer/event_consumer.go), the uptime calculator
    (infrastructure/elasticsearch/), the service, the worker and the scheduler
    (service/, app/scheduler.go) and the gRPC handler. *)
From S2P Require Import Prelude GoStd Sql Json Redis Host World Broker Calendar Access Monitoring MonitoringWorkers.

(** ** Domain *)
Definition ErrInvalidEmail : err := ErrS "invalid email address".
Definition ErrInvalidDateRange : err := ErrS "start time must be before or equal to end time".
Definition ErrInvalidDateFormat : err := ErrS "invalid date format: must be YYYY-MM-DD".

Definition ReportStatusPending : string := "PENDING".
Definition ReportStatusProcessing : string := "PROCESSING".
Definition ReportStatusCompleted : string := "COMPLETED".
Definition ReportStatusFailed : string := "FAILED".

Definition EventNotificationRequested : string := "NotificationRequested".

(** A [time.Time] with its location: how far it is ahead of UTC. *)
Record time := Time { instant : Z; zone : Z }.

#[export] Instance time_eq_dec : EqDecision time.
Proof. solve_decision. Defined.

Record ReportRequest := {
  RR_ID : string; RequestorEmail : string; StartTime : time; EndTime : time; RR_Status : string;
  CorrelationID : string; RR_CreatedAt : Z; RR_UpdatedAt : Z;
}.

Record ReportingServer := {
  RS_ServerID : string; RS_Name : string; RS_IPv4 : string; RS_Status : string; RS_UpdatedAt : Z;
}.

#[export] Instance ReportRequest_eq_dec : EqDecision ReportRequest.
Proof. solve_decision. Defined.
#[export] Instance ReportingServer_eq_dec : EqDecision ReportingServer.
Proof. solve_decision. Defined.

(** ** The tables *)
Record rtables := RTables { requests : list ReportRequest; rservers : list ReportingServer }.

Definition ErrConstraint : err := ErrS "postgres: constraint violation".
(** repository/reporting_repository.go *)
Definition ErrRecordNotFound : err := ErrS "record not found".

(** The sizes and encodings that PostgreSQL checks. *)
Class ReportStore := {
  fits_request : ReportRequest -> bool;
  fits_row : ReportingServer -> bool;
}.

Definition with_status (st : string) (now : Z) (r : ReportRequest) : ReportRequest := {|
  RR_ID := RR_ID r; RequestorEmail := RequestorEmail r; StartTime := StartTime r; EndTime := EndTime r;
  RR_Status := st; CorrelationID := CorrelationID r; RR_CreatedAt := RR_CreatedAt r; RR_UpdatedAt := now |}.

Definition server_status (st : string) (now : Z) (s : ReportingServer) : ReportingServer := {|
  RS_ServerID := RS_ServerID s; RS_Name := RS_Name s; RS_IPv4 := RS_IPv4 s; RS_Status := st; RS_UpdatedAt := now |}.

Definition set_status (id st : string) (now : Z) (l : list ReportRequest) : list ReportRequest :=
  map (fun r => if String.eqb (RR_ID r) id then with_status st now r else r) l.

Definition is_row (id : string) (s : ReportingServer) : bool := String.eqb (RS_ServerID s) id.

Section statements.
Context `{rp : ReportStore}.

Definition insert_request (r : ReportRequest) (x : rtables) : res unit * rtables :=
  if bool_decide (RR_ID r ∉ map RR_ID (requests x)) && fits_request r
  then (Ok tt, RTables (requests x ++ [r]) (rservers x))
  else (Err ErrConstraint, x).

Definition update_status (id st : string) (now : Z) (x : rtables) : res unit * rtables :=
  (Ok tt, RTables (set_status id st now (requests x)) (rservers x)).

Definition count_servers (st : string) (x : rtables) : res Z * rtables :=
  (Ok (Z.of_nat (length (List.filter (fun s => String.eqb st "" || String.eqb (RS_Status s) st) (rservers x)))), x).

(** INSERT ... ON CONFLICT (server_id) DO UPDATE. *)
Definition upsert_server (row : ReportingServer) (x : rtables) : res unit * rtables :=
  if fits_row row then
    (Ok tt, RTables (requests x)
      (if existsb (is_row (RS_ServerID row)) (rservers x)
       then map (fun s => if is_row (RS_ServerID row) s then row else s) (rservers x)
       else rservers x ++ [row]))
  else (Err ErrConstraint, x).

(** The number of rows affected. *)
Definition update_server_status (id st : string) (now : Z) (x : rtables) : res Z * rtables :=
  let hit := List.filter (is_row id) (rservers x) in
  let new := map (fun s => if is_row id s then server_status st now s else s) (rservers x) in
  if forallb fits_row (map (server_status st now) hit)
  then (Ok (Z.of_nat (length hit)), RTables (requests x) new)
  else (Err ErrConstraint, x).

Definition delete_row (id : string) (x : rtables) : res unit * rtables :=
  (Ok tt, RTables (requests x) (List.filter (fun s => negb (is_row id s)) (rservers x))).
End statements.

(** ** The repository (repository/impl/reporting_repository_impl.go) *)
Section repository.
Context {W} {srv : Host W} {db : Db W rtables} `{rp : ReportStore}.

(** [autoCreateTime] and [autoUpdateTime]. *)
Definition stamped (now : Z) (r : ReportRequest) : ReportRequest := {|
  RR_ID := RR_ID r; RequestorEmail := RequestorEmail r; StartTime := StartTime r; EndTime := EndTime r;
  RR_Status := RR_Status r; CorrelationID := CorrelationID r; RR_CreatedAt := now; RR_UpdatedAt := now |}.

Definition CreateReportRequest (r : ReportRequest) : proc W (res unit) :=
  now <-- time_Now;
  exec (insert_request (stamped now r)).

Definition UpdateReportStatus (id st : string) : proc W (res unit) :=
  now <-- time_Now;
  exec (update_status id st now).

Definition GetServerCountByStatus (st : string) : proc W (res Z) := exec (count_servers st).

Definition UpsertReportingServer (s : ReportingServer) : proc W (res unit) :=
  now <-- time_Now;
  exec (upsert_server (server_status (if String.eqb (RS_Status s) "" then "UNKNOWN" else RS_Status s) now s)).

Definition UpdateReportingServerStatus (id st : string) : proc W (res unit) :=
  now <-- time_Now;
  n <-? exec (update_server_status id st now);
  if (n =? 0)%Z then mret (Err ErrRecordNotFound) else mret (Ok tt).

Definition DeleteReportingServer (id : string) : proc W (res unit) := exec (delete_row id).
End repository.

(** ** The consumer *)
Record ServerPayload := { sp_ID : string; sp_Name : string; sp_IP : string; sp_CurrentStatus : string }.

Definition decode_server (s : string) : option ServerPayload :=
  j ← parse s; m ← members j;
  id ← string_field "server_id" m;
  name ← string_field "server_name" m;
  ip ← string_field "ipv4" m;
  status ← string_field "current_status" m;
  Some {| sp_ID := id; sp_Name := name; sp_IP := ip; sp_CurrentStatus := status |}.

Definition decode_id (s : string) : option string :=
  j ← parse s; m ← members j; string_field "server_id" m.

Definition decode_status (s : string) : option (string * string) :=
  j ← parse s; m ← members j;
  id ← string_field "server_id" m;
  status ← string_field "status" m;
  Some (id, status).

(** The row for a payload. *)
Definition replica_row (p : ServerPayload) : ReportingServer := {|
  RS_ServerID := sp_ID p; RS_Name := sp_Name p; RS_IPv4 := sp_IP p;
  RS_Status := if String.eqb (sp_CurrentStatus p) "" then "UNKNOWN" else sp_CurrentStatus p;
  RS_UpdatedAt := zero_time |}.

Section consumer.
Context {W} {srv : Host W} {db : Db W rtables} `{rp : ReportStore}.

Definition handleServerEvent (msg : Message) : proc W (res unit) :=
  match Values msg !! "event_type", Values msg !! "payload" with
  | Some eventType, Some payloadStr =>
    if String.eqb eventType "ServerCreated" || String.eqb eventType "ServerUpdated" then
      match decode_server payloadStr with
      | None => mret (Err ErrJson)
      | Some payload => UpsertReportingServer (replica_row payload)
      end
    else if String.eqb eventType "ServerDeleted" then
      match decode_id payloadStr with
      | None => mret (Err ErrJson)
      | Some id => DeleteReportingServer id
      end
    else mret (Ok tt)
  | _, _ => mret (Ok tt)
  end.

Definition handleStatusEvent (msg : Message) : proc W (res unit) :=
  match Values msg !! "event_type", Values msg !! "payload" with
  | Some eventType, Some payloadStr =>
    if String.eqb eventType "ServerStatusChanged" then
      match decode_status payloadStr with
      | None => mret (Err ErrJson)
      | Some (id, status) =>
        r <-- UpdateReportingServerStatus id status;
        mret (match r with
              | Err e => if errors_Is e ErrRecordNotFound then Ok tt else Err e
              | Ok _ => Ok tt
              end)
      end
    else mret (Ok tt)
  | _, _ => mret (Ok tt)
  end.
End consumer.

(** ** Uptime *)

(** Elasticsearch: how many observations of an index lie between two instants,
    all of them or those that were a success. *)
Class Elastic (W : Type) := Count : string -> string -> string -> bool -> proc W (res Z).

Definition uptime_of (success total : Z) : f64 :=
  f64_mul (f64_div (f64_of_int success) (f64_of_int total)) (f64_of_int 100).

Definition CalculateUptime {W} (esClient : option (Elastic W)) (esIndex : string) (startTime endTime : time)
    : proc W (res f64) :=
  match esClient with
  | None => mret (Ok (f64_of_int 0))
  | Some es =>
    let startStr := FormatInstant (zone startTime) (instant startTime) in
    let endStr := FormatInstant (zone endTime) (instant endTime) in
    total <-- Count esIndex startStr endStr false;
    match total with
    | Err e => mret (Err (ErrWrap "failed to count total observations" e))
    | Ok total =>
      if (total =? 0)%Z then mret (Ok (f64_of_int 0))
      else
        success <-- Count esIndex startStr endStr true;
        match success with
        | Err e => mret (Err (ErrWrap "failed to count success observations" e))
        | Ok success => mret (Ok (uptime_of success total))
        end
    end
  end.

(** ** The worker *)
Record TemplateData := {
  td_StartDate : string; td_EndDate : string; PeriodDays : Z;
  TotalServers : Z; OnlineServers : Z; OfflineServers : Z; UnknownServers : Z;
  UptimePercent : f64; OnlinePercent : f64; OfflinePercent : f64; UnknownPercent : f64; HealthLabel : string;
}.

Definition percentage (value total : Z) : f64 :=
  if (total <=? 0)%Z then f64_of_int 0
  else f64_div (f64_mul (f64_of_int value) (f64_of_int 100)) (f64_of_int total).

Definition healthLabel (uptime : f64) : string :=
  if f64_ge uptime (f64_of_int 99) then "Healthy"
  else if f64_ge uptime (f64_of_int 95) then "Attention Recommended"
  else "Action Required".

Definition period_days (startTime endTime : time) : Z :=
  wrap64 (int_of_f64 (f64_div (Hours (Sub (instant endTime) (instant startTime))) (f64_of_int 24)) + 1).

Definition template_data (req : ReportRequest) (total online offline unknown : Z) (uptime : f64) : TemplateData := {|
  td_StartDate := FormatDate (zone (StartTime req)) (instant (StartTime req));
  td_EndDate := FormatDate (zone (EndTime req)) (instant (EndTime req));
  PeriodDays := period_days (StartTime req) (EndTime req);
  TotalServers := total; OnlineServers := online; OfflineServers := offline; UnknownServers := unknown;
  UptimePercent := uptime;
  OnlinePercent := percentage online total; OfflinePercent := percentage offline total;
  UnknownPercent := percentage unknown total;
  HealthLabel := healthLabel uptime |}.

Definition notification_fields (to html : string) : list (string * string) := [
  ("event_type", EventNotificationRequested);
  ("payload", Marshal (JObj [("to", JStr to); ("subject", JStr "Server Status Report"); ("body", JStr html)]))].

Section worker.
Context {W} {srv : Host W} {db : Db W rtables} `{rp : ReportStore}.
(** Elasticsearch, the embedded template, the stream of notifications and its
    length; without Redis there is no publisher. *)
Context (esClient : option (Elastic W)) (esIndex : string).
Context (Execute : TemplateData -> res string).
Context (publisher : option Z) (notificationStream : string).

Definition doWork (req : ReportRequest) : proc W (res unit) :=
  totalServers <-? GetServerCountByStatus "";
  onlineServers <-? GetServerCountByStatus "ONLINE";
  offlineServers <-? GetServerCountByStatus "OFFLINE";
  unknownServers <-? GetServerCountByStatus "UNKNOWN";
  uptimePercent <-? CalculateUptime esClient esIndex (StartTime req) (EndTime req);
  let data := template_data req totalServers onlineServers offlineServers unknownServers uptimePercent in
  match Execute data with
  | Err e => mret (Err (ErrWrap "failed to execute email template" e))
  | Ok htmlStr =>
    match publisher with
    | None => mret (Ok tt)
    | Some maxLen =>
      r <-- Publish_redis maxLen notificationStream (notification_fields (RequestorEmail req) htmlStr);
      mret (match r with
            | Err e => Err (ErrWrap "failed to publish notification event" e)
            | Ok _ => Ok tt
            end)
    end
  end.

Definition processReport (req : ReportRequest) : proc W unit :=
  r <-- UpdateReportStatus (RR_ID req) ReportStatusProcessing;
  match r with
  | Err _ => mret tt
  | Ok _ =>
    r <-- doWork req;
    let finalStatus := match r with Ok _ => ReportStatusCompleted | Err _ => ReportStatusFailed end in
    UpdateReportStatus (RR_ID req) finalStatus ;;-
    mret tt
  end.
End worker.

(** ** The service and the gRPC handler *)
Section service.
Context {W} {srv : Host W} {db : Db W rtables} `{rp : ReportStore}.
(** Handing a request to the pool of workers; it blocks while the queue is full. *)
Context (EnqueueReport : ReportRequest -> proc W unit).

Definition NewReportRequest (requestorEmail : string) (startTime endTime : time) (correlationID : string)
    : proc W (res ReportRequest) :=
  if String.eqb (TrimSpace requestorEmail) "" then mret (Err ErrInvalidEmail)
  else if (instant endTime <? instant startTime)%Z then mret (Err ErrInvalidDateRange)
  else
    requestID <-- uuid_New;
    mret (Ok {| RR_ID := requestID; RequestorEmail := requestorEmail; StartTime := startTime; EndTime := endTime;
                RR_Status := ReportStatusPending; CorrelationID := correlationID;
                RR_CreatedAt := zero_time; RR_UpdatedAt := zero_time |}).

Definition RequestReport (email startDate endDate : string) : proc W (res unit) :=
  match ParseDate startDate, ParseDate endDate with
  | Ok start, Ok end_ =>
    let end_ := (end_ + 24 * Hour - Nanosecond)%Z in
    correlationID <-- uuid_New;
    req <-? NewReportRequest email (Time start 0) (Time end_ 0) correlationID;
    _ <-? CreateReportRequest req;
    EnqueueReport req ;;-
    mret (Ok tt)
  | _, _ => mret (Err ErrInvalidDateFormat)
  end.

Record RequestReportRequest := { TargetEmail : string; StartDate : string; EndDate : string }.
Record RequestReportResponse := { rsp_Status : string; rsp_Code : Z; rsp_Message : string }.

Definition accepted : RequestReportResponse := {|
  rsp_Status := "processing"; rsp_Code := 202;
  rsp_Message := "Report request accepted and is being processed in the background" |}.

Definition RequestReport_grpc : handler (W := W) (Req := RequestReportRequest) (Resp := RequestReportResponse) := fun _ req =>
  if String.eqb (TargetEmail req) "" then mret (refuse InvalidArgument "target_email is required")
  else
    r <-- RequestReport (TargetEmail req) (StartDate req) (EndDate req);
    match r with
    | Err e =>
      if errors_Is e ErrInvalidEmail || errors_Is e ErrInvalidDateRange || errors_Is e ErrInvalidDateFormat
      then mret (Refused (Access.Status InvalidArgument (ErrorText e)))
      else mret (Refused (Access.Status Internal (TextAnd "failed to request report: " e)))
    | Ok _ => mret (Reply accepted)
    end.

(** ** The scheduler (app/scheduler.go), one run of its job *)
Definition schedulerLockKey : string := "lock:reporting_scheduler".

(** infrastructure/database/redis.go; without a client the lock is always had.
    The interface that the process passes is never nil (see Startup.v). *)
Definition AcquireLock_reporting (redisEnabled : bool) (key : string) (expiration : Z) : proc W (res bool) :=
  if redisEnabled then AcquireLock key expiration else mret (Ok true).

Definition midnight (zone t : Z) : Z := ((t + zone) / day * day - zone)%Z.

Definition scheduled_job (redisEnabled : bool) (adminEmail : string) (local : Z) : proc W unit :=
  a <-- AcquireLock_reporting redisEnabled schedulerLockKey (30 * Second);
  match a with
  | Ok true =>
    now <-- time_Now;
    let startTime := Time (midnight local now - day) local in
    let endTime := Time (midnight local now) local in
    u <-- uuid_New;
    r <-- NewReportRequest adminEmail startTime endTime ("cron-" +:+ u);
    match r with
    | Err _ => mret tt
    | Ok req => EnqueueReport req
    end
  | _ => mret tt
  end.
End service.
