(* ===== verification/ReportPool.v ===== *)
(** sms-reporting: the pool of report workers (service/reporting_worker.go:
    Start, worker, EnqueueReport, Stop) and the shutdown of the service
    (app/run.go), as a step relation: the goroutines that call EnqueueReport,
    the workers and the main goroutine take steps in any order.  What a worker
    does with one report is [Reporting.processReport]; here it is the time
    between [receive] and [finish]. *)
From S2P Require Import Prelude Reporting.

(** Who calls EnqueueReport: a gRPC handler or the job of the scheduler. *)
Inductive origin := Grpc | Cron.

Inductive worker := Idle | Busy (req : ReportRequest) | Returned.

(** The main goroutine: it waits for a signal, in [GracefulStop], in the [Wait]
    of [Stop] with the channel closed, or past it. *)
Inductive phase := Serving | Draining | Closing | Stopped.

#[export] Instance origin_eq_dec : EqDecision origin.
Proof. solve_decision. Defined.
#[export] Instance worker_eq_dec : EqDecision worker.
Proof. solve_decision. Defined.
#[export] Instance phase_eq_dec : EqDecision phase.
Proof. solve_decision. Defined.

Record pool := Pool {
  p_phase : phase;
  p_senders : list (origin * ReportRequest);      (* inside EnqueueReport *)
  jobQueue : list ReportRequest;
  p_workers : list worker;
  (* a record of what was sent, taken and finished, in order *)
  p_sent : list ReportRequest; p_taken : list ReportRequest; p_done : list ReportRequest;
}.

Definition NewReportingWorker_sizes (workerCount jobQueueSize : Z) : Z * Z :=
  (if (workerCount <=? 0)%Z then 5 else workerCount, if (jobQueueSize <=? 0)%Z then 100 else jobQueueSize)%Z.

Definition closed (p : pool) : bool := bool_decide (p_phase p = Closing \/ p_phase p = Stopped).

(** [Start]: as many workers as configured. *)
Definition Start (workerCount : nat) : pool := Pool Serving [] [] (replicate workerCount Idle) [] [] [].

(** ** The steps *)
Definition enqueue (o : origin) (req : ReportRequest) (p : pool) : pool :=
  Pool (p_phase p) (p_senders p ++ [(o, req)]) (jobQueue p) (p_workers p) (p_sent p) (p_taken p) (p_done p).

(** [w.jobQueue <- req] goes through. *)
Definition sent (before after : list (origin * ReportRequest)) (req : ReportRequest) (p : pool) : pool :=
  Pool (p_phase p) (before ++ after) (jobQueue p ++ [req]) (p_workers p) (p_sent p ++ [req]) (p_taken p) (p_done p).

(** [for req := range w.jobQueue]: worker [i] receives, has processed, leaves. *)
Definition receive (i : nat) (req : ReportRequest) (queue : list ReportRequest) (p : pool) : pool :=
  Pool (p_phase p) (p_senders p) queue (<[i := Busy req]> (p_workers p)) (p_sent p) (p_taken p ++ [req]) (p_done p).
Definition finish (i : nat) (req : ReportRequest) (p : pool) : pool :=
  Pool (p_phase p) (p_senders p) (jobQueue p) (<[i := Idle]> (p_workers p)) (p_sent p) (p_taken p) (p_done p ++ [req]).
Definition leave (i : nat) (p : pool) : pool :=
  Pool (p_phase p) (p_senders p) (jobQueue p) (<[i := Returned]> (p_workers p)) (p_sent p) (p_taken p) (p_done p).

(** The main goroutine in [Run] and [Shutdown]. *)
Definition proceed (ph : phase) (p : pool) : pool :=
  Pool ph (p_senders p) (jobQueue p) (p_workers p) (p_sent p) (p_taken p) (p_done p).

Definition no_rpc (p : pool) : Prop := Forall (fun s => s.1 <> Grpc) (p_senders p).

Section steps.
Context (capacity : nat).

(** A call comes in: over gRPC while the server serves, from the scheduler
    until it is stopped, which is last. *)
Inductive call : pool -> pool -> Prop :=
  | call_rpc p req : p_phase p = Serving -> call p (enqueue Grpc req p)
  | call_cron p req : p_phase p <> Stopped -> call p (enqueue Cron req p).

(** A step of the service; [None] when it dies of a panic. *)
Inductive step : pool -> option pool -> Prop :=
  | step_send p before o req after :
      closed p = false -> length (jobQueue p) < capacity -> p_senders p = before ++ (o, req) :: after ->
      step p (Some (sent before after req p))
  | step_panic p s : closed p = true -> s ∈ p_senders p -> step p None
  | step_take p i req queue :
      p_workers p !! i = Some Idle -> jobQueue p = req :: queue -> step p (Some (receive i req queue p))
  | step_finish p i req : p_workers p !! i = Some (Busy req) -> step p (Some (finish i req p))
  | step_leave p i :
      closed p = true -> p_workers p !! i = Some Idle -> jobQueue p = [] -> step p (Some (leave i p))
  | step_signal p : p_phase p = Serving -> step p (Some (proceed Draining p))
  | step_close p : p_phase p = Draining -> no_rpc p -> step p (Some (proceed Closing p))
  | step_stopped p :
      p_phase p = Closing -> Forall (eq Returned) (p_workers p) -> step p (Some (proceed Stopped p)).

Definition runs (p p' : pool) : Prop := step p (Some p').
Definition reachable (workerCount : nat) : pool -> Prop :=
  rtc (fun p p' => call p p' \/ runs p p') (Start workerCount).
End steps.

(** ** What holds at every moment *)
Definition busy (p : pool) : list ReportRequest :=
  omap (fun w => match w with Busy req => Some req | _ => None end) (p_workers p).

Record sound (capacity workerCount : nat) (p : pool) : Prop := {
  sound_fifo : p_sent p = p_taken p ++ jobQueue p;
  sound_taken : p_taken p ≡ₚ p_done p ++ busy p;
  sound_queue : length (jobQueue p) <= capacity;
  sound_workers : length (p_workers p) = workerCount;
  sound_returned : Returned ∈ p_workers p -> closed p = true /\ jobQueue p = [];
  sound_closed : closed p = true -> no_rpc p;
  sound_stopped : p_phase p = Stopped -> Forall (eq Returned) (p_workers p);
}.

Lemma busy_insert (ws : list worker) i w w' :
  ws !! i = Some w ->
  let reqs l := omap (fun w => match w with Busy req => Some req | _ => None end) l in
  exists l1 l2, reqs ws = l1 ++ reqs [w] ++ l2 /\ reqs (<[i := w']> ws) = l1 ++ reqs [w'] ++ l2.
Proof.
  intros Hi. cbn zeta.
  exists (omap (fun w => match w with Busy req => Some req | _ => None end) (take i ws)),
    (omap (fun w => match w with Busy req => Some req | _ => None end) (drop (S i) ws)).
  rewrite <- (take_drop_middle ws i w) at 1 by done.
  rewrite insert_take_drop by (by eapply lookup_lt_Some).
  by rewrite <- !omap_app.
Qed.

Lemma closed_iff p : closed p = true <-> p_phase p = Closing \/ p_phase p = Stopped.
Proof. unfold closed. apply bool_decide_eq_true. Qed.

Section invariant.
Context (capacity workerCount : nat).

Lemma Start_sound : sound capacity workerCount (Start workerCount).
Proof.
  split; cbn; try done; try lia.
  - unfold busy. cbn. by induction workerCount.
  - apply length_replicate.
  - by intros [? _]%elem_of_replicate.
Qed.

Lemma call_sound p p' : call p p' -> sound capacity workerCount p -> sound capacity workerCount p'.
Proof.
  intros [q req Hq|q req Hq] [H1 H2 H3 H4 H5 H6 H7]; split; try done; cbn.
  - intros [E|E]%closed_iff; cbn in E; congruence.
  - intros Hc. apply Forall_app. split; [by apply H6|by repeat constructor].
Qed.

(** A worker that changes its state. *)
Lemma worker_sound p i w w' (p' : pool) :
  p_workers p !! i = Some w -> w' <> Returned -> sound capacity workerCount p ->
  p_workers p' = <[i := w']> (p_workers p) -> p_phase p' = p_phase p -> w <> Returned ->
  length (p_workers p') = workerCount /\
  (Returned ∈ p_workers p' -> Returned ∈ p_workers p) /\
  (p_phase p' = Stopped -> Forall (eq Returned) (p_workers p')).
Proof.
  intros Hi Hw Hs E Ep Hne. rewrite E, length_insert. split; [apply Hs|]. split.
  - intros [j Hj]%list_elem_of_lookup. apply list_elem_of_lookup. exists j.
    destruct (decide (i = j)) as [->|Hij]; [|by rewrite list_lookup_insert_ne in Hj].
    rewrite list_lookup_insert_eq in Hj by (by eapply lookup_lt_Some). congruence.
  - rewrite Ep. intros Hp. pose proof (sound_stopped _ _ _ Hs Hp) as Hall.
    rewrite Forall_lookup in Hall. by specialize (Hall _ _ Hi).
Qed.

Lemma step_sound p p' : step capacity p (Some p') -> sound capacity workerCount p -> sound capacity workerCount p'.
Proof.
  intros Hstep Hs. inversion Hstep as [q before o req after Hc Hl Hse|q s Hc Hse|q i req queue Hi Hq|q i req Hi|
    q i Hc Hi Hq|q Hp|q Hp Hn|q Hp Hall]; subst; destruct Hs as [H1 H2 H3 H4 H5 H6 H7] eqn:Es; clear Es.
  - split; cbn; try done.
    + by rewrite H1, <- app_assoc.
    + rewrite length_app. cbn. lia.
    + intros Hr. destruct (H5 Hr) as [E _]. congruence.
    + intros Hc'. change (closed p = true) in Hc'. congruence.
  - destruct (worker_sound p i Idle (Busy req) (receive i req queue p)) as (? & ? & ?); try done.
    split; cbn; try done.
    + by rewrite H1, Hq, <- app_assoc.
    + destruct (busy_insert (p_workers p) i Idle (Busy req) Hi) as (l1 & l2 & E1 & E2).
      unfold busy in *. cbn. rewrite E2, H2, E1. cbn. solve_Permutation.
    + rewrite Hq in H3. cbn in H3. lia.
    + intros Hr. destruct (H5 (H0 Hr)) as [_ E]. congruence.
  - destruct (worker_sound p i (Busy req) Idle (finish i req p)) as (? & ? & ?); try done.
    split; cbn; try done; [|by auto].
    destruct (busy_insert (p_workers p) i (Busy req) Idle Hi) as (l1 & l2 & E1 & E2).
    unfold busy in *. cbn. rewrite E2, H2, E1. cbn. solve_Permutation.
  - split; cbn; try done.
    + destruct (busy_insert (p_workers p) i Idle Returned Hi) as (l1 & l2 & E1 & E2).
      unfold busy in *. cbn. rewrite E2, H2, E1. done.
    + by rewrite length_insert.
    + intros Hp. specialize (H7 Hp). rewrite Forall_lookup in H7. by specialize (H7 _ _ Hi).
  - split; cbn; try done. intros Hr. destruct (H5 Hr) as [E%closed_iff _]. destruct E; congruence.
  - split; cbn; try done. intros Hr. destruct (H5 Hr) as [E%closed_iff _]. destruct E; congruence.
  - split; cbn; try done.
    + intros Hr. by destruct (H5 Hr).
    + intros _. apply H6. apply closed_iff. auto.
Qed.

Lemma reachable_sound p : reachable capacity workerCount p -> sound capacity workerCount p.
Proof.
  intros H. pose proof Start_sound as H0. revert H0. induction H as [|p1 p2 p3 [Hc|Hr] _ IH]; intros Hs; [done| |].
  - by eapply IH, call_sound.
  - by eapply IH, step_sound.
Qed.
End invariant.

(** ** Every run of the service itself ends *)
Definition work (w : worker) : nat := match w with Idle => 1 | Busy _ => 2 | Returned => 0 end.
Definition rank (ph : phase) : nat := match ph with Serving => 3 | Draining => 2 | Closing => 1 | Stopped => 0 end.
Definition measure (p : pool) : nat :=
  3 * length (p_senders p) + 2 * length (jobQueue p) + sum_list_with work (p_workers p) + rank (p_phase p).

Lemma work_insert (ws : list worker) i w w' :
  ws !! i = Some w -> sum_list_with work (<[i := w']> ws) + work w = sum_list_with work ws + work w'.
Proof.
  intros Hi. rewrite <- (take_drop_middle ws i w) at 2 by done.
  rewrite insert_take_drop by (by eapply lookup_lt_Some).
  rewrite !sum_list_with_app. cbn. lia.
Qed.

Section progress.
Context (capacity workerCount : nat).

Lemma runs_decrease p p' : runs capacity p p' -> measure p' < measure p.
Proof.
  intros H. unfold measure. inversion H as [q before o req after Hc Hl Hse|q s Hc Hse|q i req queue Hi Hq|q i req Hi|
    q i Hc Hi Hq|q Hp|q Hp Hn|q Hp Hall]; subst; cbn.
  - rewrite Hse, !length_app. cbn. lia.
  - pose proof (work_insert _ _ _ (Busy req) Hi) as E. rewrite Hq. cbn in *. lia.
  - pose proof (work_insert _ _ _ Idle Hi) as E. cbn in *. lia.
  - pose proof (work_insert _ _ _ Returned Hi) as E. cbn in *. lia.
  - rewrite Hp. cbn. lia.
  - rewrite Hp. cbn. lia.
  - rewrite Hp. cbn. lia.
Qed.

Lemma runs_bounded k p p' : nsteps (runs capacity) k p p' -> k <= measure p.
Proof. induction 1 as [|k p1 p2 p3 H%runs_decrease _ IH]; lia. Qed.

(** A worker that has not left and is not alone with an empty open queue can go on. *)
Lemma worker_runs p i w :
  p_workers p !! i = Some w -> w <> Returned -> jobQueue p <> [] \/ closed p = true \/ w <> Idle ->
  exists p', runs capacity p p'.
Proof.
  intros Hi Hne Hgo. destruct w as [|req|]; [|eexists; by eapply step_finish|done].
  destruct (jobQueue p) as [|req queue] eqn:Hq; [|eexists; by eapply step_take].
  destruct Hgo as [|[Hc|]]; [done| |done]. eexists. by eapply step_leave.
Qed.

Lemma shutdown_goes_on p :
  0 < capacity -> 0 < workerCount -> sound capacity workerCount p -> p_phase p <> Serving -> p_phase p <> Stopped ->
  exists o, step capacity p o.
Proof.
  intros Hcap Hn Hs H1 H2. destruct (p_phase p) eqn:Hp; try done.
  - assert (closed p = false) as Hc by (apply not_true_iff_false; intros [|]%closed_iff; congruence).
    destruct (decide (no_rpc p)) as [Hno|Hno]; [eexists; by apply step_close|].
    destruct (decide (length (jobQueue p) < capacity)) as [Hlt|Hge].
    + unfold no_rpc in Hno. destruct (p_senders p) as [|[o req] l] eqn:E; [by destruct Hno|].
      eexists. by eapply (step_send _ _ [] o req l).
    + assert (exists w, p_workers p !! 0 = Some w) as [w Hw].
      { apply lookup_lt_is_Some. by rewrite (sound_workers _ _ _ Hs). }
      destruct (worker_runs p 0 w Hw) as [p' Hr]; [| |by exists (Some p')].
      * intros ->. destruct (sound_returned _ _ _ Hs) as [E _]; [by eapply list_elem_of_lookup_2|congruence].
      * left. intros E. rewrite E in Hge. cbn in Hge. lia.
  - assert (closed p = true) as Hc by (apply closed_iff; auto).
    destruct (decide (Forall (eq Returned) (p_workers p))) as [Hall|Hex]; [eexists; by apply step_stopped|].
    apply not_Forall_Exists in Hex; [|intros w; apply _]. apply Exists_exists in Hex as (w & [i Hi]%list_elem_of_lookup & Hne).
    destruct (worker_runs p i w Hi) as [p' Hr]; [by intros ->|auto|by exists (Some p')].
Qed.

Lemma panic_is_cron p :
  sound capacity workerCount p -> step capacity p None -> closed p = true /\ exists req, (Cron, req) ∈ p_senders p.
Proof.
  intros Hs H. inversion H as [|q s Hc Hse| | | | | |]; subst. split; [done|].
  pose proof (sound_closed _ _ _ Hs Hc) as Hno. unfold no_rpc in Hno. rewrite Forall_forall in Hno.
  destruct s as [[] req]; [by specialize (Hno _ Hse)|eauto].
Qed.

Lemma stopped_done p :
  0 < workerCount -> sound capacity workerCount p -> p_phase p = Stopped ->
  no_rpc p /\ jobQueue p = [] /\ p_done p ≡ₚ p_sent p.
Proof.
  intros Hn Hs Hp. pose proof (sound_stopped _ _ _ Hs Hp) as Hall.
  assert (closed p = true) as Hc by (apply closed_iff; auto).
  assert (jobQueue p = []) as Hq.
  { apply (sound_returned _ _ _ Hs). pose proof (sound_workers _ _ _ Hs) as Hl.
    destruct (p_workers p) as [|w ws]; [cbn in Hl; lia|]. apply Forall_cons in Hall as [<- _]. by left. }
  split; [by apply (sound_closed _ _ _ Hs)|]. split; [done|].
  rewrite (sound_fifo _ _ _ Hs), Hq, app_nil_r, (sound_taken _ _ _ Hs).
  replace (busy p) with (@nil ReportRequest); [by rewrite app_nil_r|]. unfold busy.
  induction Hall as [|w ws <- _ IH]; [done|]. done.
Qed.
End progress.

(** C17: whatever the number of workers and the size of the queue, and however
    the callers, the workers and the main goroutine are scheduled: the requests
    are taken in the order in which they were sent, each by one worker, and each
    is finished once; after the signal the shutdown cannot get stuck and ends
    after a bounded number of steps, when every request that was sent is
    finished and no gRPC call is left waiting; and the only way to a panic is a
    job of the scheduler that calls in after the queue was closed. *)
Theorem shutdown_completes (workerCount jobQueueSize : Z) (p : pool) :
  let '(n, size) := NewReportingWorker_sizes workerCount jobQueueSize in
  let capacity := Z.to_nat size in
  reachable capacity (Z.to_nat n) p ->
  (p_sent p = p_taken p ++ jobQueue p /\ p_taken p ≡ₚ p_done p ++ busy p /\ length (jobQueue p) <= capacity) /\
  (exists bound, forall k p', nsteps (runs capacity) k p p' -> k <= bound) /\
  (p_phase p <> Serving -> p_phase p <> Stopped -> exists o, step capacity p o) /\
  (p_phase p = Stopped -> no_rpc p /\ jobQueue p = [] /\ p_done p ≡ₚ p_sent p) /\
  (step capacity p None -> closed p = true /\ exists req, (Cron, req) ∈ p_senders p).
Proof.
  destruct (NewReportingWorker_sizes workerCount jobQueueSize) as [n size] eqn:E. cbn zeta. intros Hr.
  assert (0 < Z.to_nat n /\ 0 < Z.to_nat size) as [Hn Hc].
  { unfold NewReportingWorker_sizes in E. destruct (Z.leb_spec workerCount 0), (Z.leb_spec jobQueueSize 0); simplify_eq; lia. }
  pose proof (reachable_sound _ _ _ Hr) as Hs. split; [by destruct Hs|].
  split; [exists (measure p); intros k p'; apply runs_bounded|].
  split; [intros; by apply (shutdown_goes_on _ (Z.to_nat n))|]. split; [intros; by apply (stopped_done (Z.to_nat size) (Z.to_nat n))|by apply (panic_is_cron _ (Z.to_nat n))].
Qed.

(** ** The theorem at work *)
Definition sample_report (id : string) : ReportRequest := {|
  RR_ID := id; RequestorEmail := "ann@x.org"; StartTime := Time 0 0; EndTime := Time 1 0; RR_Status := ReportStatusPending;
  CorrelationID := id; RR_CreatedAt := 0; RR_UpdatedAt := 0 |}.

(** Two requests, one worker that is busy with the first, the signal has come. *)
Definition draining : pool :=
  Pool Draining [] [sample_report "b"] [Busy (sample_report "a")] [sample_report "a"; sample_report "b"] [sample_report "a"] [].

Lemma draining_reachable : reachable 1 1 draining.
Proof.
  eapply rtc_l; [left; by apply (call_rpc _ (sample_report "a"))|].
  eapply rtc_l; [right; apply (step_send 1 _ [] Grpc (sample_report "a") []); [done|cbn; lia|done]|].
  eapply rtc_l; [right; by eapply (step_take 1 _ 0)|].
  eapply rtc_l; [left; by apply (call_rpc _ (sample_report "b"))|].
  eapply rtc_l; [right; apply (step_send 1 _ [] Grpc (sample_report "b") []); [done|cbn; lia|done]|].
  eapply rtc_l; [right; by apply step_signal|]. apply rtc_refl.
Qed.

Lemma shutdown_completes_witness :
  reachable 1 1 draining /\ p_sent draining = [sample_report "a"; sample_report "b"] /\
  exists o, step 1 draining o.
Proof.
  split; [exact draining_reachable|]. split; [reflexivity|].
  apply (shutdown_completes 1 1 draining draining_reachable); discriminate.
Defined.

(** ** Finding *)

(** The scheduler is stopped after the queue is closed: its job may run in
    between, and takes the service down before the queued reports are sent. *)
Lemma scheduler_panics_at_shutdown : exists p, reachable 1 1 p /\ step 1 p None /\ jobQueue p = [sample_report "b"].
Proof.
  exists (enqueue Cron (sample_report "c") (proceed Closing draining)). split_and!; [| |done].
  - eapply rtc_r; [eapply rtc_r; [exact draining_reachable|right; by apply step_close; [|constructor]]|].
    left. by apply call_cron.
  - by apply (step_panic _ _ (Cron, sample_report "c")); [|left].
Qed.
