(* ===== verification/ReportingSpec.v ===== *)
(** sms-reporting, what it guarantees: how a request for a report is accepted,
    what a worker makes of it, how the replica of the servers follows the
    events, and what the numbers of a report are. *)
From S2P Require Import Prelude GoStd Sql Json Redis Host World Broker Calendar Access Monitoring MonitoringWorkers Reporting.

(** ** Small steps *)
Section steps.
Context {W R} {wo : SharedWorld W rtables R} `{rp : ReportStore}.

Lemma still_now (w : W) x :
  tables w = DView x None ->
  wp time_Now (fun t w' => tables w' = DView x None /\ redis (host w') = redis (host w)) w.
Proof. intros Hv. apply wp_time_Now. intros t w' Ht _ Hh. by rewrite Ht, Hh. Qed.

Lemma still_uuid (w : W) x :
  tables w = DView x None ->
  wp uuid_New (fun t w' => tables w' = DView x None /\ redis (host w') = redis (host w)) w.
Proof. intros Hv. apply wp_uuid_New. intros t w' Ht _ Hh. by rewrite Ht. Qed.

(** A statement that reads the clock first: it is executed on the tables [x1]
    that other clients made of [x], or an error is answered; the error may hide
    its execution. *)
Lemma stamped_shared {A} (f : Z -> rtables -> res A * rtables) (w : W) x :
  tables w = DView x None ->
  wp (now <-- time_Now; exec (f now)) (fun r w' => redis (host w') = redis (host w) /\ exists t x1 x',
    rtc R x x1 /\ tables w' = DView x' None /\
    match r with
    | Ok a => f t x1 = (Ok a, x')
    | Err e => (x' = x1 \/ exists a, f t x1 = (Ok a, x')) /\ (Answers wo -> x' = x1 /\ (f t x1).1 = Err e)
    end) w.
Proof.
  intros Hv. apply wp_bind. eapply wp_mono; [by apply still_now|]. cbn beta. intros t w1 [H1 R1].
  apply (wp_sql_shared _ _ _ x); [done| |].
  - intros a w' x1 x' Hx E Hv' Hh. rewrite Hh. split; [done|]. by exists t, x1, x'.
  - intros e w' x1 x' Hx1 Hx Hv' Hh Ha. rewrite Hh. split; [done|]. exists t, x1, x'. split_and!; [done..|].
    intros Hans. destruct (Ha Hans) as [-> E]. by rewrite E.
Qed.

Definition status_set (id st : string) (x x' : rtables) : Prop :=
  exists t, x' = RTables (set_status id st t (requests x)) (rservers x).

Lemma UpdateReportStatus_spec id st (w : W) x :
  tables w = DView x None ->
  wp (UpdateReportStatus id st) (fun r w' => redis (host w') = redis (host w) /\ exists x1 x',
    rtc R x x1 /\ tables w' = DView x' None /\
    (is_ok r = false /\ ~ Answers wo /\ x' = x1 \/ status_set id st x1 x') /\ (Answers wo -> r = Ok tt)) w.
Proof.
  intros Hv. eapply wp_mono; [by apply stamped_shared|]. cbn beta. intros r w' (Hr & t & x1 & x' & Hx1 & Hv' & Hx).
  split; [done|]. exists x1, x'. split_and!; [done..| |]; destruct r as [[]|e].
  - injection Hx as <-. right; by exists t.
  - destruct Hx as [[->|[a [= _ <-]]] Ha]; [|right; by exists t]. left. split_and!; [done| |done].
    intros Hans. by destruct (Ha Hans).
  - done.
  - intros Hans. by destruct (proj2 Hx Hans).
Qed.

(** The number of servers in a status, or of all of them. *)
Definition census (st : string) (x : rtables) : Z :=
  Z.of_nat (length (List.filter (fun s => String.eqb st "" || String.eqb (RS_Status s) st) (rservers x))).

Lemma GetServerCountByStatus_spec st (w : W) x :
  tables w = DView x None ->
  wp (GetServerCountByStatus st) (fun r w' => redis (host w') = redis (host w) /\ exists x1,
    rtc R x x1 /\ tables w' = DView x1 None /\ (forall n, r = Ok n -> n = census st x1) /\
    (is_ok r = false -> ~ Answers wo)) w.
Proof.
  intros Hv. apply (wp_sql_query_shared (fun x => Ok (census st x)) _ _ x); [done|].
  intros r w' x1 Hx Hv' Hh Hr. rewrite Hh. split; [done|]. exists x1. split_and!; [done..| |].
  - intros n ->. by injection (Hr (or_introl eq_refl)).
  - intros E Hans. by rewrite (Hr (or_intror Hans)) in E.
Qed.
End steps.

Lemma stamped_spec {W} {wo : World W rtables} {A} (f : Z -> rtables -> res A * rtables) (w : W) x :
  tables w = DView x None ->
  wp (now <-- time_Now; exec (f now)) (fun r w' => redis (host w') = redis (host w) /\ exists t x',
    tables w' = DView x' None /\
    match r with
    | Ok a => f t x = (Ok a, x')
    | Err e => (x' = x \/ exists a, f t x = (Ok a, x')) /\ (Answers wo -> x' = x /\ (f t x).1 = Err e)
    end) w.
Proof.
  intros Hv. eapply wp_mono; [by apply stamped_shared|]. cbn beta.
  intros r w' (Hr & t & x1 & x' & ->%rtc_nobody & H). split; [done|]. by exists t, x'.
Qed.

(** What Elasticsearch promises: it counts the documents it holds, and counting
    disturbs nothing. *)
Class ElasticLaws {W R} {wo : SharedWorld W rtables R} (es : Elastic W) (observed : string -> string -> string -> bool -> Z) : Prop := {
  Count_law : forall idx a b s (w : W), wp (Count (Elastic := es) idx a b s) (fun r w' =>
    tables w' = tables w /\ host w' = host w /\ forall n, r = Ok n -> n = observed idx a b s) w;
}.

(** The uptime of a period, as it was observed. *)
Definition observed_uptime (observed : string -> string -> string -> bool -> Z) (idx : string) (from to : time) : f64 :=
  let a := FormatInstant (zone from) (instant from) in
  let b := FormatInstant (zone to) (instant to) in
  if (observed idx a b false =? 0)%Z then f64_of_int 0
  else uptime_of (observed idx a b true) (observed idx a b false).

(** ** What a worker makes of a request *)

(** Elasticsearch answers every question. *)
Definition answering {W} (es : Elastic W) : Prop :=
  forall idx a b s (w : W), is_ok (Count (Elastic := es) idx a b s w).1 = true.

(** The tables at four moments, one after the other, as [M] moves them from [x]. *)
Definition moments (M : rtables -> rtables -> Prop) (x y0 y1 y2 y3 : rtables) : Prop :=
  rtc M x y0 /\ rtc M y0 y1 /\ rtc M y1 y2 /\ rtc M y2 y3.

Lemma rtc_sub (M N : rtables -> rtables -> Prop) x y : (forall a b, M a b -> N a b) -> rtc M x y -> rtc N x y.
Proof. intros H. apply rtc_subrel. exact H. Qed.

Lemma moments_from (M N : rtables -> rtables -> Prop) x y y0 y1 y2 y3 :
  (forall a b, M a b -> N a b) -> rtc N x y -> moments M y y0 y1 y2 y3 -> moments N x y0 y1 y2 y3.
Proof. intros H Hx (H0 & H1 & H2 & H3). split_and!; [trans y; [done|]|..]; by eapply rtc_sub. Qed.

Section report.
Context (observed : string -> string -> string -> bool -> Z) (esIndex : string).

(** The report when the servers were counted at these moments. *)
Definition report_of (y0 y1 y2 y3 : rtables) (req : ReportRequest) : TemplateData :=
  template_data req (census "" y0) (census "ONLINE" y1) (census "OFFLINE" y2) (census "UNKNOWN" y3)
    (observed_uptime observed esIndex (StartTime req) (EndTime req)).

Context (Execute : TemplateData -> res string) (maxLen : Z) (notificationStream : string).

(** One notification was added to the stream: a report on the servers as they
    were found, to its requestor. *)
Definition notified (M : rtables -> rtables -> Prop) (x : rtables) (req : ReportRequest) (r r' : rstate) : Prop :=
  exists y0 y1 y2 y3 html st, moments M x y0 y1 y2 y3 /\ Execute (report_of y0 y1 y2 y3 req) = Ok html /\
    xadd_spec (if (0 <? maxLen)%Z then Some (Z.to_N maxLen) else None)
      (notification_fields (RequestorEmail req) html) (stream_at r notificationStream) st /\
    r' = set_stream notificationStream st r.

(** The template cannot be rendered. *)
Definition unrendered (M : rtables -> rtables -> Prop) (x : rtables) (req : ReportRequest) : Prop :=
  exists y0 y1 y2 y3, moments M x y0 y1 y2 y3 /\ is_ok (Execute (report_of y0 y1 y2 y3 req)) = false.

Lemma notified_from (M N : rtables -> rtables -> Prop) x y req r r' :
  (forall a b, M a b -> N a b) -> rtc N x y -> notified M y req r r' -> notified N x req r r'.
Proof.
  intros H Hx (y0 & y1 & y2 & y3 & html & st & Hy & He). exists y0, y1, y2, y3, html, st.
  split; [by eapply moments_from|done].
Qed.

Lemma unrendered_from (M N : rtables -> rtables -> Prop) x y req :
  (forall a b, M a b -> N a b) -> rtc N x y -> unrendered M y req -> unrendered N x req.
Proof.
  intros H Hx (y0 & y1 & y2 & y3 & Hy & He). exists y0, y1, y2, y3. split; [by eapply moments_from|done].
Qed.

(** Where the servers stay as they are, so do the numbers. *)
Lemma report_still (M : rtables -> rtables -> Prop) x y0 y1 y2 y3 req :
  (forall a b, M a b -> rservers b = rservers a) -> moments M x y0 y1 y2 y3 ->
  report_of y0 y1 y2 y3 req = report_of x x x x req.
Proof.
  intros HM (H0 & H1 & H2 & H3).
  assert (forall a b, rtc M a b -> rservers b = rservers a) as Hr.
  { intros a b Hab. induction Hab as [|a b c Hab _ IH]; [done|]. rewrite IH. by apply HM. }
  apply Hr in H0, H1, H2, H3. unfold report_of, census. by rewrite H3, H2, H1, H0.
Qed.
End report.

(** The changes of the tables while a worker is at a request: what others do, and
    the mark that it is being processed. *)
Definition meanwhile (R : rtables -> rtables -> Prop) (id : string) (a b : rtables) : Prop :=
  R a b \/ status_set id ReportStatusProcessing a b.

Section worker.
Context {W R} {wo : SharedWorld W rtables R} `{rp : ReportStore} (es : Elastic W).
Context (observed : string -> string -> string -> bool -> Z) `{!ElasticLaws es observed}.
Context (esIndex : string) (Execute : TemplateData -> res string) (maxLen : Z) (notificationStream : string).

Abbreviation notified := (notified observed esIndex Execute maxLen notificationStream).
Abbreviation unrendered := (unrendered observed esIndex Execute).

Lemma CalculateUptime_spec from to (w : W) :
  wp (CalculateUptime (Some es) esIndex from to) (fun r w' => tables w' = tables w /\ host w' = host w /\
    (forall u, r = Ok u -> u = observed_uptime observed esIndex from to) /\ (answering es -> is_ok r = true)) w.
Proof.
  unfold CalculateUptime, observed_uptime, answering. cbv zeta.
  assert (forall idx a b s (w : W), wp (Count (Elastic := es) idx a b s) (fun r w' => tables w' = tables w /\
    host w' = host w /\ (forall n, r = Ok n -> n = observed idx a b s) /\
    ((forall idx a b s (w : W), is_ok (Count (Elastic := es) idx a b s w).1 = true) -> is_ok r = true)) w) as Hcount.
  { intros idx a b s w0. pose proof (Count_law idx a b s w0) as Hl. apply wp_run. apply wp_run in Hl.
    destruct Hl as (H1 & H2 & H3). split_and!; [done..|]. intros Hall. apply Hall. }
  apply wp_bind. eapply wp_mono; [apply Hcount|]. cbn beta. intros [n|e] w1 (H1 & H2 & Hn & Ha).
  2:{ apply wp_ret. split_and!; [done..|]. intros Hall. by specialize (Ha Hall). }
  specialize (Hn n eq_refl). rewrite <- Hn. case_match eqn:En; [by apply wp_ret; split_and!; [..|intros u [= <-]|]|].
  apply wp_bind. eapply wp_mono; [apply Hcount|]. cbn beta. intros [m|e] w2 (H3 & H4 & Hm & Hb); apply wp_ret;
    (split_and!; [congruence|congruence| |]); try done.
  intros u [= <-]. by rewrite <- (Hm m eq_refl).
Qed.

(** What stands in the way of a report. *)
Definition hindered (M : rtables -> rtables -> Prop) (x : rtables) (req : ReportRequest) : Prop :=
  ~ Answers wo \/ ~ answering es \/ unrendered M x req.

Lemma doWork_spec req (w : W) x :
  tables w = DView x None ->
  wp (doWork (Some es) esIndex Execute (Some maxLen) notificationStream req) (fun r w' => exists x',
    rtc R x x' /\ tables w' = DView x' None /\
    match r with
    | Ok _ => notified R x req (redis (host w)) (redis (host w'))
    | Err _ => (redis (host w') = redis (host w) \/ notified R x req (redis (host w)) (redis (host w'))) /\
        hindered R x req
    end) w.
Proof.
  intros Hv. unfold doWork.
  apply wp_try. eapply wp_mono; [by apply GetServerCountByStatus_spec|]. cbn beta.
  intros r0 w1 (R1 & y0 & Y0 & V1 & N0 & A0). destruct r0 as [n0|e]; [|exists y0; split_and!; [done..|by left|left; by apply A0]].
  apply wp_try. eapply wp_mono; [by apply GetServerCountByStatus_spec|]. cbn beta.
  intros r1 w2 (R2 & y1 & Y1 & V2 & N1 & A1). rewrite R1 in R2.
  destruct r1 as [n1|e]; [|exists y1; split_and!; [by trans y0|done|by left|left; by apply A1]].
  apply wp_try. eapply wp_mono; [by apply GetServerCountByStatus_spec|]. cbn beta.
  intros r2 w3 (R3 & y2 & Y2 & V3 & N2 & A2). rewrite R2 in R3.
  destruct r2 as [n2|e]; [|exists y2; split_and!; [by trans y0; [|trans y1]|done|by left|left; by apply A2]].
  apply wp_try. eapply wp_mono; [by apply GetServerCountByStatus_spec|]. cbn beta.
  intros r3 w4 (R4 & y3 & Y3 & V4 & N3 & A3). rewrite R3 in R4.
  assert (rtc R x y3) as Hy by (trans y0; [done|trans y1; [done|by trans y2]]).
  assert (moments R x y0 y1 y2 y3) as Hm by done.
  destruct r3 as [n3|e]; [|exists y3; split_and!; [done..|by left|left; by apply A3]].
  apply wp_try. eapply wp_mono; [apply CalculateUptime_spec|]. cbn beta. intros [u|e] w5 (V5 & H5 & U & A).
  2:{ exists y3. rewrite V5, H5. split_and!; [done..|by left|]. right; left. intros Hes. by specialize (A Hes). }
  rewrite (N0 _ eq_refl), (N1 _ eq_refl), (N2 _ eq_refl), (N3 _ eq_refl), (U _ eq_refl).
  change (template_data req _ _ _ _ _) with (report_of observed esIndex y0 y1 y2 y3 req).
  destruct (Execute (report_of observed esIndex y0 y1 y2 y3 req)) as [html|e] eqn:Eh.
  2:{ apply wp_ret. exists y3. rewrite V5, H5. split_and!; [done..|by left|]. right; right. exists y0, y1, y2, y3. by rewrite Eh. }
  assert (forall w' t s' a, host w' = HView t s' ->
    rspec t (XAdd notificationStream (if (0 <? maxLen)%Z then Some (Z.to_N maxLen) else None)
      (notification_fields (RequestorEmail req) html)) (redis (host w5)) a s' ->
    notified R x req (redis (host w)) (redis (host w'))) as Hdone.
  { intros w' t s' a Hh (st & Hst & ->). exists y0, y1, y2, y3, html, st. rewrite Hh. cbn [redis].
    rewrite H5, R4 in *. done. }
  apply wp_bind, wp_redis.
  - intros a w' t s' Ht _ Hh Hs. apply wp_ret. exists y3. split_and!; [done|by rewrite Ht, V5|]. by eapply Hdone.
  - intros e w' t s' Ht _ Hh Hf Hna. apply wp_ret. exists y3. split_and!; [done|by rewrite Ht, V5| |by left].
    destruct Hf as [->|[[a Hs]|[]]]; [left; by rewrite Hh, H5|right; by eapply Hdone].
Qed.

Lemma processReport_spec req (w : W) x :
  tables w = DView x None ->
  let M := meanwhile R (RR_ID req) in
  let sent := notified M x req (redis (host w)) in
  wp (processReport (Some es) esIndex Execute (Some maxLen) notificationStream req) (fun _ w' => exists z x',
    rtc M x z /\ tables w' = DView x' None /\ (redis (host w') = redis (host w) \/ sent (redis (host w'))) /\
    (status_set (RR_ID req) ReportStatusCompleted z x' /\ sent (redis (host w')) \/
     status_set (RR_ID req) ReportStatusFailed z x' /\ hindered M x req \/
     x' = z /\ ~ Answers wo)) w.
Proof.
  intros Hv M sent.
  assert (forall a b, rtc R a b -> rtc M a b) as HM by (intros a b; apply rtc_sub; by left).
  apply wp_bind. eapply wp_mono; [by apply UpdateReportStatus_spec|]. cbn beta.
  intros r w1 (R1 & x1 & x2 & Hx1 & V1 & Hx2 & Ha1).
  assert (rtc M x x2) as Hxx2.
  { trans x1; [by apply HM|]. destruct Hx2 as [(_ & _ & ->)|Hx2]; [done|]. apply rtc_once. by right. }
  destruct r as [[]|e].
  2:{ apply wp_ret. exists x2, x2. split_and!; [done..|by left|]. right; right. split; [done|]. intros Hans. by specialize (Ha1 Hans). }
  apply wp_bind. eapply wp_mono; [by apply doWork_spec|]. cbn beta. intros r w2 (y & Hy & V2 & Hr).
  rewrite R1 in Hr.
  assert (notified R x2 req (redis (host w)) (redis (host w2)) -> sent (redis (host w2))) as Hs.
  { intros Hn. by eapply notified_from; [|exact Hxx2|exact Hn]; left. }
  assert (hindered R x2 req -> hindered M x req) as Hh.
  { intros [H|[H|H]]; [by left|by right; left|]. right; right. by eapply unrendered_from; [|exact Hxx2|exact H]; left. }
  apply wp_bind. eapply wp_mono; [by apply UpdateReportStatus_spec|]. cbn beta.
  intros r' w3 (R3 & z & x3 & Hz & V3 & Hx3 & _). apply wp_ret. exists z, x3. rewrite R3.
  split_and!; [trans x2; [done|trans y; by apply HM]|done| |].
  - destruct r; [right; by apply Hs|]. destruct (proj1 Hr) as [->|Hn]; [by left|right; by apply Hs].
  - destruct Hx3 as [(_ & Hn & ->)|Hx3]; [right; right; done|]. destruct r as [a|e]; [left; split; [done|by apply Hs]|].
    right; left. split; [done|apply Hh, Hr].
Qed.
End worker.

(** C16: a worker and its report, under any faults and while other clients of
    the database do anything (the consumer of sms-reporting follows its events
    meanwhile).  The worker changes nothing but the status of its request and
    sends at most one notification, to the requestor, with the four counts of
    servers, each as it was at some moment, in this order, and the uptime that
    was observed.  The request is recorded as completed only if the notification
    was sent, and when the services answer it is recorded as completed or failed;
    it fails only if a request to a service failed or the template could not be
    rendered.  When nobody touches the servers meanwhile, the numbers are those
    of the tables at the start. *)
Theorem processReport_effect {W R} {wo : SharedWorld W rtables R} `{rp : ReportStore} (es : Elastic W)
    (observed : string -> string -> string -> bool -> Z) `{!ElasticLaws es observed} (esIndex : string)
    (Execute : TemplateData -> res string) (maxLen : Z) (notificationStream : string) (req : ReportRequest)
    (w : W) (x : rtables) :
  tables w = DView x None ->
  let M := meanwhile R (RR_ID req) in
  let sent := notified observed esIndex Execute maxLen notificationStream M x req (redis (host w)) in
  wp (processReport (Some es) esIndex Execute (Some maxLen) notificationStream req) (fun _ w' => exists z x',
    rtc M x z /\ tables w' = DView x' None /\ (redis (host w') = redis (host w) \/ sent (redis (host w'))) /\
    (status_set (RR_ID req) ReportStatusCompleted z x' /\ sent (redis (host w')) \/
     status_set (RR_ID req) ReportStatusFailed z x' /\ hindered es observed esIndex Execute M x req \/
     x' = z /\ ~ Answers wo)) w /\
  ((forall a b, R a b -> rservers b = rservers a) -> forall y0 y1 y2 y3, moments M x y0 y1 y2 y3 ->
    report_of observed esIndex y0 y1 y2 y3 req = report_of observed esIndex x x x x req).
Proof.
  intros Hv M sent. split; [by apply processReport_spec|]. intros HR y0 y1 y2 y3. apply report_still.
  intros a b [Hab|[t ->]]; [by apply HR|done].
Qed.

(** ** Accepting a request *)

(** A request that can be served: a requestor, and two dates in order. *)
Definition well_formed (q : RequestReportRequest) (start end_ : Z) : Prop :=
  TrimSpace (TargetEmail q) <> "" /\ ParseDate (StartDate q) = Ok start /\ ParseDate (EndDate q) = Ok end_ /\
  (start <= end_)%Z.

(** It covers the days from the start of the first to the end of the last. *)
Definition pending (q : RequestReportRequest) (start end_ : Z) (r : ReportRequest) : Prop :=
  RequestorEmail r = TargetEmail q /\ StartTime r = Time start 0 /\
  EndTime r = Time (end_ + day - Nanosecond) 0 /\ RR_Status r = ReportStatusPending.

Lemma ParseDate_midnight s t : ParseDate s = Ok t -> exists n, t = (n * day)%Z.
Proof.
  unfold ParseDate. intros H. repeat match type of H with
    | (match ?x with _ => _ end) = _ => destruct x; try discriminate H
    end. injection H as <-. by eexists.
Qed.

Section request.
Context {W R} {wo : SharedWorld W rtables R} `{rp : ReportStore}.
Context (queue : W -> list ReportRequest) `{!Frame world_host queue} `{!Frame world_db queue}.
Context (EnqueueReport : ReportRequest -> proc W unit).
Context (Henq : forall r w, wp (EnqueueReport r) (fun _ w' => tables w' = tables w /\ host w' = host w /\
  queue w' = queue w ++ [r]) w).

(** A request to the host or the database leaves the queue alone. *)
Lemma queue_now (w : W) : wp time_Now (fun _ w' => queue w' = queue w) w.
Proof. apply wp_bind. eapply wp_mono; [apply (wp_frame world_host queue)|]. intros. by apply wp_ret. Qed.
Lemma queue_uuid (w : W) : wp uuid_New (fun _ w' => queue w' = queue w) w.
Proof. apply wp_bind. eapply wp_mono; [apply (wp_frame world_host queue)|]. intros. by apply wp_ret. Qed.
Lemma queue_exec {A} (f : rtables -> res A * rtables) (w : W) : wp (exec f) (fun _ w' => queue w' = queue w) w.
Proof. apply wp_bind. eapply wp_mono; [apply (wp_frame world_db queue)|]. intros. by apply wp_ret. Qed.

Lemma CreateReportRequest_spec r (w : W) x :
  tables w = DView x None ->
  wp (CreateReportRequest r) (fun a w' => queue w' = queue w /\ redis (host w') = redis (host w) /\ exists x1 x' t,
    rtc R x x1 /\ tables w' = DView x' None /\
    (x' = RTables (requests x1 ++ [stamped t r]) (rservers x1) \/ x' = x1 /\ is_ok a = false) /\
    (forall e, a = Err e -> Answers wo -> (insert_request (stamped t r) x1).1 = Err e)) w.
Proof.
  intros Hv. eapply wp_mono; [apply wp_and; [|by apply stamped_shared]|].
  - instantiate (1 := fun _ w' => queue w' = queue w). apply wp_bind. eapply wp_mono; [apply queue_now|]. cbn beta.
    intros t w1 Q1. eapply wp_mono; [apply queue_exec|]. cbn beta. intros a w2 Q2. congruence.
  - cbn beta. intros a w' (Hq & Hr & t & x1 & x' & Hx1 & Hv' & Hx). split_and!; [done..|]. exists x1, x', t. split; [done|]. split; [done|].
    destruct a as [[]|e].
    + split; [|done]. unfold insert_request in Hx. destruct (_ && _); [|done]. injection Hx as <-. auto.
    + destruct Hx as [Hx Ha]. split.
      * destruct Hx as [->|[[] E]]; [by right|]. unfold insert_request in E. destruct (_ && _); [|done].
        injection E as <-. by left.
      * intros e' [= <-] Hans. by destruct (Ha Hans).
Qed.

(** What became of a call. *)
Definition accepted_or_not (q : RequestReportRequest) (w : W) (x : rtables)
    (r : outcome RequestReportResponse) (w' : W) : Prop :=
  redis (host w') = redis (host w) /\ exists x', tables w' = DView x' None /\
  match r with
  | Reply a => a = accepted /\ exists start end_ req t, well_formed q start end_ /\ pending q start end_ req /\
      among R (fun x1 x' => x' = RTables (requests x1 ++ [stamped t req]) (rservers x1)) x x' /\
      queue w' = queue w ++ [req]
  | Refused st => queue w' = queue w /\
      ((s_code st = InvalidArgument /\ x' = x /\ forall start end_, ~ well_formed q start end_) \/
       exists start end_ req t, well_formed q start end_ /\ pending q start end_ req /\
         among R (fun x1 x' => (x' = x1 \/ x' = RTables (requests x1 ++ [stamped t req]) (rservers x1)) /\
           (Answers wo -> is_ok (insert_request (stamped t req) x1).1 = false)) x x')
  | Panicked => False
  end.

Lemma RequestReport_grpc_spec c q (w : W) x :
  tables w = DView x None ->
  wp (RequestReport_grpc EnqueueReport c q) (accepted_or_not q w x) w.
Proof.
  intros Hv. unfold RequestReport_grpc.
  assert (forall st (w' : W), tables w' = DView x None -> queue w' = queue w -> redis (host w') = redis (host w) ->
    s_code st = InvalidArgument -> (forall start end_, ~ well_formed q start end_) ->
    accepted_or_not q w x (Refused st) w') as Hbad.
  { intros st w' H1 H2 H3 H4 H5. split; [done|]. exists x. split; [done|]. split; [done|]. by left. }
  destruct (String.eqb_spec (TargetEmail q) "") as [E|E].
  { apply wp_ret, Hbad; try done. intros start end_ (Hm & _). by rewrite E in Hm. }
  apply wp_bind. unfold RequestReport.
  destruct (ParseDate (StartDate q)) as [start|e] eqn:Es.
  2:{ apply wp_ret, wp_ret, Hbad; try done. intros start end_ (_ & H & _). congruence. }
  destruct (ParseDate (EndDate q)) as [end_|e] eqn:Ee.
  2:{ apply wp_ret, wp_ret, Hbad; try done. intros start' end_ (_ & _ & H & _). congruence. }
  destruct (ParseDate_midnight _ _ Es) as [n En], (ParseDate_midnight _ _ Ee) as [m Em].
  apply wp_bind. eapply wp_mono; [apply wp_and; [apply queue_uuid|by apply still_uuid]|]. cbn beta.
  intros u w1 (Q1 & V1 & R1). apply wp_try. unfold NewReportRequest.
  destruct (String.eqb_spec (TrimSpace (TargetEmail q)) "") as [Et|Et].
  { apply wp_ret, wp_ret, Hbad; try done. by intros start' end' (H & _). }
  cbn [instant]. destruct (Z.ltb_spec (end_ + 24 * Hour - Nanosecond) start) as [Hlt|Hle].
  { apply wp_ret, wp_ret, Hbad; try done. intros start' end' (_ & H1 & H2 & H3).
    rewrite Es in H1. rewrite Ee in H2. injection H1 as <-. injection H2 as <-.
    unfold day, Nanosecond, Hour, Minute, Second in *. lia. }
  assert (well_formed q start end_) as Hwf.
  { split_and!; try done. unfold day, Nanosecond, Hour, Minute, Second in *. lia. }
  apply wp_bind. eapply wp_mono; [apply wp_and; [apply queue_uuid|by apply still_uuid]|]. cbn beta.
  intros id w2 (Q2 & V2 & R2). apply wp_ret. cbv beta iota. apply wp_try. set (req := {| RR_ID := id |}).
  eapply wp_mono; [by apply CreateReportRequest_spec|]. cbn beta.
  intros a w3 (Q3 & R3 & x1 & x3 & t & Hx1 & V3 & Hx3 & He). destruct a as [[]|e].
  - destruct Hx3 as [->|[_ [=]]].
    apply wp_bind. eapply wp_mono; [apply Henq|]. cbn beta. intros _ w4 (V4 & R4 & Q4). apply wp_ret. cbv beta iota.
    apply wp_ret. split; [congruence|]. eexists. split; [by rewrite V4|]. split; [done|].
    exists start, end_, req, t. split_and!; try done; [by exists x1|congruence].
  - apply wp_ret.
    assert (forall st, accepted_or_not q w x (Refused st) w3) as Href.
    { intros st. split; [congruence|]. exists x3. split; [done|]. split; [congruence|]. right.
      exists start, end_, req, t. split_and!; [done..|]. exists x1. split_and!; [done| |].
      - destruct Hx3 as [->|[-> _]]; auto.
      - intros Hans. by rewrite (He e eq_refl Hans). }
    destruct (_ || _); apply wp_ret, Href.
Qed.
End request.


(** ** The replica *)
Definition row_ids (l : list ReportingServer) : list string := map RS_ServerID l.

(** What the replica knows of each server, status aside. *)
Definition replica (l : list ReportingServer) : gmap string (string * string) :=
  list_to_map (map (fun s => (RS_ServerID s, (RS_Name s, RS_IPv4 s))) l).

Definition follow (ty payload : string) (t : gmap string (string * string)) : gmap string (string * string) :=
  if String.eqb ty "ServerCreated" || String.eqb ty "ServerUpdated" then
    match decode_server payload with Some p => <[sp_ID p := (sp_Name p, sp_IP p)]> t | None => t end
  else if String.eqb ty "ServerDeleted" then
    match decode_id payload with Some id => delete id t | None => t end
  else t.

Definition follow_message (msg : Message) (t : gmap string (string * string)) : gmap string (string * string) :=
  match Values msg !! "event_type", Values msg !! "payload" with
  | Some ty, Some payload => follow ty payload t
  | _, _ => t
  end.

Lemma replica_none l id : id ∉ row_ids l -> replica l !! id = None.
Proof.
  intros Hn. apply not_elem_of_list_to_map_1. intros Hin. apply Hn. unfold row_ids.
  apply list_elem_of_fmap in Hin as ([i v] & -> & Hin). apply list_elem_of_fmap in Hin as (s & [= -> _] & Hin).
  apply list_elem_of_fmap. by exists s.
Qed.

Lemma existsb_row id l : existsb (is_row id) l = true <-> id ∈ row_ids l.
Proof.
  rewrite existsb_exists. unfold row_ids. rewrite list_elem_of_fmap. unfold is_row. split.
  - intros (s & Hin & E%String.eqb_eq). exists s. by rewrite list_elem_of_In.
  - intros (s & -> & Hin). exists s. by rewrite String.eqb_refl, <- list_elem_of_In.
Qed.

Lemma replica_replace row l :
  NoDup (row_ids l) -> RS_ServerID row ∈ row_ids l ->
  replica (map (fun s => if is_row (RS_ServerID row) s then row else s) l) =
    <[RS_ServerID row := (RS_Name row, RS_IPv4 row)]> (replica l) /\
  row_ids (map (fun s => if is_row (RS_ServerID row) s then row else s) l) = row_ids l.
Proof.
  unfold is_row. intros Hnd Hin. split.
  - induction l as [|s l IH]; [by apply elem_of_nil in Hin|]. cbn in Hnd. inversion Hnd as [|i l' Hnot Hnd' E]; subst.
    unfold replica in *. cbn [map]. destruct (String.eqb_spec (RS_ServerID s) (RS_ServerID row)) as [E|E].
    + cbn [list_to_map foldr]. rewrite E, insert_insert_eq. f_equal. rewrite E in Hnot.
      clear -Hnot. induction l as [|s' l IH]; [done|]. cbn [map]. cbn in Hnot. apply not_elem_of_cons in Hnot as [Hne Hnot].
      rewrite (proj2 (String.eqb_neq _ _)) by congruence. cbn. by rewrite IH.
    + cbn in Hin. apply elem_of_cons in Hin as [Hin|Hin]; [congruence|].
      cbn [list_to_map foldr]. rewrite IH by done. by rewrite insert_insert_ne.
  - unfold row_ids. rewrite map_map. apply map_ext. intros s.
    by destruct (String.eqb_spec (RS_ServerID s) (RS_ServerID row)).
Qed.

Lemma replica_append row l :
  RS_ServerID row ∉ row_ids l ->
  replica (l ++ [row]) = <[RS_ServerID row := (RS_Name row, RS_IPv4 row)]> (replica l).
Proof.
  intros Hn. unfold replica. rewrite map_app. cbn. apply list_to_map_snoc. intros Hin. apply Hn. unfold row_ids.
  apply list_elem_of_fmap in Hin as ([i v] & -> & Hin). apply list_elem_of_fmap in Hin as (s & [= -> _] & Hin).
  apply list_elem_of_fmap. by exists s.
Qed.

Lemma replica_remove id l :
  NoDup (row_ids l) -> replica (List.filter (fun s => negb (is_row id s)) l) = delete id (replica l).
Proof.
  unfold is_row. induction l as [|s l IH]; intros Hnd; [symmetry; apply delete_empty|].
  cbn in Hnd. inversion Hnd as [|i l' Hnot Hnd' E]; subst. cbn [List.filter].
  destruct (String.eqb_spec (RS_ServerID s) id) as [<-|Hne]; cbn [negb].
  - rewrite IH by done. unfold replica at 2. cbn [map list_to_map foldr]. by rewrite delete_insert_eq.
  - unfold replica in *. cbn [map list_to_map foldr]. rewrite IH by done. by rewrite delete_insert_ne.
Qed.

Lemma upsert_followed `{rp : ReportStore} row x a x' :
  NoDup (row_ids (rservers x)) -> upsert_server row x = (Ok a, x') ->
  requests x' = requests x /\ NoDup (row_ids (rservers x')) /\
  replica (rservers x') = <[RS_ServerID row := (RS_Name row, RS_IPv4 row)]> (replica (rservers x)).
Proof.
  intros Hnd. unfold upsert_server. destruct (fits_row _); [|done]. intros [= _ <-]. cbn [requests rservers].
  split; [done|]. destruct (existsb (is_row (RS_ServerID row)) (rservers x)) eqn:E.
  - apply existsb_row in E. destruct (replica_replace row (rservers x) Hnd E) as [-> ->]. done.
  - assert (RS_ServerID row ∉ row_ids (rservers x)) as Hn by (intros Hin; apply existsb_row in Hin; congruence).
    rewrite replica_append by done. split; [|done]. unfold row_ids. rewrite map_app. apply NoDup_app.
    split_and!; [done| |apply NoDup_singleton]. intros i Hi ->%list_elem_of_singleton. by apply Hn.
Qed.

Lemma delete_followed id x a x' :
  NoDup (row_ids (rservers x)) -> delete_row id x = (Ok a, x') ->
  requests x' = requests x /\ NoDup (row_ids (rservers x')) /\
  replica (rservers x') = delete id (replica (rservers x)).
Proof.
  intros Hnd [= _ <-]. cbn [requests rservers]. rewrite replica_remove by done. split_and!; [done| |done].
  clear -Hnd. induction (rservers x) as [|s l IH]; [done|]. cbn in *. inversion Hnd as [|i l' Hnot Hnd' E]; subst.
  destruct (negb (is_row id s)); cbn; [|auto]. constructor; [|auto]. intros Hin. apply Hnot. unfold row_ids in *.
  apply list_elem_of_fmap in Hin as (s' & -> & Hin). apply list_elem_of_fmap. exists s'. split; [done|].
  apply list_elem_of_In, filter_In in Hin as [Hin _]. by apply list_elem_of_In.
Qed.

Section consumer.
Context {W} {wo : World W rtables} `{rp : ReportStore}.

(** The tables after a handler that followed an event, or did not. *)
Definition followed (msg : Message) (done_ : bool) (x x' : rtables) : Prop :=
  requests x' = requests x /\ NoDup (row_ids (rservers x')) /\
  (replica (rservers x') = follow_message msg (replica (rservers x)) \/
   done_ = false /\ replica (rservers x') = replica (rservers x)).

Lemma handleServerEvent_spec msg (w : W) x :
  tables w = DView x None -> NoDup (row_ids (rservers x)) ->
  wp (handleServerEvent msg) (fun r w' => exists x', tables w' = DView x' None /\ followed msg (is_ok r) x x') w.
Proof.
  intros Hv Hnd. unfold handleServerEvent, followed, follow_message.
  assert (forall b, requests x = requests x /\ NoDup (row_ids (rservers x)) /\
    (replica (rservers x) = replica (rservers x) \/ b = false /\ replica (rservers x) = replica (rservers x))) as Hsame
    by (intros b; auto).
  destruct (Values msg !! "event_type") as [ty|]; [|apply wp_ret; exists x; auto].
  destruct (Values msg !! "payload") as [payload|]; [|apply wp_ret; exists x; auto].
  unfold follow. destruct (String.eqb ty "ServerCreated" || String.eqb ty "ServerUpdated").
  - destruct (decode_server payload) as [p|]; [|apply wp_ret; exists x; auto].
    eapply wp_mono; [by apply (stamped_spec (fun now x => upsert_server (server_status _ now (replica_row p)) x))|].
    cbn beta. intros r w' (_ & t & x' & Hv' & Hx). exists x'. split; [done|].
    match type of Hx with context [upsert_server ?row x] =>
      pose proof (fun a => upsert_followed row x a x' Hnd) as Hup; cbn [RS_ServerID RS_Name RS_IPv4 server_status] in Hup
    end.
    destruct r as [a|e]; [destruct (Hup a Hx) as (H1 & H2 & H3); auto|].
    destruct Hx as [[->|[a E]] _]; [auto|]. destruct (Hup a E) as (H1 & H2 & H3). auto.
  - destruct (String.eqb ty "ServerDeleted"); [|apply wp_ret; exists x; auto].
    destruct (decode_id payload) as [id|]; [|apply wp_ret; exists x; auto].
    pose proof (fun a x' => delete_followed id x a x' Hnd) as Hdel.
    apply (wp_sql _ _ _ x); [done| |].
    + intros a w' x' E Hv' _. exists x'. destruct (Hdel a x' E) as (H1 & H2 & H3). auto.
    + intros e w' x' [-> |[a E]] Hv' _ _; [by exists x; split_and!; [..|right]|]. exists x'. destruct (Hdel a x' E) as (H1 & H2 & H3). auto.
Qed.

(** Events in order, all of them handled with success. *)
Lemma follow_all msgs (w : W) x :
  tables w = DView x None -> NoDup (row_ids (rservers x)) ->
  wp (collect handleServerEvent msgs) (fun rs w' => exists x', tables w' = DView x' None /\
    requests x' = requests x /\ NoDup (row_ids (rservers x')) /\
    (Forall (fun r => is_ok r = true) rs ->
     replica (rservers x') = foldl (fun t m => follow_message m t) (replica (rservers x)) msgs)) w.
Proof.
  intros Hv Hnd.
  apply (wp_mono _ (fun rs w' => exists x', tables w' = DView x' None /\ requests x' = requests x /\
    NoDup (row_ids (rservers x')) /\ (Forall (fun r => is_ok r = true) rs ->
     foldl (fun t m => follow_message m t) (replica (rservers x')) [] =
     foldl (fun t m => follow_message m t) (replica (rservers x)) msgs))); [|done].
  apply (wp_collect handleServerEvent (fun _ rs rest w' => exists x', tables w' = DView x' None /\
    requests x' = requests x /\ NoDup (row_ids (rservers x')) /\ (Forall (fun r => is_ok r = true) rs ->
     foldl (fun t m => follow_message m t) (replica (rservers x')) rest =
     foldl (fun t m => follow_message m t) (replica (rservers x)) msgs))); [by exists x|].
  intros _ rs msg rest w1 (x1 & V1 & Q1 & N1 & E1).
  eapply wp_mono; [by apply handleServerEvent_spec|]. cbn beta. intros r w2 (x2 & V2 & Q2 & N2 & E2).
  exists x2. split_and!; [done|congruence|done|]. intros Hall.
  apply Forall_app in Hall as [Hrs Hr]. apply Forall_cons in Hr as [Hr _].
  rewrite <- (E1 Hrs). cbn [foldl]. destruct E2 as [<- |[Hf _]]; [done|]. by rewrite Hr in Hf.
Qed.
End consumer.

(** ** The numbers of a report *)
Definition days_counted (n : Z) : Z :=
  wrap64 (int_of_f64 (f64_div (Hours (n * day - Nanosecond)) (f64_of_int 24)) + 1).

Lemma period_days_counted s z1 z2 n :
  (0 <= n <= 1000)%Z ->
  period_days (Time s z1) (Time (s + n * day - Nanosecond) z2) = days_counted n.
Proof.
  intros Hn. unfold period_days, days_counted, Sub. cbn [instant].
  replace (Z.max min_int64 _) with (n * day - Nanosecond)%Z; [done|].
  unfold min_int64, max_int64, day, Hour, Minute, Second, Nanosecond. lia.
Qed.

(** The report of an accepted request says how many days it covers, as
    long as there are at most 170 of them. *)
Theorem period_days_right (s z : Z) (n : Z) :
  (1 <= n <= 170)%Z -> period_days (Time s z) (Time (s + n * day - Nanosecond) z) = n.
Proof.
  intros Hn. rewrite period_days_counted by lia.
  assert (forallb (fun k => days_counted (Z.of_nat k) =? Z.of_nat k)%Z (seq 1 170) = true) as Hall by (by vm_compute).
  rewrite forallb_forall in Hall. specialize (Hall (Z.to_nat n) ltac:(apply in_seq; lia)).
  rewrite Z2Nat.id in Hall by lia. by apply Z.eqb_eq in Hall.
Qed.

(** From 171 days on the hours, as a float64, round up to a whole day, and the
    report says one day more. *)
Lemma period_days_wrong : period_days (Time 0 0) (Time (171 * day - Nanosecond) 0) = 172%Z.
Proof. by vm_compute. Qed.

(** The report of the scheduler runs from midnight to midnight: one day, which
    counts as two. *)
Lemma scheduled_period_wrong z t : period_days (Time (midnight z t - day) z) (Time (midnight z t) z) = 2%Z.
Proof.
  unfold period_days, Sub. cbn [instant]. replace (midnight z t - (midnight z t - day))%Z with day by lia.
  by vm_compute.
Qed.

(** ** The report of the scheduler has no row *)
Lemma set_status_absent id st t l : id ∉ map RR_ID l -> set_status id st t l = l.
Proof.
  unfold set_status. induction l as [|r l IH]; intros Hn; [done|]. cbn in *. apply not_elem_of_cons in Hn as [Hne Hn].
  rewrite (proj2 (String.eqb_neq _ _)) by done. by rewrite IH.
Qed.

(** A request that was queued without being stored leaves no trace in the
    table, whatever becomes of it. *)
Lemma scheduled_report_unrecorded {W} {wo : World W rtables} `{rp : ReportStore} (es : Elastic W)
    (observed : string -> string -> string -> bool -> Z) `{!ElasticLaws es observed} esIndex Execute maxLen stream
    (req : ReportRequest) (w : W) (x : rtables) :
  tables w = DView x None -> RR_ID req ∉ map RR_ID (requests x) ->
  wp (processReport (Some es) esIndex Execute (Some maxLen) stream req) (fun _ w' => tables w' = DView x None) w.
Proof.
  intros Hv Hn. eapply wp_mono; [by eapply processReport_spec|]. cbn beta. intros _ w' (z & x' & Hz & Hv' & _ & Hx).
  assert (forall st y, status_set (RR_ID req) st x y -> y = x) as Hno.
  { intros st y [t ->]. rewrite set_status_absent by done. by destruct x. }
  assert (z = x) as ->.
  { clear -Hz Hno. induction Hz as [|a b c [[]|Hab] _ IH]; [done|]. apply Hno in Hab as ->. by apply IH. }
  rewrite Hv'. destruct Hx as [[H _]|[[H _]|[-> _]]]; [by rewrite (Hno _ _ H)..|done].
Qed.

(** ** The theorems at work *)
#[local] Instance toy_store : ReportStore := {| fits_request := fun _ => true; fits_row := fun _ => true |}.
Definition toy_elastic {W} : Elastic W := fun _ _ _ success => mret (Ok (if success then 95 else 100)%Z).
Definition toy_observed (_ _ _ : string) (success : bool) : Z := if success then 95 else 100.
#[export] Instance toy_elastic_laws {W R} (wo : SharedWorld W rtables R) : ElasticLaws toy_elastic toy_observed.
Proof. split. intros idx a b s w. split_and!; [done..|]. by intros n [= <-]. Qed.
Definition toy_execute (d : TemplateData) : res string :=
  Ok (Itoa (TotalServers d) +:+ " servers, " +:+ Itoa (OnlineServers d) +:+ " online, " +:+
      Itoa (OfflineServers d) +:+ " offline: " +:+ HealthLabel d).

Definition row_of (id st : string) : ReportingServer := {|
  RS_ServerID := id; RS_Name := id; RS_IPv4 := "10.0.0.1"; RS_Status := st; RS_UpdatedAt := 0 |}.
Definition july_report : ReportRequest := {|
  RR_ID := "r-1"; RequestorEmail := "ann@x.org"; StartTime := Time 1751328000000000000 0;
  EndTime := Time (1751328000000000000 + 31 * day - Nanosecond) 0; RR_Status := "PENDING"; CorrelationID := "c";
  RR_CreatedAt := 0; RR_UpdatedAt := 0 |}.
Definition july_tables : rtables := RTables [july_report] [row_of "a" "ONLINE"; row_of "b" "OFFLINE"].
(** The statements of the consumer, which runs beside the workers. *)
Definition consumer_step `{rp : ReportStore} (x x' : rtables) : Prop :=
  (exists row, upsert_server row x = (Ok tt, x')) \/ (exists id st t n, update_server_status id st t x = (Ok n, x')) \/
  exists id, delete_row id x = (Ok tt, x').

Lemma a_down_moves x : rtc consumer_step x (update_server_status "a" "OFFLINE" 1 x).2.
Proof.
  apply rtc_once. right; left. exists "a", "OFFLINE", 1%Z. unfold update_server_status.
  assert (forall l, forallb fits_row l = true) as -> by (intros l; by apply forallb_forall). by eexists.
Qed.
Definition a_down : move consumer_step := move_by _ a_down_moves.
Definition crowded_july (fs gs : list fault) (ms : list (move consumer_step)) :
    (hview * list fault) * ((dview rtables * list fault) * list (move consumer_step)) :=
  ((HView 0 empty_redis, fs), ((DView july_tables None, gs), ms)).
Definition july_run :=
  processReport (srv := crowded_host rtables consumer_step) (db := crowded_db rtables consumer_step) (Some toy_elastic) "obs"
    toy_execute (Some 100%Z) "notifications" july_report.
Definition mailed (fs gs : list fault) (ms : list (move consumer_step)) : list (list (string * string)) :=
  map e_fields (s_entries (stream_at (redis (host (wo := crowded rtables consumer_step)
    (july_run (crowded_july fs gs ms)).2)) "notifications")).

(** Finding: the four counts are four statements, so a server that goes down
    between two of them is counted as online and as offline. *)
Lemma report_torn :
  mailed [] [] [] = [notification_fields "ann@x.org" "2 servers, 1 online, 1 offline: Attention Recommended"] /\
  mailed [] [] [stay; stay; stay; a_down] =
    [notification_fields "ann@x.org" "2 servers, 1 online, 2 offline: Attention Recommended"].
Proof. by vm_compute. Qed.

Lemma processReport_effect_witness :
  map RR_Status (requests (committed (tables (wo := crowded rtables consumer_step)
    (july_run (crowded_july [] [] [stay; stay; stay; a_down])).2))) = ["COMPLETED"] /\
  let wo := crowded rtables consumer_step in
  let w := crowded_july [FailAfter] [NoFault; FailBefore] [stay; a_down] in
  let M := meanwhile consumer_step (RR_ID july_report) in
  let sent := notified toy_observed "obs" toy_execute 100 "notifications" M july_tables july_report empty_redis in
  wp july_run (fun _ w' => exists z x',
    rtc M july_tables z /\ tables (wo := wo) w' = DView x' None /\
    (redis (host (wo := wo) w') = empty_redis \/ sent (redis (host (wo := wo) w'))) /\
    (status_set (RR_ID july_report) ReportStatusCompleted z x' /\ sent (redis (host (wo := wo) w')) \/
     status_set (RR_ID july_report) ReportStatusFailed z x' /\
       hindered (wo := wo) toy_elastic toy_observed "obs" toy_execute M july_tables july_report \/
     x' = z /\ ~ Answers wo)) w.
Proof.
  split; [by vm_compute|]. cbv zeta.
  exact (proj1 (processReport_effect (wo := crowded rtables consumer_step) toy_elastic toy_observed "obs" toy_execute 100
    "notifications" july_report (crowded_july [FailAfter] [NoFault; FailBefore] [stay; a_down]) july_tables eq_refl)).
Defined.

(** A world with a queue beside the reference world. *)
Section queued.
Context {V R} (wo : SharedWorld V rtables R).

Definition queued_host : Host (V * list ReportRequest) := framed _ world_host.
Definition queued_db : Db (V * list ReportRequest) rtables := framed _ world_db.
#[local] Instance queued_host_frame : Frame queued_host (view (Service := queued_db)).
Proof. intros A c w. unfold view. cbn. pose proof (world_host_frame A c w.1). by destruct (request c w.1). Qed.
#[local] Instance queued_db_frame : Frame queued_db (view (Service := queued_host)).
Proof. intros A c w. unfold view. cbn. pose proof (world_db_frame A c w.1). by destruct (request c w.1). Qed.
Definition queued : SharedWorld (V * list ReportRequest) rtables R := {| world_host := queued_host; world_db := queued_db |}.
Definition enqueue (r : ReportRequest) : proc (V * list ReportRequest) unit := fun w => (tt, (w.1, w.2 ++ [r])).
End queued.

Definition july_call : RequestReportRequest := {|
  TargetEmail := "ann@x.org"; StartDate := "2025-07-01"; EndDate := "2025-07-31" |}.

