(* ===== verification/Notification.v ===== *)
(** sms-notification: the mailer (infrastructure/notifier/), the consumer of
    notification events (consumer/notification_consumer.go), and the way of a
    report from sms-reporting into a mailbox. *)
From S2P Require Import Prelude GoStd Json Redis Host Broker Reporting.
From Stdlib Require Import Ascii.

(** ** The SMTP server as net/smtp reaches it *)
Record mail := Mail { mail_from : string; mail_to : string; mail_raw : string }.

#[export] Instance mail_eq_dec : EqDecision mail.
Proof. solve_decision. Defined.

(** The mail the server has accepted; sender, recipient and text of the session. *)
Record smtp_state := SmtpState { inbox : list mail; from : string; rcpt : string; text : string }.

Inductive smtpcmd : Type -> Type :=
  | Dial (addr : string) : smtpcmd unit
  | NewClient (host : string) : smtpcmd unit
  | CloseConn : smtpcmd unit
  | StartTLS (serverName : string) : smtpcmd unit
  | PlainAuth (username password host : string) : smtpcmd unit
  | MailFrom (from : string) : smtpcmd unit
  | RcptTo (to : string) : smtpcmd unit
  | Data : smtpcmd unit
  | WriteText (raw : string) : smtpcmd unit
  | CloseData : smtpcmd unit               (* the final dot *)
  | Quit : smtpcmd unit
  | CloseClient : smtpcmd unit.

Definition smtp_exec : executor smtpcmd smtp_state := fun A c =>
  match c in smtpcmd A return smtp_state -> A * smtp_state with
  | MailFrom f => fun s => (tt, SmtpState (inbox s) f (rcpt s) (text s))
  | RcptTo t => fun s => (tt, SmtpState (inbox s) (from s) t (text s))
  | Data => fun s => (tt, SmtpState (inbox s) (from s) (rcpt s) "")
  | WriteText raw => fun s => (tt, SmtpState (inbox s) (from s) (rcpt s) (text s +:+ raw))
  | CloseData => fun s => (tt, SmtpState (inbox s ++ [Mail (from s) (rcpt s) (text s)]) (from s) (rcpt s) (text s))
  | Dial _ | NewClient _ | CloseConn | StartTLS _ | PlainAuth _ _ _ | Quit | CloseClient => fun s => (tt, s)
  end.

Definition smtp_spec : service_spec smtpcmd smtp_state := fun A c s a s' => (a, s') = smtp_exec A c s.

(** A broken connection: a part of the text was written, the final dot arrived
    or not. *)
Definition smtp_fails : service_fails smtpcmd smtp_state := fun A c s s' =>
  match c with
  | WriteText raw => exists p q, raw = p +:+ q /\ s' = SmtpState (inbox s) (from s) (rcpt s) (text s +:+ p)
  | c => lost_or_done smtp_spec _ c s s'
  end.

Abbreviation Smtp W := (Service W smtpcmd smtp_state).
Abbreviation SmtpLaws srv := (ServiceLaws srv smtp_spec smtp_fails).

Lemma smtp_exec_spec : executes smtp_exec smtp_spec.
Proof. intros A c s. unfold smtp_spec. by destruct (smtp_exec A c s). Qed.

Definition flaky_smtp : Smtp (smtp_state * list fault) := flaky smtp_exec.
#[export] Instance flaky_smtp_laws : SmtpLaws flaky_smtp.
Proof.
  apply flaky_laws; [apply smtp_exec_spec|]. intros A c s s' H. destruct c; try exact H.
  destruct H as [->|([] & [= ->])]; cbn.
  - exists "", raw. split; [done|]. rewrite str_app_nil_r. by destruct s.
  - exists raw, "". by rewrite str_app_nil_r.
Qed.

(** ** notifier/ *)
Record MailerConfig := {
  Host : string; Port : string; UseAuth : bool; UseTLS : bool;
  Username : string; Password : string; From : string; FromName : string;
}.

Definition crlf : string := bytes [13; 10]%Z.
Definition line (s : string) : string := s +:+ crlf.

(** simple for local/MailHog *)
Definition mimeHeaderEncode (s : string) : string := s.

Definition quoted (s : string) : string := String dquote (s +:+ String dquote "").

(** [net.JoinHostPort]: an address with a colon is put in brackets. *)
Definition JoinHostPort (host port : string) : string :=
  if Contains host ":" || Contains host "%" then "[" +:+ host +:+ "]:" +:+ port else host +:+ ":" +:+ port.

(** ** notification_consumer.go *)
Record NotificationEvent := { To : string; Subject : string; EBody : string }.

Definition decode_notification (s : string) : option NotificationEvent :=
  j ← parse s; m ← members j;
  to ← string_field "to" m; subject ← string_field "subject" m; body ← string_field "body" m;
  Some {| To := to; Subject := subject; EBody := body |}.

Definition multipart_text (boundary from to subject textBody htmlBody : string) : string :=
  line ("From: " +:+ from) +:+
  line ("To: " +:+ to) +:+
  line ("Subject: " +:+ mimeHeaderEncode subject) +:+
  line "MIME-Version: 1.0" +:+
  line ("Content-Type: multipart/alternative; boundary=" +:+ quoted boundary) +:+
  line "" +:+
  line ("--" +:+ boundary) +:+
  line ("Content-Type: text/plain; charset=" +:+ quoted "UTF-8") +:+
  line "Content-Transfer-Encoding: 8bit" +:+
  line "" +:+
  line textBody +:+
  line ("--" +:+ boundary) +:+
  line ("Content-Type: text/html; charset=" +:+ quoted "UTF-8") +:+
  line "Content-Transfer-Encoding: 8bit" +:+
  line "" +:+
  line htmlBody +:+
  line ("--" +:+ boundary +:+ "--").

Section notifier.
Context {W} {srv : Host.Host W} {smtp : Smtp W}.

Definition buildMultipartMessage (from to subject textBody htmlBody : string) : proc W string :=
  now <-- time_Now;
  mret (multipart_text ("portal-boundary-" +:+ Itoa now) from to subject textBody htmlBody).

Context (cfg : MailerConfig).

(** [if err := ...; err != nil { return fmt.Errorf (msg ...) }]. *)
Definition step (msg : string) (c : smtpcmd unit) : proc W (res unit) :=
  r <-- request c;
  mret (match r with Ok _ => Ok tt | Err e => Err (ErrWrap msg e) end).

Definition when (b : bool) (m : proc W (res unit)) : proc W (res unit) := if b then m else mret (Ok tt).

Definition write_message (raw : string) : proc W (res unit) :=
  r <-- request (WriteText raw);
  match r with
  | Err e => request CloseData ;;- mret (Err (ErrWrap "write message" e))
  | Ok _ => mret (Ok tt)
  end.

(** From the greeting to the end of the session. *)
Definition session (to raw : string) : proc W (res unit) :=
  _ <-? when (UseTLS cfg) (step "start tls" (StartTLS (Host cfg)));
  _ <-? when (UseAuth cfg) (step "smtp auth" (PlainAuth (Username cfg) (Password cfg) (Host cfg)));
  _ <-? step "smtp mail from" (MailFrom (From cfg));
  _ <-? step "smtp rcpt to" (RcptTo to);
  _ <-? step "smtp data" Data;
  _ <-? write_message raw;
  _ <-? step "close message writer" CloseData;
  step "smtp quit" Quit.

Definition fromHeader : string :=
  if negb (String.eqb (TrimSpace (FromName cfg)) "")
  then mimeHeaderEncode (FromName cfg) +:+ " <" +:+ From cfg +:+ ">"
  else From cfg.

Definition send (to subject textBody htmlBody : string) : proc W (res unit) :=
  raw <-- buildMultipartMessage fromHeader to subject textBody htmlBody;
  _ <-? step "dial smtp server" (Dial (JoinHostPort (Host cfg) (Port cfg)));
  c <-- request (NewClient (Host cfg));
  match c with
  | Err e => request CloseConn ;;- mret (Err (ErrWrap "create smtp client" e))
  | Ok _ =>
    r <-- session to raw;
    match r with
    | Ok _ => mret (Ok tt)                             (* closed by QUIT *)
    | Err e => request CloseClient ;;- mret (Err e)    (* deferred *)
    end
  end.

(** [Ping] of notifier/; its connection is closed however that ends. *)
Definition Ping (host port : string) : proc W (res unit) :=
  let addr := JoinHostPort host port in
  conn <-- request (Dial addr);
  match conn with
  | Err e => mret (Err (ErrWrap ("dial smtp server " +:+ addr) e))
  | Ok _ => request CloseConn ;;- mret (Ok tt)
  end.

Definition SendEmail (to subject htmlBody : string) : proc W (res unit) := send to subject "" htmlBody.

(** *** The handler *)
Definition handleNotificationEvent (msg : Message) : proc W (res unit) :=
  match Values msg !! "event_type", Values msg !! "payload" with
  | Some eventType, Some payloadStr =>
    if String.eqb eventType EventNotificationRequested then
      match decode_notification payloadStr with
      | None => mret (Err ErrJson)
      | Some payload => SendEmail (To payload) (Subject payload) (EBody payload)
      end
    else mret (Ok tt)
  | _, _ => mret (Ok tt)
  end.
End notifier.

(** ** What reaches the mailboxes *)
Definition wire {W} {smtp : Smtp W} (w : W) : smtp_state := view w.
Arguments wire : simpl never.

(** All of a message or the beginning of it. *)
Definition cut_short (m m' : mail) : Prop :=
  mail_from m' = mail_from m /\ mail_to m' = mail_to m /\ exists rest, mail_raw m = mail_raw m' +:+ rest.

Section mail_spec.
Context {W} {srv : Host.Host W} {smtp : Smtp W} `{!HostLaws srv} `{!SmtpLaws smtp} `{!Frame srv (wire (smtp := smtp))}.
Context (cfg : MailerConfig).

Lemma wp_smtp {A} (c : smtpcmd A) (Q : res A -> W -> Prop) w :
  (forall a w', (a, wire w') = smtp_exec A c (wire w) -> Q (Ok a) w') ->
  (forall e w', smtp_fails A c (wire w) (wire w') -> Q (Err e) w') ->
  wp (request c) Q w.
Proof. intros Hok Herr. apply (wp_request smtp smtp_spec smtp_fails); [exact Hok|exact Herr]. Qed.

(** Commands before the text leave the mailboxes alone, and fail without
    touching them. *)
Definition before_text {A} (c : smtpcmd A) : Prop :=
  match c with WriteText _ | CloseData => False | _ => True end.

Lemma before_text_inbox {A} (c : smtpcmd A) s : before_text c -> inbox (smtp_exec A c s).2 = inbox s.
Proof. by destruct c. Qed.
Lemma before_text_fails {A} (c : smtpcmd A) s s' : before_text c -> smtp_fails A c s s' -> inbox s' = inbox s.
Proof.
  intros Hc Hf. assert (lost_or_done smtp_spec A c s s') as H by (by destruct c).
  destruct H as [->|(a & E)]; [done|]. unfold smtp_spec in E. rewrite <- (before_text_inbox c s Hc). by rewrite <- E.
Qed.

Lemma step_spec msg c w :
  before_text c ->
  wp (step msg c) (fun r w' =>
    match r with
    | Ok _ => wire w' = (smtp_exec unit c (wire w)).2
    | Err _ => inbox (wire w') = inbox (wire w)
    end) w.
Proof.
  intros Hc. apply wp_bind, wp_smtp.
  - intros a w' E. apply wp_ret. by rewrite <- E.
  - intros e w' Hf. apply wp_ret. by eapply before_text_fails.
Qed.

(** A ping sends no mail. *)
Lemma Ping_spec host port w : wp (Ping host port) (fun _ w' => inbox (wire w') = inbox (wire w)) w.
Proof.
  apply wp_bind, wp_smtp; [|intros e w' Hf; apply wp_ret; by apply (before_text_fails (Dial (JoinHostPort host port)))].
  intros [] w1 [= E1]. apply wp_bind, wp_smtp.
  - intros [] w2 [= E2]. apply wp_ret. by rewrite E2, E1.
  - intros e w2 Hf. apply wp_ret. rewrite <- E1. by apply (before_text_fails CloseConn).
Qed.

Lemma when_spec b msg c w :
  before_text c -> (forall s, (smtp_exec unit c s).2 = s) ->
  wp (when b (step msg c)) (fun r w' =>
    match r with Ok _ => wire w' = wire w | Err _ => inbox (wire w') = inbox (wire w) end) w.
Proof.
  intros Hc Hid. destruct b; [|by apply wp_ret]. eapply wp_mono; [by apply step_spec|].
  intros [u|e] w'; cbn beta; [by rewrite Hid|done].
Qed.

(** What a session may have delivered. *)
Definition delivered (m : mail) (l : list mail) (r : res unit) (l' : list mail) : Prop :=
  match r with
  | Ok _ => l' = l ++ [m]
  | Err _ => l' = l \/ exists m', cut_short m m' /\ l' = l ++ [m']
  end.

Lemma session_spec to raw w :
  wp (session cfg to raw) (fun r w' => delivered (Mail (From cfg) to raw) (inbox (wire w)) r (inbox (wire w'))) w.
Proof.
  unfold session. apply wp_try. eapply wp_mono; [by apply when_spec|]. cbn beta. intros [u|e] w1 H1; [|by left].
  apply wp_try. eapply wp_mono; [by apply when_spec|]. cbn beta. rewrite H1. intros [u1|e] w2 H2; [|by left].
  apply wp_try. eapply wp_mono; [by apply step_spec|]. cbn beta. rewrite H2. intros [u2|e] w3 H3; [|by left].
  apply wp_try. eapply wp_mono; [by apply step_spec|]. cbn beta. rewrite H3. intros [u3|e] w4 H4; [|by left].
  apply wp_try. eapply wp_mono; [by apply step_spec|]. cbn beta. rewrite H4. intros [u4|e] w5 H5; [|by left].
  cbn in H5. apply wp_try, wp_bind, wp_smtp.
  - intros a w6 E. injection E as -> E. rewrite H5 in E. cbn in E. apply wp_ret, wp_try, wp_bind, wp_smtp.
    + intros b w7 E7. rewrite E in E7. injection E7 as _ E7. apply wp_ret.
      eapply wp_mono; [by apply step_spec|]. cbn beta. rewrite E7. intros [u6|e] w8 H8; cbn in H8; rewrite H8; [done|].
      right. exists (Mail (From cfg) to raw). split; [|done]. split_and!; [done..|]. exists "". by rewrite str_app_nil_r.
    + intros e w7 [E7|(b & E7)]; apply wp_ret; cbn beta.
      * left. by rewrite E7, E.
      * right. rewrite E in E7. injection E7 as _ E7. exists (Mail (From cfg) to raw). rewrite E7. split; [|done].
        split_and!; [done..|]. exists "". by rewrite str_app_nil_r.
  - intros e w6 (p & q & -> & E). rewrite H5 in E. cbn in E. apply wp_bind, wp_smtp.
    + intros b w7 E7. rewrite E in E7. injection E7 as _ E7. apply wp_ret. right.
      exists (Mail (From cfg) to p). rewrite E7. split; [|done]. split_and!; [done..|]. by exists q.
    + intros e' w7 [E7|(b & E7)]; apply wp_ret; [left; by rewrite E7, E|right].
      rewrite E in E7. injection E7 as _ E7. exists (Mail (From cfg) to p). rewrite E7. split; [|done].
      split_and!; [done..|]. by exists q.
Qed.

(** The mail that an event asks for. *)
Definition requested (now : Z) (to subject html : string) : mail :=
  Mail (From cfg) to (multipart_text ("portal-boundary-" +:+ Itoa now) (fromHeader cfg) to subject "" html).

Lemma SendEmail_spec to subject html w :
  wp (SendEmail cfg to subject html) (fun r w' => exists now,
    delivered (requested now to subject html) (inbox (wire w)) r (inbox (wire w'))) w.
Proof.
  unfold SendEmail, send. apply wp_bind, wp_bind, wp_bind. eapply wp_mono; [apply (wp_frame srv (wire (smtp := smtp)))|].
  cbn beta. intros t w1 H1. do 2 apply wp_ret. rewrite <- H1. clear H1.
  eapply (wp_mono _ (fun r w' => delivered (requested (match t with Ok t => t | Err _ => 0%Z end) to subject html)
    (inbox (wire w1)) r (inbox (wire w')))); [|by eauto].
  apply wp_try. eapply wp_mono; [by apply step_spec|]. cbn beta. intros [u|e] w2 H2; [|by left]. cbn in H2.
  rewrite <- H2. clear H2. apply wp_bind, wp_smtp.
  - intros a w3 E. injection E as _ E. rewrite <- E. apply wp_bind. eapply wp_mono; [apply session_spec|].
    cbn beta. intros [u'|e] w4 H4; [by apply wp_ret|]. apply wp_bind, wp_smtp.
    + intros b w5 E5. injection E5 as _ E5. apply wp_ret. by rewrite E5.
    + intros e' w5 H5%before_text_fails; [|done]. apply wp_ret. unfold delivered in *. by rewrite H5.
  - intros e w3 H3%before_text_fails; [|done]. apply wp_bind, wp_smtp.
    + intros b w5 E5. injection E5 as _ E5. apply wp_ret. left. by rewrite E5.
    + intros e' w5 H5%before_text_fails; [|done]. apply wp_ret. left. congruence.
Qed.
End mail_spec.

(** The message an event asks to send; [None] when it asks for none. *)
Definition asked (msg : Message) : option (res NotificationEvent) :=
  match Values msg !! "event_type", Values msg !! "payload" with
  | Some eventType, Some payload =>
    if String.eqb eventType EventNotificationRequested
    then Some (match decode_notification payload with None => Err ErrJson | Some ev => Ok ev end)
    else None
  | _, _ => None
  end.

Lemma handle_spec {W} {srv : Host.Host W} {smtp : Smtp W} `{!SmtpLaws smtp} `{!Frame srv (wire (smtp := smtp))}
    (cfg : MailerConfig) (msg : Message) (w : W) :
  wp (handleNotificationEvent cfg msg) (fun r w' =>
    match asked msg with
    | None => r = Ok tt /\ w' = w
    | Some (Err e) => r = Err e /\ w' = w
    | Some (Ok ev) => exists now,
        delivered (requested cfg now (To ev) (Subject ev) (EBody ev)) (inbox (wire w)) r (inbox (wire w'))
    end) w.
Proof.
  unfold handleNotificationEvent, asked. destruct (Values msg !! "event_type"); [|by apply wp_ret].
  destruct (Values msg !! "payload"); [|by apply wp_ret]. destruct (String.eqb _ _); [|by apply wp_ret].
  destruct (decode_notification _); [|by apply wp_ret]. apply SendEmail_spec.
Qed.

(** C35: what the consumer does with an event, whatever the mail server does: an
    event that asks for no mail is acknowledged, one it cannot read is an error,
    and neither touches a mailbox; for any other a success means that exactly
    one mail with the recipient, subject and body of the event was accepted, and
    an error that none was, or one, whole or cut short. *)
Theorem handleNotificationEvent_effect {W} {srv : Host.Host W} {smtp : Smtp W} `{!SmtpLaws smtp}
    `{!Frame srv (wire (smtp := smtp))} (cfg : MailerConfig) (msg : Message) (w : W) :
  wp (handleNotificationEvent cfg msg) (fun r w' =>
    match asked msg with
    | None => r = Ok tt /\ w' = w
    | Some (Err e) => r = Err e /\ w' = w
    | Some (Ok ev) => exists now,
        delivered (requested cfg now (To ev) (Subject ev) (EBody ev)) (inbox (wire w)) r (inbox (wire w'))
    end) w.
Proof. apply handle_spec. Qed.

(** A clock beside a mail server. *)
Definition mail_world : Type := hview * (smtp_state * list fault).
Definition mail_host : Host.Host mail_world := framed _ sure_host.
Definition mail_smtp : Smtp mail_world := framed_r _ flaky_smtp.
#[export] Instance mail_frame : Frame mail_host (wire (smtp := mail_smtp)).
Proof. apply (framed_snd sure_host fst). Qed.
Definition no_mail (fs : list fault) : mail_world := (HView 0 empty_redis, (SmtpState [] "" "" "", fs)).
Definition mailer : MailerConfig := {|
  Host := "mail"; Port := "1025"; UseAuth := false; UseTLS := false; Username := ""; Password := "";
  From := "no-reply@sms.local"; FromName := "SMS" |}.
Definition report_message (to html : string) : Message := brokerMsg (Entry 1 (notification_fields to html)).

Lemma handleNotificationEvent_effect_witness :
  map mail_to (inbox (wire (smtp := mail_smtp) (handleNotificationEvent (srv := mail_host) (smtp := mail_smtp) mailer
    (report_message "ann@x.org" "<b>ok</b>") (no_mail [])).2)) = ["ann@x.org"] /\
  wp (handleNotificationEvent (srv := mail_host) (smtp := mail_smtp) mailer (report_message "ann@x.org" "<b>ok</b>"))
    (fun r w' => exists now, delivered (requested mailer now "ann@x.org" "Server Status Report" "<b>ok</b>") []
       r (inbox (wire (smtp := mail_smtp) w')))
    (no_mail [NoFault; NoFault; NoFault; NoFault; NoFault; FailAfter]).
Proof.
  split; [by vm_compute|].
  pose proof (handleNotificationEvent_effect (srv := mail_host) (smtp := mail_smtp) mailer
    (report_message "ann@x.org" "<b>ok</b>") (no_mail [NoFault; NoFault; NoFault; NoFault; NoFault; FailAfter])) as E.
  replace (asked (report_message "ann@x.org" "<b>ok</b>"))
    with (Some (Ok {| To := "ann@x.org"; Subject := "Server Status Report"; EBody := "<b>ok</b>" |})) in E by (by vm_compute).
  exact E.
Defined.

(** The event that sms-reporting publishes asks for the mail it means. *)
Lemma report_asked to html :
  valid_utf8 to = true -> valid_utf8 html = true ->
  asked (report_message to html) = Some (Ok {| To := to; Subject := "Server Status Report"; EBody := html |}).
Proof.
  intros Ht Hh. unfold asked. replace (Values _ !! "event_type") with (Some EventNotificationRequested) by reflexivity.
  replace (Values _ !! "payload") with (Some (Marshal (JObj [("to", JStr to); ("subject", JStr "Server Status Report");
    ("body", JStr html)]))) by reflexivity.
  cbn [String.eqb]. change (String.eqb EventNotificationRequested EventNotificationRequested) with true. cbv iota.
  unfold decode_notification. rewrite parse_Marshal_flat; [reflexivity|].
  repeat constructor; try done.
Qed.



(** ** Finding *)

(** A farewell that fails after the mail was accepted counts as a failure, so
    that the event stays pending and the mail is sent again. *)
Lemma failed_quit_sends_twice :
  let script := [NoFault; NoFault; NoFault; NoFault; NoFault; NoFault; NoFault; FailBefore; NoFault] in
  let handle := handleNotificationEvent (srv := mail_host) (smtp := mail_smtp) mailer (report_message "ann@x.org" "x") in
  let '(r1, w1) := handle (no_mail script) in
  let '(r2, w2) := handle w1 in
  is_ok r1 = false /\ is_ok r2 = true /\ map mail_to (inbox (wire (smtp := mail_smtp) w2)) = ["ann@x.org"; "ann@x.org"].
Proof. by vm_compute. Qed.
