(* ===== verification/System.v ===== *)
(** The services together.

    Access: what a user who logs in with sms-identity may do on the gRPC server
    of sms-management, through the forward-auth endpoint, the reverse proxy and
    the gateway in between. *)
From S2P Require Import Prelude GoStd Sql Json Redis Host Broker ManagementData ManagementService ManagementWorkers ManagementOutbox.
From S2P Require Import World Access Crypto Http Identity IdentitySpec IdentityApi Reporting ReportingSpec.

(** ** The gateway of sms-management (app/run.go) *)

(** grpc-gateway: the matcher that applies by default, and the metadata made
    from the headers of a request, in the order in which they are visited. *)
Class Gateway := {
  DefaultHeaderMatcher : string -> option string;
  annotate : (string -> option string) -> list (string * string) -> MD;
}.

(** The values of the metadata key [k]. *)
Definition matched (m : string -> option string) (k : string) (headers : list (string * string)) : list string :=
  omap (fun kv => match m kv.1 with
                  | Some k' => if String.eqb (ToLower k') (ToLower k) then Some kv.2 else None
                  | None => None
                  end) headers.

(** The gateway and the connection to the server add keys of their own
    (authorization, user-agent, x-forwarded-for ...); none of them is among
    those that the services look up. *)
Definition looked_up (k : string) : bool :=
  HasPrefix (ToLower k) "x-user-" || bool_decide (k ∈ ["cookie-csrf-token"; "x-csrf-token"]).

Class GatewayLaws (gw : Gateway) : Prop := {
  annotate_Get : forall m headers k, looked_up k = true -> md_Get (annotate m headers) k = matched m k headers;
  (** A header Grpc-Metadata-K is passed on as K, the permanent headers of HTTP
      under a prefix, and no other. *)
  default_metadata : forall k, DefaultHeaderMatcher ("Grpc-Metadata-" +:+ k) = Some k;
  default_other : forall k k', HasPrefix (ToLower k) "grpc-metadata-" = false -> DefaultHeaderMatcher k = Some k' ->
    HasPrefix k' "grpcgateway-" = true;
}.

Definition incoming_header {gw : Gateway} (key : string) : option string :=
  if HasPrefix key "X-User-" then Some key else DefaultHeaderMatcher key.

Definition gateway_ctx {gw : Gateway} (peer : option string) (headers : list (string * string)) : ctx :=
  Ctx peer (Some (annotate incoming_header headers)) None.

(** ** The reverse proxy

    It is configured to pass on four headers of the answer of the forward-auth
    endpoint, instead of those of the client. *)
Definition authResponseHeaders : list string := ["X-User-Id"; "X-User-Role"; "X-User-Email"; "X-User-Name"].

Definition header_of (a : response) (k : string) : option string :=
  match List.find (fun kv => String.eqb kv.1 k) (rs_header a) with Some kv => Some kv.2 | None => None end.

(** [headers] are what reaches a service. *)
Definition forwarded (a : response) (headers : list (string * string)) : Prop :=
  forall k, k ∈ authResponseHeaders ->
    omap (fun kv => if String.eqb kv.1 k then Some kv.2 else None) headers = option_list (header_of a k).

(** No other header of the client ends up in the same metadata. *)
Definition honest {gw : Gateway} (headers : list (string * string)) : Prop :=
  forall kv k', kv ∈ headers -> incoming_header kv.1 = Some k' ->
    forall k, k ∈ authResponseHeaders -> ToLower k' = ToLower k -> kv.1 = k.

Lemma matched_forwarded {gw : Gateway} a headers k :
  forwarded a headers -> honest headers -> k ∈ authResponseHeaders ->
  matched incoming_header k headers = option_list (header_of a k).
Proof.
  intros Hf Hh Hk. rewrite <- (Hf k Hk). unfold matched.
  assert (forall l, l ⊆ headers -> omap (fun kv => match incoming_header kv.1 with
      | Some k' => if String.eqb (ToLower k') (ToLower k) then Some kv.2 else None | None => None end) l =
    omap (fun kv => if String.eqb kv.1 k then Some kv.2 else None) l) as Hl; [|by apply Hl].
  intros l. induction l as [|[n v] l IH]; intros Hl; [done|]. cbn [omap list_omap].
  rewrite IH by (intros y Hy; apply Hl; by right). cbn [fst snd].
  destruct (String.eqb_spec n k) as [->|Hne].
  - assert (incoming_header k = Some k) as ->.
    { unfold authResponseHeaders in Hk. rewrite !elem_of_cons, elem_of_nil in Hk.
      by repeat destruct Hk as [-> |Hk]. }
    by rewrite String.eqb_refl.
  - destruct (incoming_header n) as [k'|] eqn:E; [|done].
    destruct (String.eqb_spec (ToLower k') (ToLower k)) as [Elow|]; [|done].
    destruct Hne. refine (Hh (n, v) k' _ E k Hk Elow). apply Hl. by left.
Qed.

(** The gate sees the principal that the endpoint admitted. *)
Lemma caller_forwarded {gw : Gateway} `{!GatewayLaws gw} peer p headers :
  UserID p <> "" -> forwarded (admitted p) headers -> honest headers ->
  caller (gateway_ctx peer headers) =
  Some {| UserID := UserID p; Username := Username p; Email := Email p; RoleID := ""; RoleCode := RoleCode p;
          SessionID := "" |}.
Proof.
  intros Hid Hf Hh.
  assert (forall k n, n ∈ authResponseHeaders -> ToLower n = ToLower k ->
    md_Get (annotate incoming_header headers) k = option_list (header_of (admitted p) n)) as Hk.
  { intros k n Hn E. rewrite annotate_Get, <- (matched_forwarded _ headers n Hf Hh Hn).
    - unfold matched. by rewrite E.
    - unfold looked_up. rewrite <- E. apply orb_true_iff; left. unfold authResponseHeaders in Hn. rewrite !elem_of_cons, elem_of_nil in Hn.
      by repeat destruct Hn as [-> |Hn]. }
  unfold caller, gateway_ctx, md_principal. cbn [ctx_md].
  rewrite (Hk HeaderUserID "X-User-Id"), (Hk HeaderUserName "X-User-Name"), (Hk HeaderUserEmail "X-User-Email"),
    (Hk HeaderUserRole "X-User-Role") by (try done; refine (bool_decide_unpack _ _); by vm_compute).
  cbn. by rewrite (proj2 (String.eqb_neq _ _) Hid).
Qed.

(** ** From the login to the gate *)

(** The request that presents a token as a bearer. *)
Definition bearer (tok : string) : request := {|
  Method := "GET"; Header := {["Authorization" := ["Bearer " +:+ tok]]}; Query := fun _ => ""; Body := Ok "" |}.

(** A user logs in and then presents the access token. *)
Definition login_then_verify {W R} {wo : SharedWorld W istate R} {ae : AEAD W} `{cr : Identity.Crypto} (jwtSecret : string)
    (c : ctx) (q : LoginRequest) : proc W (option response) :=
  r <-- AuthServer_Login jwtSecret c (Some q);
  match r with
  | Reply rep =>
    a <-- Verify jwtSecret (bearer (AccessToken (body rep)));
    mret (Some a)
  | _ => mret None
  end.

(** Only sessions of the table are marked as revoked. *)
Definition marks_known {W R} {wo : SharedWorld W istate R} (w : W) (x : istate) : Prop :=
  forall sid, r_str (redis (host w)) !! revoked_key sid <> None -> sid ∈ session_ids x.

(** Other clients remove no session. *)
Definition keeps_sessions (R : istate -> istate -> Prop) : Prop := forall x x', R x x' -> session_ids x ⊆ session_ids x'.

Lemma sessions_kept R x x' : keeps_sessions R -> rtc R x x' -> session_ids x ⊆ session_ids x'.
Proof. intros HR Hx. induction Hx as [|x y z Hxy _ IH]; [done|]. etransitivity; [by apply HR|done]. Qed.

Lemma Itoa_nonempty n : Itoa n <> "".
Proof. destruct n as [|p|p]; [done|apply (pretty_N_nonempty (N.pos p))|done]. Qed.

(** The context in which a handler of sms-management runs for user [u]. *)
Definition calls_as (peer : option string) (md : MD) (u : User) : ctx :=
  Ctx peer (Some md) (Some {| UserID := Itoa (U_ID u); Username := ""; Email := ""; RoleID := "";
                              RoleCode := U_RoleCode u; SessionID := "" |}).

Lemma credentials_spec `{cr : Identity.Crypto} x email password u :
  credentials x email password = Some u ->
  U_Email u = email /\ CompareHashAndPassword (U_Password u) password = true /\ u ∈ users x.
Proof.
  unfold credentials. destruct (List.find _ _) as [u'|] eqn:Ef; [|done].
  destruct (CompareHashAndPassword (U_Password u') password) eqn:Ep; [|done]. intros [= ->].
  apply List.find_some in Ef as [Hin Hb]. apply andb_true_iff in Hb as [Hb _]. apply String.eqb_eq in Hb.
  by rewrite list_elem_of_In.
Qed.

Lemma extract_bearer tok : extractToken (bearer tok) = tok.
Proof.
  unfold extractToken, bearer. cbn [Header]. unfold Header_Get, Header_Values.
  rewrite lookup_singleton_eq. cbn [default from_option id]. unfold TrimPrefix.
  rewrite (proj2 (HasPrefix_split _ "Bearer ")) by (by exists tok). apply (str_drop_app "Bearer ").
Qed.

Lemma Unix_later a b : (a <= b - Second)%Z -> (Unix a < Unix b)%Z.
Proof.
  intros Hle. unfold Unix. assert (b = (b - Second) + 1 * Second)%Z as -> by lia.
  rewrite Z.div_add by done. pose proof (Z.div_le_mono a (b - Second) Second). unfold Second in *. lia.
Qed.

(** A fresh token whose session is not marked is admitted. *)
Lemma bearer_admitted {W R} {wo : SharedWorld W istate R} {Hans : Answers wo} `{cr : Identity.Crypto} `{!CryptoLaws}
    (jwtSecret tok : string) (u : User) (sid : string) (now : Z) (w : W) (x : istate) :
  tables w = DView x None -> speaks_for jwtSecret tok u sid now ->
  wp (Verify jwtSecret (bearer tok)) (fun a w' => (clock (host w) <= clock (host w'))%Z /\
    ((clock (host w') <= now + 15 * Minute - Second)%Z -> r_str (redis (host w)) !! revoked_key sid = None ->
     a = admitted (principal_for u sid))) w.
Proof.
  intros Hv Hs. unfold Verify. rewrite extract_bearer.
  assert (tok <> "") as Hne by (destruct Hs as (cl & Hsign & _); by eapply jwt_nonempty).
  rewrite (proj2 (String.eqb_neq _ _) Hne).
  apply wp_bind. eapply wp_mono; [by eapply Authenticate_granted|]. cbn beta.
  intros v w1 (_ & _ & Hle & _ & Hok).
  assert (Header_Get (Header (bearer tok)) "Authorization" = "Bearer " +:+ tok) as ->.
  { unfold bearer. cbn [Header]. unfold Header_Get, Header_Values. by rewrite lookup_singleton_eq. }
  cbn [String.eqb Ascii.eqb Bool.eqb]. destruct v as [p|e]; apply wp_ret; (split; [done|]); intros Hlt Hun.
  - specialize (Hok (Unix_later _ _ Hlt) Hun). by injection Hok as ->.
  - by specialize (Hok (Unix_later _ _ Hlt) Hun).
Qed.


Definition bob : User := {|
  U_ID := 8; U_Email := "bob@x.org"; U_Password := "bcrypt:pw"; U_RoleCode := "USER";
  U_CreatedAt := 0; U_UpdatedAt := 0; U_DeletedAt := None |}.

(** ** The gateway trusts a second way in

    A client whose token is that of a user sends the role a second time, under
    the prefix that the gateway strips; when this header is visited first the
    gate takes the call for an administrator's. *)
Lemma metadata_header_spoofs_role {gw : Gateway} `{!GatewayLaws gw} {V Req Resp : Type} peer
    (h : handler (W := V) (Req := Req) (Resp := Resp)) (req : Req) (v : V) :
  let client := ("Grpc-Metadata-X-User-Role", "ADMIN") in
  let headers := client :: rs_header (admitted (principal_for bob "s-1")) in
  forwarded (admitted (principal_for bob "s-1")) headers /\
  exists c, management_server (management_method "DeleteServer") h (gateway_ctx peer headers) req v = h c req v.
Proof.
  cbn zeta. split.
  { intros k Hk. unfold authResponseHeaders in Hk. rewrite !elem_of_cons, elem_of_nil in Hk.
    by repeat destruct Hk as [-> |Hk]. }
  set (headers := _ :: _). exists (calling (gateway_ctx peer headers)).
  unfold management_server. rewrite gate_spec by apply management_rules.
  assert (management_permissions !! management_method "DeleteServer" = Some PermServerDelete) as -> by (by vm_compute).
  assert (forall k vs, looked_up k = true -> matched incoming_header k headers = vs ->
    md_Get (annotate incoming_header headers) k = vs) as Hmd.
  { intros k vs Hk <-. by apply annotate_Get. }
  assert (incoming_header "Grpc-Metadata-X-User-Role" = Some "X-User-Role") as Hdef.
  { exact (default_metadata "X-User-Role"). }
  assert (caller (gateway_ctx peer headers) = Some {| UserID := "8"; Username := ""; Email := ""; RoleID := "";
      RoleCode := "ADMIN"; SessionID := "" |}) as ->; [|done].
  unfold caller, gateway_ctx, md_principal. cbn [ctx_md].
  rewrite (Hmd HeaderUserID ["8"]), (Hmd HeaderUserName [""]), (Hmd HeaderUserEmail [""]),
    (Hmd HeaderUserRole ["ADMIN"; "USER"]); [done|..]; try done;
    unfold matched, headers; cbn [omap list_omap fst]; rewrite Hdef; by vm_compute.
Qed.

(** ** The theorems at work *)
Definition toy_annotate (m : string -> option string) (headers : list (string * string)) : MD :=
  foldr (fun kv md => match m kv.1 with
                      | Some k => <[ToLower k := kv.2 :: default [] (md !! ToLower k)]> md
                      | None => md
                      end) ∅ headers.
Definition toy_gateway : Gateway := {|
  DefaultHeaderMatcher := fun k => if HasPrefix k "Grpc-Metadata-" then Some (str_drop 14 k) else None;
  annotate := toy_annotate |}.

Lemma toy_gateway_laws : GatewayLaws toy_gateway.
Proof.
  split.
  - intros m headers k _. cbn. unfold matched, md_Get. induction headers as [|[n v] l IH]; [done|].
    cbn [toy_annotate foldr omap list_omap fst snd]. fold (toy_annotate m l). destruct (m n) as [k'|]; [|done].
    destruct (String.eqb_spec (ToLower k') (ToLower k)) as [-> |Hne].
    + rewrite lookup_insert_eq. cbn. by rewrite IH.
    + by rewrite lookup_insert_ne.
  - intros k. unfold DefaultHeaderMatcher, toy_gateway. rewrite (proj2 (HasPrefix_split _ "Grpc-Metadata-")); [|by exists k].
    reflexivity.
  - intros k k' Hk. unfold DefaultHeaderMatcher, toy_gateway. destruct (HasPrefix k "Grpc-Metadata-") eqn:E; [|done].
    apply HasPrefix_split in E as [t ->].
    assert (HasPrefix (ToLower ("Grpc-Metadata-" +:+ t)) "grpc-metadata-" = true); [|congruence].
    apply HasPrefix_split. by exists (ToLower t).
Qed.


(** ** Events from sms-management to its readers *)

(** The message that the relay publishes for an event. *)
Definition event_message (e : OutboxEvent) : Message :=
  {| Broker.ID := ManagementData.ID e; Values := values_of (event_fields e) |}.

Lemma event_message_type e : Values (event_message e) !! "event_type" = Some (EventType e).
Proof. unfold event_message, values_of, event_fields. cbn -[insert lookup]. by rewrite lookup_insert_ne, lookup_insert_eq. Qed.
Lemma event_message_payload e : Values (event_message e) !! "payload" = Some (Payload e).
Proof. unfold event_message, values_of, event_fields. cbn -[insert lookup]. by rewrite lookup_insert_eq. Qed.

(** What the replica of sms-reporting keeps of a configuration. *)
Definition known (c : ManagementOutbox.Config) : string * string := (cf_Name c, cf_IPv4 c).

Lemma doc_config_decode s c : doc_config s = Some c ->
  exists p, decode_server s = Some p /\ sp_ID p = cf_ID c /\ (sp_Name p, sp_IP p) = known c.
Proof.
  unfold doc_config, decode_server. destruct (parse s) as [j|]; [|done]. cbn [mbind option_bind].
  destruct (members j) as [m|]; [|done]. cbn [mbind option_bind].
  destruct (string_field "server_id" m); [|done]. cbn [mbind option_bind].
  destruct (string_field "server_name" m); [|done]. cbn [mbind option_bind].
  destruct (string_field "ipv4" m); [|done]. cbn [mbind option_bind].
  destruct (string_field "current_status" m); [|done]. cbn [mbind option_bind].
  destruct (string_field "health_check_method" m); [|done]. cbn [mbind option_bind].
  destruct (int_field "ssh_port" m); [|done]. cbn [mbind option_bind].
  destruct (string_field "ssh_user" m); [|done]. cbn [mbind option_bind].
  destruct (string_field "ssh_key" m); [|done]. cbn [mbind option_bind].
  destruct (string_field "agent_endpoint" m); [|done]. cbn [mbind option_bind].
  intros [= <-]. eexists. by split_and!.
Qed.

(** Following one message is applying its event. *)
Lemma follow_event e t t' : apply_event t e = Some t' -> follow_message (event_message e) (known <$> t) = known <$> t'.
Proof.
  unfold follow_message, follow. rewrite event_message_type, event_message_payload. unfold apply_event.
  destruct (String.eqb_spec (EventType e) EventServerDeleted) as [E|E].
  - rewrite E. cbn -[doc_id decode_id fmap]. unfold doc_id, decode_id.
    destruct (parse (Payload e) ≫= _) as [id|]; [|done]. intros [= <-]. by rewrite fmap_delete.
  - change "ServerCreated" with EventServerCreated. change "ServerUpdated" with EventServerUpdated.
    destruct (_ || _); [|done]. destruct (doc_config (Payload e)) as [c|] eqn:Ec; [|done]. intros [= <-].
    destruct (doc_config_decode _ _ Ec) as (p & -> & -> & ->). by rewrite fmap_insert.
Qed.

Lemma follow_events es t t' : replay t es = Some t' ->
  foldl (fun t m => follow_message m t) (known <$> t) (map event_message es) = known <$> t'.
Proof.
  revert t. induction es as [|e es IH]; intros t; cbn; [by intros [= ->]|].
  destruct (apply_event t e) as [t1|] eqn:E; [|done]. cbn. intros Hr. rewrite (follow_event _ _ _ E). by apply IH.
Qed.

(** Whatever sms-management did to its tables, in any order and under any
    faults, a consumer of sms-reporting that starts from an empty replica and
    has handled the events of the outbox in order, all with success, knows
    exactly the registered servers, by name and address; and this although any
    request of the consumer may have failed after it was executed. *)
Theorem reporting_mirrors_management `{pg : Postgres} `{!PostgresLaws} (time_json : Z -> string) (x : mstate)
    {W} {wo : World W rtables} `{rp : ReportStore} (w : W) (y : rtables) :
  (forall t, valid_utf8 (time_json t) = true) ->
  rtc (canonical_step time_json) (MState [] []) x ->
  tables w = DView y None -> rservers y = [] ->
  wp (collect handleServerEvent (map event_message (ManagementData.outbox x))) (fun rs w' => exists y',
    tables w' = DView y' None /\ requests y' = requests y /\
    (Forall (fun r => is_ok r = true) rs -> replica (rservers y') = known <$> config_table (servers x))) w.
Proof.
  intros Htime Hx Hv Hempty. destruct (reachable_told time_json Htime x Hx) as [_ _ Hr].
  eapply wp_mono; [apply (follow_all _ w y Hv); rewrite Hempty; constructor|]. cbn beta.
  intros rs w' (y' & Hv' & Hq & _ & Hf). exists y'. split_and!; [done..|]. intros Hok. rewrite (Hf Hok), Hempty.
  rewrite <- (follow_events _ _ _ Hr), fmap_empty. done.
Qed.

Definition empty_replica : (hview * list fault) * (dview rtables * list fault) :=
  ((HView 0 empty_redis, []), (DView (RTables [] []) None, [NoFault; NoFault; FailAfter])).
Definition consume_story : proc _ (list (res unit)) :=
  collect (handleServerEvent (srv := stormy_host rtables) (db := stormy_db rtables) (rp := toy_store))
    (map event_message (ManagementData.outbox story_deleted)).

Lemma reporting_mirrors_management_witness :
  map is_ok (consume_story empty_replica).1 = [true; true; false] /\
  wp consume_story (fun rs w' => exists y',
    tables (wo := stormy rtables) w' = DView y' None /\ requests y' = [] /\
    (Forall (fun r => is_ok r = true) rs -> replica (rservers y') = known <$> config_table (servers story_deleted)))
    empty_replica.
Proof.
  split; [by vm_compute|].
  exact (@reporting_mirrors_management strict_pg strict_pg_laws now_json story_deleted _ (stormy rtables) toy_store
    empty_replica (RTables [] []) now_json_valid story_reachable eq_refl eq_refl).
Defined.
