(* ===== verification/Services.v ===== *)
(** The services as their app packages put them together: the copies of shared
    code that each carries (environment readers, Redis and rate-limit settings,
    access control, stream subscriber), which consumer reads which stream in
    which group, the routes of the HTTP servers and the settings that reach the
    components. *)
From S2P Require Import Prelude GoStd Sql Json.
From S2P Require Config.
From S2P Require Import Redis Host Monitoring Broker MonitoringWorkers.
From S2P Require Import ManagementData ManagementService ManagementWorkers World Access Http ManagementApi.
From S2P Require Identity IdentityApi Reporting Notification.
Import Config (Env, RedisConfig, RateLimitConfig).

(** ** Copies *)

(** config/env.go *)
Record EnvReaders := {
  er_getEnv : string -> string;
  er_GetEnvDefault : string -> string -> string;
  er_GetEnvBool : string -> bool -> bool * option err;
  er_GetEnvInt : string -> Z -> Z * option err;
  er_GetEnvDuration : string -> Z -> Z * option err;
  er_GetEnvFloat : forall F, (string -> F * option err) -> string -> F -> F * option err;
  er_loadEnv : (option string -> Env -> option Env) -> bool -> Env;
}.
Definition env_readers (e : Env) : EnvReaders := {|
  er_getEnv := Config.getEnv e; er_GetEnvDefault := Config.GetEnvDefault e; er_GetEnvBool := Config.GetEnvBool e;
  er_GetEnvInt := Config.GetEnvInt e; er_GetEnvDuration := Config.GetEnvDuration e;
  er_GetEnvFloat := @Config.GetEnvFloat e; er_loadEnv := Config.loadEnv e |}.
Definition management_env : Env -> EnvReaders := env_readers.
Definition monitoring_env : Env -> EnvReaders := env_readers.
Definition reporting_env : Env -> EnvReaders := env_readers.
Definition agent_handler_env : Env -> EnvReaders := env_readers.

(** config/redis.go, config/ratelimit.go *)
Definition management_LoadRedisConfig : Env -> res RedisConfig := Config.LoadRedisConfig.
Definition monitoring_LoadRedisConfig : Env -> res RedisConfig := Config.LoadRedisConfig.
Definition reporting_LoadRedisConfig : Env -> res RedisConfig := Config.LoadRedisConfig.
Definition management_LoadRateLimitConfig : Env -> res RateLimitConfig := Config.LoadRateLimitConfig.
Definition reporting_LoadElasticsearchConfig : Env -> Config.ElasticsearchConfig := Config.LoadElasticsearchConfig.
Definition management_Validate : RateLimitConfig -> option err := Config.Validate.

(** infrastructure/database/redis.go: the client, and the lock; without a
    client nobody gets the lock, except in sms-reporting where everybody does. *)
Definition NewRedisClient (cfg : option RedisConfig) : option RedisConfig :=
  match cfg with
  | None => None
  | Some c => if negb (Config.Enabled c) then None else Some c
  end.
Definition identity_NewRedisClient := NewRedisClient.
Definition management_NewRedisClient := NewRedisClient.
Definition monitoring_NewRedisClient := NewRedisClient.
Definition reporting_NewRedisClient := NewRedisClient.

Section locks.
Context {W} {srv : Host W}.
Definition lock_with (rdb : option RedisConfig) (key : string) (expiration : Z) : proc W (res bool) :=
  match rdb with None => mret (Ok false) | Some _ => AcquireLock key expiration end.
Definition identity_AcquireLock := lock_with.
Definition management_AcquireLock := lock_with.
End locks.

(** infrastructure/security/ *)
Definition identity_NewAuthorizer : Authorizer := NewAuthorizer.
Definition identity_HasPermission := HasPermission.
Definition reporting_NewAuthorizer : Authorizer := NewAuthorizer.
Definition reporting_HasPermission := HasPermission.
Definition identity_GetPrincipal := GetPrincipal.
Definition identity_SetPrincipal := SetPrincipal.
Definition identity_GetActorFromCtx := GetActorFromCtx.
Definition reporting_GetPrincipal := GetPrincipal.
Definition reporting_SetPrincipal := SetPrincipal.
Definition reporting_GetActorFromCtx := GetActorFromCtx.

(** handler/grpc/middlewares/ *)
Section middlewares.
Context {W Req Resp : Type}.
Definition reporting_AuthMetadataInterceptor := @AuthMetadataInterceptor W Req Resp.
Definition reporting_PermissionInterceptor := @PermissionInterceptor W Req Resp.
Definition reporting_RecoveryInterceptor := @RecoveryInterceptor W Req Resp.
Definition identity_PermissionInterceptor := @PermissionInterceptor W Req Resp.
Definition identity_RecoveryInterceptor := @RecoveryInterceptor W Req Resp.
Definition identity_ValidationInterceptor := @ValidationInterceptor W Req Resp.
End middlewares.

(** infrastructure/messagebroker/ *)
Section brokers.
Context {W} {srv : Host W}.
Definition reporting_Publish := Publish_redis.

(** sms-management reads fifty new messages at a time, the others ten. *)
Definition monitoring_Subscribe := Subscribe (W := W) 10.
Definition management_Subscribe := Subscribe (W := W) 50.
Definition management_recoverPendingMessages := recoverPendingMessages (W := W).
Definition management_autoClaimLoop := autoClaimLoop (W := W).
Definition management_claimAndProcessStaleMessages := claimAndProcessStaleMessages (W := W).
Definition reporting_Subscribe := Subscribe (W := W) 10.
Definition reporting_recoverPendingMessages := recoverPendingMessages (W := W).
Definition reporting_autoClaimLoop := autoClaimLoop (W := W).
Definition reporting_claimAndProcessStaleMessages := claimAndProcessStaleMessages (W := W).
Definition notification_Subscribe := Subscribe (W := W) 10.
Definition notification_recoverPendingMessages := recoverPendingMessages (W := W).
Definition notification_autoClaimLoop := autoClaimLoop (W := W).
Definition notification_claimAndProcessStaleMessages := claimAndProcessStaleMessages (W := W).
End brokers.

(** ** Streams and groups *)
Record subscription := { sub_stream : string; sub_group : string; sub_consumer : string }.

Definition monitoring_registry : subscription :=
  {| sub_stream := "sms.events.server"; sub_group := "monitoring_group"; sub_consumer := "monitoring_worker_1" |}.
Definition monitoring_heartbeats : subscription :=
  {| sub_stream := "sms.events.heartbeat"; sub_group := "monitoring_group"; sub_consumer := "monitoring_worker_heartbeat" |}.
Definition management_statuses : subscription :=
  {| sub_stream := "sms.events.server_status"; sub_group := "management_group"; sub_consumer := "management_worker_1" |}.
Definition reporting_registry (cfg : Config.ReportingConfig) : subscription :=
  {| sub_stream := Config.ServerStream cfg; sub_group := Config.ServerGroup cfg; sub_consumer := Config.ConsumerName cfg |}.
Definition reporting_statuses (cfg : Config.ReportingConfig) : subscription :=
  {| sub_stream := Config.ServerStatusStream cfg; sub_group := Config.ServerStatusGroup cfg;
     sub_consumer := Config.ConsumerName cfg |}.

Section consumers.
Context {W} {srv : Host W}.
(** A subscription until its context is cancelled. *)
Definition subscribed (subscribe : string -> string -> string -> (Message -> proc W (res unit)) -> nat -> nat -> proc W (option unit))
    (s : subscription) (handler : Message -> proc W (res unit)) (fuel turns : nat) : proc W (option unit) :=
  subscribe (sub_stream s) (sub_group s) (sub_consumer s) handler fuel turns.

Definition StreamConsumer_Start := subscribed monitoring_Subscribe monitoring_registry stream_processMessage.
Definition HeartbeatConsumer_Start (Evaluate : string -> string -> bool -> proc W (res unit)) :=
  subscribed monitoring_Subscribe monitoring_heartbeats (heartbeat_processMessage Evaluate).
Definition StatusConsumer_Start {db : Db W mstate} `{pg : Postgres} :=
  subscribed management_Subscribe management_statuses status_processMessage.
(** Two goroutines. *)
Definition EventConsumer_Start {db : Db W Reporting.rtables} `{rp : Reporting.ReportStore} (cfg : Config.ReportingConfig) :=
  (subscribed reporting_Subscribe (reporting_registry cfg) Reporting.handleServerEvent,
   subscribed reporting_Subscribe (reporting_statuses cfg) Reporting.handleStatusEvent).
Definition NotificationConsumer_Start {smtp : Notification.Smtp W} (cfg : Config.NotificationConfig)
    (mailer : Notification.MailerConfig) :=
  subscribed notification_Subscribe
    {| sub_stream := Config.N_Stream cfg; sub_group := Config.N_Group cfg; sub_consumer := Config.N_Consumer cfg |}
    (Notification.handleNotificationEvent mailer).
End consumers.

(** ** Settings that reach the components *)

(** The sweeper gets whole seconds. *)
Definition sweeper_timeout (cfg : Config.MonitoringConfig) : Z := Z.quot (Config.AgentPushTTL cfg) Second.

(** Every worker may block on Redis. *)
Definition monitoring_redis (cfg : Config.MonitoringConfig) (redisCfg : RedisConfig) : RedisConfig :=
  let need := wrap64 (Config.WorkerConcurrency cfg + 50) in
  if (Config.PoolSize redisCfg <? need)%Z then {|
    Config.Enabled := Config.Enabled redisCfg; Config.Addr := Config.Addr redisCfg;
    Config.RedisPassword := Config.RedisPassword redisCfg; Config.DB := Config.DB redisCfg;
    Config.DialTimeout := Config.DialTimeout redisCfg; Config.ReadTimeout := Config.ReadTimeout redisCfg;
    Config.WriteTimeout := Config.WriteTimeout redisCfg; Config.PoolSize := need;
    Config.MinIdleConns := Config.MinIdleConns redisCfg; Config.MaxRetries := Config.MaxRetries redisCfg |}
  else redisCfg.

Definition check_timeouts (cfg : Config.MonitoringConfig) : CheckerTimeouts :=
  {| ICMP := Config.ICMPTimeout cfg; SSH := Config.SSHTimeout cfg; AgentPull := Config.AgentPullTimeout cfg |}.

(** The scheduler replaces what is missing. *)
Definition NewScheduler_settings (cronSpec adminEmail : string) : string * string :=
  (if String.eqb cronSpec "" then "0 0 * * *" else cronSpec,
   if String.eqb adminEmail "" then "admin@example.com" else adminEmail).

(** A publisher of notifications exists only with Redis. *)
Definition reporting_publisher (cfg : Config.ReportingConfig) (rdb : option RedisConfig) : option Z :=
  match rdb with None => None | Some _ => Some (Config.NotificationStreamMaxLen cfg) end.

Definition notification_mailer (cfg : Config.NotificationConfig) : Notification.MailerConfig :=
  let s := Config.N_SMTP cfg in {|
  Notification.Host := Config.Host s; Notification.Port := Config.Port s;
  Notification.UseAuth := Config.UseAuth s; Notification.UseTLS := Config.UseTLS s;
  Notification.Username := Config.SMTPUsername s; Notification.Password := Config.SMTPPassword s;
  Notification.From := Config.From s; Notification.FromName := Config.FromName s |}.

(** ** Routes (app/run.go)

    [http.ServeMux]: a path that is not clean is answered with a redirect to the
    clean one; otherwise an exact pattern, else the longest prefix.  The
    redirect, the gateway and the file server are arguments. *)

(** [path.Clean] of a path with a root, whose elements are given: those before
    the current one are kept in reverse. *)
Definition clean_step (kept : list string) (elem : string) : list string :=
  if String.eqb elem "" || String.eqb elem "." then kept
  else if String.eqb elem ".." then tail kept
  else elem :: kept.
Definition Clean (p : string) : string := "/" +:+ String.concat "/" (rev (foldl clean_step [] (Split p (of_byte 47)))).
Definition cleanPath (p : string) : string :=
  let p := if HasPrefix p "/" then p else "/" +:+ p in
  let np := Clean p in
  if HasPrefix (str_rev p) "/" && negb (String.eqb np "/") then np +:+ "/" else np.

Example cleanPath_ex : map cleanPath ["/api//v1/./servers/"; "/a/../../b"; ""; "/health"; "/.."] =
  ["/api/v1/servers/"; "/b"; "/"; "/health"; "/"].
Proof. by vm_compute. Qed.

Definition plain (body : string) : response := {| rs_status := StatusOK; rs_header := []; rs_body := body |}.

Section routes.
Context {W : Type} (redirect : string -> request -> proc W response) (gateway files : request -> proc W response).

Definition mux (exact : list (string * (request -> proc W response))) (path : string) (r : request) : proc W response :=
  if negb (String.eqb (cleanPath path) path) then redirect (cleanPath path) r else
  match List.find (fun p => String.eqb p.1 path) exact with
  | Some (_, h) => h r
  | None => if HasPrefix path "/openapi/" then files r else gateway r
  end.

Definition identity_http (Verify : request -> proc W response) : string -> request -> proc W response :=
  mux [("/health", fun _ => mret (plain "OK")); ("/verify", Verify)].
Definition management_http (HandleImport HandleExport : request -> proc W response) : string -> request -> proc W response :=
  mux [("/health", fun _ => mret (plain "OK"));
       ("/api/v1/servers/import", HandleImport); ("/api/v1/servers/export", HandleExport)].
Definition reporting_http (hostname : string) : string -> request -> proc W response :=
  mux [("/health", fun _ => mret (plain ("OK from " +:+ hostname +:+ newline)))].
End routes.

(** ** The services meet *)

(** The environment leaves the names of streams and groups alone. *)
Definition default_names (e : Env) : Prop :=
  Forall (fun k => Config.getEnv e k = "" /\ Config.LookupEnv e k = None)
    ["OUTBOX_STREAM_NAME"; "CONSUMER_SERVER_STREAM"; "CONSUMER_STATUS_STREAM"; "CONSUMER_SERVER_GROUP";
     "CONSUMER_STATUS_GROUP"; "NOTIFICATION_STREAM"; "NOTIFICATION_GROUP"].

Lemma GetEnvDefault_unset e k d : Config.getEnv e k = "" -> Config.GetEnvDefault e k d = d.
Proof. intros E. unfold Config.GetEnvDefault. by rewrite E. Qed.

(** Each stream that a service writes is the stream that its readers read, and
    no two kinds of readers share a group on a stream. *)
Lemma streams_meet e :
  default_names e ->
  let registry := Config.StreamName (Config.management_Load e).2 in
  let reporting := Config.reporting_Load e in
  sub_stream monitoring_registry = registry /\ sub_stream (reporting_registry reporting) = registry /\
  sub_stream management_statuses = "sms.events.server_status" /\
  sub_stream (reporting_statuses reporting) = "sms.events.server_status" /\
  Config.NotificationStream reporting = Config.N_Stream (Config.LoadConfig e) /\
  NoDup (map (fun s => (sub_stream s, sub_group s))
    [monitoring_registry; monitoring_heartbeats; management_statuses; reporting_registry reporting; reporting_statuses reporting]).
Proof.
  intros He. unfold default_names in He. rewrite !Forall_cons in He.
  destruct He as ([E1 _] & [E2 _] & [E3 _] & [E4 _] & [E5 _] & [E6 E6'] & [E7 E7'] & _).
  cbv zeta. unfold reporting_registry, reporting_statuses, Config.management_Load, Config.reporting_Load, Config.LoadConfig.
  cbn [snd Config.StreamName Config.ServerStream Config.ServerGroup Config.ServerStatusStream Config.ServerStatusGroup
    Config.NotificationStream Config.N_Stream Config.ConsumerName sub_stream sub_group].
  unfold Config.notification_getEnv. 
  rewrite E6', !(fun d => GetEnvDefault_unset _ _ d E1), !(fun d => GetEnvDefault_unset _ _ d E2),
    !(fun d => GetEnvDefault_unset _ _ d E3), !(fun d => GetEnvDefault_unset _ _ d E4),
    !(fun d => GetEnvDefault_unset _ _ d E5), !(fun d => GetEnvDefault_unset _ _ d E6).
  split_and!; try done. refine (bool_decide_unpack _ _). by vm_compute.
Qed.

(** Monitoring publishes statuses on the stream that management reads. *)
Lemma statuses_meet : status_stream = sub_stream management_statuses.
Proof. reflexivity. Qed.

(** ** Finding *)

(** The import that gRPC refuses to a user is open to everybody over REST: the
    route has no interceptor. *)
Lemma rest_import_ignores_role {W} {wo : World W mstate} `{pg : Postgres} (time_json : Z -> string)
    (OpenReader : string -> option sheet) (is_ipv4 : string -> bool) (Error : err -> string) NextParts
    redirect gateway files HandleExport (c : ctx) (p : Principal) content r w :
  caller c = Some p -> RoleCode p = RoleCodeUser ->
  (management_server (management_method "ImportServers") (ImportServers_grpc time_json OpenReader is_ipv4) c (Some content) w).1 =
    refuse PermissionDenied "forbidden" /\
  management_http redirect gateway files (HandleImport time_json OpenReader is_ipv4 Error NextParts) HandleExport
    "/api/v1/servers/import" r = HandleImport time_json OpenReader is_ipv4 Error NextParts r.
Proof.
  intros Hc Hp. split; [|reflexivity]. unfold management_server. rewrite gate_spec by apply management_rules.
  replace (management_permissions !! _) with (Some PermServerImport) by (by vm_compute). by rewrite Hc, Hp.
Qed.
