(* ===== verification/Gateway.v ===== *)
(** The REST gateways: what protoc-gen-grpc-gateway made of the services
    (server.pb.gw.go, auth.pb.gw.go, reporting.pb.gw.go), the servers of
    app/run.go behind them, and that together they implement the HTTP rules of
    the .proto files and let nobody past the permission check.  The runtime of
    grpc-gateway is a class. *)
From S2P Require Import Prelude GoStd Sql Json Redis Host Crypto ManagementData ManagementService World Access Http.
From S2P Require Import ManagementApi Identity IdentityApi Reporting System Services.
From Stdlib Require Import Ascii.

(** ** Requests *)
Record HttpRequest := {
  hr_Method : string; hr_Path : string; hr_RawQuery : string;
  hr_Header : HttpHeader; hr_Body : res string;
}.

(** Package net/url. *)
Abbreviation Values := (gmap string (list string)).

Fixpoint QueryUnescape (s : string) : res string :=
  match s with
  | "" => Ok ""
  | String c s' =>
    let after (c : ascii) (r : res string) := match r with Ok t => Ok (String c t) | Err e => Err e end in
    if Ascii.eqb c "%" then
      match s' with
      | String a (String b s'') =>
        match from_hex a, from_hex b with
        | Some h, Some l => after (of_byte (16 * h + l)) (QueryUnescape s'')
        | _, _ => Err (ErrS "url.EscapeError")
        end
      | _ => Err (ErrS "url.EscapeError")
      end
    else after (if Ascii.eqb c "+" then " "%char else c) (QueryUnescape s')
  end.

Definition add_pair (acc : Values * option err) (pair : string) : Values * option err :=
  let '(m, e) := acc in
  if Contains pair ";" then (m, Some (ErrS "invalid semicolon separator in query"))
  else if String.eqb pair "" then (m, e)
  else
    let '(key, value) := cut_equal pair in
    match QueryUnescape key, QueryUnescape value with
    | Ok key, Ok value => (<[key := default [] (m !! key) ++ [value]]> m, e)
    | Err e', _ | _, Err e' => (m, Some (default e' e))
    end.
Definition ParseQuery (query : string) : Values * option err :=
  foldl add_pair (∅, None) (Split query "&").

Example ParseQuery_ex : ParseQuery "page=2&filter_name=a%20b+c&&page=3&x" =
  (list_to_map [("page", ["2"; "3"]); ("filter_name", ["a b c"]); ("x", [""])], None) /\
  (ParseQuery "a=1;b=2&c=%zz").2 = Some (ErrS "invalid semicolon separator in query").
Proof. split; [reflexivity|done]. Qed.

(** [req.ParseForm] where the body is no part of the form: the methods other
    than POST, PUT and PATCH. *)
Definition ParseForm (r : HttpRequest) : Values * option err := ParseQuery (hr_RawQuery r).

(** The request as the other handlers see it; [r.URL.Query ()] drops errors. *)
Definition to_request (r : HttpRequest) : request := {|
  Method := hr_Method r; Header := hr_Header r; Query := fun k => Header_Get (ParseQuery (hr_RawQuery r)).1 k;
  Body := hr_Body r |}.

(** The elements of the path, and the headers one by one. *)
Definition components (r : HttpRequest) : list string := Split (str_drop 1 (hr_Path r)) "/".
Definition header_lines (h : HttpHeader) : list (string * string) :=
  concat (map (fun '(k, vs) => map (pair k) vs) (map_to_list h)).

(** ** Patterns

    [runtime.NewPattern] takes a program for a small stack machine, a pool of
    strings and a verb. *)
Record Pattern := NewPattern { pat_ops : list nat; pat_pool : list string; pat_verb : string }.

(** What a program stands for: 2 i is the literal [i] of the pool, and
    1 0 4 1 5 i is one element, captured under the name [i] of the pool. *)
Inductive segment := Literal (s : string) | Capture (name : string).

Fixpoint compile (pool : list string) (ops : list nat) : option (list segment) :=
  match ops with
  | [] => Some []
  | 2 :: i :: ops => s ← pool !! i; t ← compile pool ops; Some (Literal s :: t)
  | 1 :: 0 :: 4 :: 1 :: 5 :: i :: ops => s ← pool !! i; t ← compile pool ops; Some (Capture s :: t)
  | _ => None
  end.
Definition template (p : Pattern) : option (list segment) :=
  if String.eqb (pat_verb p) "" then compile (pat_pool p) (pat_ops p) else None.

Abbreviation PathParams := (gmap string string).
Fixpoint match_template (t : list segment) (l : list string) : option PathParams :=
  match t, l with
  | [], [] => Some ∅
  | Literal s :: t, x :: l => if String.eqb s x then match_template t l else None
  | Capture n :: t, x :: l => ps ← match_template t l; Some (<[n := x]> ps)
  | _, _ => None
  end.

(** The path parameters of a request whose path has the pattern. *)
Definition path_matches (p : Pattern) (r : HttpRequest) : option PathParams :=
  if HasPrefix (hr_Path r) "/" then t ← template p; match_template t (components r) else None.

(** ** The runtime of grpc-gateway *)

Definition routing_errors : list Z := [400; 404; 501]%Z.

(** [pick]: which of the routes (a method and a pattern) a request is given to,
    as the handler sees it, or what is answered.  [WithMetadata]: the context of
    a call, or the status of an error.  [lost]: the status of a call during
    which the server went away. *)
Class Runtime := {
  pick : list (string * Pattern) -> HttpRequest -> response + nat * HttpRequest * PathParams;
  String_ : string -> res string;
  AnnotateContext : (string -> option string) -> HttpRequest -> status + ctx;
  AnnotateIncomingContext : (string -> option string) -> HttpRequest -> status + ctx;
  HTTPError : status -> response;
  ForwardResponseMessage : forall {Resp}, (string -> option string) -> list (string * string) -> Resp -> response;
  lost : status;
}.

(** A form that is posted may name another method in a header, or fall back to
    a GET route; the runtime treats it specially. *)
Definition posts_form (r : HttpRequest) : bool :=
  String.eqb (hr_Method r) "POST" && String.eqb (Header_Get (hr_Header r) "Content-Type") "application/x-www-form-urlencoded".

Definition header_values (h : list (string * string)) (k : string) : list string :=
  omap (fun kv => if String.eqb kv.1 k then Some kv.2 else None) h.

(** [runtime.HTTPStatusFromCode]. *)
Definition HTTPStatusFromCode (c : code) : Z :=
  match c with
  | InvalidArgument => 400 | Unauthenticated => 401 | PermissionDenied => 403 | NotFound => 404
  | AlreadyExists => 409 | Internal => 500
  end%Z.

Class RuntimeLaws {gw : Gateway} (rt : Runtime) : Prop := {
  pick_lawful : forall keys r i r' ps, pick keys r = inr (i, r', ps) ->
    hr_Header r' = hr_Header r /\ exists m p, keys !! i = Some (m, p) /\ path_matches p r = Some ps /\
      (posts_form r = false -> m = hr_Method r /\ r' = r);
  pick_total : forall keys r i p ps, posts_form r = false ->
    keys !! i = Some (hr_Method r, p) -> path_matches p r = Some ps -> exists out, pick keys r = inr out;
  pick_error : forall keys r e, pick keys r = inl e -> rs_status e ∈ routing_errors;
  String_same : forall s, String_ s = Ok s;
  (** The metadata of the call are made from the headers of the request, one by one. *)
  AnnotateContext_md : forall m r c, AnnotateContext m r = inr c ->
    exists peer headers, Permutation headers (header_lines (hr_Header r)) /\ c = Ctx peer (Some (annotate m headers)) None;
  HTTPError_status : forall st, rs_status (HTTPError st) = HTTPStatusFromCode (s_code st);
  Forward_status : forall {Resp} m md (a : Resp), rs_status (ForwardResponseMessage m md a) = StatusOK;
  (** Metadata keys arrive in lower case; those that the matcher renames
      Set-Cookie become cookies. *)
  Forward_cookies : forall {Resp} m md (a : Resp),
    Permutation (header_values (rs_header (ForwardResponseMessage m md a)) "Set-Cookie")
      (omap (fun kv => match m (ToLower kv.1) with
                       | Some k => if String.eqb k "Set-Cookie" then Some kv.2 else None
                       | None => None
                       end) md);
}.

(** ** Routes *)

(** [mux.Handle]: what a request of this method whose path has this pattern is
    given to. *)
Record route (W : Type) := Handle {
  rt_method : string; rt_pattern : Pattern; rt_handle : HttpRequest -> PathParams -> proc W response;
}.
Arguments Handle {W} rt_method rt_pattern rt_handle.
Arguments rt_method {W}.
Arguments rt_pattern {W}.
Arguments rt_handle {W}.

Definition key_of {W} (rt : route W) : string * Pattern := (rt_method rt, rt_pattern rt).

Section serving.
Context {W : Type} {rn : Runtime}.

(** [ServeMux.ServeHTTP]. *)
Definition ServeHTTP (routes : list (route W)) (r : HttpRequest) : proc W response :=
  match pick (map key_of routes) r with
  | inl e => mret e
  | inr (i, r', ps) =>
    match routes !! i with
    | Some rt => rt_handle rt r' ps
    | None => mret (HTTPError lost)
    end
  end.

(** A message as JSON makes it: what the decoder left in it, with its error,
    and what a form does to a message. *)
Record Codec (A : Type) := {
  zero : A; Decode : res string -> A * option err; PopulateQueryParameters : Values -> A -> res A;
}.
Arguments zero {A}.
Arguments Decode {A}.
Arguments PopulateQueryParameters {A}.

Definition io_EOF : err := ErrS "EOF".

(** The three ways to read a message. *)
Definition from_body {A} (pb : Codec A) (r : HttpRequest) : status + A :=
  let '(protoReq, e) := Decode pb (hr_Body r) in
  match e with
  | Some e => if errors_Is e io_EOF then inr protoReq else inl (Status InvalidArgument (ErrorText e))
  | None => inr protoReq
  end.
Definition from_query {A} (pb : Codec A) (r : HttpRequest) : status + A :=
  match ParseForm r with
  | (_, Some e) => inl (Status InvalidArgument (ErrorText e))
  | (form, None) =>
    match PopulateQueryParameters pb form (zero pb) with
    | Err e => inl (Status InvalidArgument (ErrorText e))
    | Ok protoReq => inr protoReq
    end
  end.
Definition path_param (pathParams : PathParams) (name : string) : status + string :=
  match pathParams !! name with
  | None => inl (Status InvalidArgument (Text ("missing parameter " +:+ name)))
  | Some val =>
    match String_ val with
    | Err e => inl (Status InvalidArgument (TextAnd ("type mismatch, parameter: " +:+ name +:+ ", error: ") e))
    | Ok id => inr id
    end
  end.

(** The call of a method with a message that may not have been read. *)
Definition call_with {Req Resp} (method : handler (W := W) (Req := Req) (Resp := Resp)) (c : ctx) (protoReq : status + Req)
    : proc W (outcome Resp) :=
  match protoReq with
  | inl st => mret (Refused st)
  | inr protoReq => method c protoReq
  end.

(** What every registered handler does around the call: the context, then the
    answer.  A reply may come with header metadata. *)
Definition answering {Resp} (outgoing : string -> option string) (md : Resp -> list (string * string)) (r : outcome Resp)
    : response :=
  match r with
  | Reply a => ForwardResponseMessage outgoing (md a) a
  | Refused st => HTTPError st
  | Panicked => HTTPError lost
  end.
Definition annotated {Resp} (annotation : status + ctx) (outgoing : string -> option string)
    (md : Resp -> list (string * string)) (request : ctx -> proc W (outcome Resp)) : proc W response :=
  match annotation with
  | inl st => mret (HTTPError st)
  | inr annotatedContext => r <-- request annotatedContext; mret (answering outgoing md r)
  end.
End serving.
Arguments zero {A}.
Arguments Decode {A}.
Arguments PopulateQueryParameters {A}.

(** ** sms-management (server.pb.gw.go)

    [request_] calls a connection, which passes through the interceptors of
    the server; [local_request_] calls the implementation.  Draining the body
    afterwards has no effect of its own. *)
Section management.
Context {W : Type} {rn : Runtime}.
Context (create_pb : Codec CreateServerRequest) (update_pb : Codec UpdateServerRequest).
Context (view_pb export_pb : Codec ViewServersRequest) (import_pb : Codec string).

Record ServerManagementServiceClient := {
  client_CreateServer : handler (W := W) (Req := option CreateServerRequest) (Resp := PBServer);
  client_UpdateServer : handler (W := W) (Req := option UpdateServerRequest) (Resp := PBServer);
  client_DeleteServer : handler (W := W) (Req := option string) (Resp := bool);
  client_ViewServers : handler (W := W) (Req := option ViewServersRequest) (Resp := ViewServersResponse);
  client_ImportServers : handler (W := W) (Req := option string) (Resp := ImportResult);
  client_ExportServers : handler (W := W) (Req := option ViewServersRequest) (Resp := ExportServersResponse);
}.

(** The pointer to the message. *)
Definition ref {A} (m : status + A) : status + option A := match m with inl st => inl st | inr a => inr (Some a) end.
Definition with_id (q : UpdateServerRequest) (id : string) : UpdateServerRequest :=
  {| rq_ServerId := id; rq_Server := rq_Server q |}.

Definition request_CreateServer_0 (client : ServerManagementServiceClient) (r : HttpRequest) (pathParams : PathParams) (c : ctx) :=
  call_with (client_CreateServer client) c (ref (from_body create_pb r)).
Definition request_UpdateServer_0 (client : ServerManagementServiceClient) (r : HttpRequest) (pathParams : PathParams) (c : ctx) :=
  call_with (client_UpdateServer client) c
    match from_body update_pb r with
    | inl st => inl st
    | inr protoReq =>
      match path_param pathParams "server_id" with
      | inl st => inl st
      | inr id => inr (Some (with_id protoReq id))
      end
    end.
Definition request_DeleteServer_0 (client : ServerManagementServiceClient) (r : HttpRequest) (pathParams : PathParams) (c : ctx) :=
  call_with (client_DeleteServer client) c (ref (path_param pathParams "server_id")).
Definition request_ViewServers_0 (client : ServerManagementServiceClient) (r : HttpRequest) (pathParams : PathParams) (c : ctx) :=
  call_with (client_ViewServers client) c (ref (from_query view_pb r)).
Definition request_ImportServers_0 (client : ServerManagementServiceClient) (r : HttpRequest) (pathParams : PathParams) (c : ctx) :=
  call_with (client_ImportServers client) c (ref (from_body import_pb r)).
Definition request_ExportServers_0 (client : ServerManagementServiceClient) (r : HttpRequest) (pathParams : PathParams) (c : ctx) :=
  call_with (client_ExportServers client) c (ref (from_query export_pb r)).

Definition local_request_CreateServer_0 := request_CreateServer_0.
Definition local_request_UpdateServer_0 := request_UpdateServer_0.
Definition local_request_DeleteServer_0 := request_DeleteServer_0.
Definition local_request_ViewServers_0 := request_ViewServers_0.
Definition local_request_ImportServers_0 := request_ImportServers_0.
Definition local_request_ExportServers_0 := request_ExportServers_0.

Definition pattern_CreateServer_0 := NewPattern [2; 0; 2; 1; 2; 2] ["api"; "v1"; "servers"] "".
Definition pattern_UpdateServer_0 :=
  NewPattern [2; 0; 2; 1; 2; 2; 1; 0; 4; 1; 5; 3] ["api"; "v1"; "servers"; "server_id"] "".
Definition pattern_DeleteServer_0 :=
  NewPattern [2; 0; 2; 1; 2; 2; 1; 0; 4; 1; 5; 3] ["api"; "v1"; "servers"; "server_id"] "".
Definition pattern_ViewServers_0 := NewPattern [2; 0; 2; 1; 2; 2] ["api"; "v1"; "servers"] "".
Definition pattern_ImportServers_0 := NewPattern [2; 0; 2; 1; 2; 2; 2; 3] ["api"; "v1"; "servers"; "import"] "".
Definition pattern_ExportServers_0 := NewPattern [2; 0; 2; 1; 2; 2; 2; 3] ["api"; "v1"; "servers"; "export"] "".

Section registered.
Context (incoming outgoing : string -> option string).
Let no_md {Resp} (_ : Resp) : list (string * string) := [].

Definition RegisterServerManagementServiceHandlerServer (server : ServerManagementServiceClient) : list (route W) := [
  Handle "POST" pattern_CreateServer_0 (fun r ps =>
    annotated (AnnotateIncomingContext incoming r) outgoing no_md (local_request_CreateServer_0 server r ps));
  Handle "PUT" pattern_UpdateServer_0 (fun r ps =>
    annotated (AnnotateIncomingContext incoming r) outgoing no_md (local_request_UpdateServer_0 server r ps));
  Handle "DELETE" pattern_DeleteServer_0 (fun r ps =>
    annotated (AnnotateIncomingContext incoming r) outgoing no_md (local_request_DeleteServer_0 server r ps));
  Handle "GET" pattern_ViewServers_0 (fun r ps =>
    annotated (AnnotateIncomingContext incoming r) outgoing no_md (local_request_ViewServers_0 server r ps));
  Handle "POST" pattern_ImportServers_0 (fun r ps =>
    annotated (AnnotateIncomingContext incoming r) outgoing no_md (local_request_ImportServers_0 server r ps));
  Handle "GET" pattern_ExportServers_0 (fun r ps =>
    annotated (AnnotateIncomingContext incoming r) outgoing no_md (local_request_ExportServers_0 server r ps))].

Definition RegisterServerManagementServiceHandlerClient (client : ServerManagementServiceClient) : list (route W) := [
  Handle "POST" pattern_CreateServer_0 (fun r ps =>
    annotated (AnnotateContext incoming r) outgoing no_md (request_CreateServer_0 client r ps));
  Handle "PUT" pattern_UpdateServer_0 (fun r ps =>
    annotated (AnnotateContext incoming r) outgoing no_md (request_UpdateServer_0 client r ps));
  Handle "DELETE" pattern_DeleteServer_0 (fun r ps =>
    annotated (AnnotateContext incoming r) outgoing no_md (request_DeleteServer_0 client r ps));
  Handle "GET" pattern_ViewServers_0 (fun r ps =>
    annotated (AnnotateContext incoming r) outgoing no_md (request_ViewServers_0 client r ps));
  Handle "POST" pattern_ImportServers_0 (fun r ps =>
    annotated (AnnotateContext incoming r) outgoing no_md (request_ImportServers_0 client r ps));
  Handle "GET" pattern_ExportServers_0 (fun r ps =>
    annotated (AnnotateContext incoming r) outgoing no_md (request_ExportServers_0 client r ps))].
End registered.
End management.
Arguments ServerManagementServiceClient W : clear implicits.

(** ** sms-identity (auth.pb.gw.go) *)
Section identity.
Context {W : Type} {rn : Runtime}.
Context (login_pb : Codec LoginRequest) (refresh_pb : Codec string) (empty_pb : Codec unit).

Record AuthServiceClient := {
  client_Login : handler (W := W) (Req := option LoginRequest) (Resp := with_header TokenResponse);
  client_RefreshToken : handler (W := W) (Req := option string) (Resp := with_header TokenResponse);
  client_Logout : handler (W := W) (Req := unit) (Resp := with_header string);
  client_LogoutAll : handler (W := W) (Req := unit) (Resp := with_header string);
}.

Definition request_Login_0 (client : AuthServiceClient) (r : HttpRequest) (pathParams : PathParams) (c : ctx) :=
  call_with (client_Login client) c (ref (from_body login_pb r)).
Definition request_RefreshToken_0 (client : AuthServiceClient) (r : HttpRequest) (pathParams : PathParams) (c : ctx) :=
  call_with (client_RefreshToken client) c (ref (from_body refresh_pb r)).
Definition request_Logout_0 (client : AuthServiceClient) (r : HttpRequest) (pathParams : PathParams) (c : ctx) :=
  call_with (client_Logout client) c (from_body empty_pb r).
Definition request_LogoutAll_0 (client : AuthServiceClient) (r : HttpRequest) (pathParams : PathParams) (c : ctx) :=
  call_with (client_LogoutAll client) c (from_body empty_pb r).

Definition local_request_Login_0 := request_Login_0.
Definition local_request_RefreshToken_0 := request_RefreshToken_0.
Definition local_request_Logout_0 := request_Logout_0.
Definition local_request_LogoutAll_0 := request_LogoutAll_0.

Definition pattern_Login_0 := NewPattern [2; 0; 2; 1; 2; 2; 2; 3] ["api"; "v1"; "auth"; "login"] "".
Definition pattern_RefreshToken_0 := NewPattern [2; 0; 2; 1; 2; 2; 2; 3] ["api"; "v1"; "auth"; "refresh"] "".
Definition pattern_Logout_0 := NewPattern [2; 0; 2; 1; 2; 2; 2; 3] ["api"; "v1"; "auth"; "logout"] "".
Definition pattern_LogoutAll_0 := NewPattern [2; 0; 2; 1; 2; 2; 2; 3] ["api"; "v1"; "auth"; "logout-all"] "".

Section registered.
Context (incoming outgoing : string -> option string).

Definition RegisterAuthServiceHandlerServer (server : AuthServiceClient) : list (route W) := [
  Handle "POST" pattern_Login_0 (fun r ps =>
    annotated (AnnotateIncomingContext incoming r) outgoing header (local_request_Login_0 server r ps));
  Handle "POST" pattern_RefreshToken_0 (fun r ps =>
    annotated (AnnotateIncomingContext incoming r) outgoing header (local_request_RefreshToken_0 server r ps));
  Handle "POST" pattern_Logout_0 (fun r ps =>
    annotated (AnnotateIncomingContext incoming r) outgoing header (local_request_Logout_0 server r ps));
  Handle "POST" pattern_LogoutAll_0 (fun r ps =>
    annotated (AnnotateIncomingContext incoming r) outgoing header (local_request_LogoutAll_0 server r ps))].

Definition RegisterAuthServiceHandlerClient (client : AuthServiceClient) : list (route W) := [
  Handle "POST" pattern_Login_0 (fun r ps =>
    annotated (AnnotateContext incoming r) outgoing header (request_Login_0 client r ps));
  Handle "POST" pattern_RefreshToken_0 (fun r ps =>
    annotated (AnnotateContext incoming r) outgoing header (request_RefreshToken_0 client r ps));
  Handle "POST" pattern_Logout_0 (fun r ps =>
    annotated (AnnotateContext incoming r) outgoing header (request_Logout_0 client r ps));
  Handle "POST" pattern_LogoutAll_0 (fun r ps =>
    annotated (AnnotateContext incoming r) outgoing header (request_LogoutAll_0 client r ps))].
End registered.
End identity.
Arguments AuthServiceClient W : clear implicits.

(** ** sms-reporting (reporting.pb.gw.go) *)
Section reporting.
Context {W : Type} {rn : Runtime}.
Context (report_pb : Codec RequestReportRequest).

Record ReportingServiceClient := {
  client_RequestReport : handler (W := W) (Req := RequestReportRequest) (Resp := RequestReportResponse);
}.

Definition request_RequestReport_0 (client : ReportingServiceClient) (r : HttpRequest) (pathParams : PathParams) (c : ctx) :=
  call_with (client_RequestReport client) c (from_body report_pb r).
Definition local_request_RequestReport_0 := request_RequestReport_0.
Definition pattern_RequestReport_0 := NewPattern [2; 0; 2; 1; 2; 2; 2; 3] ["api"; "v1"; "servers"; "report"] "".

Section registered.
Context (incoming outgoing : string -> option string).

Definition RegisterReportingServiceHandlerServer (server : ReportingServiceClient) : list (route W) := [
  Handle "POST" pattern_RequestReport_0 (fun r ps =>
    annotated (AnnotateIncomingContext incoming r) outgoing (fun _ => []) (local_request_RequestReport_0 server r ps))].
Definition RegisterReportingServiceHandlerClient (client : ReportingServiceClient) : list (route W) := [
  Handle "POST" pattern_RequestReport_0 (fun r ps =>
    annotated (AnnotateContext incoming r) outgoing (fun _ => []) (request_RequestReport_0 client r ps))].
End registered.
End reporting.
Arguments ReportingServiceClient W : clear implicits.

(** ** Dispatch *)

(** What follows [base] in a path: nothing, or one element. *)
Definition element_of (base path : string) : option (option string) :=
  if String.eqb path base then Some None
  else if HasPrefix path (base +:+ "/") then
    let id := TrimPrefix path (base +:+ "/") in
    if str_forall (fun c => negb (Ascii.eqb c "/")) id then Some (Some id) else None
  else None.

Example element_of_ex : map (element_of "/a/b") ["/a/b"; "/a/b/"; "/a/b/x"; "/a/b/x/y"; "/a/bc"] =
  [Some None; Some (Some ""); Some (Some "x"); None; None].
Proof. reflexivity. Qed.

(** A base with its elements. *)
Definition base_of (l : list string) : string := "/" +:+ join "/" l.

Lemma join_snoc l id : l <> [] -> join "/" (l ++ [id]) = join "/" l +:+ "/" +:+ id.
Proof.
  intros Hne. induction l as [|s l IH]; [done|]. destruct l as [|s' l]; [done|].
  change (join "/" ((s :: s' :: l) ++ [id])) with (s +:+ "/" +:+ join "/" ((s' :: l) ++ [id])).
  change (join "/" (s :: s' :: l)) with (s +:+ "/" +:+ join "/" (s' :: l)).
  rewrite IH by done. by rewrite !str_app_assoc.
Qed.

Lemma element_of_spec l (r : HttpRequest) : l <> [] -> Forall (without "/") l ->
  match element_of (base_of l) (hr_Path r) with
  | Some None => HasPrefix (hr_Path r) "/" = true /\ components r = l
  | Some (Some id) => HasPrefix (hr_Path r) "/" = true /\ components r = l ++ [id]
  | None => HasPrefix (hr_Path r) "/" = true -> components r <> l /\ forall id, components r <> l ++ [id]
  end.
Proof.
  intros Hne Hl. unfold element_of.
  assert (forall t, HasPrefix ("/" +:+ t) "/" = true /\ str_drop 1 ("/" +:+ t) = t) as Hdrop.
  { intros t. split; [by apply HasPrefix_split; exists t|apply (str_drop_app "/")]. }
  assert (HasPrefix (hr_Path r) "/" = true -> hr_Path r = "/" +:+ join "/" (components r)) as Hpath.
  { intros [t E]%HasPrefix_split. unfold components. rewrite E. destruct (Hdrop t) as [_ ->].
    by rewrite (join_Split "/"). }
  destruct (String.eqb_spec (hr_Path r) (base_of l)) as [E|E].
  { unfold components. rewrite E. unfold base_of. destruct (Hdrop (join "/" l)) as [-> ->].
    split; [done|]. by apply Split_join. }
  destruct (HasPrefix (hr_Path r) (base_of l +:+ "/")) eqn:E'.
  - apply HasPrefix_split in E' as [id E']. unfold TrimPrefix.
    rewrite (proj2 (HasPrefix_split (hr_Path r) (base_of l +:+ "/"))) by (by exists id). rewrite E', str_drop_app.
    assert ((base_of l +:+ "/") +:+ id = "/" +:+ join "/" (l ++ [id])) as Ep.
    { rewrite join_snoc by done. unfold base_of. by rewrite !str_app_assoc. }
    unfold components. rewrite E', Ep. destruct (Hdrop (join "/" (l ++ [id]))) as [-> ->].
    destruct (str_forall _ id) eqn:Hid.
    + split; [done|]. apply Split_join; [by destruct l|]. apply Forall_app. split; [done|by constructor].
    + intros _. pose proof (Split_without "/" (join "/" (l ++ [id]))) as Hall.
      split; [intros Es|intros id' Es].
      * rewrite <- (join_Split "/" (join "/" (l ++ [id]))), Es in Ep. by rewrite E', Ep in E.
      * rewrite Es in Hall. apply Forall_app in Hall as [_ Hall]. apply Forall_inv in Hall.
        assert (join "/" (l ++ [id]) = join "/" (l ++ [id'])) as Ej by (by rewrite <- (join_Split "/" (join _ _)), Es).
        rewrite !join_snoc in Ej by done. apply (inj _), (inj _) in Ej as ->. unfold without in Hall. congruence.
  - intros Hp. specialize (Hpath Hp). split; [intros Es|intros id Es].
    + rewrite Es in Hpath. done.
    + rewrite Es, join_snoc in Hpath by done. destruct (HasPrefix_split (hr_Path r) (base_of l +:+ "/")) as [_ H].
      rewrite H in E'; [done|]. exists id. rewrite Hpath. unfold base_of. by rewrite !str_app_assoc.
Qed.

(** A pattern: a base, then at most one more segment. *)
Lemma matches_element p l t (r : HttpRequest) :
  template p = Some (map Literal l ++ t) -> l <> [] -> Forall (without "/") l -> length t <= 1 ->
  path_matches p r = match element_of (base_of l) (hr_Path r) with
                | Some None => match_template t []
                | Some (Some id) => match_template t [id]
                | None => None
                end.
Proof.
  intros Hp Hne Hl Ht. unfold path_matches. rewrite Hp. cbn [mbind option_bind].
  pose proof (element_of_spec l r Hne Hl) as Hspec.
  assert (forall k rest, match_template (map Literal k ++ t) (k ++ rest) = match_template t rest) as Hgo.
  { intros k rest. induction k as [|s k IH]; [done|]. cbn. by rewrite String.eqb_refl. }
  destruct (element_of _ _) as [[id|]|].
  - destruct Hspec as [-> ->]. apply Hgo.
  - destruct Hspec as [-> ->]. rewrite <- (app_nil_r l) at 2. apply Hgo.
  - destruct (HasPrefix _ _); [|done]. destruct (Hspec eq_refl) as [H1 H2]. clear Hspec Hne Hl Hp Hgo.
    revert H1 H2. generalize (components r) as comps. induction l as [|s l IH]; intros comps H1 H2.
    + destruct t as [|[n|n] [|]]; [by destruct comps| | | |]; cbn in Ht; try lia;
        (destruct comps as [|y [|y' comps]]; [done|by destruct (H2 y)|]); cbn; [|done]. by destruct (String.eqb _ _).
    + destruct comps as [|x comps]; [done|]. cbn. destruct (String.eqb_spec s x) as [<-|]; [|done].
      apply IH; [congruence|]. intros id E. apply (H2 id). by rewrite E.
Qed.

Section dispatch.
Context {W : Type} {rn : Runtime} {gw : Gateway} {Hrn : RuntimeLaws rn}.
Implicit Types (r : HttpRequest) (w : W).

(** The handlers that a request may be given to. *)
Definition candidate r (rt : route W) : option (proc W response) :=
  if String.eqb (rt_method rt) (hr_Method r) then ps ← path_matches (rt_pattern rt) r; Some (rt_handle rt r ps) else None.
Definition candidates (routes : list (route W)) r : list (proc W response) := omap (candidate r) routes.

Lemma ServeHTTP_candidate routes r w : posts_form r = false ->
  (exists p, p ∈ candidates routes r /\ ServeHTTP routes r w = p w) \/
  candidates routes r = [] /\ exists e, ServeHTTP routes r w = (e, w) /\ rs_status e ∈ routing_errors.
Proof.
  intros Hplain. unfold ServeHTTP. destruct (pick (map key_of routes) r) as [e|[[i r'] ps]] eqn:Ep.
  - right. split; [|exists e; split; [done|by eapply pick_error]].
    destruct (candidates routes r) as [|p l] eqn:Ec; [done|].
    assert (p ∈ candidates routes r) as Hp by (rewrite Ec; by left). apply list_elem_of_omap in Hp as (rt & Hrt & Hc).
    unfold candidate in Hc. destruct (String.eqb_spec (rt_method rt) (hr_Method r)) as [Em|]; [|done].
    destruct (path_matches (rt_pattern rt) r) as [ps|] eqn:Hm; [|done]. apply list_elem_of_lookup in Hrt as [i Hi].
    destruct (pick_total (map key_of routes) r i (rt_pattern rt) ps Hplain) as [out E]; [|done|congruence].
    rewrite list_lookup_fmap, Hi. cbn. unfold key_of. by rewrite Em.
  - destruct (pick_lawful _ _ _ _ _ Ep) as (_ & m & p & Hk & Hm & Hsame). destruct (Hsame Hplain) as [-> ->].
    rewrite list_lookup_fmap in Hk. destruct (routes !! i) as [rt|] eqn:Hi; [|done]. injection Hk as Em <-.
    left. exists (rt_handle rt r ps). split; [|done]. apply list_elem_of_omap. exists rt.
    split; [by eapply list_elem_of_lookup_2|]. unfold candidate. rewrite Em, String.eqb_refl, Hm. done.
Qed.

(** At most one handler: the request is given to it. *)
Lemma ServeHTTP_only routes r w : posts_form r = false ->
  match candidates routes r with
  | [] => exists e, ServeHTTP routes r w = (e, w) /\ rs_status e ∈ routing_errors
  | [p] => ServeHTTP routes r w = p w
  | _ => True
  end.
Proof.
  intros Hplain. destruct (ServeHTTP_candidate routes r w Hplain) as [(p & Hp & E)|[-> He]]; [|done].
  destruct (candidates routes r) as [|q [|]]; [by apply elem_of_nil in Hp| |done].
  by apply list_elem_of_singleton in Hp as <-.
Qed.

(** Whatever the request, it is given to a route whose pattern its path has. *)
Lemma ServeHTTP_any routes r w :
  (exists e, ServeHTTP routes r w = (e, w) /\ rs_status e ∈ routing_errors) \/
  exists rt r' ps, rt ∈ routes /\ hr_Header r' = hr_Header r /\ path_matches (rt_pattern rt) r = Some ps /\
    (posts_form r = false -> rt_method rt = hr_Method r) /\ ServeHTTP routes r w = rt_handle rt r' ps w.
Proof.
  unfold ServeHTTP. destruct (pick (map key_of routes) r) as [e|[[i r'] ps]] eqn:Ep.
  - left. exists e. split; [done|by eapply pick_error].
  - right. destruct (pick_lawful _ _ _ _ _ Ep) as (Hh & m & p & Hk & Hm & Hsame).
    rewrite list_lookup_fmap in Hk. destruct (routes !! i) as [rt|] eqn:Hi; [|done]. injection Hk as <- <-.
    exists rt, r', ps. split_and!; [by eapply list_elem_of_lookup_2|done|done| |done]. intros Hp. by apply Hsame.
Qed.
End dispatch.

(** ** The connections and the HTTP servers (app/run.go)

    [RegisterXHandlerFromEndpoint] dials the server of the same process; the
    connection is closed when the context of [Run] ends. *)
Section apps.
Context {rn : Runtime} {gw : Gateway}.

Definition FromEndpoint {W Conn} (NewClient : string -> res Conn) (RegisterHandler : Conn -> list (route W)) (endpoint : string)
    : res (list (route W)) :=
  match NewClient endpoint with
  | Err e => Err e
  | Ok conn => Ok (RegisterHandler conn)
  end.
Definition RegisterServerManagementServiceHandlerFromEndpoint {W} (NewClient : string -> res (ServerManagementServiceClient W)) :=
  FromEndpoint (W := W) NewClient.
Definition RegisterAuthServiceHandlerFromEndpoint {W} (NewClient : string -> res (AuthServiceClient W)) :=
  FromEndpoint (W := W) NewClient.
Definition RegisterReportingServiceHandlerFromEndpoint {W} (NewClient : string -> res (ReportingServiceClient W)) :=
  FromEndpoint (W := W) NewClient.

(** Each call passes through the interceptors of its server. *)
Definition management_conn {W} (h : ServerManagementServiceClient W) : ServerManagementServiceClient W := {|
  client_CreateServer := management_server (management_method "CreateServer") (client_CreateServer h);
  client_UpdateServer := management_server (management_method "UpdateServer") (client_UpdateServer h);
  client_DeleteServer := management_server (management_method "DeleteServer") (client_DeleteServer h);
  client_ViewServers := management_server (management_method "ViewServers") (client_ViewServers h);
  client_ImportServers := management_server (management_method "ImportServers") (client_ImportServers h);
  client_ExportServers := management_server (management_method "ExportServers") (client_ExportServers h) |}.
Definition identity_conn {W} `{cr : Identity.Crypto} (h : AuthServiceClient W) : AuthServiceClient W := {|
  client_Login := identity_server "Login" (client_Login h);
  client_RefreshToken := identity_server "RefreshToken" (client_RefreshToken h);
  client_Logout := identity_server "Logout" (client_Logout h);
  client_LogoutAll := identity_server "LogoutAll" (client_LogoutAll h) |}.
Definition reporting_conn {W} (h : ReportingServiceClient W) : ReportingServiceClient W := {|
  client_RequestReport := reporting_server RequestReport_FullMethodName (client_RequestReport h) |}.

(** The handlers of the services, each with what it needs. *)
Definition ServerHandler {W} {wo : World W mstate} `{pg : Postgres} (Encrypt : string -> proc W (res string))
    (ParseRequestURI : string -> bool) (time_json : Z -> string) (ParseIP : string -> bool)
    (OpenReader : string -> option sheet) (is_ipv4 : string -> bool) (zone : Z)
    (write_sheet : list (list string) -> res string) : ServerManagementServiceClient W := {|
  client_CreateServer := CreateServer_grpc Encrypt ParseRequestURI time_json ParseIP zone;
  client_UpdateServer := UpdateServer_grpc Encrypt ParseRequestURI time_json zone;
  client_DeleteServer := DeleteServer_grpc;
  client_ViewServers := ViewServers_grpc zone;
  client_ImportServers := ImportServers_grpc time_json OpenReader is_ipv4;
  client_ExportServers := ExportServers_grpc zone write_sheet |}.
Definition AuthHandler {W} {wo : World W istate} {ae : AEAD W} `{cr : Identity.Crypto} (jwtSecret : string)
    : AuthServiceClient W := {|
  client_Login := AuthServer_Login jwtSecret;
  client_RefreshToken := AuthServer_RefreshToken jwtSecret;
  client_Logout := AuthServer_Logout;
  client_LogoutAll := AuthServer_LogoutAll |}.
Definition ReportingHandler {W} {srv : Host W} {db : Sql.Db W rtables} `{rp : ReportStore}
    (EnqueueReport : ReportRequest -> proc W unit) : ReportingServiceClient W := {|
  client_RequestReport := RequestReport_grpc EnqueueReport |}.

(** sms-identity renames the metadata of its cookies. *)
Definition identity_outgoing (key : string) : option string :=
  if HasPrefix key "set-cookie-" then Some "Set-Cookie" else DefaultHeaderMatcher key.

(** [ForwardResponseMessage] without a matcher of the service. *)
Context (outgoing : string -> option string).

(** The HTTP servers.  A redirect and the files are those of net/http. *)
Definition management_handler {W} create_pb update_pb view_pb export_pb import_pb (h : ServerManagementServiceClient W)
    redirect files HandleImport HandleExport (r : HttpRequest) : proc W response :=
  management_http redirect
    (fun _ => ServeHTTP (RegisterServerManagementServiceHandlerClient create_pb update_pb view_pb export_pb import_pb
      incoming_header outgoing (management_conn h)) r)
    files HandleImport HandleExport (hr_Path r) (to_request r).
Definition identity_handler {W} `{cr : Identity.Crypto} login_pb refresh_pb empty_pb (h : AuthServiceClient W) redirect files
    Verify (r : HttpRequest) : proc W response :=
  identity_http redirect
    (fun _ => ServeHTTP (RegisterAuthServiceHandlerClient login_pb refresh_pb empty_pb
      DefaultHeaderMatcher identity_outgoing (identity_conn h)) r)
    files Verify (hr_Path r) (to_request r).
Definition reporting_handler {W} report_pb (h : ReportingServiceClient W) redirect files hostname (r : HttpRequest)
    : proc W response :=
  reporting_http redirect
    (fun _ => ServeHTTP (RegisterReportingServiceHandlerClient report_pb incoming_header outgoing (reporting_conn h)) r)
    files hostname (hr_Path r) (to_request r).
End apps.

(** ** The HTTP rules of the .proto files *)

(** A method and a path template, as the option google.api.http has them. *)
Definition parse_segment (s : string) : segment :=
  if HasPrefix s "{" then Capture (str_rev (str_drop 1 (str_rev (str_drop 1 s)))) else Literal s.
Definition parse_template (path : string) : list segment := map parse_segment (Split (str_drop 1 path) "/").

Definition management_http_rules : list (string * string) := [
  ("POST", "/api/v1/servers"); ("PUT", "/api/v1/servers/{server_id}"); ("DELETE", "/api/v1/servers/{server_id}");
  ("GET", "/api/v1/servers"); ("POST", "/api/v1/servers/import"); ("GET", "/api/v1/servers/export")].
Definition identity_http_rules : list (string * string) := [
  ("POST", "/api/v1/auth/login"); ("POST", "/api/v1/auth/refresh"); ("POST", "/api/v1/auth/logout");
  ("POST", "/api/v1/auth/logout-all")].
Definition reporting_http_rules : list (string * string) := [("POST", "/api/v1/servers/report")].

Definition implements {W} (routes : list (route W)) (rules : list (string * string)) : Prop :=
  map (fun rt => (rt_method rt, template (rt_pattern rt))) routes = map (fun ru => (ru.1, Some (parse_template ru.2))) rules.

Lemma routes_implement_rules {W} {rn : Runtime} c u v x i l e q r m o
    (h : ServerManagementServiceClient W) (a : AuthServiceClient W) (p : ReportingServiceClient W) :
  implements (RegisterServerManagementServiceHandlerClient c u v x i m o h) management_http_rules /\
  implements (RegisterServerManagementServiceHandlerServer c u v x i m o h) management_http_rules /\
  implements (RegisterAuthServiceHandlerClient l r e m o a) identity_http_rules /\
  implements (RegisterAuthServiceHandlerServer l r e m o a) identity_http_rules /\
  implements (RegisterReportingServiceHandlerClient q m o p) reporting_http_rules /\
  implements (RegisterReportingServiceHandlerServer q m o p) reporting_http_rules.
Proof. done. Qed.

Definition servers_path : string := "/api/v1/servers".
Definition auth_path : string := "/api/v1/auth".

Section management_rest.
Context {W : Type} {rn : Runtime} {gw : Gateway} {Hrn : RuntimeLaws rn}.
Context (create_pb : Codec CreateServerRequest) (update_pb : Codec UpdateServerRequest).
Context (view_pb export_pb : Codec ViewServersRequest) (import_pb : Codec string).
Context (incoming outgoing : string -> option string).
Implicit Types (r : HttpRequest).

(** What a request to a path below /api/v1/servers asks for. *)
Definition management_rest (client : ServerManagementServiceClient W) r : option (proc W response) :=
  let ask {Resp} (call : ctx -> proc W (outcome Resp)) : option (proc W response) :=
    Some (annotated (AnnotateContext incoming r) outgoing (fun _ => []) call) in
  let by_ := String.eqb (hr_Method r) in
  match element_of servers_path (hr_Path r) with
  | Some None =>
    if by_ "POST" then ask (fun c => call_with (client_CreateServer client) c (ref (from_body create_pb r)))
    else if by_ "GET" then ask (fun c => call_with (client_ViewServers client) c (ref (from_query view_pb r)))
    else None
  | Some (Some id) =>
    if by_ "PUT" then
      ask (fun c => call_with (client_UpdateServer client) c
        match from_body update_pb r with inl st => inl st | inr q => inr (Some (with_id q id)) end)
    else if by_ "DELETE" then ask (fun c => client_DeleteServer client c (Some id))
    else if by_ "POST" && String.eqb id "import" then
      ask (fun c => call_with (client_ImportServers client) c (ref (from_body import_pb r)))
    else if by_ "GET" && String.eqb id "export" then
      ask (fun c => call_with (client_ExportServers client) c (ref (from_query export_pb r)))
    else None
  | None => None
  end.

Lemma servers_element p t r :
  template p = Some (map Literal ["api"; "v1"; "servers"] ++ t) -> length t <= 1 ->
  path_matches p r = match element_of servers_path (hr_Path r) with
                | Some None => match_template t []
                | Some (Some id) => match_template t [id]
                | None => None
                end.
Proof. intros Hp Ht. apply (matches_element p ["api"; "v1"; "servers"] t r Hp); [done|by repeat constructor|done]. Qed.

Lemma server_id_param (id : string) : path_param (<["server_id" := id]> ∅) "server_id" = inr id.
Proof. unfold path_param. by rewrite lookup_insert_eq, (String_same (rt := rn)). Qed.

Lemma update_request (client : ServerManagementServiceClient W) r id :
  request_UpdateServer_0 update_pb client r (<["server_id" := id]> ∅) = fun c =>
    call_with (client_UpdateServer client) c
      match from_body update_pb r with inl st => inl st | inr q => inr (Some (with_id q id)) end.
Proof. unfold request_UpdateServer_0. by rewrite server_id_param. Qed.
Lemma delete_request (client : ServerManagementServiceClient W) r id :
  request_DeleteServer_0 client r (<["server_id" := id]> ∅) = fun c => client_DeleteServer client c (Some id).
Proof. unfold request_DeleteServer_0. by rewrite server_id_param. Qed.

Lemma management_candidates (client : ServerManagementServiceClient W) r :
  candidates (RegisterServerManagementServiceHandlerClient create_pb update_pb view_pb export_pb import_pb
    incoming outgoing client) r = option_list (management_rest client r).
Proof.
  unfold candidates, RegisterServerManagementServiceHandlerClient. cbn [omap list_omap]. unfold candidate.
  cbn [rt_method rt_pattern rt_handle].
  rewrite (servers_element pattern_CreateServer_0 [] r), (servers_element pattern_UpdateServer_0 [Capture "server_id"] r),
    (servers_element pattern_DeleteServer_0 [Capture "server_id"] r), (servers_element pattern_ViewServers_0 [] r),
    (servers_element pattern_ImportServers_0 [Literal "import"] r), (servers_element pattern_ExportServers_0 [Literal "export"] r)
    by (done || cbn; lia).
  unfold management_rest. rewrite !(String.eqb_sym _ (hr_Method r)). generalize (hr_Method r) as m. intros m.
  destruct (element_of servers_path (hr_Path r)) as [[id|]|]; cbn [match_template mbind option_bind].
  - rewrite !(String.eqb_sym _ id), update_request, delete_request.
    destruct (String.eqb id "import"), (String.eqb id "export").
    all: destruct (String.eqb_spec m "POST") as [->|]; [done|].
    all: destruct (String.eqb_spec m "PUT") as [->|]; [done|].
    all: destruct (String.eqb_spec m "DELETE") as [->|]; [done|].
    all: by destruct (String.eqb_spec m "GET") as [->|].
  - destruct (String.eqb_spec m "POST") as [->|]; [done|].
    destruct (String.eqb_spec m "GET") as [->|]; [done|]. by repeat case_match.
  - by repeat case_match.
Qed.
End management_rest.

Section other_rest.
Context {W : Type} {rn : Runtime} {gw : Gateway} {Hrn : RuntimeLaws rn}.
Context (login_pb : Codec LoginRequest) (refresh_pb : Codec string) (empty_pb : Codec unit).
Context (report_pb : Codec RequestReportRequest) (incoming outgoing : string -> option string).
Implicit Types (r : HttpRequest).

Definition identity_rest (client : AuthServiceClient W) r : option (proc W response) :=
  let ask {Resp} (call : ctx -> proc W (outcome (with_header Resp))) : option (proc W response) :=
    Some (annotated (AnnotateContext incoming r) outgoing header call) in
  match element_of auth_path (hr_Path r) with
  | Some (Some name) =>
    if negb (String.eqb (hr_Method r) "POST") then None
    else if String.eqb name "login" then ask (fun c => call_with (client_Login client) c (ref (from_body login_pb r)))
    else if String.eqb name "refresh" then
      ask (fun c => call_with (client_RefreshToken client) c (ref (from_body refresh_pb r)))
    else if String.eqb name "logout" then ask (fun c => call_with (client_Logout client) c (from_body empty_pb r))
    else if String.eqb name "logout-all" then ask (fun c => call_with (client_LogoutAll client) c (from_body empty_pb r))
    else None
  | _ => None
  end.

Definition reporting_rest (client : ReportingServiceClient W) r : option (proc W response) :=
  if String.eqb (hr_Method r) "POST" && bool_decide (element_of servers_path (hr_Path r) = Some (Some "report")) then
    Some (annotated (AnnotateContext incoming r) outgoing (fun _ => [])
      (fun c => call_with (client_RequestReport client) c (from_body report_pb r)))
  else None.

Lemma auth_element p (name : string) r :
  template p = Some (map Literal ["api"; "v1"; "auth"] ++ [Literal name]) ->
  path_matches p r = match element_of auth_path (hr_Path r) with
                | Some (Some id) => if String.eqb id name then Some ∅ else None
                | _ => None
                end.
Proof.
  intros Hp. rewrite (matches_element p ["api"; "v1"; "auth"] [Literal name] r Hp); [|done|by repeat constructor|done].
  change (base_of _) with auth_path. destruct (element_of _ _) as [[id|]|]; [|done..]. cbn [match_template].
  by rewrite String.eqb_sym.
Qed.

Lemma identity_candidates (client : AuthServiceClient W) r :
  candidates (RegisterAuthServiceHandlerClient login_pb refresh_pb empty_pb incoming outgoing client) r =
  option_list (identity_rest client r).
Proof.
  unfold candidates, RegisterAuthServiceHandlerClient. cbn [omap list_omap]. unfold candidate.
  cbn [rt_method rt_pattern rt_handle].
  rewrite (auth_element pattern_Login_0 "login"), (auth_element pattern_RefreshToken_0 "refresh"),
    (auth_element pattern_Logout_0 "logout"), (auth_element pattern_LogoutAll_0 "logout-all") by done.
  unfold identity_rest. rewrite !(String.eqb_sym "POST"). generalize (hr_Method r) as m. intros m.
  destruct (element_of auth_path (hr_Path r)) as [[name|]|]; [|by destruct (String.eqb m "POST")..].
  destruct (String.eqb m "POST"); [|done]. cbn [negb].
  destruct (String.eqb_spec name "login") as [->|]; [done|]. destruct (String.eqb_spec name "refresh") as [->|]; [done|].
  destruct (String.eqb_spec name "logout") as [->|]; [done|]. by destruct (String.eqb_spec name "logout-all") as [->|].
Qed.

Lemma reporting_candidates (client : ReportingServiceClient W) r :
  candidates (RegisterReportingServiceHandlerClient report_pb incoming outgoing client) r =
  option_list (reporting_rest client r).
Proof.
  unfold candidates, RegisterReportingServiceHandlerClient. cbn [omap list_omap]. unfold candidate.
  cbn [rt_method rt_pattern rt_handle].
  rewrite (servers_element pattern_RequestReport_0 [Literal "report"] r) by (done || cbn; lia).
  unfold reporting_rest. rewrite (String.eqb_sym "POST"). destruct (String.eqb (hr_Method r) "POST"); [|done].
  destruct (element_of servers_path (hr_Path r)) as [[id|]|]; cbn [match_template andb]; [|done..].
  rewrite String.eqb_sym. destruct (String.eqb_spec id "report") as [->|Hne].
  - rewrite bool_decide_eq_true_2 by done. done.
  - rewrite bool_decide_eq_false_2 by congruence. done.
Qed.
End other_rest.

(** An answer is that of a call, or there is none and the runtime says so. *)
Definition served {W} (call : option (proc W response)) (out : response * W) (w : W) : Prop :=
  match call with
  | Some p => out = p w
  | None => out.2 = w /\ rs_status out.1 ∈ routing_errors
  end.

Lemma ServeHTTP_served {W} {rn : Runtime} {gw : Gateway} {Hrn : RuntimeLaws rn} (routes : list (route W)) r call w :
  posts_form r = false -> candidates routes r = option_list call -> served call (ServeHTTP routes r w) w.
Proof.
  intros Hp Hc. pose proof (ServeHTTP_only routes r w Hp) as H. rewrite Hc in H. destruct call as [p|]; [done|].
  destruct H as (e & -> & He). by split.
Qed.

(** C10: the generated gateways implement the HTTP rules of the .proto files.
    Whatever the request, unless it posts a form, exactly the method that the
    rules give to its method and path is called, with the message of the body or
    of the query in which an identifier of the path takes precedence; any other
    request calls nothing and is answered 400, 404 or 501. *)
Theorem rest_interface {W} {rn : Runtime} {gw : Gateway} {Hrn : RuntimeLaws rn} create_pb update_pb view_pb export_pb import_pb
    login_pb refresh_pb empty_pb report_pb (incoming outgoing : string -> option string)
    (management : ServerManagementServiceClient W) (identity : AuthServiceClient W) (reporting : ReportingServiceClient W)
    (r : HttpRequest) (w : W) :
  posts_form r = false ->
  served (management_rest create_pb update_pb view_pb export_pb import_pb incoming outgoing management r)
    (ServeHTTP (RegisterServerManagementServiceHandlerClient create_pb update_pb view_pb export_pb import_pb
       incoming outgoing management) r w) w /\
  served (identity_rest login_pb refresh_pb empty_pb incoming outgoing identity r)
    (ServeHTTP (RegisterAuthServiceHandlerClient login_pb refresh_pb empty_pb incoming outgoing identity) r w) w /\
  served (reporting_rest report_pb incoming outgoing reporting r)
    (ServeHTTP (RegisterReportingServiceHandlerClient report_pb incoming outgoing reporting) r w) w.
Proof.
  intros Hp. split_and!; apply ServeHTTP_served; try done;
    [apply management_candidates|apply identity_candidates|apply reporting_candidates].
Qed.

(** ** Nobody gets past the permission check *)

(** The headers of the request name a caller whose role has the permission. *)
Definition authorised {gw : Gateway} (r : HttpRequest) (perm : string) : Prop :=
  exists peer headers p, Permutation headers (header_lines (hr_Header r)) /\
    caller (gateway_ctx peer headers) = Some p /\ role_may (RoleCode p) perm = true.

(** The gRPC method that a request to sms-management asks for. *)
Definition rest_method (r : HttpRequest) : option string :=
  let meth := String.eqb (hr_Method r) in
  match element_of servers_path (hr_Path r) with
  | Some None => if meth "POST" then Some "CreateServer" else if meth "GET" then Some "ViewServers" else None
  | Some (Some id) =>
    if meth "PUT" then Some "UpdateServer" else if meth "DELETE" then Some "DeleteServer"
    else if meth "POST" && String.eqb id "import" then Some "ImportServers"
    else if meth "GET" && String.eqb id "export" then Some "ExportServers" else None
  | None => None
  end.

Section guarded.
Context {W : Type} {rn : Runtime} {gw : Gateway} {Hrn : RuntimeLaws rn} (outgoing : string -> option string).
Context (rules : gmap string string) (Hrules : map_Forall (fun _ perm => perm <> "") rules).

Lemma status_error st : (400 <= HTTPStatusFromCode (s_code st))%Z.
Proof. destruct (s_code st); cbn; lia. Qed.
Lemma routing_error s : s ∈ routing_errors -> (400 <= s)%Z.
Proof. unfold routing_errors. rewrite !elem_of_cons, elem_of_nil. lia. Qed.

(** A call that is refused changes nothing. *)
Lemma annotated_guarded {Req Resp} method perm (h : handler (W := W) (Req := Req) (Resp := Resp))
    (md : Resp -> list (string * string)) (protoReq : status + Req) (r r' : HttpRequest) (w : W) :
  rules !! method = Some perm -> hr_Header r' = hr_Header r ->
  let out := annotated (AnnotateContext incoming_header r') outgoing md (fun c =>
    call_with (chain [AuthMetadataInterceptor; PermissionInterceptor (Some NewAuthorizer) rules] method h) c protoReq) w in
  out.2 = w /\ (400 <= rs_status out.1)%Z \/ authorised r perm.
Proof.
  intros Hm Hh. cbv zeta. unfold annotated.
  assert (forall st, (400 <= rs_status (HTTPError st))%Z) as Hst.
  { intros st. rewrite (HTTPError_status (rt := rn)). apply status_error. }
  destruct (AnnotateContext incoming_header r') as [st|c] eqn:Ec; [left; split; [done|apply Hst]|].
  destruct (AnnotateContext_md (rt := rn) _ _ _ Ec) as (peer & headers & Hperm & ->). rewrite Hh in Hperm.
  destruct protoReq as [st|q]; [left; split; [done|apply Hst]|]. cbn -[chain]. unfold mbind, proc_bind.
  rewrite (gate_spec rules Hrules), Hm. destruct (caller _) as [p|] eqn:Ep; [|left; split; [done|apply Hst]].
  destruct (role_may (RoleCode p) perm) eqn:Er; [|left; split; [done|apply Hst]]. right. by exists peer, headers, p.
Qed.
End guarded.

(** The method asked for, when a route has the method and the pattern of the
    request. *)
Ltac asks_for Hm Hmeth :=
  let Hp := fresh "Hp" in let elem := fresh "elem" in
  intros Hp; specialize (Hmeth Hp); erewrite servers_element in Hm by (reflexivity || cbn; lia); unfold rest_method;
  rewrite <- Hmeth; destruct (element_of servers_path _) as [[elem|]|]; cbn [match_template] in Hm; try done;
  match type of Hm with (if String.eqb ?s ?e then _ else _) = _ =>
    revert Hm; rewrite (String.eqb_sym s e); by destruct (String.eqb_spec e s) as [->|]
  end.

(** Each route of sms-management leads through the gate. *)
Lemma management_guarded {W} {rn : Runtime} {gw : Gateway} {Hrn : RuntimeLaws rn} outgoing create_pb update_pb view_pb export_pb
    import_pb (h : ServerManagementServiceClient W) (r : HttpRequest) (w : W) :
  let out := ServeHTTP (RegisterServerManagementServiceHandlerClient create_pb update_pb view_pb export_pb import_pb
    incoming_header outgoing (management_conn h)) r w in
  out.2 = w /\ (400 <= rs_status out.1)%Z \/
  exists name perm, management_permissions !! management_method name = Some perm /\ authorised r perm /\
    (posts_form r = false -> rest_method r = Some name).
Proof.
  cbv zeta. match goal with |- context [ServeHTTP ?l r w] =>
    destruct (ServeHTTP_any l r w) as [(e & -> & He)|(rt & r' & ps & Hrt & Hh & Hm & Hmeth & ->)] end.
  { left. split; [done|by apply routing_error]. }
  assert (forall {Req Resp} name perm (method : handler (W := W) (Req := Req) (Resp := Resp)) md m,
    management_permissions !! management_method name = Some perm ->
    (posts_form r = false -> rest_method r = Some name) ->
    let out := annotated (AnnotateContext incoming_header r') outgoing md (fun c =>
      call_with (management_server (management_method name) method) c m) w in
    out.2 = w /\ (400 <= rs_status out.1)%Z \/
    exists name perm, management_permissions !! management_method name = Some perm /\ authorised r perm /\
      (posts_form r = false -> rest_method r = Some name)) as Hgo.
  { intros Req Resp name perm method md m Hp Hname.
    destruct (annotated_guarded outgoing management_permissions management_rules (management_method name) perm method md m
      r r' w Hp Hh) as [Hw|Ha]; [by left|right].
    exists name, perm. split; [exact Hp|]. split; [exact Ha|exact Hname]. }
  unfold RegisterServerManagementServiceHandlerClient in Hrt. rewrite !elem_of_cons, elem_of_nil in Hrt.
  destruct Hrt as [-> |[-> |[-> |[-> |[-> |[-> |[]]]]]]]; cbn [rt_handle rt_method rt_pattern] in *.
  - apply (Hgo _ _ "CreateServer" PermServerCreate (client_CreateServer h)); [by vm_compute|asks_for Hm Hmeth].
  - apply (Hgo _ _ "UpdateServer" PermServerUpdate (client_UpdateServer h)); [by vm_compute|asks_for Hm Hmeth].
  - apply (Hgo _ _ "DeleteServer" PermServerDelete (client_DeleteServer h)); [by vm_compute|asks_for Hm Hmeth].
  - apply (Hgo _ _ "ViewServers" PermServerRead (client_ViewServers h)); [by vm_compute|asks_for Hm Hmeth].
  - apply (Hgo _ _ "ImportServers" PermServerImport (client_ImportServers h)); [by vm_compute|asks_for Hm Hmeth].
  - apply (Hgo _ _ "ExportServers" PermServerExport (client_ExportServers h)); [by vm_compute|asks_for Hm Hmeth].
Qed.

Lemma reporting_guarded {W} {rn : Runtime} {gw : Gateway} {Hrn : RuntimeLaws rn} outgoing report_pb
    (h : ReportingServiceClient W) (r : HttpRequest) (w : W) :
  let out := ServeHTTP (RegisterReportingServiceHandlerClient report_pb incoming_header outgoing (reporting_conn h)) r w in
  out.2 = w /\ (400 <= rs_status out.1)%Z \/ authorised r PermReportRequest.
Proof.
  cbv zeta. match goal with |- context [ServeHTTP ?l r w] =>
    destruct (ServeHTTP_any l r w) as [(e & -> & He)|(rt & r' & ps & Hrt & Hh & _ & _ & ->)] end.
  { left. split; [done|by apply routing_error]. }
  apply list_elem_of_singleton in Hrt as ->. cbn [rt_handle].
  exact (annotated_guarded outgoing reporting_permissions reporting_rules RequestReport_FullMethodName PermReportRequest
    (client_RequestReport h) (fun _ => []) (from_body report_pb r') r r' w eq_refl Hh).
Qed.

(** The paths that the HTTP server does not give to the gateway. *)
Definition beside_gateway (path : string) : Prop :=
  cleanPath path <> path \/ path = "/health" \/ HasPrefix path "/openapi/" = true.

Lemma mux_gateway {W} (redirect : string -> request -> proc W response) (gateway files : request -> proc W response)
    exact path (q : request) (w : W) :
  (forall p q w, (redirect p q w).2 = w) -> (forall q w, (files q w).2 = w) ->
  (mux redirect gateway files exact path q w).2 = w /\ (cleanPath path <> path \/ HasPrefix path "/openapi/" = true) \/
  (exists h, (path, h) ∈ exact /\ mux redirect gateway files exact path q w = h q w) \/
  mux redirect gateway files exact path q w = gateway q w.
Proof.
  intros Hr Hf. unfold mux. destruct (String.eqb_spec (cleanPath path) path) as [E|E]; cbn [negb].
  - destruct (List.find _ exact) as [[k h]|] eqn:Efind.
    + apply List.find_some in Efind as [Hin Hk]. apply String.eqb_eq in Hk as <-. right; left.
      exists h. split; [by apply list_elem_of_In|done].
    + destruct (HasPrefix path "/openapi/"); [left; split; [apply Hf|by right]|by right; right].
  - left. split; [apply Hr|by left].
Qed.

Section servers.
Context {W : Type} {rn : Runtime} {gw : Gateway} {Hrn : RuntimeLaws rn} (outgoing : string -> option string).
Context (redirect : string -> request -> proc W response) (files : request -> proc W response).
Context (Hredirect : forall p q w, (redirect p q w).2 = w) (Hfiles : forall q w, (files q w).2 = w).

(** C9: whoever sends whatever request to the HTTP server of sms-management,
    on any path but those of the REST import and export, changes something, or
    gets an answer of a handler, only if the headers name a caller whose role
    has the permission of a method, which is the one that the method and the
    path stand for unless the request posts a form. *)
Theorem only_authorised create_pb update_pb view_pb export_pb import_pb (h : ServerManagementServiceClient W)
    HandleImport HandleExport (r : HttpRequest) (w : W) :
  hr_Path r ∉ ["/api/v1/servers/import"; "/api/v1/servers/export"] ->
  let out := management_handler outgoing create_pb update_pb view_pb export_pb import_pb h redirect files HandleImport HandleExport r w in
  out.2 = w /\ (beside_gateway (hr_Path r) \/ (400 <= rs_status out.1)%Z) \/
  exists name perm, management_permissions !! management_method name = Some perm /\ authorised r perm /\
    (posts_form r = false -> rest_method r = Some name).
Proof.
  intros Hpath. cbv zeta. unfold management_handler, management_http.
  match goal with |- context [mux redirect ?g files ?ex ?path ?q] =>
    destruct (mux_gateway redirect g files ex path q w Hredirect Hfiles) as [[Hw Hb]|[(f & Hf & ->)| ->]] end.
  - left. split; [done|left]. unfold beside_gateway. tauto.
  - rewrite !not_elem_of_cons in Hpath. rewrite !elem_of_cons, elem_of_nil in Hf.
    destruct Hf as [[= -> ->]|[[= E _]|[[= E _]|[]]]]; [|tauto..]. left. split; [done|left]. by right; left.
  - destruct (management_guarded outgoing create_pb update_pb view_pb export_pb import_pb h r w) as [[Hw Hs]|Ha]; [left|by right].
    split; [exact Hw|by right].
Qed.

Lemma only_authorised_reports report_pb (h : ReportingServiceClient W) hostname (r : HttpRequest) (w : W) :
  let out := reporting_handler outgoing report_pb h redirect files hostname r w in
  out.2 = w /\ (beside_gateway (hr_Path r) \/ (400 <= rs_status out.1)%Z) \/ authorised r PermReportRequest.
Proof.
  cbv zeta. unfold reporting_handler, reporting_http.
  match goal with |- context [mux redirect ?g files ?ex ?path ?q] =>
    destruct (mux_gateway redirect g files ex path q w Hredirect Hfiles) as [[Hw Hb]|[(f & Hf & ->)| ->]] end.
  - left. split; [done|left]. unfold beside_gateway. tauto.
  - apply list_elem_of_singleton in Hf as [= -> ->]. left. split; [done|left]. by right; left.
  - destruct (reporting_guarded outgoing report_pb h r w) as [[Hw Hs]|Ha]; [left|by right]. split; [exact Hw|by right].
Qed.
End servers.

(** ** Cookies of sms-identity *)
Section cookies.
Context {W} {wo : World W istate} {ae : AEAD W} `{cr : Identity.Crypto} {rn : Runtime} {gw : Gateway} {Hrn : RuntimeLaws rn} {Hgw : GatewayLaws gw}.
Context (jwtSecret : string) (login_pb : Codec LoginRequest) (refresh_pb : Codec string) (empty_pb : Codec unit).

Definition cookies_in (a : response) : list string := header_values (rs_header a) "Set-Cookie".

(** The gateway of sms-identity turns the header metadata of a login into the
    three cookies. *)
Lemma token_cookies_arrive {Resp} access refresh csrf expiresIn (a : Resp) :
  Permutation (cookies_in (answering identity_outgoing header (Reply (WithHeader (token_cookies access refresh csrf expiresIn) a))))
    [authCookie "access_token" access expiresIn true; authCookie "refresh_token" refresh 604800 true;
     authCookie "csrf_token" csrf 86400 false].
Proof. unfold cookies_in, answering. cbn [header]. by rewrite (Forward_cookies (rt := rn)). Qed.

(** A logout over REST clears no cookie, although its handler sends three that
    have expired: their metadata key is none that the gateway renames. *)
Lemma logout_clears_no_cookie (r : HttpRequest) (w : W) :
  posts_form r = false -> hr_Method r = "POST" ->
  hr_Path r = "/api/v1/auth/logout" ->
  forall a w', ServeHTTP (RegisterAuthServiceHandlerClient login_pb refresh_pb empty_pb DefaultHeaderMatcher identity_outgoing
    (identity_conn (AuthHandler jwtSecret))) r w = (a, w') ->
  rs_status a = StatusOK -> w' = w /\ cookies_in a = [].
Proof.
  intros Hp Hpost Hpath a w' E Hok.
  pose proof (ServeHTTP_served _ _ _ w Hp (identity_candidates login_pb refresh_pb empty_pb DefaultHeaderMatcher
    identity_outgoing (identity_conn (AuthHandler jwtSecret)) r)) as H.
  rewrite E in H. unfold identity_rest in H. rewrite Hpath, Hpost in H.
  change (element_of auth_path "/api/v1/auth/logout") with (Some (Some "logout")) in H.
  change ((a, w') = annotated (AnnotateContext DefaultHeaderMatcher r) identity_outgoing header
    (fun c => call_with (identity_server "Logout" AuthServer_Logout) c (from_body empty_pb r)) w) in H.
  assert (forall st, a <> HTTPError st) as Hno.
  { intros st ->. rewrite (HTTPError_status (rt := rn)) in Hok. pose proof (status_error st) as Hst.
    rewrite Hok in Hst. by compute in Hst. }
  unfold annotated in H. destruct (AnnotateContext DefaultHeaderMatcher r) as [st|c] eqn:Ec.
  { injection H as -> _. by destruct (Hno st). }
  destruct (AnnotateContext_md (rt := rn) _ _ _ Ec) as (peer & headers & _ & ->).
  destruct (from_body empty_pb r) as [st|[]]; [injection H as -> _; by destruct (Hno st)|].
  cbn [call_with] in H. unfold mbind, proc_bind in H. unfold identity_server in H.
  destruct (CSRF_cases (auth_method "Logout") AuthServer_Logout (Ctx peer (Some (annotate DefaultHeaderMatcher headers)) None) tt w)
    as [E'|[e E']]; rewrite E' in H; injection H as -> ->; [|by destruct (Hno (Status PermissionDenied (TextAnd "CSRF validation failed: " e)))].
  split; [done|]. unfold cookies_in, answering. cbn [header]. apply Permutation_nil.
  rewrite (Forward_cookies (rt := rn)).
  assert (forall v : string, match identity_outgoing (ToLower "Clear-Cookie") with
    | Some k => if String.eqb k "Set-Cookie" then Some v else None | None => None end = None) as Hnone.
  { intros v. change (identity_outgoing (ToLower "Clear-Cookie")) with (DefaultHeaderMatcher "clear-cookie").
    destruct (DefaultHeaderMatcher "clear-cookie") as [k|] eqn:Ek; [|done]. apply default_other in Ek; [|done].
    by destruct (String.eqb_spec k "Set-Cookie") as [->|]. }
  unfold cleared_cookies. cbn [omap list_omap fst snd]. by rewrite !Hnone.
Qed.

(** The gateway keeps the default matcher, under which neither the cookie nor
    the header of the CSRF token reaches the keys that the interceptor reads:
    over REST it lets every call pass. *)
Lemma csrf_unchecked_over_rest {Req Resp} name (h : handler (W := W) (Req := Req) (Resp := Resp)) (r : HttpRequest) c req (w : W) :
  (forall kv, kv ∈ header_lines (hr_Header r) -> HasPrefix (ToLower kv.1) "grpc-metadata-" = false) ->
  AnnotateContext DefaultHeaderMatcher r = inr c -> identity_server name h c req w = h c req w.
Proof.
  intros Hclient Hc. destruct (AnnotateContext_md (rt := rn) _ _ _ Hc) as (peer & headers & Hperm & ->).
  assert (forall k, looked_up k = true -> HasPrefix k "grpcgateway-" = false -> ToLower k = k ->
    md_Get (annotate DefaultHeaderMatcher headers) k = []) as Hnone.
  { intros k Hk Hpre Hlow. rewrite annotate_Get by done. unfold matched.
    assert (forall l, l ⊆ headers -> omap (fun kv => match DefaultHeaderMatcher kv.1 with
      | Some k' => if String.eqb (ToLower k') (ToLower k) then Some kv.2 else None | None => None end) l = []) as Hl; [|by apply Hl].
    intros l. induction l as [|kv l IH]; intros Hl; [done|]. cbn [omap list_omap].
    rewrite IH by (intros y Hy; apply Hl; by right).
    destruct (DefaultHeaderMatcher kv.1) as [k'|] eqn:E; [|done]. apply default_other in E.
    2:{ apply Hclient. rewrite <- Hperm. apply Hl. by left. }
    destruct (String.eqb_spec (ToLower k') (ToLower k)) as [El|]; [|done]. apply HasPrefix_split in E as [t ->].
    rewrite Hlow in El.
    assert (HasPrefix k "grpcgateway-" = true); [|congruence]. apply HasPrefix_split. exists (ToLower t). by rewrite <- El. }
  unfold identity_server, CSRFInterceptor. destruct (negb _); [done|]. cbn [ctx_md].
  by rewrite !Hnone by (by vm_compute || done).
Qed.
End cookies.

(** ** The theorems at work *)

(** A runtime: the first route that fits. *)
Fixpoint toy_pick (i : nat) (keys : list (string * Pattern)) (r : HttpRequest) : response + nat * HttpRequest * PathParams :=
  match keys with
  | [] => inl {| rs_status := StatusNotFound; rs_header := []; rs_body := "" |}
  | (m, p) :: keys =>
    match (if String.eqb m (hr_Method r) then path_matches p r else None) with
    | Some ps => inr (i, r, ps)
    | None => toy_pick (S i) keys r
    end
  end.
Definition toy_annotated {gw : Gateway} (m : string -> option string) (r : HttpRequest) : status + ctx :=
  inr (Ctx (Some "127.0.0.1:1") (Some (annotate m (header_lines (hr_Header r)))) None).
Definition toy_runtime {gw : Gateway} : Runtime := {|
  pick := toy_pick 0;
  String_ := Ok;
  AnnotateContext := toy_annotated;
  AnnotateIncomingContext := toy_annotated;
  HTTPError := fun st => {| rs_status := HTTPStatusFromCode (s_code st); rs_header := []; rs_body := "" |};
  ForwardResponseMessage := fun _ m md _ => {|
    rs_status := StatusOK; rs_body := "";
    rs_header := omap (fun kv => match m (ToLower kv.1) with Some k => Some (k, kv.2) | None => None end) md |};
  lost := Status Internal (Text "connection lost") |}.

Lemma toy_pick_spec keys (r : HttpRequest) i :
  match toy_pick i keys r with
  | inl e => rs_status e = StatusNotFound /\
      forall j p ps, keys !! j = Some (hr_Method r, p) -> path_matches p r <> Some ps
  | inr (j, r', ps) => r' = r /\ exists k p, j = i + k /\ keys !! k = Some (hr_Method r, p) /\ path_matches p r = Some ps
  end.
Proof.
  revert i. induction keys as [|[m p] keys IH]; intros i; [done|]. cbn [toy_pick].
  destruct (String.eqb_spec m (hr_Method r)) as [->|Hne].
  - destruct (path_matches p r) as [ps|] eqn:Em.
    + split; [done|]. exists 0, p. by rewrite Nat.add_0_r.
    + specialize (IH (S i)). destruct (toy_pick (S i) keys r) as [e|[[j r'] ps]].
      * destruct IH as [He Hn]. split; [done|]. intros [|j] q ps; [intros [= <-]; congruence|apply Hn].
      * destruct IH as (-> & k & q & -> & Hk & Hq). split; [done|]. exists (S k), q. by rewrite Nat.add_succ_r.
  - specialize (IH (S i)). destruct (toy_pick (S i) keys r) as [e|[[j r'] ps]].
    + destruct IH as [He Hn]. split; [done|]. intros [|j] q ps; [by intros [= E _]|apply Hn].
    + destruct IH as (-> & k & q & -> & Hk & Hq). split; [done|]. exists (S k), q. by rewrite Nat.add_succ_r.
Qed.

Lemma toy_runtime_laws {gw : Gateway} : RuntimeLaws (gw := gw) toy_runtime.
Proof.
  split; try done.
  - intros keys r i r' ps E. pose proof (toy_pick_spec keys r 0) as H. cbn [pick toy_runtime] in E. rewrite E in H.
    destruct H as (-> & k & p & -> & Hk & Hm). split; [done|]. by exists (hr_Method r), p.
  - intros keys r i p ps _ Hi Hm. pose proof (toy_pick_spec keys r 0) as H. cbn [pick toy_runtime].
    destruct (toy_pick 0 keys r) as [e|out]; [|by exists out]. by destruct H as [_ H]; destruct (H i p ps).
  - intros keys r e E. pose proof (toy_pick_spec keys r 0) as H. cbn [pick toy_runtime] in E. rewrite E in H.
    destruct H as [-> _]. by right; left.
  - intros m r c [= <-]. by eexists _, _.
  - intros Resp m md a. cbn [ForwardResponseMessage toy_runtime rs_header]. unfold header_values.
    induction md as [|[k v] md IH]; [done|]. cbn [omap list_omap fst snd]. destruct (m (ToLower k)) as [k'|]; [|done].
    cbn [omap list_omap fst snd]. destruct (String.eqb k' "Set-Cookie"); [by constructor|done].
Qed.

(** Messages of JSON: one field is read. *)
Definition json_codec {A} (zero : A) (of_members : list (string * json) -> option A) (of_form : Values -> A) : Codec A := {|
  Gateway.zero := zero;
  Decode := fun b =>
    match b with
    | Err e => (zero, Some e)
    | Ok "" => (zero, Some io_EOF)
    | Ok s => match (j ← parse s; m ← members j; of_members m) with
              | Some a => (a, None)
              | None => (zero, Some (ErrS "json"))
              end
    end;
  PopulateQueryParameters := fun form _ => Ok (of_form form) |}.

Definition named (name : string) : CreateServerRequest := api_request name "" "".
Definition asked_for (name : string) : ViewServersRequest := {|
  rq_Page := 0; rq_Limit := 0; rq_FilterStatus := ""; rq_FilterName := name; rq_CreatedFrom := ""; rq_CreatedTo := "";
  rq_SortBy := ""; rq_SortDirection := "" |}.
Definition toy_create : Codec CreateServerRequest :=
  json_codec (named "") (fun m => named <$> string_field "server_name" m) (fun _ => named "").
Definition toy_update : Codec UpdateServerRequest :=
  json_codec {| rq_ServerId := ""; rq_Server := named "" |}
    (fun m => id ← string_field "server_id" m; n ← string_field "server_name" m;
      Some {| rq_ServerId := id; rq_Server := named n |}) (fun _ => {| rq_ServerId := ""; rq_Server := named "" |}).
Definition toy_view : Codec ViewServersRequest :=
  json_codec (asked_for "") (fun _ => None) (fun form => asked_for (Header_Get form "filter_name")).
Definition toy_text : Codec string := json_codec "" (string_field "refresh_token") (fun _ => "").
Definition toy_login : Codec LoginRequest :=
  json_codec {| Identifier := ""; LoginPassword := "" |}
    (fun m => u ← string_field "identifier" m; p ← string_field "password" m; Some {| Identifier := u; LoginPassword := p |})
    (fun _ => {| Identifier := ""; LoginPassword := "" |}).
Definition toy_empty : Codec unit := json_codec tt (fun _ => Some tt) (fun _ => tt).
Definition toy_report : Codec RequestReportRequest :=
  json_codec {| TargetEmail := ""; StartDate := ""; EndDate := "" |} (fun _ => None)
    (fun _ => {| TargetEmail := ""; StartDate := ""; EndDate := "" |}).

(** Servers that write down what they are asked. *)
Definition noting {Req Resp} (text : Req -> string) (a : Resp) : handler (W := list string) (Req := Req) (Resp := Resp) :=
  fun _ q l => (Reply a, l ++ [text q]).
Definition toy_row : PBServer := mapServerToPB 0 (imported_server "db" "10.0.0.2").
Definition toy_management : ServerManagementServiceClient (list string) := {|
  client_CreateServer := noting (from_option (fun q => "create " +:+ rq_ServerName q) "") toy_row;
  client_UpdateServer := noting (from_option (fun q => "update " +:+ rq_ServerId q +:+ " " +:+ rq_ServerName (rq_Server q)) "") toy_row;
  client_DeleteServer := noting (from_option (fun id => "delete " +:+ id) "") true;
  client_ViewServers := noting (from_option (fun q => "view " +:+ rq_FilterName q) "") {| TotalCount := 0; Servers := [] |};
  client_ImportServers := fun _ _ => mret (refuse Internal "import");
  client_ExportServers := noting (fun _ => "export") {| FileContent := ""; Filename := "" |} |}.
Definition toy_identity : AuthServiceClient (list string) :=
  let tokens := {| AccessToken := "a"; RefreshTokenText := "r"; TokenType := "Bearer"; ExpiresIn := 900 |} in {|
  client_Login := noting (from_option (fun q => "login " +:+ Identifier q) "") (WithHeader [] tokens);
  client_RefreshToken := noting (from_option (fun q => "refresh " +:+ q) "") (WithHeader [] tokens);
  client_Logout := noting (fun _ => "logout") (WithHeader [] "");
  client_LogoutAll := noting (fun _ => "logout-all") (WithHeader [] "") |}.
Definition toy_reporting : ReportingServiceClient (list string) := {|
  client_RequestReport := noting (fun q => "report " +:+ TargetEmail q) accepted |}.

Definition http (method path query : string) (role body : string) : HttpRequest := {|
  hr_Method := method; hr_Path := path; hr_RawQuery := query; hr_Body := Ok body;
  hr_Header := list_to_map [("X-User-Id", ["7"]); ("X-User-Role", [role])] |}.

#[local] Existing Instances toy_gateway toy_runtime toy_gateway_laws toy_runtime_laws.

Definition toy_routes (client : ServerManagementServiceClient (list string)) : list (route (list string)) :=
  RegisterServerManagementServiceHandlerClient toy_create toy_update toy_view toy_view toy_text incoming_header Some client.
Definition put_request : HttpRequest :=
  http "PUT" "/api/v1/servers/7" "" "ADMIN" (Marshal (JObj [("server_id", JStr "8"); ("server_name", JStr "web")])).

Lemma rest_interface_witness :
  let serve r := ServeHTTP (toy_routes toy_management) r [] in
  (serve put_request).2 = ["update 7 web"] /\
  (serve (http "DELETE" "/api/v1/servers/7" "" "" "")).2 = ["delete 7"] /\
  (serve (http "GET" "/api/v1/servers" "filter_name=a%2Fb" "" "")).2 = ["view a/b"] /\
  rs_status (serve (http "GET" "/api/v1/servers" "filter_name=%2" "" "")).1 = StatusBadRequest /\
  (serve (http "POST" "/api/v1/servers" "" "" "")).2 = ["create "] /\
  rs_status (serve (http "DELETE" "/api/v1/servers/7/x" "" "" "")).1 = StatusNotFound /\
  served (management_rest toy_create toy_update toy_view toy_view toy_text incoming_header Some toy_management put_request)
    (serve put_request) [] /\
  served (identity_rest toy_login toy_text toy_empty incoming_header Some toy_identity put_request)
    (ServeHTTP (RegisterAuthServiceHandlerClient toy_login toy_text toy_empty incoming_header Some toy_identity) put_request []) [] /\
  served (reporting_rest toy_report incoming_header Some toy_reporting put_request)
    (ServeHTTP (RegisterReportingServiceHandlerClient toy_report incoming_header Some toy_reporting) put_request []) [].
Proof.
  cbv zeta. split; [vm_compute; reflexivity|]. split; [vm_compute; reflexivity|]. split; [vm_compute; reflexivity|].
  split; [vm_compute; reflexivity|]. split; [vm_compute; reflexivity|]. split; [vm_compute; reflexivity|].
  exact (rest_interface toy_create toy_update toy_view toy_view toy_text toy_login toy_text toy_empty toy_report
    incoming_header Some toy_management toy_identity toy_reporting put_request [] eq_refl).
Defined.

Definition toy_app : HttpRequest -> proc (list string) response :=
  management_handler Some toy_create toy_update toy_view toy_view toy_text toy_management
    (fun _ _ => mret (plain "moved")) (fun _ => mret (plain "file")) (fun _ => mret (plain "import")) (fun _ => mret (plain "export")).

Lemma only_authorised_witness :
  (toy_app put_request []).2 = ["update 7 web"] /\
  (toy_app (http "DELETE" "/api/v1/servers/7" "" "USER" "") []).2 = [] /\
  rs_status (toy_app (http "DELETE" "/api/v1/servers/7" "" "USER" "") []).1 = StatusForbidden /\
  (toy_app (http "GET" "/api/v1/servers" "filter_name=db" "USER" "") []).2 = ["view db"] /\
  ((toy_app put_request []).2 = [] /\ (beside_gateway "/api/v1/servers/7" \/ (400 <= rs_status (toy_app put_request []).1)%Z) \/
   exists name perm, management_permissions !! management_method name = Some perm /\ authorised put_request perm /\
     (posts_form put_request = false -> rest_method put_request = Some name)).
Proof.
  split; [vm_compute; reflexivity|]. split; [vm_compute; reflexivity|]. split; [vm_compute; reflexivity|].
  split; [vm_compute; reflexivity|].
  refine (only_authorised Some (fun _ _ => mret (plain "moved")) (fun _ => mret (plain "file")) (fun _ _ _ => eq_refl)
    (fun _ _ => eq_refl) toy_create toy_update toy_view toy_view toy_text toy_management (fun _ => mret (plain "import"))
    (fun _ => mret (plain "export")) put_request [] _).
  refine (bool_decide_unpack _ _). by vm_compute.
Defined.
