(* ===== verification/MonitoringSystem.v ===== *)
(** sms-monitoring as a whole (app/run.go): the goroutines that [Run] starts,
    with their requests to Redis interleaved in any order, and what the
    database holds whatever they and the services beside them do. *)
From S2P Require Import Prelude GoStd Json.
From S2P Require Config.
From S2P Require Import Redis Host Monitoring Broker Concurrency MonitoringWorkers Services.
From S2P Require ManagementData ManagementService ManagementWorkers ManagementOutbox.

(** ** The goroutines of [Run] *)
Section goroutines.
Context {W} {srv : Host W} `{!Probes W}.
Context (cfg : Config.MonitoringConfig) (log : string -> bool -> proc W unit)
  (map_order : list string -> list string).

(** The service as [NewApp] puts it together. *)
Definition monService (serverID ip : string) (pingSuccess : bool) : proc W (res unit) :=
  Evaluate (MonitoringDeps0 := redis_deps (Config.M_StreamMaxLen cfg) log) (Config.FailureThreshold cfg)
    serverID ip pingSuccess.

(** The producer: at once, then at every tick. *)
Fixpoint producer_loop (ticks : nat) : proc W unit :=
  runProducerCycle (Config.ProducerLockKey cfg) (Config.WorkerTickInterval cfg) map_order ;;-
  match ticks with
  | O => mret tt
  | S ticks => producer_loop ticks
  end.

(** What a cycle that filled the queue leaves behind: it looks at the queue every
    second until it is empty, and logs how long that took. *)
Fixpoint watch_batch (turns : nat) : proc W unit :=
  match turns with
  | O => mret tt
  | S turns =>
    r <-- rdb (LLen MonitoringQueueKey);
    match r with
    | Err _ => mret tt
    | Ok length => if (length =? 0)%Z then mret tt else watch_batch turns
    end
  end.

(** [AgentSweeper.Start]: at every tick. *)
Fixpoint AgentSweeper_Start (ticks : nat) : proc W unit :=
  match ticks with
  | O => mret tt
  | S ticks => sweep monService (sweeper_timeout cfg) ;;- AgentSweeper_Start ticks
  end.

(** [Run], until the context is cancelled after [turns] turns of each loop;
    [Subscribe] starts the loop that claims stale messages.  [fuel] bounds the
    batches of one recovery or sweep.  A cycle of the producer leaves at most one
    goroutine behind; it only reads, so that it may as well be there from the
    start. *)
Definition App_Run (fuel turns : nat) : list (proc W unit) :=
  [StreamConsumer_Start fuel turns ;;- mret tt;
   autoClaimLoop (sub_stream monitoring_registry) (sub_group monitoring_registry)
     (sub_consumer monitoring_registry) stream_processMessage fuel turns] ++
  replicate (Z.to_nat (Config.WorkerConcurrency cfg)) (pool_worker monService (check_timeouts cfg) turns) ++
  [producer_loop turns;
   AgentSweeper_Start turns;
   HeartbeatConsumer_Start monService fuel turns ;;- mret tt;
   autoClaimLoop (sub_stream monitoring_heartbeats) (sub_group monitoring_heartbeats)
     (sub_consumer monitoring_heartbeats) (heartbeat_processMessage monService) fuel turns] ++
  replicate (S turns) (watch_batch turns).
End goroutines.

(** ** What the database holds *)
Definition valid_status (s : string) : Prop :=
  s = "" \/ s = ServerStatusUnknown \/ s = ServerStatusOnline \/ s = ServerStatusOffline.

(** The messages of the status stream: each announces a decided status. *)
Definition announcement (th : Z) (m : fields) : Prop :=
  exists id st n, m = status_message id st n /\ (0 <= n <= th)%Z /\
    (st = ServerStatusOnline \/ st = ServerStatusOffline).

(** The messages of the registry: the status in the payload is a status. *)
Definition registry_event (m : fields) : Prop :=
  forall payload p, values_of m !! "payload" = Some payload -> decode_payload payload = Some p ->
    valid_status (pl_CurrentStatus p).

(** The hash of a server: a status, and a counter up to the threshold. *)
Definition server_field (th : Z) (k f v : string) : Prop :=
  (exists id, k = ServerInfoKey id) ->
  (f = "status" -> valid_status v) /\ (f = "retry_count" -> (0 <= (Atoi v).1 <= th)%Z).

Definition monitoring_schema (th : Z) : schema := {|
  field_ok := server_field th;
  message_ok := fun k m =>
    (k = status_stream -> announcement th m) /\ (k = sub_stream monitoring_registry -> registry_event m);
|}.

(** What this says of the states and of the messages of [Monitoring]. *)
Lemma well_typed_state th r id st :
  (0 <= th)%Z -> well_typed (monitoring_schema th) r -> redis_state r id = Some st ->
  valid_status (Status st) /\ (0 <= RetryCount st <= th)%Z.
Proof.
  intros Hth [Hh _]. specialize (Hh (ServerInfoKey id)). unfold redis_state, hash_state.
  case_bool_decide; [done|]. intros [= <-]. cbn. split.
  - destruct (hash_at _ _ !! "status") as [v|] eqn:E; [|by left]. by apply (Hh _ _ E); [exists id|].
  - destruct (hash_at _ _ !! "retry_count") as [v|] eqn:E; [|done]. by apply (Hh _ _ E); [exists id|].
Qed.

Lemma well_typed_announcements th r m :
  well_typed (monitoring_schema th) r -> m ∈ redis_messages r status_stream -> announcement th m.
Proof.
  intros [_ Hs] Hm. unfold redis_messages in Hm. rewrite list_elem_of_In, in_map_iff in Hm.
  destruct Hm as (e & <- & He). destruct (Hs status_stream) as [Hes _].
  rewrite Forall_forall in Hes. apply (Hes e); [by apply list_elem_of_In|done].
Qed.

(** The state machine stays within these bounds. *)
Lemma next_state_valid th st n b st' n' c1 c2 :
  (1 <= th < max_int64)%Z -> valid_status st -> st <> "" -> (0 <= n <= th)%Z ->
  next_state th st n b = (st', n', c1, c2) ->
  valid_status st' /\ (0 <= n' <= th)%Z /\ (c1 = true -> st' = ServerStatusOnline \/ st' = ServerStatusOffline).
Proof.
  intros Hth Hst Hne Hn. assert (wrap64 (n + 1) = n + 1)%Z as Hw.
  { apply wrap64_id. unfold min_int64. lia. }
  unfold next_state. rewrite Hw. unfold valid_status in *.
  repeat case_match; intros ?; simplify_eq; repeat split; intros; try done; try lia; auto 6.
  all: repeat match goal with
    | H : bool_decide _ = false |- _ => apply bool_decide_eq_false in H
    | H : bool_decide _ = true |- _ => apply bool_decide_eq_true in H
    | H : (_ <? _)%Z = true |- _ => apply Z.ltb_lt in H
    | H : (_ || _) = false |- _ => apply orb_false_iff in H as [? _]
    | H : (_ <=? _)%Z = false |- _ => apply Z.leb_gt in H
    end; lia.
Qed.

Lemma current_valid s : valid_status (Status s) -> valid_status (current_status s) /\ current_status s <> "".
Proof. intros Hs. unfold current_status. case_bool_decide; [split; [by right; left|done]|done]. Qed.

(** ** Every goroutine respects the schema *)
Section typed.
Context (cfg : Config.MonitoringConfig) {W} {srv : Host W} `{!Probes W} (sane : W -> Prop).
Context (log : string -> bool -> proc W unit) (map_order : list string -> list string).
Abbreviation th := (Config.FailureThreshold cfg).
Abbreviation sc := (monitoring_schema th).
Context `{!Respects sc srv sane}.
Context (Hth : (1 <= th < max_int64)%Z).

(** The observation log and the probes are beside Redis. *)
Definition quiet {A} (m : proc W A) : Prop := typed sane m (fun _ => True).
Context (Hlog : forall id b, quiet (log id b)) (Hcheck : forall c config, quiet (Check (check_timeouts cfg) c config)).

Lemma field_free k f v : (forall id, k <> ServerInfoKey id) -> field_ok sc k f v.
Proof. intros Hk [id E]. by destruct (Hk id). Qed.

Lemma field_other k f v : f <> "status" -> f <> "retry_count" -> field_ok sc k f v.
Proof. intros H1 H2 _. by split. Qed.

Lemma get_typed id : typed sane (GetServerState_redis id)
  (fun r => forall s, r = Ok s -> valid_status (Status s) /\ (0 <= RetryCount s <= th)%Z).
Proof.
  eapply typed_bind; [by apply (typed_rdb sc sane)|]. intros [h|e] Hh; [|by apply typed_ret].
  specialize (Hh h eq_refl). apply typed_ret. case_bool_decide; [done|]. intros s [= <-]. cbn. split.
  - destruct (h !! "status") as [v|] eqn:E; [|by left]. by apply (Hh _ _ E); [exists id|].
  - destruct (h !! "retry_count") as [v|] eqn:E; [|cbn; lia]. by apply (Hh _ _ E); [exists id|].
Qed.

Lemma set_typed id st n : valid_status st -> (0 <= n <= th)%Z -> quiet (SetServerState_redis id st n).
Proof.
  intros Hst Hn. eapply typed_bind; [apply (typed_rdb sc sane)|intros; by apply typed_ret].
  apply Forall_cons. split; [intros _; by split|]. apply Forall_singleton. intros _. split; [done|].
  intros _. cbn [snd]. rewrite Atoi_Itoa; [done|]. unfold min_int64. lia.
Qed.

Lemma publish_typed maxLen id st n : (0 <= n <= th)%Z ->
  st = ServerStatusOnline \/ st = ServerStatusOffline ->
  quiet (Publish_redis maxLen status_stream (status_message id st n)).
Proof.
  intros Hn Hst. eapply typed_any, (typed_rdb sc sane). split; [|done].
  intros _. by exists id, st, n.
Qed.

Lemma Evaluate_typed id ip b : quiet (monService cfg log id ip b).
Proof.
  eapply typed_seq; [apply Hlog|]. eapply typed_try; [apply get_typed| |done].
  intros s [Hst Hn]. destruct (next_state _ _ _ _) as [[[st' n'] c1] c2] eqn:E.
  destruct (current_valid s Hst) as [Hcur Hne].
  destruct (next_state_valid th _ _ _ _ _ _ _ Hth Hcur Hne Hn E) as (Hst' & Hn' & Hc).
  eapply (typed_try _ _ _ (fun _ => True)); [|intros _ _|done].
  - destruct (c1 || c2); [|by apply typed_ret]. eapply typed_mono; [by apply set_typed|done].
  - destruct c1; [|by apply typed_ret]. eapply typed_seq; [|by apply typed_ret].
    apply publish_typed; auto.
Qed.

Lemma worker_typed turns : quiet (pool_worker (monService cfg log) (check_timeouts cfg) turns).
Proof.
  induction turns as [|turns IH]; cbn [pool_worker]; [by apply typed_ret|]. eapply typed_seq; [|exact IH].
  eapply typed_bind; [by apply (typed_rdb sc sane)|]. intros [[serverID|]|e] _; try by apply typed_ret.
  eapply typed_bind; [by apply (typed_rdb sc sane)|]. intros [h|e] _; [|by apply typed_ret].
  case_bool_decide; [by apply typed_ret|]. eapply typed_bind; [apply Hcheck|]. intros b _.
  eapply typed_seq; [apply Evaluate_typed|by apply typed_ret].
Qed.

Lemma populate_typed : quiet (populateQueue map_order).
Proof.
  eapply typed_bind; [by apply (typed_rdb sc sane)|]. intros [ids|e] _; [|by apply typed_ret].
  case_bool_decide; [by apply typed_ret|].
  eapply typed_bind; [by apply (typed_rdb sc sane)|]. intros r _. cbn beta zeta.
  case_bool_decide; [by apply typed_ret|]. by apply (typed_do sc sane); [|apply typed_ret].
Qed.

Lemma cycle_typed lockKey tick : quiet (runProducerCycle lockKey tick map_order).
Proof.
  eapply typed_bind; [by apply (typed_rdb sc sane)|]. intros [[]|e] _; try by apply typed_ret.
  eapply typed_bind; [by apply (typed_rdb sc sane)|]. intros r _. case_match; [by apply typed_ret|].
  apply populate_typed.
Qed.

Lemma producer_typed ticks : quiet (producer_loop cfg map_order ticks).
Proof.
  induction ticks as [|ticks IH]; cbn [producer_loop]; (eapply typed_seq; [apply cycle_typed|]).
  - by apply typed_ret.
  - exact IH.
Qed.

Lemma watch_typed turns : quiet (watch_batch turns).
Proof.
  induction turns as [|turns IH]; cbn [watch_batch]; [by apply typed_ret|].
  eapply typed_bind; [by apply (typed_rdb sc sane)|]. intros [n|e] _; [|by apply typed_ret].
  by destruct (n =? 0)%Z; [apply typed_ret|].
Qed.

Lemma get_ipv4_typed id : quiet (get_ipv4 id).
Proof. eapply typed_bind; [by apply (typed_rdb sc sane)|]. intros. by apply typed_ret. Qed.

Lemma sweeper_typed ticks : quiet (AgentSweeper_Start cfg log ticks).
Proof.
  induction ticks as [|ticks IH]; cbn [AgentSweeper_Start]; [by apply typed_ret|].
  eapply typed_seq; [|exact IH]. eapply typed_bind; [apply (typed_now sc sane)|]. intros t _.
  eapply typed_bind; [by apply (typed_rdb sc sane)|]. intros [ids|e] _; [|by apply typed_ret].
  apply (typed_for_each _ _ (fun _ => True)); [by apply Forall_true|]. intros id _.
  eapply typed_bind; [apply get_ipv4_typed|]. intros ip _. eapply typed_seq; [apply Evaluate_typed|].
  by apply (typed_do sc sane); [|apply typed_ret].
Qed.

Lemma heartbeat_typed m : quiet (heartbeat_processMessage (monService cfg log) m).
Proof.
  unfold heartbeat_processMessage. destruct (_ !! _) as [id|]; [|by apply typed_ret].
  destruct (String.eqb id ""); [by apply typed_ret|].
  eapply typed_bind; [apply get_ipv4_typed|]. intros ip _. eapply typed_bind; [apply Evaluate_typed|].
  intros r _. by apply typed_ret.
Qed.

Lemma sync_typed p : valid_status (pl_CurrentStatus p) -> quiet (sync_server p).
Proof.
  intros Hp. assert (forall k f v, f <> "status" -> f <> "retry_count" ->
    command_ok sc (HSet k [(f, v)])) as Hset.
  { intros k f v H1 H2. apply Forall_singleton. by apply field_other. }
  unfold sync_server. cbn zeta.
  apply (typed_do sc sane); [done|]. eapply typed_seq.
  { destruct (String.eqb _ _); [by apply typed_ret|]. apply (typed_do sc sane); [by apply Hset|by apply typed_ret]. }
  apply (typed_do sc sane).
  { apply Forall_singleton. intros _. split; [intros _|done]. cbn [snd].
    destruct (String.eqb_spec (pl_CurrentStatus p) ""); [by right; left|done]. }
  eapply typed_seq.
  { destruct (String.eqb _ _).
    - apply (typed_do sc sane); [by apply Hset|by apply typed_ret].
    - apply (typed_do sc sane); [by apply Hset|]. destruct (String.eqb _ _); [|by apply typed_ret].
      eapply typed_bind; [apply (typed_now sc sane)|]. intros t _.
      by apply (typed_do sc sane); [|apply typed_ret]. }
  do 4 (apply (typed_do sc sane); [by apply Hset|]). by apply typed_ret.
Qed.

Lemma forget_typed p : quiet (forget_server p).
Proof. do 2 (apply (typed_do sc sane); [done|]). by apply typed_ret. Qed.

Lemma registry_typed : handler_typed sc sane (sub_stream monitoring_registry) stream_processMessage.
Proof.
  intros e He. unfold stream_processMessage. cbn [Values brokerMsg].
  destruct (_ !! "event_type") as [ty|]; [|by apply typed_ret].
  destruct (_ !! "payload") as [payload|] eqn:Ep; [|by apply typed_ret].
  destruct (decode_payload payload) as [p|] eqn:Ed; [|by apply typed_ret].
  assert (valid_status (pl_CurrentStatus p)) as Hp.
  { destruct He as [E|[_ He]]; [by rewrite E in Ep|]. by eapply He. }
  eapply typed_seq; [|by apply typed_ret].
  destruct (_ || _); [by apply sync_typed|]. destruct (String.eqb _ _); [apply forget_typed|by apply typed_ret].
Qed.

(** The dead letters of both subscriptions are outside the schema. *)
Lemma dead_letters_free s : s = monitoring_registry \/ s = monitoring_heartbeats ->
  (forall f v, field_ok sc (dlqKey (sub_stream s)) f v) /\ (forall m, message_ok sc (dlqStream (sub_stream s)) m).
Proof. intros [-> | ->]; (split; [intros f v; by apply field_free|by split]). Qed.

Lemma goroutines_typed fuel turns m : m ∈ App_Run cfg log map_order fuel turns -> quiet m.
Proof.
  destruct (dead_letters_free monitoring_registry) as [Hr1 Hr2]; [by left|].
  destruct (dead_letters_free monitoring_heartbeats) as [Hb1 Hb2]; [by right|].
  assert (handler_typed sc sane (sub_stream monitoring_heartbeats) (heartbeat_processMessage (monService cfg log)))
    as Hbeat by (intros e _; apply heartbeat_typed).
  unfold App_Run. rewrite !elem_of_app, !elem_of_cons, elem_of_nil, !elem_of_replicate.
  intros [[-> |[-> |[]]]|[[-> _]|[[-> |[-> |[-> |[-> |[]]]]]|[-> _]]]].
  - eapply typed_seq; [apply (Subscribe_typed sc sane), registry_typed|by apply typed_ret].
  - apply (autoClaimLoop_typed sc sane); [apply registry_typed|done..].
  - apply worker_typed.
  - apply producer_typed.
  - apply sweeper_typed.
  - eapply typed_seq; [by apply (Subscribe_typed sc sane)|by apply typed_ret].
  - by apply (autoClaimLoop_typed sc sane).
  - apply watch_typed.
Qed.
End typed.

(** ** Beside Redis

    The network, the keys and the observation log are each goroutine's own
    [X]: any function whatever of it. *)
Section beside.
Context {X : Type} (px : Probes X).

Definition lift {R A} (m : proc X A) : proc (R * X) A := fun w => let '(a, x) := m w.2 in (a, (w.1, x)).

Definition lift_probes (R : Type) : Probes (R * X) := {|
  NewPinger := fun ip => lift (NewPinger ip);
  pinger_Run := fun ip t => lift (pinger_Run ip t);
  ssh_Dial := fun addr u k t => lift (ssh_Dial addr u k t);
  ssh_NewSession := fun addr => lift (ssh_NewSession addr);
  ssh_Run := fun addr c => lift (ssh_Run addr c);
  http_NewRequest := fun e => lift (http_NewRequest e);
  http_Do := fun e t => lift (http_Do e t);
  Decrypt := fun s => lift (Decrypt s);
|}.

Lemma lift_quiet {R A} (sane : R -> Prop) (m : proc X A) : typed (fun w => sane w.1) (lift m) (fun _ => True).
Proof. intros w Hw. unfold lift, wp. by destruct (m w.2). Qed.

Lemma lift_check {R} (sane : R -> Prop) timeouts c config :
  typed (fun w => sane w.1) (Check (Probes0 := lift_probes R) timeouts c config) (fun _ => True).
Proof.
  assert (forall b : bool, typed (fun w : R * X => sane w.1) (mret b) (fun _ => True)) as Hret
    by (intros b; by apply typed_ret).
  destruct c; cbn [Check].
  - unfold ICMPChecker_Check. repeat (case_match; [apply Hret|]).
    eapply typed_bind; [apply lift_quiet|]. intros [[]|e] _; [|apply Hret].
    eapply typed_bind; [apply lift_quiet|]. intros; apply Hret.
  - assert (forall ip port user key, typed (fun w : R * X => sane w.1)
      (ssh_login (Probes0 := lift_probes R) timeouts ip port user key) (fun _ => True)) as Hssh.
    { intros ip port user key. unfold ssh_login. case_match; [apply Hret|].
      eapply typed_bind; [apply lift_quiet|]. intros [[]|e] _; [|apply Hret].
      eapply typed_bind; [apply lift_quiet|]. intros [[]|e] _; [|apply Hret].
      eapply typed_bind; [apply lift_quiet|]. intros; apply Hret. }
    unfold SSHChecker_Check. case_match; [apply Hssh|].
    eapply typed_bind; [apply lift_quiet|]. intros [k|e] _; [apply Hssh|apply Hret].
  - unfold AgentPullChecker_Check. case_match; [apply Hret|].
    eapply typed_bind; [apply lift_quiet|]. intros [[]|e] _; [|apply Hret].
    eapply typed_bind; [apply lift_quiet|]. intros; apply Hret.
Qed.
End beside.

(** ** The system *)
Section system.
Context (cfg : Config.MonitoringConfig) {W} {srv : Host W} {X : Type} (px : Probes X)
  (log : string -> bool -> proc X unit) (map_order : list string -> list string) (fuel turns : nat).

(** The goroutines that [Run] starts, each served by the same Redis. *)
Definition App_goroutines : list (proc (replayed (W := W) * X) unit) :=
  App_Run (srv := framed X replay) (Probes0 := lift_probes px replayed) cfg (fun id b => lift (log id b))
    map_order fuel turns.

(** Any number of replicas of the service. *)
Definition replicas (locals : list X) : list goroutine :=
  concat (map (fun x => map (fun m => Go m x) App_goroutines) locals).

Lemma replicas_typed `{!HostLaws srv} locals :
  (1 <= Config.FailureThreshold cfg < max_int64)%Z ->
  Forall (goroutine_typed (monitoring_schema (Config.FailureThreshold cfg))) (replicas locals).
Proof.
  intros Hth. unfold replicas. apply Forall_concat, Forall_map, Forall_true. intros x.
  apply Forall_map, Forall_forall. intros m Hm. unfold goroutine_typed. cbn [code].
  eapply goroutines_typed; [apply (framed_respects _ replay); by apply replay_respects|exact Hth| | |exact Hm].
  - intros id b. apply lift_quiet.
  - intros c config. apply lift_check.
Qed.
End system.

(** ** What the services exchange *)

(** What sms-management writes about a server, sms-monitoring reads. *)
Section exchange.
Context `{pg : ManagementData.Postgres} `{!ManagementData.PostgresLaws} (time_json : Z -> string).
Context (Htime : forall t, valid_utf8 (time_json t) = true).

Lemma registry_reads_server s p :
  ManagementOutbox.clean s -> ManagementData.jsonb (ManagementService.server_json time_json s) = Some p ->
  decode_payload p = Some {|
    pl_ID := ManagementData.ServerID s; pl_IPv4 := ManagementData.IPv4 s;
    pl_CurrentStatus := ManagementData.CurrentStatus s;
    pl_HealthCheckMethod := ManagementData.HealthCheckMethod s;
    pl_SSHPort := ManagementData.SSHPort s; pl_SSHUser := ManagementData.SSHUser s;
    pl_SSHKey := ManagementData.SSHKey s; pl_AgentEndpoint := ManagementData.AgentEndpoint s |}.
Proof.
  intros Hs Hp. destruct (ManagementOutbox.server_json_fields time_json Htime s p Hs Hp) as (m & Hparse & Hport & Hstr).
  unfold decode_payload. rewrite Hparse. cbn [mbind option_bind members].
  rewrite (Hstr "server_id" (ManagementData.ServerID s)) by ManagementOutbox.in_list.
  rewrite (Hstr "ipv4" (ManagementData.IPv4 s)) by ManagementOutbox.in_list.
  rewrite (Hstr "current_status" (ManagementData.CurrentStatus s)) by ManagementOutbox.in_list.
  rewrite (Hstr "health_check_method" (ManagementData.HealthCheckMethod s)) by ManagementOutbox.in_list.
  rewrite Hport.
  rewrite (Hstr "ssh_user" (ManagementData.SSHUser s)) by ManagementOutbox.in_list.
  rewrite (Hstr "ssh_key" (ManagementData.SSHKey s)) by ManagementOutbox.in_list.
  by rewrite (Hstr "agent_endpoint" (ManagementData.AgentEndpoint s)) by ManagementOutbox.in_list.
Qed.

(** So the relay of sms-management keeps the schema. *)
Lemma relayed_server_ok e s :
  ManagementOutbox.clean s -> valid_status (ManagementData.CurrentStatus s) ->
  ManagementData.jsonb (ManagementService.server_json time_json s) = Some (ManagementData.Payload e) ->
  registry_event (ManagementWorkers.event_fields e).
Proof.
  intros Hs Hst Hj payload p Hpayload Hp. cbn in Hpayload. rewrite lookup_insert_eq in Hpayload.
  injection Hpayload as <-. rewrite (registry_reads_server s _ Hs Hj) in Hp. by injection Hp as <-.
Qed.
End exchange.

(** What sms-monitoring announces, sms-management reads. *)
Lemma announcement_reported id st n e :
  valid_utf8 id = true -> st = ServerStatusOnline \/ st = ServerStatusOffline ->
  e_fields e = status_message id st n -> ManagementWorkers.report (brokerMsg e) = Some (id, st).
Proof.
  intros Hid Hst E.
  assert (forall k v, values_of (status_message id st n) !! k = Some v -> Values (brokerMsg e) !! k = Some v) as Hv.
  { intros k v. cbn [Values brokerMsg]. by rewrite E. }
  unfold ManagementWorkers.report. rewrite (Hv "event_type" "ServerStatusChanged") by by vm_compute.
  rewrite (Hv "payload" (status_payload id st n)) by apply lookup_insert_eq.
  cbn [mbind option_bind String.eqb Ascii.eqb Bool.eqb]. unfold ManagementWorkers.decode_status, status_payload.
  rewrite parse_Marshal_flat; [by destruct Hst as [-> | ->]|].
  repeat (constructor; [split; [by vm_compute|]|]); [apply scalar_int|by apply scalar_str| |constructor].
  apply scalar_str. by destruct Hst as [-> | ->].
Qed.

(** C4: whatever the goroutines of sms-monitoring do, in however many
    replicas, with their requests to Redis interleaved in any order, requests
    lost and probes answering anything, the database stays well-formed as long
    as the services beside them keep it so: every cached state has a status
    that exists and a retry count between 0 and the threshold, and every
    message of the status stream announces ONLINE or OFFLINE. *)
Theorem monitoring_well_formed (cfg : Config.MonitoringConfig) {W} {srv : Host W} `{!HostLaws srv} {X}
    (px : Probes X) (log : string -> bool -> proc X unit) (map_order : list string -> list string)
    (fuel turns : nat) (locals : list X) (others : W -> W -> Prop) (w : W) (c : config) :
  let th := Config.FailureThreshold cfg in
  let keeps := typed_world (monitoring_schema th) in
  let gs := replicas cfg px log map_order fuel turns locals in
  (1 <= th < max_int64)%Z -> (forall w w', others w w' -> keeps w -> keeps w') -> keeps w ->
  rtc (step gs others) (start gs w) c ->
  (forall id st, redis_state (redis (view c.1)) id = Some st ->
     valid_status (Status st) /\ (0 <= RetryCount st <= th)%Z) /\
  (forall m, m ∈ redis_messages (redis (view c.1)) status_stream -> announcement th m).
Proof.
  intros th keeps gs Hth Ho Hw Hc.
  assert (keeps c.1) as Hk by by eapply (interleaved_ok (monitoring_schema th) gs); [apply replicas_typed|..].
  split; intros; [eapply well_typed_state|eapply well_typed_announcements]; eauto; lia.
Qed.

(** Two workers, a threshold of two, nothing answers. *)
Definition sample_cfg : Config.MonitoringConfig := {|
  Config.M_Env := "test"; Config.M_Logger := Config.Build_LoggerConfig "info" "text" 10 3 28 true;
  Config.M_StreamMaxLen := 1000; Config.WorkerTickInterval := 3 * Second; Config.WorkerConcurrency := 2;
  Config.WorkerPingTimeout := Second; Config.FailureThreshold := 2; Config.ProducerLockKey := "lock";
  Config.ICMPTimeout := Second; Config.SSHTimeout := Second; Config.AgentPullTimeout := Second;
  Config.ICMPPrivileged := false; Config.AgentPushTTL := 60 * Second; Config.SweeperInterval := Second |}.

Definition down_probes (W : Type) : Probes W := {|
  NewPinger := fun _ => mret (Ok tt);
  pinger_Run := fun _ _ => mret (Ok 0%Z);
  ssh_Dial := fun _ _ _ _ => mret (Err fault_err);
  ssh_NewSession := fun _ => mret (Err fault_err);
  ssh_Run := fun _ _ => mret (Err fault_err);
  http_NewRequest := fun _ => mret (Ok tt);
  http_Do := fun _ _ => mret (Err fault_err);
  Decrypt := fun s => mret (Ok s);
|}.

(** One server that is up, polled by ping, and a message for the registry. *)
Definition deletion : stream :=
  Stream 1 [Entry 1 [("event_type", "ServerDeleted"); ("payload", ManagementService.delete_payload "s1")]] ∅.

Definition one_server : hview :=
  HView 0 (set_stream (sub_stream monitoring_registry) deletion (set_set ServerAllIDsKey {["s1"]} (set_hash (ServerInfoKey "s1")
     (<["status" := "ONLINE"]> (<["ipv4" := "10.0.0.1"]> {["health_check_method" := "ICMP"]})) empty_redis))).

Definition sample_replica : list (goroutine (W := hview * list fault)) :=
  replicas (srv := flaky_host) sample_cfg (down_probes unit) no_log id 2 2 [tt].

(** The goroutines by their place in [App_Run]. *)
Definition registry_loop := 0.
Definition worker_a := 2.
Definition worker_b := 3.
Definition producer := 4.
Definition sweeper := 5.

Lemma one_server_typed : well_typed (monitoring_schema 2) (redis one_server).
Proof.
  apply well_typed_set_stream.
  - split; [|intros k; apply well_typed_empty]. intros k. rewrite hash_at_set_set.
    destruct (decide (ServerInfoKey "s1" = k)) as [<-|Hne]; [|rewrite hash_at_set_hash_ne by done; apply well_typed_empty].
    rewrite hash_at_set_hash.
    apply map_Forall_insert_2; [intros _; split; [intros _; by right; right; left|done]|].
    apply map_Forall_insert_2; [intros _; by split|]. apply map_Forall_singleton. intros _. by split.
  - split; [|apply map_Forall_empty]. apply Forall_singleton. split; [done|]. intros _ payload p.
    cbn. rewrite lookup_insert_eq. intros [= <-] Hp. vm_compute in Hp. injection Hp as <-. by left.
Qed.

(** A round of the producer and one of a worker; two answers are lost. *)
Definition faulty_world : hview * list fault :=
  (one_server, [NoFault; NoFault; NoFault; NoFault; FailAfter; NoFault; NoFault; NoFault; FailAfter]).
Definition faulty_run : config :=
  run (srv := flaky_host) sample_replica (repeat producer 5 ++ repeat worker_a 6) faulty_world.

Lemma monitoring_well_formed_witness :
  redis_state (redis faulty_run.1.1) "s1" = Some {| Status := "ONLINE"; RetryCount := 1 |} /\
  ((forall id st, redis_state (redis (view (Service := flaky_host) faulty_run.1)) id = Some st ->
     valid_status (Status st) /\ (0 <= RetryCount st <= Config.FailureThreshold sample_cfg)%Z) /\
   (forall m, m ∈ redis_messages (redis (view (Service := flaky_host) faulty_run.1)) status_stream ->
     announcement (Config.FailureThreshold sample_cfg) m)).
Proof.
  split; [by vm_compute|].
  refine (monitoring_well_formed (srv := flaky_host) sample_cfg (down_probes unit) no_log id 2 2 [tt]
    (fun _ _ => False) faulty_world faulty_run _ _ _ _).
  - cbn [Config.FailureThreshold sample_cfg]. unfold max_int64. lia.
  - done.
  - exact one_server_typed.
  - apply run_reachable.
Defined.

(** ** Findings *)

(** Two checks that fail count as one when their evaluations overlap: both
    workers read the counter before either writes it.  In turn they take the
    server OFFLINE. *)
Lemma failure_lost :
  let polled := repeat producer 5 ++ repeat worker_a 3 ++ repeat producer 5 in
  let state sch := redis_state (redis (run (srv := flaky_host) sample_replica sch (one_server, [])).1.1) "s1" in
  state (polled ++ [worker_a] ++ repeat worker_b 4) = Some {| Status := "OFFLINE"; RetryCount := 2 |} /\
  state (polled ++ repeat worker_b 3 ++ [worker_a; worker_b]) = Some {| Status := "ONLINE"; RetryCount := 1 |}.
Proof. split; by vm_compute. Qed.

(** A server that is deleted while it is being checked comes back: the worker
    writes the hash anew, and nothing removes it any more. *)
Lemma deleted_server_returns :
  let c := run (srv := flaky_host) sample_replica
    (repeat producer 5 ++ repeat worker_a 3 ++ repeat registry_loop 6 ++ [worker_a]) (one_server, []) in
  elements (set_at (redis c.1.1) ServerAllIDsKey) = [] /\
  redis_state (redis c.1.1) "s1" = Some {| Status := "ONLINE"; RetryCount := 1 |} /\
  hash_at (redis c.1.1) (ServerInfoKey "s1") !! "ipv4" = None.
Proof. split_and!; by vm_compute. Qed.

(** A heartbeat that arrives while its agent is being swept is thrown away:
    the sweeper removes the member whatever its score is by then, so that the
    agent, if it falls silent later, is never swept. *)
Definition silent_agent : hview := HView (1000 * Second)
  (set_zset AgentHeartbeatZSetKey {["s1" := 0%Z]} (redis one_server)).
Definition heartbeat (c : config (W := hview * list fault)) : config :=
  ((rdb (srv := flaky_host) (ZAdd AgentHeartbeatZSetKey "s1" (Unix (clock c.1.1))) c.1).2, c.2).

Lemma heartbeat_swept :
  let sweeping := run (srv := flaky_host) sample_replica (repeat sweeper 4) (silent_agent, []) in
  let swept c := zset_at (redis (foldl (fun c i => turn (srv := flaky_host) sample_replica i c) c [sweeper; sweeper]).1.1)
    AgentHeartbeatZSetKey !! "s1" in
  zset_at (redis (heartbeat sweeping).1.1) AgentHeartbeatZSetKey !! "s1" = Some 1004%Z /\
  swept (heartbeat sweeping) = None.
Proof. split; by vm_compute. Qed.
