(* ===== verification/StatusFlow.v ===== *)
(** The way of a status: from the checks of sms-monitoring over the status
    stream into the registry of sms-management.  Both services work on one
    world; their turns follow each other in any order. *)
From S2P Require Import Prelude GoStd Sql Json Redis Host Broker ManagementData ManagementService ManagementWorkers.
From S2P Require Import World Monitoring Services.
From S2P Require ManagementOutbox MonitoringSystem.

(** ** Turns *)
Inductive action :=
  | Check (id : string) (up : bool)     (* sms-monitoring evaluates a check *)
  | Deliver.                            (* sms-management reads the status stream once *)

(** The checks of a server, newest first. *)
Fixpoint history (id : string) (acts : list action) (h : list bool) : list bool :=
  match acts with
  | [] => h
  | Check id' up :: acts => history id acts (if String.eqb id' id then up :: h else h)
  | Deliver :: acts => history id acts h
  end.

Definition checks (acts : list action) : nat :=
  length (List.filter (fun a => match a with Check _ _ => true | Deliver => false end) acts).

Section flow.
Context {W} {wo : World W mstate} {Hans : Answers wo} `{pg : Postgres} `{!PostgresLaws}.
Context (th maxLen : Z) (log : string -> bool -> proc W unit).

(** [status_stream] is the stream that sms-management subscribes to. *)
Definition group_name : string := sub_group management_statuses.

Definition take_action (a : action) : proc W unit :=
  match a with
  | Check id up => Evaluate (MonitoringDeps0 := redis_deps maxLen log) th id "" up ;;- mret tt
  | Deliver => read_once 50 status_stream group_name (sub_consumer management_statuses) status_processMessage
  end.

(** What the log does is beside Redis and the tables. *)
Context (Hlog : forall id b w, wp (log id b) (fun _ w' => host w' = host w /\ tables w' = tables w) w).
Context (Hth : (1 <= th <= max_int64)%Z).

(** *** A check *)

(** What is known of the stream of a Redis: its entries and what the group of
    sms-management has not read. *)
Definition entries (r : rstate) : list entry := s_entries (stream_at r status_stream).
Definition unread (r : rstate) : option (list entry) := g_undelivered <$> group_at r status_stream group_name.

(** The cached state of a server is [sn]. *)
Definition cached (r : rstate) (id : string) (sn : string * Z) : Prop :=
  exists s, redis_state r id = Some s /\ current_status s = sn.1 /\ RetryCount s = sn.2.

Lemma get_answers id w (Q : res ServerState -> W -> Prop) s :
  redis_state (redis (host w)) id = Some s ->
  (forall w', tables w' = tables w -> redis (host w') = redis (host w) -> Q (Ok s) w') ->
  wp (GetServerState_redis id) Q w.
Proof.
  intros Hs HQ. apply wp_bind, wp_redis; [|by intros; exfalso].
  intros a w' t s' Ht _ Hw' [-> ->]. apply wp_ret. unfold redis_state, hash_state in Hs.
  case_bool_decide; [done|]. injection Hs as <-. apply HQ; [done|by rewrite Hw'].
Qed.

Lemma set_answers id st n w (Q : res unit -> W -> Prop) :
  (min_int64 <= n <= max_int64)%Z ->
  (forall w', tables w' = tables w ->
     stream_at (redis (host w')) = stream_at (redis (host w)) ->
     (forall id', id' <> id -> redis_state (redis (host w')) id' = redis_state (redis (host w)) id') ->
     redis_state (redis (host w')) id = Some {| Status := st; RetryCount := n |} -> Q (Ok tt) w') ->
  wp (SetServerState_redis id st n) Q w.
Proof.
  intros Hn HQ. apply wp_bind, wp_redis; [|by intros; exfalso].
  intros [] w' t s' Ht _ Hw' ->. apply wp_ret. apply HQ; [done|by rewrite Hw'|..].
  - intros id' Hid. rewrite Hw'. cbn [redis]. rewrite redis_state_set_hash, bool_decide_eq_false_2; [done|].
    intros E%ServerInfoKey_inj. congruence.
  - rewrite Hw'. cbn [redis]. rewrite redis_state_set_hash, bool_decide_eq_true_2 by done.
    by apply hash_state_written.
Qed.

(** At most [k] messages have been published, and the bound leaves room. *)
Definition roomy (k : nat) (r : rstate) : Prop :=
  (forall u, unread r = Some u -> length u <= length (entries r)) /\ length (entries r) <= k /\
  ((0 < maxLen)%Z -> (Z.of_nat k < maxLen)%Z).

Lemma append_roomy k keep m st u :
  length u <= length (s_entries st) <= k -> ((0 < maxLen)%Z -> (Z.of_nat k < maxLen)%Z) ->
  may_keep (if (0 <? maxLen)%Z then Some (Z.to_N maxLen) else None) st keep ->
  lastn keep (u ++ [m]) = u ++ [m : entry].
Proof.
  intros Hl Hk Hkeep. apply lastn_all. rewrite length_app. cbn.
  destruct Hkeep as [|(n & Hn & Hle)]; [lia|]. destruct (Z.ltb_spec 0 maxLen); [|done].
  specialize (Hk ltac:(done)). simplify_eq. lia.
Qed.

Lemma publish_answers k m w (Q : res unit -> W -> Prop) :
  roomy k (redis (host w)) ->
  (forall w' e, tables w' = tables w ->
     (forall id, redis_state (redis (host w')) id = redis_state (redis (host w)) id) ->
     e_fields e = m -> entries (redis (host w')) = entries (redis (host w)) ++ [e] ->
     unread (redis (host w')) = (fun u => u ++ [e]) <$> unread (redis (host w)) -> Q (Ok tt) w') ->
  wp (Publish_redis maxLen status_stream m) Q w.
Proof.
  intros (Hu & Hl & Hk) HQ. apply wp_redis; [|by intros; exfalso].
  intros [] w' t s' Ht _ Hw' (st & (keep & Hkeep & ->) & ->).
  apply (HQ w' (Entry (N.succ (s_last (stream_at (redis (host w)) status_stream))) m)); [done|by rewrite Hw'|done|..];
    rewrite Hw'; cbn [redis].
  - unfold entries in *. rewrite stream_at_set_stream. cbn [append_entry s_entries].
    by eapply append_roomy.
  - unfold unread, entries in *. rewrite group_at_set_stream. cbn [append_entry s_groups].
    rewrite lookup_fmap. unfold group_at in *.
    destruct (s_groups (stream_at (redis (host w)) status_stream) !! group_name) as [gr|]; [|done].
    cbn. f_equal. eapply append_roomy; [|done..]. cbn in Hu. specialize (Hu _ eq_refl). lia.
Qed.

(** What the messages of a check are to the reader: at most one, the status
    that the check led to. *)
Definition told_of (id : string) (before after : string * Z) (new : list entry) : Prop :=
  match new with
  | [] => after.1 = before.1
  | [e] => e_fields e = status_message id after.1 after.2
  | _ => False
  end.

Lemma check_turn id b sn k w :
  cached (redis (host w)) id sn -> sn.1 <> "" -> roomy k (redis (host w)) ->
  wp (take_action (Check id b)) (fun _ w' => exists new,
    tables w' = tables w /\
    (forall id', id' <> id -> redis_state (redis (host w')) id' = redis_state (redis (host w)) id') /\
    cached (redis (host w')) id (state_after th sn b) /\ told_of id sn (state_after th sn b) new /\
    entries (redis (host w')) = entries (redis (host w)) ++ new /\
    unread (redis (host w')) = (fun u => u ++ new) <$> unread (redis (host w))) w.
Proof.
  intros (s & Hs & Hst & Hn) Hne Hroom. cbn [take_action]. unfold Evaluate, state_after. rewrite <- Hst, <- Hn in *.
  destruct (next_state _ _ _ _) as [[[st' n'] c1] c2] eqn:E.
  apply wp_bind, wp_bind. eapply wp_mono; [apply Hlog|]. cbn beta. intros _ w1 [Hh1 Ht1]. rewrite <- Hh1, <- Ht1 in *.
  clear Hh1 Ht1 w. rename w1 into w. apply wp_try. apply (get_answers id w _ s Hs).
  intros w1 Ht1 Hr1. rewrite <- Ht1, <- Hr1 in *. clear Ht1 Hr1 w. rewrite E. rename w1 into w.
  apply wp_try.
  assert (forall w1, tables w1 = tables w -> stream_at (redis (host w1)) = stream_at (redis (host w)) ->
    (forall id', id' <> id -> redis_state (redis (host w1)) id' = redis_state (redis (host w)) id') ->
    cached (redis (host w1)) id (st', n') ->
    wp (if c1 then Publish_redis maxLen status_stream (status_message id st' n') ;;- mret (Ok tt) else mret (Ok tt))
      (fun _ w' => wp (mret tt) (fun _ w' => exists new, tables w' = tables w /\
        (forall id', id' <> id -> redis_state (redis (host w')) id' = redis_state (redis (host w)) id') /\
        cached (redis (host w')) id (st', n') /\ told_of id sn (st', n') new /\
        entries (redis (host w')) = entries (redis (host w)) ++ new /\
        unread (redis (host w')) = (fun u => u ++ new) <$> unread (redis (host w))) w') w1) as Hpub.
  { intros w1 Ht1 Hs1 Ho1 Hc1. assert (forall g, group_at (redis (host w1)) status_stream g =
      group_at (redis (host w)) status_stream g) as Hg1 by (intros g; unfold group_at; by rewrite Hs1).
    destruct c1.
    - apply wp_bind. apply (publish_answers k).
      { unfold roomy, entries, unread in *. by rewrite Hs1, Hg1. }
      intros w2 e Ht2 Hr2 He Hen Hun. apply wp_ret, wp_ret. exists [e]. rewrite Hen, Hun.
      unfold entries, unread, cached in *. rewrite Ht2, Hs1, Hg1, Hr2. split_and!; try done.
      intros id' Hid. rewrite Hr2. auto.
    - apply wp_ret, wp_ret. exists []. unfold entries, unread. rewrite Hs1, Hg1, app_nil_r.
      split_and!; try done; [cbn; rewrite <- Hst; by eapply unchanged_status|].
      destruct (group_at _ _ _); cbn; [by rewrite app_nil_r|done]. }
  destruct (c1 || c2) eqn:Ec.
  - apply (set_answers id st' n' w).
    { eapply next_state_range; [|exact E|done]. unfold min_int64. lia. }
    intros w1 Ht1 Hs1 Ho1 Hc1. apply Hpub; try done. eexists. split; [exact Hc1|].
    unfold current_status. cbn. by rewrite bool_decide_eq_false_2 by eauto using next_state_nonempty.
  - apply wp_ret. apply Hpub; try done. destruct (next_state_same _ _ _ _ _ _ _ _ E Ec) as [-> ->]. by exists s.
Qed.

(** *** A delivery *)

(** A registry whose rows can be found and rewritten: unique keys, texts as
    the service stores them, identifiers as PostgreSQL prints them. *)
Record registry (x : mstate) : Prop := {
  reg_unique : unique_servers (servers x) = true;
  reg_fits : forallb fits_server (servers x) = true;
  reg_trimmed : Forall is_trimmed (servers x);
  reg_uuid : Forall (fun s => parse_uuid (ServerID s) = Some (ServerID s) /\ ServerID s <> "") (servers x);
}.

Definition has_id (id : string) (s : Server) : bool := String.eqb (ServerID s) id.
Definition status_of (x : mstate) (id : string) : option string :=
  CurrentStatus <$> List.find (has_id id) (servers x).

(** The status columns hold the words that are announced. *)
Context (Hword : forall st s now, fits_server s = true ->
  st = ServerStatusOnline \/ st = ServerStatusOffline -> fits_server (updated_row now (with_status st s) s) = true).

(** The row of [id] with a new status. *)
Definition restatus (now : Z) (id st : string) (s : Server) : Server :=
  if has_id id s then updated_row now (with_status st s) s else s.

Lemma find_id l s : NoDup (ids l) -> s ∈ l -> List.find (has_id (ServerID s)) l = Some s.
Proof.
  induction l as [|a l IH]; [by intros _ ?%elem_of_nil|]. cbn. intros Hn. inversion Hn as [|y l' Hnot Hn' E]; subst.
  unfold has_id at 1. intros [->|Hin]%elem_of_cons; [by rewrite String.eqb_refl|].
  destruct (String.eqb_spec (ServerID a) (ServerID s)) as [E|]; [|by apply IH].
  destruct Hnot. rewrite E. apply list_elem_of_fmap. by exists s.
Qed.

Lemma restatus_rows now st s x :
  registry x -> s ∈ servers x ->
  replace_row now (trimmed (with_status st s)) (servers x) = map (restatus now (ServerID s) st) (servers x).
Proof.
  intros [(Hids & _ & _)%unique_servers_spec _ Htr _] Hs. apply map_ext_in. intros a Ha%list_elem_of_In. unfold restatus, has_id. cbn [ServerID trimmed with_status].
  destruct (String.eqb_spec (ServerID a) (ServerID s)) as [E|]; [|done].
  pose proof (find_id _ _ Hids Hs) as H1. pose proof (find_id _ _ Hids Ha) as H2. rewrite E in H2.
  assert (a = s) as -> by congruence. rewrite Forall_forall in Htr. specialize (Htr s Hs).
  apply is_trimmed_iff in Htr as [H3 H4]. unfold updated_row. cbn. by rewrite H3, H4.
Qed.

Lemma restatus_registry now id st x :
  st = ServerStatusOnline \/ st = ServerStatusOffline -> registry x ->
  registry (MState (map (restatus now id st) (servers x)) (outbox x)).
Proof.
  intros Hst [Hu Hf Htr Hid]. assert (forall s, ServerID (restatus now id st s) = ServerID s /\
    ServerName (restatus now id st s) = ServerName s /\ IPv4 (restatus now id st s) = IPv4 s) as Hkeys.
  { intros s. unfold restatus. by destruct (has_id id s). }
  split; cbn [servers].
  - rewrite <- Hu. unfold unique_servers, ids, names, ips. rewrite !map_map.
    rewrite (map_ext (fun s => ServerID (restatus now id st s)) ServerID) by (intros; apply Hkeys).
    rewrite (map_ext (fun s => ServerName (restatus now id st s)) ServerName) by (intros; apply Hkeys).
    by rewrite (map_ext (fun s => IPv4 (restatus now id st s)) IPv4) by (intros; apply Hkeys).
  - rewrite forallb_forall in *. intros s' (s & <- & Hs)%in_map_iff. specialize (Hf s Hs). unfold restatus.
    destruct (has_id id s); [by apply Hword|done].
  - apply Forall_map. eapply Forall_impl; [exact Htr|]. intros s Hs. cbn. unfold restatus.
    destruct (has_id id s); [|done]. apply is_trimmed_iff in Hs. by apply is_trimmed_iff.
  - apply Forall_map. eapply Forall_impl; [exact Hid|]. intros s Hs. cbn. by rewrite (proj1 (Hkeys s)).
Qed.

Lemma restatus_status now id st x id' :
  status_of (MState (map (restatus now id st) (servers x)) (outbox x)) id' =
  (fun old => if String.eqb id' id then st else old) <$> status_of x id'.
Proof.
  unfold status_of. cbn [servers]. induction (servers x) as [|s l IH]; [done|]. cbn [map List.find].
  assert (has_id id' (restatus now id st s) = has_id id' s) as ->.
  { unfold restatus. by destruct (has_id id s). }
  destruct (has_id id' s) eqn:E; [|exact IH]. cbn. unfold restatus, has_id in *. apply String.eqb_eq in E. subst.
  by destruct (String.eqb _ _).
Qed.

(** One announcement, on a server of the registry. *)
Lemma status_turn e id st n s w x :
  e_fields e = status_message id st n -> st = ServerStatusOnline \/ st = ServerStatusOffline ->
  registry x -> s ∈ servers x -> ServerID s = id -> tables w = DView x None ->
  wp (status_processMessage (brokerMsg e)) (fun r w' => exists x', r = Ok tt /\ tables w' = DView x' None /\
    redis (host w') = redis (host w) /\ registry x' /\
    forall id', status_of x' id' = (fun old => if String.eqb id' id then st else old) <$> status_of x id') w.
Proof.
  intros He Hst Hreg Hs <- Hv. pose proof Hreg as [Hu Hf Htr Hid]. rewrite Forall_forall in Hid.
  destruct (Hid s Hs) as [Hpid Hne]. clear Hid.
  assert (plain_text (ServerID s) = true) as Hplain by (by eapply parse_uuid_plain).
  pose proof (MonitoringSystem.announcement_reported (ServerID s) st n e (plain_valid _ Hplain) Hst He) as Hrep.
  assert (List.find (has_id (ServerID s)) (servers x) = Some s) as Hfind.
  { apply find_id; [by apply unique_servers_spec|done]. }
  unfold report in Hrep. unfold status_processMessage.
  destruct (Values (brokerMsg e) !! "event_type") as [ty|]; [|done]. cbn [mbind option_bind] in Hrep.
  destruct (String.eqb ty "ServerStatusChanged"); [|done]. cbn [negb].
  destruct (Values (brokerMsg e) !! "payload") as [p|]; [|done]. cbn [mbind option_bind] in Hrep. rewrite Hrep.
  rewrite (proj2 (String.eqb_neq _ _) Hne). cbn [orb].
  assert (String.eqb st "" = false) as -> by (by destruct Hst as [-> | ->]).
  apply wp_bind, wp_bind. apply (wp_sql _ _ _ x); [done| |].
  2:{ intros e' w' x' _ _ _ Hx. destruct (Hx Hans) as [_ E]. rewrite Hpid in E. unfold first_server in E.
      fold (has_id (ServerID s)) in E. by rewrite Hfind in E. }
  rewrite Hpid. unfold first_server. fold (has_id (ServerID s)). rewrite Hfind.
  intros a w1 x1 [= <- <-] Hv1 Hh1. apply wp_ret. cbn [not_found]. destruct (String.eqb_spec (CurrentStatus s) st) as [E|_].
  { apply wp_ret. exists x. rewrite Hh1. split_and!; try done. intros id'. unfold status_of.
    destruct (String.eqb_spec id' (ServerID s)) as [->|]; [by rewrite Hfind, <- E|].
    by destruct (List.find (has_id id') _). }
  apply wp_try, wp_bind, wp_time_Now. intros now w2 Ht2 _ Hh2. apply wp_try, (wp_sql _ _ _ x); [by rewrite Ht2| |].
  all: unfold update_server; rewrite (restatus_rows now st s x Hreg Hs).
  all: pose proof (restatus_registry now (ServerID s) st x Hst Hreg) as Hreg'; pose proof Hreg' as [Hu' Hf' _ _];
    cbn [servers] in Hu', Hf'; rewrite Hu', Hf'; cbn [andb].
  2:{ intros e' w' x' _ _ _ Hx. by destruct (Hx Hans) as [_ E]. }
  intros k w3 x3 [= <- <-] Hv3 Hh3.
  cbn [ServerID trimmed with_status]. fold (has_id (ServerID s)).
  assert (s ∈ List.filter (has_id (ServerID s)) (servers x)) as Hin.
  { apply list_elem_of_In, List.filter_In. split; [by apply list_elem_of_In|]. apply String.eqb_refl. }
  destruct (List.filter _ _) as [|s' l]; [by apply elem_of_nil in Hin|]. clear Hin.
  change (Z.of_nat (length (s' :: l)) =? 0)%Z with false.
  apply wp_ret. cbn beta iota. apply wp_ret. eexists. split; [done|]. split; [exact Hv3|]. split; [by rewrite Hh3, Hh2, Hh1|].
  split; [exact Hreg'|]. intros id'. apply restatus_status.
Qed.

(** The statuses after some messages were read. *)
Definition after_reading (es : list entry) (f : string -> option string) : string -> option string :=
  foldl (fun f e id => match report (brokerMsg e) with
                       | Some (id', st) => (fun old => if String.eqb id id' then st else old) <$> f id
                       | None => f id
                       end) f es.

Lemma after_reading_ext es f g : (forall id, f id = g id) -> forall id, after_reading es f id = after_reading es g id.
Proof.
  revert f g. induction es as [|e es IH]; intros f g Hfg id; cbn; [done|]. apply IH. intros id'.
  by destruct (report _) as [[]|]; rewrite Hfg.
Qed.

Lemma after_reading_app es es' f : after_reading (es ++ es') f = after_reading es' (after_reading es f).
Proof. apply foldl_app. Qed.

Lemma after_reading_some es f id : is_Some (after_reading es f id) <-> is_Some (f id).
Proof.
  revert f. induction es as [|e es IH]; intros f; cbn; [done|]. unfold after_reading in IH. rewrite IH.
  destruct (report _) as [[]|]; [apply fmap_is_Some|done].
Qed.

(** An announcement about a server of the registry. *)
Definition due (x : mstate) (e : entry) : Prop :=
  exists s st n, s ∈ servers x /\ e_fields e = status_message (ServerID s) st n /\
    (st = ServerStatusOnline \/ st = ServerStatusOffline).

Lemma status_of_server x id : is_Some (status_of x id) <-> exists s, s ∈ servers x /\ ServerID s = id.
Proof.
  unfold status_of. split.
  - intros [st Hs]. destruct (List.find (has_id id) (servers x)) as [s|] eqn:E; [|done].
    apply List.find_some in E as [Hin Hid%String.eqb_eq]. exists s. by rewrite list_elem_of_In.
  - intros (s & Hs & Hid). destruct (List.find (has_id id) (servers x)) as [s'|] eqn:E; [by eexists|].
    apply list_elem_of_In in Hs. pose proof (List.find_none _ _ E _ Hs) as Hf.
    unfold has_id in Hf. by rewrite Hid, String.eqb_refl in Hf.
Qed.

Lemma due_same x x' e : (forall id, is_Some (status_of x id) -> is_Some (status_of x' id)) -> due x e -> due x' e.
Proof.
  intros Hx (s & st & n & Hs & He & Hst).
  destruct (proj1 (status_of_server x' (ServerID s))) as (s' & Hs' & E); [apply Hx, status_of_server; by exists s|].
  exists s', st, n. by rewrite E.
Qed.

Lemma due_report x e s st n : registry x -> s ∈ servers x -> e_fields e = status_message (ServerID s) st n ->
  st = ServerStatusOnline \/ st = ServerStatusOffline -> report (brokerMsg e) = Some (ServerID s, st).
Proof.
  intros [_ _ _ Hid] Hs He Hst. rewrite Forall_forall in Hid. destruct (Hid s Hs) as [Hp _].
  apply (MonitoringSystem.announcement_reported _ _ n); [|done..]. eapply plain_valid, parse_uuid_plain, Hp.
Qed.

(** What the consumer leaves of Redis: the cache and the stream. *)
Definition same_flow (r r' : rstate) : Prop :=
  (forall id, redis_state r' id = redis_state r id) /\ entries r' = entries r /\ unread r' = unread r.

Lemma same_flow_refl r : same_flow r r.
Proof. done. Qed.
Lemma same_flow_trans r1 r2 r3 : same_flow r1 r2 -> same_flow r2 r3 -> same_flow r1 r3.
Proof. intros (E1 & E2 & E3) (E4 & E5 & E6). unfold same_flow. rewrite E5, E6. split_and!; [|done..]. intros id. by rewrite E4. Qed.

Lemma ack_turn id w :
  wp (rdb (XAck status_stream group_name id)) (fun _ w' => tables w' = tables w /\
    same_flow (redis (host w)) (redis (host w'))) w.
Proof.
  apply wp_redis; [|by intros; exfalso]. intros [] w' t s' Ht _ Hw' ->. split; [done|].
  rewrite Hw'. cbn [redis]. split; [done|]. unfold entries, unread. rewrite entries_update. split; [done|].
  rewrite group_at_update, decide_True by done. by destruct (group_at _ _ _).
Qed.

Lemma deliver_messages es w x :
  Forall (due x) es -> registry x -> tables w = DView x None ->
  wp (for_each (handle_message status_stream group_name status_processMessage) es) (fun _ w' => exists x',
    tables w' = DView x' None /\ registry x' /\ same_flow (redis (host w)) (redis (host w')) /\
    forall id, status_of x' id = after_reading es (status_of x) id) w.
Proof.
  intros Hes. revert w x Hes. induction es as [|e es IH]; intros w x Hes Hreg Hv; cbn [for_each].
  { apply wp_ret. by exists x. }
  apply Forall_cons in Hes as [(s & st & n & Hs & He & Hst) Hes].
  apply wp_bind, wp_bind. eapply wp_mono; [by apply (status_turn e (ServerID s) st n s)|]. cbn beta.
  intros r w1 (x1 & -> & Hv1 & Hh1 & Hreg1 & Hst1). apply wp_bind. eapply wp_mono; [apply ack_turn|]. cbn beta.
  intros _ w2 [Ht2 Hf2]. apply wp_ret. rewrite Hh1 in Hf2.
  eapply wp_mono; [apply (IH w2 x1); [|exact Hreg1|by rewrite Ht2]|].
  { eapply Forall_impl; [exact Hes|]. intros e' He'. eapply due_same; [|exact He'].
    intros id Hid. rewrite Hst1. by apply fmap_is_Some. }
  cbn beta. intros _ w3 (x3 & Hv3 & Hreg3 & Hf3 & Hst3). exists x3. split_and!; try done.
  { by eapply same_flow_trans. }
  intros id. rewrite Hst3. unfold after_reading. cbn [foldl]. rewrite (due_report x e s st n) by done.
  clear -Hst1. revert Hst1. generalize (status_of x1) as f. intros f Hf.
  by apply after_reading_ext.
Qed.

Lemma deliver_turn w x us :
  unread (redis (host w)) = Some us -> Forall (due x) us -> registry x -> tables w = DView x None ->
  wp (take_action Deliver) (fun _ w' => exists x',
    tables w' = DView x' None /\ registry x' /\
    (forall id, redis_state (redis (host w')) id = redis_state (redis (host w)) id) /\
    entries (redis (host w')) = entries (redis (host w)) /\ unread (redis (host w')) = Some (drop 50 us) /\
    forall id, status_of x' id = after_reading (take 50 us) (status_of x) id) w.
Proof.
  intros Hu Hdue Hreg Hv. apply wp_bind. unfold unread in Hu. destruct (group_at _ _ _) as [gr|] eqn:Eg; [|done].
  injection Hu as <-. apply wp_redis; [|by intros; exfalso]. intros es w1 t s' Ht _ Hw1 Hs. unfold rspec in Hs.
  rewrite Eg in Hs. destruct Hs as [-> ->].
  eapply wp_mono; [apply (deliver_messages _ w1 x); [by apply Forall_take|done|by rewrite Ht]|]. cbn beta.
  intros _ w2 (x2 & Hv2 & Hreg2 & (Hf1 & Hf2 & Hf3) & Hst). rewrite Hw1 in Hf1, Hf2, Hf3. cbn [redis] in *.
  exists x2. split_and!; try done.
  - rewrite Hf2. unfold entries. by rewrite entries_update.
  - rewrite Hf3. unfold unread. rewrite group_at_update, decide_True, Eg by done. done.
Qed.

(** *** A run

    [h] is the history of each server so far, [k] the number of checks: the
    registry catches up with the cache when it has read what is unread. *)
Record flowing (known : string -> Prop) (h : string -> list bool) (k : nat) (x : mstate) (us : list entry)
    (w : W) : Prop := {
  fl_view : tables w = DView x None;
  fl_registry : registry x;
  fl_group : unread (redis (host w)) = Some us;
  fl_due : Forall (due x) us;
  fl_length : length us <= length (entries (redis (host w))) <= k;
  fl_known : forall id, is_Some (status_of x id) <-> known id;
  fl_cached : forall id, known id -> cached (redis (host w)) id (reference_state th (h id));
  fl_catches_up : forall id, known id ->
    after_reading us (status_of x) id = Some (reference_state th (h id)).1;
}.

Definition checked (id : string) (up : bool) (h : string -> list bool) (id' : string) : list bool :=
  if String.eqb id id' then up :: h id' else h id'.

Lemma reference_decided b h : (reference_state th (b :: h)).1 = ServerStatusOnline \/
  (reference_state th (b :: h)).1 = ServerStatusOffline.
Proof. cbn [reference_state]. destruct (_ && _); auto. Qed.

Lemma check_flows known h k x us w id up :
  flowing known h k x us w -> known id -> ((0 < maxLen)%Z -> (Z.of_nat k < maxLen)%Z) ->
  wp (take_action (Check id up)) (fun _ w' => exists us', flowing known (checked id up h) (S k) x us' w') w.
Proof.
  intros [Hv Hreg Hg Hdue Hlen Hkn Hc Hup] Hid Hroom.
  eapply wp_mono; [apply (check_turn id up (reference_state th (h id)) k); [by apply Hc|by apply reference_nonempty|]|].
  { unfold roomy. rewrite Hg. split_and!; [|lia|done]. intros u [= <-]. lia. }
  cbn beta. intros _ w' (new & Ht & Ho & Hc' & Hnew & Hen & Hun).
  rewrite state_after_reference in Hc', Hnew by done. rewrite Hg in Hun. cbn in Hun.
  assert (length new <= 1) as Hl1 by (destruct new as [|? [|]]; cbn in *; [lia|lia|done]).
  assert (Forall (due x) new) as Hdnew.
  { destruct new as [|e [|]]; [constructor| |done]. apply Forall_singleton. unfold told_of in Hnew.
    apply Hkn, status_of_server in Hid as (s & Hs & Es). exists s, (reference_state th (up :: h id)).1,
      (reference_state th (up :: h id)).2. rewrite Es. split_and!; [done|done|apply reference_decided]. }
  exists (us ++ new). split; try done.
  - by rewrite Ht.
  - by apply Forall_app.
  - rewrite Hen, !length_app. lia.
  - intros id' Hid'. unfold checked. destruct (String.eqb_spec id id') as [<-|Hne]; [done|].
    destruct (Hc id' Hid') as (s & Hs & Es). exists s. by rewrite Ho.
  - intros id' Hid'. unfold after_reading. rewrite foldl_app. fold (after_reading us (status_of x)).
    specialize (Hup id' Hid'). unfold checked. destruct new as [|e [|]]; [| |done]; cbn [foldl].
    + rewrite Hup. destruct (String.eqb_spec id id') as [<-|]; [|done]. unfold told_of in Hnew. by rewrite Hnew.
    + apply Forall_singleton in Hdnew as (s & st & n & Hs & He & Hst). unfold told_of in Hnew.
      apply Hkn, status_of_server in Hid as (s0 & Hs0 & Es0). subst id.
      rewrite (due_report x e s0 _ _ Hreg Hs0 Hnew (reference_decided up _)), Hup. cbn.
      rewrite String.eqb_sym. by destruct (String.eqb_spec (ServerID s0) id') as [<-|].
Qed.

Lemma deliver_flows known h k x us w :
  flowing known h k x us w ->
  wp (take_action Deliver) (fun _ w' => exists x', flowing known h k x' (drop 50 us) w') w.
Proof.
  intros [Hv Hreg Hg Hdue Hlen Hkn Hc Hup]. eapply wp_mono; [by apply (deliver_turn w x us)|].
  cbn beta. intros _ w' (x' & Hv' & Hreg' & Hr & Hen & Hun & Hst). exists x'.
  assert (forall id, is_Some (status_of x' id) <-> is_Some (status_of x id)) as Hsome.
  { intros id. rewrite Hst. apply after_reading_some. }
  split; try done.
  - apply Forall_drop. eapply Forall_impl; [exact Hdue|]. intros e. apply due_same. by intros; apply Hsome.
  - rewrite Hen, length_drop. lia.
  - intros id. by rewrite Hsome.
  - intros id Hid. destruct (Hc id Hid) as (s & Hs & Es). exists s. by rewrite Hr.
  - intros id Hid. rewrite <- (Hup id Hid). rewrite <- (take_drop 50 us) at 2. rewrite after_reading_app.
    by apply after_reading_ext.
Qed.

Lemma run_flows known acts : forall h k x us w,
  flowing known h k x us w -> (forall id up, Check id up ∈ acts -> known id) ->
  ((0 < maxLen)%Z -> (Z.of_nat (k + checks acts) <= maxLen)%Z) ->
  wp (for_each take_action acts) (fun _ w' => exists x' us',
    flowing known (fun id => history id acts (h id)) (k + checks acts) x' us' w') w.
Proof.
  induction acts as [|a acts IH]; intros h k x us w Hf Hk Hroom; cbn [for_each].
  { apply wp_ret. exists x, us. by rewrite Nat.add_0_r. }
  assert (forall id up, Check id up ∈ acts -> known id) as Hk' by (intros id up Hin; eapply Hk; by right).
  apply wp_bind. destruct a as [id up|].
  - assert (k + checks (Check id up :: acts) = S k + checks acts) as Ek by (unfold checks; cbn; lia).
    rewrite Ek in *. eapply wp_mono; [eapply (check_flows known h k x us w id up); [done|eapply Hk; by left|lia]|].
    cbn beta. intros _ w1 (us1 & Hf1). by apply (IH _ _ _ _ _ Hf1).
  - eapply wp_mono; [by apply (deliver_flows known h k x us)|]. cbn beta. intros _ w1 (x1 & Hf1).
    by apply (IH _ _ _ _ _ Hf1).
Qed.

Lemma drain_flows known h k d : forall x us w,
  flowing known h k x us w -> length us <= 50 * d ->
  wp (for_each take_action (replicate d Deliver)) (fun _ w' => exists x', flowing known h k x' [] w') w.
Proof.
  induction d as [|d IH]; intros x us w Hf Hd; cbn [for_each replicate].
  { apply wp_ret. exists x. destruct us; [done|cbn in Hd; lia]. }
  apply wp_bind. eapply wp_mono; [by apply (deliver_flows known h k x us)|]. cbn beta. intros _ w1 (x1 & Hf1).
  apply (IH _ _ _ Hf1). rewrite length_drop. lia.
Qed.
End flow.

Lemma wp_for_each_app {W A B} (f : A -> proc W B) l l' (Q : unit -> W -> Prop) w :
  wp (for_each f l ;;- for_each f l') Q w -> wp (for_each f (l ++ l')) Q w.
Proof.
  revert w. induction l as [|a l IH]; intros w; [done|]. cbn [for_each app].
  unfold wp, mbind, proc_bind in *. destruct (f a w) as [b w1]. apply IH.
Qed.

(** C1: the status of a server reaches the registry.  Take a registry whose
    servers are UNKNOWN in the table of sms-management and in the cache of
    sms-monitoring, and let checks of these servers and reads of the status
    stream follow each other in any order; when the last checks are followed
    by enough reads, the row of every server has the status that its checks
    call for, which is also the cached one.  (Redis and the database answer,
    and the stream is long enough for the messages of the run.) *)
Theorem status_reaches_registry {W} {wo : World W mstate} `{!Answers wo} `{pg : Postgres} `{!PostgresLaws}
    (th maxLen : Z) (log : string -> bool -> proc W unit) (acts : list action) (d : nat) (w : W) (x : mstate) :
  (forall id b w, wp (log id b) (fun _ w' => host w' = host w /\ tables w' = tables w) w) ->
  (forall st s now, fits_server s = true -> st = ServerStatusOnline \/ st = ServerStatusOffline ->
     fits_server (updated_row now (with_status st s) s) = true) ->
  (1 <= th <= max_int64)%Z ->
  tables w = DView x None -> registry x -> Forall (fun s => CurrentStatus s = ServerStatusUnknown) (servers x) ->
  entries (redis (host w)) = [] -> unread (redis (host w)) = Some [] ->
  (forall id, id ∈ ids (servers x) -> cached (redis (host w)) id (ServerStatusUnknown, 0%Z)) ->
  (forall id up, Check id up ∈ acts -> id ∈ ids (servers x)) ->
  ((0 < maxLen)%Z -> (Z.of_nat (checks acts) <= maxLen)%Z) -> checks acts <= 50 * d ->
  wp (for_each (take_action th maxLen log) (acts ++ replicate d Deliver)) (fun _ w' => exists x',
    tables w' = DView x' None /\ (forall id, is_Some (status_of x' id) <-> id ∈ ids (servers x)) /\
    forall id, id ∈ ids (servers x) ->
      let sn := reference_state th (history id acts []) in
      status_of x' id = Some sn.1 /\ cached (redis (host w')) id sn) w.
Proof.
  intros Hlog Hword Hth Hv Hreg Hunk Hen Hun Hca Hids Hroom Hd.
  assert (forall id, is_Some (status_of x id) <-> id ∈ ids (servers x)) as Hkn.
  { intros id. rewrite status_of_server. unfold ids. change (map ServerID ?l) with (ServerID <$> l).
    rewrite list_elem_of_fmap. naive_solver. }
  assert (flowing th (fun id => id ∈ ids (servers x)) (fun _ => []) 0 x [] w) as H0.
  { split; try done; [by rewrite Hen|]. intros id Hid. cbn. apply Hkn in Hid as [st E]. rewrite E. f_equal.
    unfold status_of in E. destruct (List.find (has_id id) (servers x)) as [s|] eqn:Ef; [|done].
    injection E as <-. apply List.find_some in Ef as [Hin _]. rewrite Forall_forall in Hunk.
    apply Hunk. by apply list_elem_of_In. }
  apply wp_for_each_app, wp_bind.
  eapply wp_mono; [by eapply (run_flows th maxLen log Hlog Hth Hword _ acts _ 0)|].
  cbn beta. intros _ w1 (x1 & us1 & H1). pose proof H1 as [_ _ _ _ [Hl1 Hl2] _ _ _].
  eapply wp_mono; [eapply (drain_flows th maxLen log Hword _ _ _ d); [exact H1|lia]|].
  cbn beta. intros _ w2 (x2 & [Hv2 _ _ _ _ Hkn2 Hc2 Hup2]). exists x2. split_and!; [done..|].
  intros id Hid. cbn zeta. split; [by apply Hup2|by apply Hc2].
Qed.

(** Two servers that both services know, and a group that has read nothing. *)
Import ManagementOutbox (story_a, story_b, story_created, strict_pg, strict_pg_laws).
Definition two_servers : hview * dview mstate :=
  (HView 0 (set_stream status_stream (Stream 0 [] {[group_name := Group [] []]})
     (set_hash (ServerInfoKey "id-a") {["status" := "UNKNOWN"]}
        (set_hash (ServerInfoKey "id-b") {["status" := "UNKNOWN"]} empty_redis))), DView story_created None).
Definition two_histories : list action :=
  [Check "id-a" false; Check "id-b" true; Deliver; Check "id-a" true; Check "id-b" false; Check "id-b" false].

Lemma status_reaches_registry_witness :
  let go := for_each (take_action (wo := calm mstate) (pg := strict_pg) 2 1000 no_log) (two_histories ++ [Deliver]) in
  map CurrentStatus (servers (committed (go two_servers).2.2)) = ["ONLINE"; "OFFLINE"] /\
  wp go (fun _ w' => exists x', tables (wo := calm mstate) w' = DView x' None /\
    (forall id, is_Some (status_of x' id) <-> id ∈ ids (servers story_created)) /\
    forall id, id ∈ ids (servers story_created) ->
      let sn := reference_state 2 (history id two_histories []) in
      status_of x' id = Some sn.1 /\ cached (redis (host (wo := calm mstate) w')) id sn) two_servers.
Proof.
  split; [by vm_compute|].
  assert (forall id, id ∈ ids (servers story_created) -> id = "id-a" \/ id = "id-b") as Hids.
  { intros id [->|[->|[]%elem_of_nil]%elem_of_cons]%elem_of_cons; auto. }
  refine (@status_reaches_registry _ (calm mstate) (calm_answers mstate) strict_pg strict_pg_laws 2 1000 no_log two_histories 1
    two_servers story_created _ _ _ _ _ _ _ _ _ _ _ _).
  - intros id b w; by apply wp_ret.
  - intros st s now. cbn -[forallb]. rewrite !andb_true_iff. intros [[Hf H1] H2] Hst. split; [|done].
    cbn in *. rewrite !andb_true_iff in *. destruct_and!. split_and!; try done. by destruct Hst as [-> | ->].
  - unfold max_int64. lia.
  - done.
  - split; [by vm_compute|by vm_compute|by repeat constructor|].
    by repeat (constructor; [split; [by vm_compute|done]|]).
  - by repeat constructor.
  - done.
  - by vm_compute.
  - intros id [-> | ->]%Hids; (eexists; split; [by vm_compute|done]).
  - unfold two_histories. intros id up Hin. rewrite !elem_of_cons, elem_of_nil in Hin.
    destruct_or! Hin; simplify_eq; refine (bool_decide_unpack _ _); by vm_compute.
  - cbn. lia.
  - cbn. lia.
Defined.

(** ** Finding *)

(** The event of an update carries the status that the row had then, and
    sms-monitoring writes it over its own.  Here a server goes down, and before
    the registry has read of it the server is edited: the event says ONLINE.
    When the server is up again, the cache has ONLINE already and announces
    nothing; the registry stays OFFLINE, whatever checks follow. *)
Definition calm_action : action -> proc (hview * dview mstate) unit :=
  take_action (wo := calm mstate) (pg := strict_pg) 2 1000 no_log.
Definition goes_down : list action :=
  [Check "id-a" true; Deliver; Check "id-a" false; Check "id-a" false].
Definition down_unread : hview * dview mstate := (for_each calm_action goes_down two_servers).2.

(** The row of the server, and the event of an edit of it. *)
Definition row_then : Server := List.hd story_a (servers (committed down_unread.2)).
Definition edit_event : OutboxEvent :=
  ManagementOutbox.story_event "e9" "ServerUpdated" "id-a" (server_json ManagementOutbox.now_json row_then).
Definition edit_read : hview * dview mstate :=
  (MonitoringWorkers.stream_processMessage (srv := calm_host mstate)
     {| Broker.ID := "9"; Values := values_of (event_fields edit_event) |} down_unread).2.
Definition up_again : list action :=
  [Deliver; Check "id-a" true; Deliver; Check "id-a" true; Deliver; Check "id-a" true; Deliver].
Definition stays_down : hview * dview mstate := (for_each calm_action up_again edit_read).2.

Lemma stale_status_overwrites :
  status_of (committed down_unread.2) "id-a" = Some ServerStatusOnline /\
  cached (redis (host (wo := calm mstate) down_unread)) "id-a" (ServerStatusOffline, 2%Z) /\
  cached (redis (host (wo := calm mstate) edit_read)) "id-a" (ServerStatusOnline, 2%Z) /\
  cached (redis (host (wo := calm mstate) stays_down)) "id-a" (ServerStatusOnline, 0%Z) /\
  unread (redis (host (wo := calm mstate) stays_down)) = Some [] /\
  status_of (committed stays_down.2) "id-a" = Some ServerStatusOffline /\
  (reference_state 2 (history "id-a" (goes_down ++ up_again) [])).1 = ServerStatusOnline.
Proof.
  split_and!; try (eexists; split; [by vm_compute|done]). all: by vm_compute.
Qed.
