(* ===== verification/Fleet.v ===== *)
(** sms-simulator as a whole: its settings (cmd/server/main.go), the dummy SSH
    server (server/ssh/ssh.go), and what sms-monitoring finds out about the
    servers that [Seed] registers. *)
From S2P Require Import Prelude GoStd Json Redis Host Http Calendar Monitoring MonitoringWorkers.
From S2P Require Config.
From S2P Require Import Simulator Seed.

(** ** The settings (cmd/server/main.go) *)
Section settings.
Context (e : Config.Env).

Definition envStr (key defaultVal : string) : string :=
  let v := Config.Getenv e key in if String.eqb v "" then defaultVal else v.
Definition envInt (key : string) (defaultVal : Z) : Z :=
  let v := Config.Getenv e key in
  if String.eqb v "" then defaultVal else match Atoi v with (n, None) => n | _ => defaultVal end.
Definition envBool (key : string) (defaultVal : bool) : bool :=
  let v := Config.Getenv e key in
  if String.eqb v "" then defaultVal else match ParseBool v with Ok b => b | Err _ => defaultVal end.

(** handler.go *)
Definition envDuration (key : string) (defaultVal : Z) : Z :=
  let v := Config.Getenv e key in
  if String.eqb v "" then defaultVal
  else match Config.ParseDuration v with
       | (d, None) => d
       | _ => match Atoi v with (seconds, None) => wrap64 (seconds * Second) | _ => defaultVal end
       end.
Context (ParseFloat : string -> res f64).
Definition envFloat (key : string) (defaultVal : f64) : f64 :=
  let v := Config.Getenv e key in
  if String.eqb v "" then defaultVal else match ParseFloat v with Ok f => f | Err _ => defaultVal end.

Definition master_key : string :=
  let masterKey := envStr "MASTER_KEY" "0123456789abcdef0123456789abcdef" in
  let keyFile := Config.Getenv e "MASTER_KEY_FILE" in
  if String.eqb keyFile "" then masterKey
  else match Config.ReadFile e keyFile with Some b => TrimSpace b | None => masterKey end.

(** The flapper: its interval, percentage and number of addresses, unless it
    is disabled. *)
Definition StartAutoFlapper_settings (totalIPs : Z) : option (Z * f64 * Z) :=
  let interval := envDuration "SIMULATOR_FLAP_INTERVAL" (60 * Second) in
  let percent := envFloat "SIMULATOR_FLAP_PERCENT" (f64_of_int 5) in
  if (interval <=? 0)%Z || f64_ge (f64_of_int 0) percent then None
  else Some (interval, percent, flipCount totalIPs percent).

Record sim_settings := {
  api : Server; sshPort : Z; redisAddr : string; pushEndpoint : string; masterKey : string;
  flapper : option (Z * f64 * Z);
}.
Definition simulator_main : sim_settings :=
  let totalIPs := envInt "SIMULATOR_IP_COUNT" 10000 in {|
  api := {| TotalIPs := totalIPs; Subnet := envStr "SIMULATOR_SUBNET" "10.1" |};
  sshPort := envInt "SIMULATOR_SSH_PORT" 2222;
  redisAddr := envStr "REDIS_ADDR" "localhost:6379";
  pushEndpoint := envStr "AGENT_HANDLER_URL" "http://sms-agent-handler:8080/api/v1/agent/heartbeat";
  masterKey := master_key;
  flapper := if envBool "SIMULATOR_AUTO_FLAP_ENABLED" false then StartAutoFlapper_settings totalIPs else None |}.

(** The goroutine that [StartAutoFlapper] starts, for so many ticks. *)
Definition StartAutoFlapper {W} {nft : Nft W} (Perm : nat -> proc W (list nat)) (s : Server) (ticks : nat) : proc W unit :=
  match StartAutoFlapper_settings (TotalIPs s) with
  | None => mret tt
  | Some _ => StartAutoFlapper_loop Perm s (envFloat "SIMULATOR_FLAP_PERCENT" (f64_of_int 5)) ticks
  end.
Definition NewServer (totalIPs : Z) (subnet : string) : Server := {| TotalIPs := totalIPs; Subnet := subnet |}.

(** The seeded fleet is the one that the simulator switches, as long as the
    count is a number and the subnet is left alone. *)
Lemma seed_agrees :
  (Atoi (Config.Getenv e "SIMULATOR_IP_COUNT")).2 = None \/ Config.Getenv e "SIMULATOR_IP_COUNT" = "" ->
  Config.Getenv e "SIMULATOR_SUBNET" = "" ->
  generateIPs (seed_count e) "10.1" = generateIPs (TotalIPs (api simulator_main)) (Subnet (api simulator_main)).
Proof.
  intros Hc Hs. cbn. unfold seed_count, envInt, envStr. rewrite Hs. cbn.
  destruct (String.eqb_spec (Config.Getenv e "SIMULATOR_IP_COUNT") "") as [|Hne]; [done|].
  destruct Hc as [Hc|]; [|done]. by destruct (Atoi _) as [n [|]].
Qed.
End settings.

(** A count that is no number makes two fleets of it. *)
Example seed_disagrees :
  let e := {| Config.LookupEnv := fun k => if String.eqb k "SIMULATOR_IP_COUNT" then Some "ten" else None;
              Config.ReadFile := fun _ => None |} in
  seed_count e = 0%Z /\ TotalIPs (api (simulator_main e (fun _ => Err ErrSyntax))) = 10000%Z.
Proof. done. Qed.

(** ** The dummy SSH server (server/ssh/ssh.go) *)

(** [PasswordCallback]: any password will do.  (%q also escapes.) *)
Definition PasswordCallback (user pass : string) : res unit :=
  if String.eqb user "sim" then Ok tt else Err (ErrS ("password rejected for " +:+ quote user)).

(** [handleConn], a new channel: accepted or not. *)
Definition accepts_channel (channelType : string) : bool := String.eqb channelType "session".

(** What it sends for a request on a channel. *)
Inductive ssh_answer := Reply (ok : bool) | ExitStatus (status : Z) | CloseChannel.
Definition serve_request (type : string) (wantReply : bool) : list ssh_answer :=
  if String.eqb type "exec" then (if wantReply then [Reply true; ExitStatus 0] else []) ++ [CloseChannel]
  else if String.eqb type "env" then if wantReply then [Reply true; ExitStatus 0] else []
  else if wantReply then [Reply false] else [].

(** A channel that a client opens, whether accepting it succeeds, and the
    requests on it; what becomes of it, with what the goroutine that serves it
    tries to send for each request. *)
Record ssh_channel := { ChannelType : string; accepting : res unit; channel_requests : list (string * bool) }.
Inductive channel_fate := Rejected | NotAccepted | Served (answers : list (list ssh_answer)).
Definition serve_channel (newChannel : ssh_channel) : channel_fate :=
  if negb (accepts_channel (ChannelType newChannel)) then Rejected
  else
    match accepting newChannel with
    | Err _ => NotAccepted
    | Ok _ => Served (map (fun req => serve_request req.1 req.2) (channel_requests newChannel))
    end.

Section ssh_server.
(** crypto/ed25519, [net.Listen] and x/crypto/ssh: the handshake, which asks the
    callback, ends with an error or with the channels of the client. *)
Context {Conn Priv Signer : Type} (GenerateKey : res Priv) (NewSignerFromKey : Priv -> res Signer) (Listen : string -> res unit).
Context (NewServerConn : Signer -> (string -> string -> res unit) -> Conn -> res (list ssh_channel)).

Definition generatePrivateKey : res Signer :=
  match GenerateKey with Err e => Err e | Ok priv => NewSignerFromKey priv end.

Definition handleConn (privateKey : Signer) (nConn : Conn) : list channel_fate :=
  match NewServerConn privateKey PasswordCallback nConn with
  | Err _ => []
  | Ok chans => map serve_channel chans
  end.

(** The loop over what [Accept] returns; each connection has a goroutine. *)
Fixpoint accept_loop (privateKey : Signer) (accepted : list (res Conn)) : list (list channel_fate) :=
  match accepted with
  | [] => []
  | Err _ :: accepted => accept_loop privateKey accepted
  | Ok nConn :: accepted => handleConn privateKey nConn :: accept_loop privateKey accepted
  end.

Definition StartDummySSHServer (port : Z) (accepted : list (res Conn)) : res (list (list channel_fate)) :=
  match generatePrivateKey with
  | Err e => Err e
  | Ok privateKey =>
    match Listen ("0.0.0.0:" +:+ Itoa port) with
    | Err e => Err e
    | Ok _ => Ok (accept_loop privateKey accepted)
    end
  end.

(** An error of [Accept] costs no other connection anything. *)
Lemma accept_loop_each privateKey accepted :
  accept_loop privateKey accepted =
  map (handleConn privateKey) (omap (fun r => match r with Ok nConn => Some nConn | Err _ => None end) accepted).
Proof. induction accepted as [|[nConn|e] accepted IH]; cbn; [done|by rewrite IH|done]. Qed.
End ssh_server.

(** [session.Run] of x/crypto/ssh on those answers: the request must be granted
    and the command exit with 0 before the channel closes. *)
Fixpoint exits_with_0 (l : list ssh_answer) : bool :=
  match l with
  | ExitStatus n :: _ => (n =? 0)%Z
  | CloseChannel :: _ | [] => false
  | Reply _ :: l => exits_with_0 l
  end.
Definition run_succeeds (l : list ssh_answer) : bool :=
  match l with Reply true :: l => exits_with_0 l | _ => false end.

(** Whoever gets through the handshake and opens a session has any command
    succeed there. *)
Lemma session_succeeds {Conn Signer} (NewServerConn : Signer -> (string -> string -> res unit) -> Conn -> res (list ssh_channel))
    privateKey nConn chans c :
  NewServerConn privateKey PasswordCallback nConn = Ok chans -> c ∈ chans -> ChannelType c = "session" -> accepting c = Ok tt ->
  exists answers, Served answers ∈ handleConn NewServerConn privateKey nConn /\
    forall i, channel_requests c !! i = Some ("exec", true) -> exists l, answers !! i = Some l /\ run_succeeds l = true.
Proof.
  intros Hconn Hc Ht Ha. exists (map (fun req => serve_request req.1 req.2) (channel_requests c)). split.
  - unfold handleConn. rewrite Hconn. apply list_elem_of_fmap. exists c. split; [|done]. unfold serve_channel. by rewrite Ht, Ha.
  - intros i Hi. rewrite list_lookup_fmap, Hi. by eexists.
Qed.

(** ** Monitoring the fleet

    The network between the two: the interface of the simulator has the
    addresses [ips], its packet filter drops the echo requests to the addresses
    that are down and nothing else (entrypoint.sh), its SSH server listens on
    port 2222 and its interface on port 8080. *)
Class FleetNetwork {W} (pr : Probes W) (nft : Nft W) (evals : W -> list (string * bool))
    (ips : list string) (simulatorHost : string) : Prop := {
  net_resolves : forall ip w, ip ∈ ips ->
    wp (NewPinger ip) (fun r w' => r = Ok tt /\ evals w' = evals w /\ view (Service := nft) w' = view (Service := nft) w) w;
  net_echo : forall ip t w, ip ∈ ips ->
    wp (pinger_Run ip t) (fun r w' => evals w' = evals w /\
      exists n, r = Ok n /\ ((0 < n)%Z <-> ip ∉ view (Service := nft) w)) w;
  net_dial : forall ip user pass t w, ip ∈ ips ->
    wp (ssh_Dial (ip +:+ ":2222") user pass t) (fun r w' => evals w' = evals w /\
      is_ok r = is_ok (PasswordCallback user pass)) w;
  net_session : forall ip w, ip ∈ ips ->
    wp (ssh_NewSession (ip +:+ ":2222")) (fun r w' => evals w' = evals w /\ is_ok r = accepts_channel "session") w;
  net_run : forall ip cmd w, ip ∈ ips ->
    wp (ssh_Run (ip +:+ ":2222") cmd) (fun r w' => evals w' = evals w /\
      is_ok r = run_succeeds (serve_request "exec" true)) w;
  net_request : forall w,
    wp (http_NewRequest ("http://" +:+ simulatorHost +:+ ":8080/health")) (fun r w' => r = Ok tt /\ evals w' = evals w) w;
  net_get : forall t w,
    wp (http_Do ("http://" +:+ simulatorHost +:+ ":8080/health") t) (fun r w' => evals w' = evals w /\
      exists s rq, r = Ok (rs_status (SetupMux s "/health" rq w).1)) w;
}.

(** What the checkers make of a server whose method is [method]. *)
Definition verdict (method ip : string) (down : gset string) : bool :=
  if String.eqb method "SSH" || String.eqb method "AGENT_PULL" then true else bool_decide (ip ∉ down).

Section fleet.
Context {W} {pr : Probes W} {nft : Nft W} {evals : W -> list (string * bool)} {ips : list string} {simulatorHost : string}
  {net : FleetNetwork pr nft evals ips simulatorHost} (timeouts : CheckerTimeouts).

Lemma ssh_up ip w : ip ∈ ips -> ip <> "" ->
  wp (ssh_login timeouts ip "2222" "sim" "") (fun b w' => b = true /\ evals w' = evals w) w.
Proof.
  intros Hip Hne%String.eqb_neq. unfold ssh_login. rewrite Hne. cbn [orb].
  apply wp_bind. eapply wp_mono; [by apply net_dial|]. cbn beta. intros [[]|] w1 [E1 [=]].
  apply wp_bind. eapply wp_mono; [by apply net_session|]. cbn beta. intros [[]|] w2 [E2 [=]].
  apply wp_bind. eapply wp_mono; [by apply net_run|]. cbn beta. intros r w3 [E3 ->].
  apply wp_ret. split; [done|congruence].
Qed.

Lemma agent_up w : wp (agent_health timeouts simulatorHost) (fun b w' => b = true /\ evals w' = evals w) w.
Proof.
  apply wp_bind. eapply wp_mono; [apply net_request|]. cbn beta. intros r w1 [-> E1].
  apply wp_bind. eapply wp_mono; [apply net_get|]. cbn beta. intros r w2 (E2 & s & rq & ->).
  apply wp_ret. split; [done|congruence].
Qed.

Lemma ping_verdict ip w : ip ∈ ips ->
  wp (ping timeouts ip) (fun b w' => b = bool_decide (ip ∉ view (Service := nft) w) /\ evals w' = evals w) w.
Proof.
  intros Hip. apply wp_bind. eapply wp_mono; [by apply net_resolves|]. cbn beta. intros r w1 (-> & E1 & Ed).
  apply wp_bind. eapply wp_mono; [by apply net_echo|]. cbn beta. intros r w2 (E2 & n & -> & Hn).
  apply wp_ret. split; [|congruence]. rewrite <- Ed. apply eq_true_iff_eq. by rewrite Z.ltb_lt, bool_decide_eq_true.
Qed.

Lemma probe_verdict method ip w : ip ∈ ips -> ip <> "" ->
  wp (probe timeouts simulatorHost method ip) (fun b w' =>
    b = verdict method ip (view (Service := nft) w) /\ evals w' = evals w) w.
Proof.
  intros Hip Hne. unfold probe, verdict.
  destruct (String.eqb method "SSH"); [by apply ssh_up|]. destruct (String.eqb method "AGENT_PULL"); [apply agent_up|].
  by apply ping_verdict.
Qed.
End fleet.

(** C39: when sms-monitoring polls a server that a seeding left in its cache,
    and the simulator runs, the check is evaluated once and its verdict is up,
    except for a server that is pinged and whose address the simulator was told
    to take down: no other server ever goes down by that switch. *)
Theorem fleet_verdicts {W} {srv : Host W} `{!HostLaws srv} `{!Reliable srv} {pr : Probes W} {nft : Nft W}
    (timeouts : CheckerTimeouts) (Evaluate : string -> string -> bool -> proc W (res unit))
    (evals : W -> list (string * bool)) `{!Frame srv evals} `{!Frame srv (view (Service := nft))}
    (ips : list string) (simulatorHost : string) `{!FleetNetwork pr nft evals ips simulatorHost}
    (s : seeded) (w : W) :
  Evaluate_logged Evaluate evals -> in_cache simulatorHost (redis (view w)) s -> sd_ip s ∈ ips -> "" ∉ ips ->
  wp (processServer Evaluate timeouts (sd_id s)) (fun _ w' =>
    evals w' = evals w ++ [(sd_id s, verdict (sd_method s) (sd_ip s) (view (Service := nft) w))]) w.
Proof.
  intros Hev Hc Hip Hne0. assert (sd_ip s <> "") as Hne by (intros E; by rewrite E in Hip).
  destruct (seeded_check timeouts simulatorHost _ s Hne Hc) as [Hconf Hcheck].
  apply wp_bind. eapply wp_mono; [apply wp_and; [apply (wp_frame srv evals)|
    apply wp_and; [apply (wp_frame srv (view (Service := nft)))|
      apply wp_rdb_reliable with (Q := fun r _ => r = Ok (hash_at (redis (view w)) (ServerInfoKey (sd_id s))))]]|].
  { intros a w1 t s1 _ _ [-> _]. done. }
  cbn beta. intros r w1 (E1 & Ed & ->). rewrite bool_decide_eq_false_2 by done.
  apply wp_bind. rewrite Hcheck. eapply wp_mono; [by apply probe_verdict|]. cbn beta. intros b w2 [-> E2].
  apply wp_bind. eapply wp_mono; [apply Hev|]. cbn beta. intros r w3 [E3 _]. apply wp_ret.
  rewrite E3, E2, E1. by rewrite Ed.
Qed.

(** *** The theorem at work *)
Definition fleet_world : Type := (hview * list (string * bool)) * gset string.
Definition fleet_host : Host fleet_world := framed (gset string) log_host.
Definition fleet_nft : Nft fleet_world := framed_r _ toy_nft.
Definition fleet_evals (w : fleet_world) : list (string * bool) := w.1.2.
Definition fleet_Evaluate (id ip : string) (b : bool) : proc fleet_world (res unit) :=
  fun w => (Ok tt, ((w.1.1, w.1.2 ++ [(id, b)]), w.2)).

(** The simulator behind its network. *)
Definition fleet_probes : Probes fleet_world := {|
  NewPinger := fun _ => mret (Ok tt);
  pinger_Run := fun ip _ w => (Ok (if bool_decide (ip ∈ w.2) then 0 else 1)%Z, w);
  ssh_Dial := fun _ user pass _ => mret (PasswordCallback user pass);
  ssh_NewSession := fun _ => mret (if accepts_channel "session" then Ok tt else Err ErrSyntax);
  ssh_Run := fun _ _ => mret (if run_succeeds (serve_request "exec" true) then Ok tt else Err ErrSyntax);
  http_NewRequest := fun _ => mret (Ok tt);
  http_Do := fun _ _ w =>
    (Ok (rs_status (SetupMux (nft := fleet_nft) toy_fleet "/health"
       {| Method := "GET"; Header := ∅; Query := fun _ => ""; Body := Ok "" |} w).1), w);
  Decrypt := fun s => mret (Ok s);
|}.

#[local] Instance fleet_host_laws : HostLaws fleet_host.
Proof. unfold fleet_host, log_host. typeclasses eauto. Qed.
#[local] Instance fleet_host_reliable : Reliable fleet_host.
Proof. unfold fleet_host, log_host. typeclasses eauto. Qed.
#[local] Instance fleet_evals_frame : Frame fleet_host fleet_evals.
Proof. intros A c w. unfold fleet_evals. cbn. by destruct (host_exec A c w.1.1). Qed.
#[local] Instance fleet_down_frame : Frame fleet_host (view (Service := fleet_nft)).
Proof. intros A c w. unfold view. cbn. by destruct (host_exec A c w.1.1). Qed.
#[local] Instance fleet_network ips simulatorHost : FleetNetwork fleet_probes fleet_nft fleet_evals ips simulatorHost.
Proof.
  split; intros; try (by apply wp_ret).
  - apply wp_run. cbn. split; [done|]. eexists. split; [done|]. unfold view. cbn.
    case_bool_decide; split; intros; try done; lia.
  - apply wp_run. cbn. split; [done|]. by exists toy_fleet, {| Method := "GET"; Header := ∅; Query := fun _ => ""; Body := Ok "" |}.
Qed.

Definition pinged : seeded := Seeded (seed_row "a" "sim-a" "10.1.0.1") (seed_replica "a" "sim-a" "10.1.0.1")
  [PHSet "server:info:a" (info_map "a" "10.1.0.1" "ICMP" "sms-simulator"); PSAdd "server:all_ids" "a"].
Definition fleet_before : fleet_world := ((HView 0 (pipe_run (sd_cmds pinged) empty_redis), []), {["10.1.0.1"]}).

Lemma fleet_verdicts_witness :
  wp (processServer (srv := fleet_host) (Probes0 := fleet_probes) fleet_Evaluate {| ICMP := 1; SSH := 1; AgentPull := 1 |} "a")
    (fun _ w' => fleet_evals w' = [] ++ [("a", verdict "ICMP" "10.1.0.1" {["10.1.0.1"]})]) fleet_before /\
  verdict "ICMP" "10.1.0.1" {["10.1.0.1"]} = false.
Proof.
  split; [|by vm_compute].
  refine (fleet_verdicts (srv := fleet_host) (pr := fleet_probes) (nft := fleet_nft) _ fleet_Evaluate fleet_evals
    (generateIPs 2 "10.1") "sms-simulator" pinged fleet_before _ _ _ _).
  - intros id ip b w. by split.
  - split; [refine (bool_decide_unpack _ _); by vm_compute| |done].
    intros fv Hfv. unfold info_map in Hfv. cbn in Hfv. rewrite !elem_of_cons, elem_of_nil in Hfv.
    destruct_or! Hfv; subst; try done; by vm_compute.
  - refine (bool_decide_unpack _ _). by vm_compute.
  - refine (bool_decide_unpack _ _). by vm_compute.
Defined.
