(* ===== verification/Startup.v ===== *)
(** The processes: what each service does from [main] until it serves
    (app/app.go, app/run.go, infrastructure/database/, infrastructure/logger/)
    and after its signal.  What the outside answers to each step (the database,
    Redis, Elasticsearch, the network) is an argument; each step happens at most
    once in a process.  A process ends before it serves with an error that
    [main] reports, or in a panic: of the main goroutine or of one it started,
    whose first steps are taken as soon as it is started. *)
From S2P Require Import Prelude GoStd.
From S2P Require Config Logging.
Import Config (Env, RedisConfig).
Import Logging (log_settings, InitLogger_settings, notification_InitLogger_settings).
From S2P Require Import Services.
From S2P Require Calendar Fleet.

(** ** Steps *)
Inductive part :=
  | OutboxRelay | StatusConsumer | GrpcServer | HttpServer | ReportWorkers | ServerEvents | StatusEvents | Scheduler
  | SshServer | PushWorker | Flapper
  | RegistryConsumer | WorkerPool | Producer | AgentSweeper | HeartbeatConsumer | ObservationLogger | MailConsumer.

Inductive action :=
  | MkdirLogs | OpenDB (dsn : string) | PoolOf | ExecSQL (q : string) | AutoMigrate (tables : list string) | SeedDB
  | Ping_Redis (addr : string) | ParseURL (uri : string) | NewES (url : string) | ESInfo | Ping_SMTP (host port : string)
  | Listen (addr : string) | RegisterGateway (addr : string) | AddFunc (spec : string)
  | Go (p : part)                       (* start it *)
  | Sleep (d : Z) | GenerateKey
  | Stop (p : part) | CloseRedis.

#[export] Instance part_eq_dec : EqDecision part.
Proof. solve_decision. Defined.
#[export] Instance action_eq_dec : EqDecision action.
Proof. solve_decision. Defined.

Inductive exit := Failed (e : err) | Panicked (why : string).

(** A process: the steps it took, and the result of [dbOnce] if it was used. *)
Record process := Process { steps : list action; dbOnce : option (res unit) }.
Definition fresh : process := Process [] None.

Definition boot (A : Type) : Type := proc process (exit + A).
Definition boot_bind {A B} (m : boot A) (k : A -> boot B) : boot B :=
  r <-- m; match r with inl x => mret (inl x) | inr a => k a end.
Definition done {A} (a : A) : boot A := mret (inr a).
Definition fail {A} (e : err) : boot A := mret (inl (Failed e)).
Definition panic {A} (why : string) : boot A := mret (inl (Panicked why)).
Declare Scope boot_scope.
Notation "x <-* m ; k" := (boot_bind m (fun x => k))
  (at level 100, m at next level, k at level 200, right associativity) : boot_scope.
Notation "m ;* k" := (boot_bind m (fun _ => k))
  (at level 100, k at level 200, right associativity) : boot_scope.
Open Scope boot_scope.

(** ** Go *)

(** [time.NewTicker] and [make] of a channel or slice whose elements have
    [elem] bytes, on a 64-bit machine. *)
Definition NewTicker (d : Z) : boot unit :=
  if (0 <? d)%Z then done tt else panic "non-positive interval for NewTicker".
Definition make_fits (size elem : Z) : bool := (0 <=? size)%Z && (size * elem <=? 2 ^ 48 - 96)%Z.
Definition make (size elem : Z) : boot unit :=
  if make_fits size elem then done tt else panic "make: size out of range".

(** A [redis.UniversalClient] is an interface: the pointer that
    [NewRedisClient] returns becomes one that is not nil, whether or not the
    pointer is. *)
Inductive UniversalClient := NilInterface | Holds (client : option RedisConfig).
Definition is_nil (c : UniversalClient) : bool := match c with NilInterface => true | Holds _ => false end.

(** Any command on it. *)
Definition command (c : UniversalClient) : boot unit :=
  match c with Holds (Some _) => done tt | _ => panic "nil pointer dereference" end.

Section startup.
Context (answer : action -> res unit).

Definition act (a : action) : boot (res unit) := fun p =>
  (inr (answer a), Process (steps p ++ [a]) (dbOnce p)).
(** A step whose error is reported, as it is or wrapped. *)
Definition must_as (wrap : err -> err) (a : action) : boot unit :=
  r <-* act a; match r with Ok _ => done tt | Err e => fail (wrap e) end.
Definition must : action -> boot unit := must_as (fun e => e).
(** A step whose error is only logged. *)
Definition try (a : action) : boot unit := _ <-* act a; done tt.
(** [go] a function that begins with [first]. *)
Definition go (p : part) (first : boot unit) : boot unit := try (Go p) ;* first.
(** A server in a goroutine: an error ends the process. *)
Definition serve (p : part) : boot unit := must (Go p).

(** infrastructure/logger/: a directory that cannot be made is fatal; what is
    installed is the subject of [Logging]. *)
Definition InitLogger (s : log_settings) : boot unit :=
  must_as (ErrWrap "failed to create logs directory") MkdirLogs.

(** ** infrastructure/database/ *)

(** postgres.go: the limits of the connection pool, and the one connection of
    the process. *)
Definition pool_limits : Z * Z * Z * Z := (25, 25, 5 * Minute, 3 * Minute)%Z.
Definition open_db (dsn : string) : boot (res unit) :=
  r <-* act (OpenDB dsn);
  match r with
  | Err e => done (Err e)
  | Ok _ => act PoolOf
  end.
Definition GetInstance (dsn : string) : boot (res unit) := fun p =>
  match dbOnce p with
  | Some r => (inr r, p)
  | None =>
    match open_db dsn p with
    | (inr r, p) => (inr r, Process (steps p) (Some r))
    | (inl x, p) => (inl x, p)
    end
  end.

Definition identity_GetInstance := GetInstance.
Definition reporting_GetInstance := GetInstance.

Definition AutoMigrate_schema (schema : string) (tables : list string) : boot (res unit) :=
  r <-* act (ExecSQL ("CREATE SCHEMA IF NOT EXISTS " +:+ schema));
  match r with Err e => done (Err e) | Ok _ => act (AutoMigrate tables) end.
Definition identity_AutoMigrate : boot (res unit) :=
  AutoMigrate_schema "auth_schema" ["User"; "AuthSession"; "RefreshToken"].
Definition management_AutoMigrate : boot (res unit) :=
  AutoMigrate_schema "management_schema" ["Server"; "OutboxEvent"].
Definition or_fail (wrap : err -> err) (m : boot (res unit)) : boot unit :=
  r <-* m; match r with Ok _ => done tt | Err e => fail (wrap e) end.

(** redis.go *)
Definition PingRedis (c : UniversalClient) : boot (res unit) :=
  match c with
  | NilInterface => done (Ok tt)
  | Holds (Some c) => act (Ping_Redis (Config.Addr c))
  | Holds None => panic "nil pointer dereference"
  end.

Definition monitoring_PingRedis := PingRedis.
Definition reporting_PingRedis := PingRedis.

(** elasticsearch.go *)
Definition NewElasticsearchClient (url : string) : boot unit :=
  must_as (fun e => ErrWrap "elasticsearch connection failed" (ErrWrap "create elasticsearch client" e)) (NewES url) ;*
  must_as (fun e => ErrWrap "elasticsearch connection failed" (ErrWrap "connect elasticsearch" e)) ESInfo.
Definition reporting_NewElasticsearchClient := NewElasticsearchClient.

(** Redis as sms-identity and sms-management set it up: a configuration that
    cannot be read, or no answer, is logged. *)
Definition lenient_redis (e : Env) : boot (option RedisConfig) :=
  let redisCfg := match Config.LoadRedisConfig e with Ok c => Some c | Err _ => None end in
  let redisClient := NewRedisClient redisCfg in
  match redisClient with
  | None => done None
  | Some _ => _ <-* PingRedis (Holds redisClient); done redisClient
  end.

(** The first command of a subscriber creates its group. *)
Definition subscriber (p : part) (c : UniversalClient) : boot unit := go p (command c).

(** gRPC, the gateway to it and HTTP, as three services have them. *)
Definition port (p : string) : string := ":" +:+ p.
Definition grpc_gateway_http (grpcPort httpPort : string) : boot unit :=
  serve GrpcServer ;*
  must_as (ErrWrap "failed to register gRPC gateway") (RegisterGateway (port grpcPort)) ;*
  serve HttpServer.

(** ** sms-identity *)
Record identity_app := { i_cfg : Config.AppConfig; i_redis : UniversalClient }.
Definition identity_New (e : Env) : boot identity_app :=
  let cfg := Config.identity_Load e in
  InitLogger (InitLogger_settings (Config.Logger cfg) (Config.EnvName cfg)) ;*
  or_fail (fun e => e) (identity_GetInstance (Config.DBUrl cfg)) ;*
  or_fail (fun e => e) identity_AutoMigrate ;*
  try SeedDB ;*
  redisClient <-* lenient_redis e;
  done {| i_cfg := cfg; i_redis := Holds redisClient |}.
Definition identity_Run (a : identity_app) : boot unit :=
  must_as (ErrWrap "failed to listen") (Listen (port (Config.GRPCPort (i_cfg a)))) ;*
  grpc_gateway_http (Config.GRPCPort (i_cfg a)) (Config.HTTPPort (i_cfg a)).
Definition identity_Shutdown : boot unit := try (Stop GrpcServer) ;* try (Stop HttpServer).

(** ** sms-management *)
Record management_app := { m_cfg : Config.AppConfig; m_outbox : Config.OutboxConfig; m_redis : UniversalClient }.
Definition management_New (e : Env) : boot management_app :=
  let cfg := Config.management_Load e in
  InitLogger (InitLogger_settings (Config.Logger cfg.1) (Config.EnvName cfg.1)) ;*
  or_fail (fun e => e) (GetInstance (Config.DBUrl cfg.1)) ;*
  or_fail (fun e => e) management_AutoMigrate ;*
  redisClient <-* lenient_redis e;
  done {| m_cfg := cfg.1; m_outbox := cfg.2; m_redis := Holds redisClient |}.
Definition relay_interval (cfg : Config.OutboxConfig) : Z := wrap64 (Config.IntervalMs cfg * Millisecond).
Definition management_Run (a : management_app) : boot unit :=
  must_as (ErrWrap "failed to listen") (Listen (port (Config.GRPCPort (m_cfg a)))) ;*
  go OutboxRelay (NewTicker (relay_interval (m_outbox a))) ;*
  subscriber StatusConsumer (m_redis a) ;*
  grpc_gateway_http (Config.GRPCPort (m_cfg a)) (Config.HTTPPort (m_cfg a)).
Definition management_Shutdown : boot unit :=
  try (Stop OutboxRelay) ;* try (Stop GrpcServer) ;* try (Stop HttpServer).

(** ** sms-reporting *)

(** app/scheduler.go: a schedule that cannot be parsed is an error; a run of the
    job is [scheduled_job]. *)
Definition Scheduler_Start (wrap : err -> err) (cronSpec : string) : boot unit :=
  must_as wrap (AddFunc cronSpec) ;* try (Go Scheduler).
Definition Scheduler_Stop : boot unit := try (Stop Scheduler).

Record reporting_app := {
  r_cfg : Config.ReportingConfig; r_redis : UniversalClient; r_publisher : option Z; r_cron : string;
}.
Definition reporting_NewApp (e : Env) : boot reporting_app :=
  let cfg := Config.reporting_Load e in
  InitLogger (InitLogger_settings (Config.R_Logger cfg) "reporting") ;*
  or_fail (ErrWrap "failed to connect to database") (reporting_GetInstance (Config.R_DBUrl cfg)) ;*
  must_as (ErrWrap "failed to create schema") (ExecSQL "CREATE SCHEMA IF NOT EXISTS reporting_schema;") ;*
  must_as (ErrWrap "failed to migrate database") (AutoMigrate ["ReportRequest"; "ReportingServer"]) ;*
  match Config.LoadRedisConfig e with
  | Err er => fail (ErrWrap "failed to load redis config" er)
  | Ok redisCfg =>
    let redisClient := NewRedisClient (Some redisCfg) in
    (match redisClient with None => done tt | Some _ => _ <-* PingRedis (Holds redisClient); done tt end) ;*
    reporting_NewElasticsearchClient (Config.URL (Config.LoadElasticsearchConfig e)) ;*
    make (if (Config.JobQueueSize cfg <=? 0)%Z then 100 else Config.JobQueueSize cfg) 8 ;*
    done {| r_cfg := cfg; r_redis := Holds redisClient; r_publisher := reporting_publisher cfg redisClient;
            r_cron := (NewScheduler_settings (Config.CronSpec cfg) (Config.R_AdminEmail cfg)).1 |}
  end.
Definition reporting_Run (a : reporting_app) : boot unit :=
  must_as (ErrWrap ("failed to listen on gRPC port " +:+ Config.R_GRPCPort (r_cfg a))) (Listen (port (Config.R_GRPCPort (r_cfg a)))) ;*
  try (Go ReportWorkers) ;*
  subscriber ServerEvents (r_redis a) ;*
  subscriber StatusEvents (r_redis a) ;*
  Scheduler_Start (ErrWrap "failed to start scheduler") (r_cron a) ;*
  grpc_gateway_http (Config.R_GRPCPort (r_cfg a)) (Config.R_HTTPPort (r_cfg a)).
Definition reporting_Shutdown : boot unit :=
  try (Stop GrpcServer) ;* try (Stop HttpServer) ;* try (Stop ReportWorkers) ;* Scheduler_Stop ;*
  (* the deferred cancel *) try (Stop ServerEvents) ;* try (Stop StatusEvents).

(** ** sms-monitoring *)
Record monitoring_app := { w_cfg : Config.MonitoringConfig; w_redis : UniversalClient }.
Definition flush_interval (cfg : Config.ObservationLoggerConfig) : Z := wrap64 (Config.FlushMs cfg * Millisecond).
Definition start_ObservationLogger (cfg : Config.ObservationLoggerConfig) : boot unit :=
  make (Config.ChannelSize cfg) 48 ;*
  go ObservationLogger (NewTicker (flush_interval cfg) ;* make (Config.O_BatchSize cfg) 48).
Definition monitoring_NewApp (e : Env) : boot monitoring_app :=
  let cfg := Config.monitoring_Load e in
  InitLogger (InitLogger_settings (Config.M_Logger cfg) "monitoring-worker") ;*
  let redisCfg := match Config.LoadRedisConfig e with Ok c => Some (monitoring_redis cfg c) | Err _ => None end in
  match NewRedisClient redisCfg with
  | None => fail (ErrS "redis is required for Monitoring Worker")
  | Some c =>
    or_fail (ErrWrap "redis ping failed") (PingRedis (Holds (Some c))) ;*
    NewElasticsearchClient (Config.URL (Config.LoadElasticsearchConfig e)) ;*
    start_ObservationLogger (Config.LoadObservationLoggerConfig e) ;*
    done {| w_cfg := cfg; w_redis := Holds (Some c) |}
  end.
Definition monitoring_Run (a : monitoring_app) : boot unit :=
  subscriber RegistryConsumer (w_redis a) ;*
  NewTicker (Config.WorkerTickInterval (w_cfg a)) ;*
  try (Go WorkerPool) ;*
  go Producer (command (w_redis a)) ;*
  go AgentSweeper (NewTicker (Config.SweeperInterval (w_cfg a))) ;*
  subscriber HeartbeatConsumer (w_redis a).
(** The context is cancelled first; then the workers have two seconds before the
    logger is drained. *)
Definition monitoring_Shutdown : boot unit :=
  try (Stop RegistryConsumer) ;* try (Stop WorkerPool) ;* try (Stop Producer) ;* try (Stop AgentSweeper) ;*
  try (Stop HeartbeatConsumer) ;* try (Sleep (2 * Second)) ;* try (Stop ObservationLogger).

(** ** sms-notification *)
Record notification_app := { n_cfg : Config.NotificationConfig; n_redis : UniversalClient }.
(** The client that [NewUniversalClient] makes is never nil. *)
Definition notification_client (cfg : Config.NotificationConfig) : RedisConfig := {|
  Config.Enabled := true; Config.Addr := Config.N_RedisAddr cfg; Config.RedisPassword := Config.N_RedisPassword cfg;
  Config.DB := Config.N_RedisDB cfg; Config.DialTimeout := 0; Config.ReadTimeout := 0; Config.WriteTimeout := 0;
  Config.PoolSize := 0; Config.MinIdleConns := 0; Config.MaxRetries := 0 |}.
Definition notification_NewApp (e : Env) : boot notification_app :=
  let cfg := Config.LoadConfig e in
  InitLogger (notification_InitLogger_settings "logs/notification.log") ;*
  if Config.N_RedisEnabled cfg then
    or_fail (ErrWrap "failed to connect to Redis") (PingRedis (Holds (Some (notification_client cfg)))) ;*
    try (Ping_SMTP (Config.Host (Config.N_SMTP cfg)) (Config.Port (Config.N_SMTP cfg))) ;*
    done {| n_cfg := cfg; n_redis := Holds (Some (notification_client cfg)) |}
  else fail (ErrS "redis is required for Notification Service to consume events").
Definition notification_Run (a : notification_app) : boot unit := subscriber MailConsumer (n_redis a).
Definition notification_Shutdown : boot unit := try (Stop MailConsumer) ;* try CloseRedis.

(** ** sms-agent-handler *)
Definition agent_handler_NewApp (e : Env) : boot Config.AgentHandlerConfig :=
  let cfg := Config.agent_handler_Load e in
  must_as (ErrWrap "invalid redis uri") (ParseURL (Config.RedisURI cfg)) ;*
  must_as (ErrWrap "failed to connect to redis") (Ping_Redis (Config.RedisURI cfg)) ;*
  done cfg.
Definition agent_handler_Run (cfg : Config.AgentHandlerConfig) : boot unit := serve HttpServer.
Definition agent_handler_Shutdown : boot unit := try (Stop HttpServer) ;* try CloseRedis.

(** ** sms-simulator (cmd/server/main.go) *)
Definition start_ssh (sshPort : Z) : boot unit :=
  must GenerateKey ;* must (Listen ("0.0.0.0:" +:+ Itoa sshPort)) ;* try (Go SshServer).
(** The flapper is only started with an interval and a percentage above zero. *)
Definition start_flapper (flapper : option (Z * Calendar.f64 * Z)) : boot unit :=
  match flapper with
  | None => done tt
  | Some (interval, _, _) => go Flapper (NewTicker interval)
  end.
Definition simulator_run (ParseFloat : string -> res Calendar.f64) (e : Env) : boot unit :=
  let s := Fleet.simulator_main e ParseFloat in
  start_ssh (Fleet.sshPort s) ;*
  try (Go PushWorker) ;*
  start_flapper (Fleet.flapper s) ;*
  serve HttpServer.

(** ** main *)
Inductive service := Identity | Management | Reporting | Monitoring | Notification | AgentHandler.

Definition main (s : service) (e : Env) : boot unit :=
  match s with
  | Identity => a <-* identity_New e; identity_Run a
  | Management => a <-* management_New e; management_Run a
  | Reporting => a <-* reporting_NewApp e; reporting_Run a
  | Monitoring => a <-* monitoring_NewApp e; monitoring_Run a
  | Notification => a <-* notification_NewApp e; notification_Run a
  | AgentHandler => cfg <-* agent_handler_NewApp e; agent_handler_Run cfg
  end.
Definition identity_main (e : Env) : boot unit := main Identity e.
Definition management_main (e : Env) : boot unit := main Management e.
Definition reporting_main (e : Env) : boot unit := main Reporting e.
Definition notification_main (e : Env) : boot unit := main Notification e.
Definition agent_handler_main (e : Env) : boot unit := main AgentHandler e.
Definition App_Shutdown (s : service) : boot unit :=
  match s with
  | Identity => identity_Shutdown
  | Management => management_Shutdown
  | Reporting => reporting_Shutdown
  | Monitoring => monitoring_Shutdown
  | Notification => notification_Shutdown
  | AgentHandler => agent_handler_Shutdown
  end.
End startup.

(** ** When a service serves

    What it cannot do without. *)
Definition needs (s : service) (e : Env) : list action :=
  match s with
  | Identity =>
    let cfg := Config.identity_Load e in
    [MkdirLogs; OpenDB (Config.DBUrl cfg); PoolOf; ExecSQL "CREATE SCHEMA IF NOT EXISTS auth_schema";
     AutoMigrate ["User"; "AuthSession"; "RefreshToken"]; Listen (port (Config.GRPCPort cfg)); Go GrpcServer;
     RegisterGateway (port (Config.GRPCPort cfg)); Go HttpServer]
  | Management =>
    let cfg := (Config.management_Load e).1 in
    [MkdirLogs; OpenDB (Config.DBUrl cfg); PoolOf; ExecSQL "CREATE SCHEMA IF NOT EXISTS management_schema";
     AutoMigrate ["Server"; "OutboxEvent"]; Listen (port (Config.GRPCPort cfg)); Go GrpcServer;
     RegisterGateway (port (Config.GRPCPort cfg)); Go HttpServer]
  | Reporting =>
    let cfg := Config.reporting_Load e in
    [MkdirLogs; OpenDB (Config.R_DBUrl cfg); PoolOf; ExecSQL "CREATE SCHEMA IF NOT EXISTS reporting_schema;";
     AutoMigrate ["ReportRequest"; "ReportingServer"]; NewES (Config.URL (Config.LoadElasticsearchConfig e)); ESInfo;
     Listen (port (Config.R_GRPCPort cfg));
     AddFunc (NewScheduler_settings (Config.CronSpec cfg) (Config.R_AdminEmail cfg)).1;
     Go GrpcServer; RegisterGateway (port (Config.R_GRPCPort cfg)); Go HttpServer]
  | Monitoring =>
    [MkdirLogs] ++
    match Config.LoadRedisConfig e with
    | Ok c => [Ping_Redis (Config.Addr c)]
    | Err _ => []
    end ++ [NewES (Config.URL (Config.LoadElasticsearchConfig e)); ESInfo]
  | Notification => [MkdirLogs; Ping_Redis (Config.N_RedisAddr (Config.LoadConfig e))]
  | AgentHandler =>
    let cfg := Config.agent_handler_Load e in
    [ParseURL (Config.RedisURI cfg); Ping_Redis (Config.RedisURI cfg); Go HttpServer]
  end.

(** Redis is switched on, in settings that can be read. *)
Definition with_redis (e : Env) : bool :=
  match Config.LoadRedisConfig e with Ok c => Config.Enabled c | Err _ => false end.

(** The settings with which a service reports an error instead of serving. *)
Definition refuses (s : service) (e : Env) : bool :=
  match s with
  | Reporting => negb (is_ok (Config.LoadRedisConfig e))
  | Monitoring => negb (with_redis e)
  | Notification => negb (Config.N_RedisEnabled (Config.LoadConfig e))
  | _ => false
  end.

(** The settings with which it dies of a panic, before or while it serves. *)
Definition crashes (s : service) (e : Env) : bool :=
  match s with
  | Management => negb (with_redis e) || negb (0 <? relay_interval (Config.management_Load e).2)%Z
  | Reporting =>
    let n := Config.JobQueueSize (Config.reporting_Load e) in
    negb (with_redis e) || negb (make_fits (if (n <=? 0)%Z then 100 else n) 8)
  | Monitoring =>
    let cfg := Config.monitoring_Load e in
    let es := Config.LoadObservationLoggerConfig e in
    negb ((0 <? Config.WorkerTickInterval cfg)%Z && (0 <? Config.SweeperInterval cfg)%Z && (0 <? flush_interval es)%Z &&
          make_fits (Config.ChannelSize es) 48 && make_fits (Config.O_BatchSize es) 48)
  | _ => false
  end.

Ltac unfold_service :=
  unfold main, identity_New, identity_Run, management_New, management_Run, reporting_NewApp, reporting_Run,
    monitoring_NewApp, monitoring_Run, notification_NewApp, notification_Run, agent_handler_NewApp, agent_handler_Run,
    grpc_gateway_http, Scheduler_Start, InitLogger, identity_AutoMigrate, management_AutoMigrate, identity_GetInstance, reporting_GetInstance,
    reporting_NewElasticsearchClient, NewElasticsearchClient, start_ObservationLogger, subscriber, go, NewTicker, make, serve, must.

Section verdict.
Context (answer : action -> res unit).
Definition answered (l : list action) : bool := forallb (fun a => is_ok (answer a)) l.

(** The first needed step that fails ends the run; [bad] says that the settings
    do. *)
Definition classified (r : exit + unit) (ok refuse crash : bool) : Prop :=
  (r = inr tt <-> ok = true /\ refuse = false /\ crash = false) /\
  (forall why, r = inl (Panicked why) -> crash = true) /\
  (ok = true -> refuse = false -> crash = true -> exists why, r = inl (Panicked why)).

(** From one step to the next; [d] is whether the process has its database. *)
Definition rest (m : boot unit) (d : option (res unit)) (ok refuse crash : bool) : Prop :=
  forall p, dbOnce p = d -> classified (m p).1 ok refuse crash.

Lemma classified_fail ok e crash refuse : ok = false \/ refuse = true -> classified (inl (Failed e)) ok refuse crash.
Proof. intros H. unfold classified. split_and!; intros; intuition congruence. Qed.
Lemma classified_panic ok why refuse : classified (inl (Panicked why)) ok refuse true.
Proof. unfold classified. split_and!; eauto; intros; intuition congruence. Qed.

Lemma rest_assoc {A B} (m : boot A) (k : A -> boot B) (k' : B -> boot unit) d ok rf cr :
  rest (a <-* m; b <-* k a; k' b) d ok rf cr -> rest (b <-* (a <-* m; k a); k' b) d ok rf cr.
Proof.
  intros H p Hp. specialize (H p Hp). revert H. unfold boot_bind, mbind, proc_bind, mret, proc_ret.
  by destruct (m p) as [[x|a] p1].
Qed.

Lemma rest_done {A} (a : A) (k : A -> boot unit) d ok rf cr : rest (k a) d ok rf cr -> rest (b <-* done a; k b) d ok rf cr.
Proof. by intros H p Hp; apply (H p Hp). Qed.

Lemma rest_act {a} {k : res unit -> boot unit} {d ok rf cr} :
  rest (k (answer a)) d ok rf cr -> rest (r <-* act answer a; k r) d ok rf cr.
Proof. intros H p Hp. by apply (H (Process (steps p ++ [a]) (dbOnce p))). Qed.

Lemma rest_must w a (k : unit -> boot unit) d ok rf cr :
  rest (k tt) d ok rf cr -> rest (u <-* must_as answer w a; k u) d (is_ok (answer a) && ok) rf cr.
Proof.
  intros H p Hp. unfold must_as, boot_bind, act. cbn. unfold proc_bind. cbn. destruct (answer a) as [[]|e]; cbn.
  - by apply H.
  - apply classified_fail. by left.
Qed.

Lemma rest_try a (k : unit -> boot unit) d ok rf cr :
  rest (k tt) d ok rf cr -> rest (u <-* try answer a; k u) d ok rf cr.
Proof. intros H. by apply rest_assoc, rest_act, rest_done. Qed.

Lemma rest_panic_if (b : bool) why (k : unit -> boot unit) d ok rf cr :
  rest (k tt) d ok rf cr -> rest (u <-* (if b then done tt else panic why); k u) d ok rf (negb b || cr).
Proof.
  intros H. destruct b; cbn; [by apply rest_done|]. intros p _. apply classified_panic.
Qed.

Lemma rest_command c (k : unit -> boot unit) d ok rf cr :
  rest (k tt) d ok rf cr ->
  rest (u <-* command c; k u) d ok rf (negb (match c with Holds (Some _) => true | _ => false end) || cr).
Proof. intros H. destruct c as [|[c|]]; [..|by apply rest_done|]; intros p _; apply classified_panic. Qed.

Lemma rest_GetInstance w dsn (k : unit -> boot unit) ok rf cr :
  (forall d, rest (k tt) d ok rf cr) ->
  rest (u <-* or_fail w (GetInstance answer dsn); k u) None
    (is_ok (answer (OpenDB dsn)) && (is_ok (answer PoolOf) && ok)) rf cr.
Proof.
  intros H [st db] [= ->]. unfold or_fail, GetInstance, open_db, boot_bind, act, mbind, proc_bind. cbn.
  destruct (answer (OpenDB dsn)) as [[]|e]; cbn; [|by apply classified_fail; left].
  destruct (answer PoolOf) as [[]|e]; cbn; [by eapply H|by apply classified_fail; left].
Qed.

Lemma rest_AutoMigrate w schema tables (k : unit -> boot unit) d ok rf cr :
  rest (k tt) d ok rf cr ->
  rest (u <-* or_fail w (AutoMigrate_schema answer schema tables); k u) d
    (is_ok (answer (ExecSQL ("CREATE SCHEMA IF NOT EXISTS " +:+ schema))) && (is_ok (answer (AutoMigrate tables)) && ok)) rf cr.
Proof.
  intros H p Hp. unfold or_fail, AutoMigrate_schema, boot_bind, act. cbn. unfold proc_bind. cbn.
  destruct (answer (ExecSQL _)) as [[]|e]; cbn; [|by apply classified_fail; left].
  destruct (answer (AutoMigrate _)) as [[]|e]; cbn; [by apply H|by apply classified_fail; left].
Qed.

Lemma rest_ping w c (k : unit -> boot unit) d ok rf cr :
  rest (k tt) d ok rf cr ->
  rest (u <-* or_fail w (PingRedis answer (Holds (Some c))); k u) d (is_ok (answer (Ping_Redis (Config.Addr c))) && ok) rf cr.
Proof. apply (rest_must w (Ping_Redis (Config.Addr c))). Qed.

Lemma rest_ping_logged c (k : res unit -> boot unit) d ok rf cr :
  rest (k (answer (Ping_Redis (Config.Addr c)))) d ok rf cr -> rest (r <-* PingRedis answer (Holds (Some c)); k r) d ok rf cr.
Proof. apply rest_act. Qed.

Lemma rest_fail {A} e (k : A -> boot unit) d ok cr : rest (a <-* fail e; k a) d ok true cr.
Proof. intros p _. apply classified_fail. by right. Qed.

Definition client_of (e : Env) : option RedisConfig :=
  NewRedisClient (match Config.LoadRedisConfig e with Ok c => Some c | Err _ => None end).
Lemma client_usable e : with_redis e = match Holds (client_of e) with Holds (Some _) => true | _ => false end.
Proof.
  unfold with_redis, client_of, NewRedisClient. destruct (Config.LoadRedisConfig e) as [c|]; [|done].
  by destruct (Config.Enabled c).
Qed.

Lemma rest_lenient e (k : option RedisConfig -> boot unit) d ok rf cr :
  rest (k (client_of e)) d ok rf cr -> rest (c <-* lenient_redis answer e; k c) d ok rf cr.
Proof.
  intros H. unfold lenient_redis. fold (client_of e). destruct (client_of e) as [c|] eqn:Ec; [|by apply rest_done].
  apply rest_assoc, rest_act, rest_done, H.
Qed.

(** The last step. *)
Lemma rest_last (m : boot unit) d ok rf cr : rest (u <-* m; done u) d ok rf cr -> rest m d ok rf cr.
Proof.
  intros H p Hp. specialize (H p Hp). revert H. unfold boot_bind, mbind, proc_bind, mret, proc_ret, done.
  by destruct (m p) as [[x|[]] p1].
Qed.
Lemma rest_end d : rest (done tt) d true false false.
Proof. intros p _. unfold classified. split_and!; intros; by auto. Qed.

#[local] Opaque must_as try act or_fail GetInstance AutoMigrate_schema lenient_redis command PingRedis done fail.

(** Step over the first step of a service. *)
Ltac startup :=
  repeat first
    [ progress cbv beta zeta iota
    | apply rest_fail | apply rest_GetInstance; intros ? | apply rest_AutoMigrate | apply rest_ping | apply rest_ping_logged | apply rest_lenient
    | apply rest_must | apply rest_try | apply rest_panic_if | apply rest_command
    | apply rest_act | apply rest_done | apply rest_assoc ].

Lemma rest_sound (m : boot unit) ok rf cr ok' rf' cr' :
  ok' = ok -> rf' = rf -> cr' = cr -> rest m None ok rf cr -> classified (m fresh).1 ok' rf' cr'.
Proof. intros -> -> -> H. by apply H. Qed.

(** The run of a service as a chain of steps; what is left are the claims about
    its verdict.  [tac] looks into the settings. *)
Tactic Notation "classify" "with" tactic3(tac) :=
  eapply rest_sound; cycle 3; [unfold_service; tac; startup; try (apply rest_last; startup; apply rest_end)|..].

Lemma classified_identity e :
  classified (main answer Identity e fresh).1 (answered (needs Identity e)) (refuses Identity e) (crashes Identity e).
Proof. by classify with idtac. Qed.

Lemma classified_management e :
  classified (main answer Management e fresh).1 (answered (needs Management e)) (refuses Management e) (crashes Management e).
Proof.
  classify with idtac; [done..|]. cbn [crashes m_redis m_outbox]. rewrite (client_usable e).
  by destruct (client_of e), (0 <? _)%Z.
Qed.

Lemma classified_agent_handler e :
  classified (main answer AgentHandler e fresh).1 (answered (needs AgentHandler e)) (refuses AgentHandler e) (crashes AgentHandler e).
Proof. by classify with idtac. Qed.
Lemma classified_notification e :
  classified (main answer Notification e fresh).1 (answered (needs Notification e)) (refuses Notification e) (crashes Notification e).
Proof.
  unfold refuses, crashes. destruct (Config.N_RedisEnabled (Config.LoadConfig e)) eqn:Er.
  - by classify with rewrite Er.
  - by classify with rewrite Er.
Qed.
Lemma classified_reporting e :
  classified (main answer Reporting e fresh).1 (answered (needs Reporting e)) (refuses Reporting e) (crashes Reporting e).
Proof.
  unfold refuses, crashes, with_redis. destruct (Config.LoadRedisConfig e) as [c|er] eqn:Ec.
  - destruct (Config.Enabled c) eqn:Eb;
      (classify with (rewrite Ec; unfold NewRedisClient; rewrite Eb; cbn [negb]); [done..|by destruct (make_fits _ _)]).
  - by classify with rewrite Ec.
Qed.

Lemma classified_monitoring e :
  classified (main answer Monitoring e fresh).1 (answered (needs Monitoring e)) (refuses Monitoring e) (crashes Monitoring e).
Proof.
  unfold refuses, crashes, with_redis, needs, NewRedisClient. destruct (Config.LoadRedisConfig e) as [c|er] eqn:Ec.
  - assert (Config.Enabled (monitoring_redis (Config.monitoring_Load e) c) = Config.Enabled c /\
      Config.Addr (monitoring_redis (Config.monitoring_Load e) c) = Config.Addr c) as [Een Ead]
      by (unfold monitoring_redis; by destruct (_ <? _)%Z).
    destruct (Config.Enabled c) eqn:Eb.
    + classify with (rewrite Ec; unfold NewRedisClient; rewrite Een; cbn [negb]); [by rewrite Ead|done|].
      cbn [w_redis w_cfg].
      by destruct (0 <? _)%Z, (0 <? _)%Z, (0 <? _)%Z, (make_fits (Config.ChannelSize _) _), (make_fits _ _).
    + by classify with (rewrite Ec; unfold NewRedisClient; rewrite Een; cbn [negb]).
  - by classify with rewrite Ec.
Qed.

Lemma classified_main s e : classified (main answer s e fresh).1 (answered (needs s e)) (refuses s e) (crashes s e).
Proof.
  destruct s; auto using classified_identity, classified_management, classified_reporting, classified_monitoring,
    classified_notification, classified_agent_handler.
Qed.
End verdict.


(** ** Findings *)

(** With nothing in the environment and everything outside in order, only
    sms-identity and the agent handler serve: Redis is off by default, which
    two services report and two do not survive. *)
Definition bare : Env := Config.env_of [] [].
Definition launched (s : service) (e : Env) : exit + unit := (main (fun _ => Ok tt) s e fresh).1.
Example launched_bare :
  map (fun s => launched s bare) [Identity; Management; Reporting; Monitoring; Notification; AgentHandler] =
  [inr tt; inl (Panicked "nil pointer dereference"); inl (Panicked "nil pointer dereference");
   inl (Failed (ErrS "redis is required for Monitoring Worker"));
   inl (Failed (ErrS "redis is required for Notification Service to consume events")); inr tt].
Proof. by vm_compute. Qed.

(** The first request with a good token is the end of the connection in
    sms-identity without Redis: the test for a nil client never holds. *)
Definition revocation_lookup (c : UniversalClient) (sessionID : string) : boot unit :=
  if negb (is_nil c) && negb (String.eqb sessionID "") then command c else done tt.
Lemma boot_inv {A B} (m : boot A) (k : A -> boot B) p b p' :
  boot_bind m k p = (inr b, p') -> exists a p1, m p = (inr a, p1) /\ k a p1 = (inr b, p').
Proof. unfold boot_bind, mbind, proc_bind. destruct (m p) as [[x|a] p1]; [done|]. eauto. Qed.

Lemma lenient_result answer e p c p' : lenient_redis answer e p = (inr c, p') -> c = client_of e.
Proof. unfold lenient_redis. fold (client_of e). destruct (client_of e); by intros [= <- _]. Qed.

Lemma identity_without_redis answer e a p :
  with_redis e = false -> identity_New answer e fresh = (inr a, p) -> forall sid, sid <> "" ->
  (revocation_lookup (i_redis a) sid p).1 = inl (Panicked "nil pointer dereference").
Proof.
  intros Hr H sid Hs. unfold identity_New in H. cbv zeta in H.
  do 4 (apply boot_inv in H as (? & ? & _ & H)). apply boot_inv in H as (c & p1 & Hc & [= <- _]).
  apply lenient_result in Hc. subst c. rewrite client_usable in Hr. cbn.
  destruct (client_of e); [done|]. unfold revocation_lookup. cbn. by rewrite (proj2 (String.eqb_neq _ _) Hs).
Qed.

(** A duration without a unit is taken for zero, and sms-monitoring panics;
    with a malformed concurrency it runs, with no worker. *)
Definition env_with (l : list (string * string)) : Env := Config.env_of (("REDIS_ENABLED", "true") :: l) [].
Example bad_interval_crashes :
  launched Monitoring (env_with []) = inr tt /\
  launched Monitoring (env_with [("MONITORING_WORKER_TICK_INTERVAL", "60")]) =
    inl (Panicked "non-positive interval for NewTicker") /\
  launched Management (env_with [("OUTBOX_INTERVAL_MS", "0")]) = inl (Panicked "non-positive interval for NewTicker") /\
  launched Monitoring (env_with [("MONITORING_WORKER_CONCURRENCY", "many")]) = inr tt /\
  Config.WorkerConcurrency (Config.monitoring_Load (env_with [("MONITORING_WORKER_CONCURRENCY", "many")])) = 0%Z.
Proof. by vm_compute. Qed.

(** The simulator runs when its key, its port and its interface are there, and
    never panics. *)
Lemma simulator_verdict answer ParseFloat e :
  let s := Fleet.simulator_main e ParseFloat in
  (simulator_run answer ParseFloat e fresh).1 =
  match answer GenerateKey, answer (Listen ("0.0.0.0:" +:+ Itoa (Fleet.sshPort s))), answer (Go HttpServer) with
  | Err e, _, _ | Ok _, Err e, _ | Ok _, Ok _, Err e => inl (Failed e)
  | Ok _, Ok _, Ok _ => inr tt
  end.
Proof.
  cbv zeta. unfold simulator_run. set (s := Fleet.simulator_main e ParseFloat).
  assert (forall i p n, Fleet.flapper s = Some (i, p, n) -> (0 < i)%Z) as Hpos.
  { intros i p n. unfold s. cbn. destruct (Fleet.envBool _ _ _); [|done]. unfold Fleet.StartAutoFlapper_settings.
    destruct (Z.leb_spec (Fleet.envDuration e "SIMULATOR_FLAP_INTERVAL" (60 * Second)) 0); [done|].
    cbn [orb]. destruct (Calendar.f64_ge _ _); [done|]. by intros [= <- _ _]. }
  clearbody s. unfold start_ssh, start_flapper, go, NewTicker, serve, must, must_as, try, act, boot_bind, mbind, proc_bind, mret, proc_ret, done, fail.
  destruct (answer GenerateKey); [|reflexivity]. cbn. destruct (answer (Listen _)); [|reflexivity]. cbn.
  destruct (Fleet.flapper s) as [[[i p] n]|] eqn:E.
  - rewrite (proj2 (Z.ltb_lt 0 i)) by (by eapply Hpos). cbn. by destruct (answer (Go HttpServer)).
  - cbn. by destruct (answer (Go HttpServer)).
Qed.

(** ** The shutdown stops what was started *)
Definition parts (s : service) : list part :=
  match s with
  | Identity => [GrpcServer; HttpServer]
  | Management => [OutboxRelay; StatusConsumer; GrpcServer; HttpServer]
  | Reporting => [ReportWorkers; ServerEvents; StatusEvents; Scheduler; GrpcServer; HttpServer]
  | Monitoring =>
    [ObservationLogger; RegistryConsumer; WorkerPool; Producer; AgentSweeper; HeartbeatConsumer]
  | Notification => [MailConsumer]
  | AgentHandler => [HttpServer]
  end.

Definition among (l : list part) (a : action) : Prop := match a with Go p => p ∈ l | _ => True end.
Definition starts {A} (l : list part) (m : boot A) : Prop :=
  forall p, Forall (among l) (steps p) -> Forall (among l) (steps (m p).2).

Section starts.
Context (answer : action -> res unit) (l : list part).

Lemma starts_bind {A B} (m : boot A) (k : A -> boot B) : starts l m -> (forall a, starts l (k a)) -> starts l (boot_bind m k).
Proof.
  intros Hm Hk p Hp. unfold boot_bind, mbind, proc_bind, mret, proc_ret. specialize (Hm p Hp).
  destruct (m p) as [[x|a] p1]; [done|]. by apply Hk.
Qed.
Lemma starts_none {A} (x : exit + A) : starts l (mret x : boot A).
Proof. by intros p. Qed.
Lemma starts_act a : among l a -> starts l (act answer a).
Proof. intros Ha p Hp. cbn. apply Forall_app. auto. Qed.
Lemma starts_GetInstance dsn : starts l (GetInstance answer dsn).
Proof.
  intros [st db] Hp. unfold GetInstance, open_db, boot_bind, act, mbind, proc_bind. cbn. destruct db; [done|].
  destruct (answer (OpenDB dsn)); cbn; rewrite ?Forall_app; cbn in *; split_and?; try done; by repeat constructor.
Qed.
Lemma starts_if {A} (b : bool) (m m' : boot A) : starts l m -> starts l m' -> starts l (if b then m else m').
Proof. by destruct b. Qed.
End starts.

Lemma main_starts answer s e : starts (parts s) (main answer s e).
Proof.
  assert (forall c l, starts l (command c)) as Hc by (intros [|[]] l; apply starts_none).
  assert (forall c l, starts l (PingRedis answer c)) as Hp
    by (intros [|[]] l; first [apply starts_none|by apply starts_act]).
  destruct s; unfold_service; unfold lenient_redis;
    repeat first [ apply starts_GetInstance | apply Hc | apply Hp | apply starts_none | apply starts_if
                 | apply starts_act; first [exact I|set_solver]
                 | match goal with |- starts _ (match ?x with _ => _ end) => destruct x end
                 | apply starts_bind; [|intros ?] ].
Qed.

(** After the signal: whatever was started is stopped, except the consumer of
    statuses of sms-management, whose context nobody cancels. *)
Lemma shutdown_stops answer s e p :
  main answer s e fresh = (inr tt, p) ->
  exists p', App_Shutdown answer s p = (inr tt, p') /\
    forall q, Go q ∈ steps p -> Stop q ∈ steps p' \/ (s = Management /\ q = StatusConsumer).
Proof.
  intros H. pose proof (main_starts answer s e fresh ltac:(constructor)) as Hs. rewrite H in Hs. cbn in Hs.
  rewrite Forall_forall in Hs. destruct s; eexists; (split; [reflexivity|]); intros q Hq; specialize (Hs _ Hq); cbn in Hs |- *;
    rewrite !elem_of_cons, elem_of_nil in Hs; destruct_or! Hs; subst; try done;
    first [left; set_solver|by right].
Qed.
