(* ===== verification/RegistryFlow.v ===== *)
(** The registry of sms-management and its readers: the handlers change the
    tables and the outbox, the relay publishes the outbox on the stream, again
    after a failure, and sms-reporting and sms-monitoring follow the stream. *)
From S2P Require Import Prelude GoStd Json Redis Host Monitoring MonitoringWorkers.
From S2P Require Import Sql Broker ManagementData ManagementService ManagementWorkers ManagementOutbox.
From S2P Require Import World Reporting ReportingSpec System.

(** ** The readers of the stream *)

(** What a service that follows the registry takes from a message: the server
    that it writes or deletes, and what it keeps of the configuration. *)
Class Reader (V : Type) := {
  effect : string -> string -> option (string * option V);
  keeps : Config -> V;
  effect_written : forall ty p c,
    ty = EventServerCreated \/ ty = EventServerUpdated -> doc_config p = Some c -> effect ty p = Some (cf_ID c, Some (keeps c));
  effect_deleted : forall p id,
    parse p = Some (JObj [("server_id", JStr id)]) -> effect EventServerDeleted p = Some (id, None);
}.

Abbreviation message := (list (string * string)).

Section reader.
Context {V} {R : Reader V}.

Definition effect_of (m : message) : option (string * option V) :=
  ty ← values_of m !! "event_type"; p ← values_of m !! "payload"; effect ty p.

Definition read_one (t : gmap string V) (m : message) : gmap string V :=
  match effect_of m with
  | Some (id, Some v) => <[id := v]> t
  | Some (id, None) => delete id t
  | None => t
  end.
Definition read_all (t : gmap string V) (ms : list message) : gmap string V := foldl read_one t ms.

(** The last word of the messages on a server. *)
Fixpoint last_word (id : string) (ms : list message) : option (option V) :=
  match ms with
  | [] => None
  | m :: ms =>
    match last_word id ms with
    | Some v => Some v
    | None => match effect_of m with
              | Some (id', v) => if String.eqb id' id then Some v else None
              | None => None
              end
    end
  end.

Lemma read_all_lookup ms : forall t id,
  read_all t ms !! id = match last_word id ms with Some v => v | None => t !! id end.
Proof.
  induction ms as [|m ms IH]; intros t id; [done|]. cbn [read_all foldl last_word].
  change (foldl read_one (read_one t m) ms) with (read_all (read_one t m) ms).
  rewrite IH. destruct (last_word id ms); [done|].
  unfold read_one. destruct (effect_of m) as [[id' [v|]]|]; [..|done].
  - destruct (String.eqb_spec id' id) as [<-|Hne]; [by rewrite lookup_insert_eq|by rewrite lookup_insert_ne].
  - destruct (String.eqb_spec id' id) as [<-|Hne]; [by rewrite lookup_delete_eq|by rewrite lookup_delete_ne].
Qed.

Lemma last_word_take id ms : forall n, last_word id ms = None -> last_word id (take n ms) = None.
Proof.
  induction ms as [|m ms IH]; intros [|n]; [done..|]. cbn [last_word take]. intros H.
  destruct (last_word id ms); [done|]. by rewrite (IH n eq_refl).
Qed.

(** Messages whose beginning was read before may be read again. *)
Lemma read_again t n ms : read_all (read_all t (take n ms)) ms = read_all t ms.
Proof.
  apply map_eq. intros id. rewrite !read_all_lookup. destruct (last_word id ms) eqn:E; [done|].
  by rewrite (last_word_take id ms n E).
Qed.

Lemma read_all_app t ms ms' : read_all t (ms ++ ms') = read_all (read_all t ms) ms'.
Proof. apply foldl_app. Qed.

Lemma event_effect e : effect_of (event_fields e) = effect (EventType e) (Payload e).
Proof.
  unfold effect_of. change (values_of (event_fields e)) with (Values (event_message e)).
  by rewrite event_message_type, event_message_payload.
Qed.

(** A deletion that any reader can read. *)
Definition legible (e : OutboxEvent) : Prop :=
  EventType e = EventServerDeleted -> exists id, parse (Payload e) = Some (JObj [("server_id", JStr id)]).

Lemma read_event e t t' : legible e -> apply_event t e = Some t' ->
  read_one (keeps <$> t) (event_fields e) = keeps <$> t'.
Proof.
  intros Hl. unfold read_one, apply_event. rewrite event_effect.
  destruct (String.eqb_spec (EventType e) EventServerDeleted) as [E|E].
  - destruct (Hl E) as [id Hid]. unfold doc_id. rewrite E, (effect_deleted _ _ Hid), Hid. cbn.
    intros [= <-]. by rewrite fmap_delete.
  - destruct (_ || _) eqn:Hty; [|done]. destruct (doc_config (Payload e)) as [c|] eqn:Ec; [|done]. intros [= <-].
    rewrite (effect_written _ _ c); [by rewrite fmap_insert| |done].
    by apply orb_true_iff in Hty as [H%String.eqb_eq|H%String.eqb_eq]; [left|right].
Qed.

(** The messages of events, read as the events are replayed. *)
Lemma read_events es : forall t t', Forall legible es -> replay t es = Some t' ->
  read_all (keeps <$> t) (map event_fields es) = keeps <$> t'.
Proof.
  induction es as [|e es IH]; intros t t' Hl; cbn; [by intros [= ->]|]. apply Forall_cons in Hl as [He Hl].
  destruct (apply_event t e) as [t1|] eqn:E; [|done]. cbn. intros Hr. rewrite (read_event _ _ _ He E). by apply IH.
Qed.
End reader.

(** *** sms-reporting *)
Definition reporting_effect (ty payload : string) : option (string * option (string * string)) :=
  if String.eqb ty "ServerCreated" || String.eqb ty "ServerUpdated" then
    (fun p => (sp_ID p, Some (sp_Name p, sp_IP p))) <$> decode_server payload
  else if String.eqb ty "ServerDeleted" then (fun id => (id, None)) <$> decode_id payload
  else None.

#[export] Instance reporting_reader : Reader (string * string).
Proof.
  refine {| effect := reporting_effect; keeps := known |}.
  - intros ty p c Hty Hc. destruct (doc_config_decode p c Hc) as (sp & Hd & <- & <-).
    unfold reporting_effect. rewrite Hd. by destruct Hty as [-> | ->].
  - intros p id Hp. unfold reporting_effect, decode_id. by rewrite Hp.
Defined.

Lemma read_one_follow t (e : entry) : read_one t (e_fields e) = follow_message (brokerMsg e) t.
Proof.
  unfold read_one, effect_of, follow_message, brokerMsg. cbn [Values].
  destruct (values_of (e_fields e) !! "event_type") as [ty|]; [|done]. cbn [mbind option_bind].
  destruct (values_of (e_fields e) !! "payload") as [p|]; [|done].
  cbn [mbind option_bind effect reporting_reader]. unfold reporting_effect, follow.
  destruct (_ || _); [by destruct (decode_server p)|].
  destruct (String.eqb ty "ServerDeleted"); [by destruct (decode_id p)|done].
Qed.

Lemma read_all_follow es : forall t,
  read_all t (map e_fields es) = foldl (fun t m => follow_message m t) t (map brokerMsg es).
Proof.
  induction es as [|e es IH]; intros t; [done|]. cbn. by rewrite (read_one_follow t e), <- IH.
Qed.

(** *** sms-monitoring *)

(** What a check of a server is made with. *)
Record CheckConfig := {
  ck_IPv4 : string; ck_Method : string; ck_SSHPort : Z; ck_SSHUser : string; ck_SSHKey : string; ck_Endpoint : string;
}.

Definition payload_checks (p : EventPayload) : CheckConfig := {|
  ck_IPv4 := pl_IPv4 p; ck_Method := pl_HealthCheckMethod p; ck_SSHPort := pl_SSHPort p;
  ck_SSHUser := pl_SSHUser p; ck_SSHKey := pl_SSHKey p; ck_Endpoint := pl_AgentEndpoint p |}.

Definition config_checks (c : Config) : CheckConfig := {|
  ck_IPv4 := cf_IPv4 c; ck_Method := cf_Method c; ck_SSHPort := cf_SSHPort c;
  ck_SSHUser := cf_SSHUser c; ck_SSHKey := cf_SSHKey c; ck_Endpoint := cf_Endpoint c |}.

Lemma doc_config_payload s c : doc_config s = Some c ->
  exists p, decode_payload s = Some p /\ pl_ID p = cf_ID c /\ payload_checks p = config_checks c.
Proof.
  unfold doc_config, decode_payload. destruct (parse s) as [j|]; [|done]. cbn [mbind option_bind].
  destruct (members j) as [m|]; [|done]. cbn [mbind option_bind].
  destruct (string_field "server_id" m); [|done]. cbn [mbind option_bind].
  destruct (string_field "server_name" m); [|done]. cbn [mbind option_bind].
  destruct (string_field "ipv4" m); [|done]. cbn [mbind option_bind].
  destruct (string_field "current_status" m); [|done]. cbn [mbind option_bind].
  destruct (string_field "health_check_method" m); [|done]. cbn [mbind option_bind].
  destruct (int_field "ssh_port" m); [|done]. cbn [mbind option_bind].
  destruct (string_field "ssh_user" m); [|done]. cbn [mbind option_bind].
  destruct (string_field "ssh_key" m); [|done]. cbn [mbind option_bind].
  destruct (string_field "agent_endpoint" m); [|done]. cbn [mbind option_bind].
  intros [= <-]. eexists. by split_and!.
Qed.

Definition monitoring_effect (ty payload : string) : option (string * option CheckConfig) :=
  p ← decode_payload payload;
  if String.eqb ty "ServerCreated" || String.eqb ty "ServerUpdated" then Some (pl_ID p, Some (payload_checks p))
  else if String.eqb ty "ServerDeleted" then Some (pl_ID p, None)
  else None.

#[export] Instance monitoring_reader : Reader CheckConfig.
Proof.
  refine {| effect := monitoring_effect; keeps := config_checks |}.
  - intros ty p c Hty Hc. destruct (doc_config_payload p c Hc) as (pl & Hd & <- & <-).
    unfold monitoring_effect. rewrite Hd. by destruct Hty as [-> | ->].
  - intros p id Hp. unfold monitoring_effect, decode_payload. by rewrite Hp.
Defined.

(** A hash that holds what the checks of a server need; the address is left as
    it was when the event has none. *)
Definition shows (v : CheckConfig) (h : gmap string string) : Prop :=
  (ck_IPv4 v <> "" -> h !! "ipv4" = Some (ck_IPv4 v)) /\
  h !! "health_check_method" = Some (if String.eqb (ck_Method v) "" then "ICMP" else ck_Method v) /\
  h !! "ssh_port" = Some (Itoa (ck_SSHPort v)) /\ h !! "ssh_user" = Some (ck_SSHUser v) /\
  h !! "ssh_key" = Some (ck_SSHKey v) /\ h !! "agent_endpoint" = Some (ck_Endpoint v).

(** The cache holds these servers and no other. *)
Definition caches (r : rstate) (t : gmap string CheckConfig) : Prop :=
  set_at r ServerAllIDsKey = dom t /\
  forall id, match t !! id with
             | Some v => shows v (hash_at r (ServerInfoKey id))
             | None => hash_at r (ServerInfoKey id) = ∅
             end.

Lemma synced_shows p h : shows (payload_checks p) (synced_hash p h).
Proof.
  unfold shows, synced_hash, payload_checks.
  cbn [ck_IPv4 ck_Method ck_SSHPort ck_SSHUser ck_SSHKey ck_Endpoint].
  split; [|by split_and!; simplify_map_eq].
  intros Hip%String.eqb_neq. rewrite Hip. by simplify_map_eq.
Qed.

Lemma caches_write r r' t id v ids hb h :
  registered id h ids hb r r' -> ids = {[id]} ∪ set_at r ServerAllIDsKey -> shows v h ->
  caches r t -> caches r' (<[id := v]> t).
Proof.
  intros [Hi Hs _ Ho _] -> Hv [Hd Hc]. split; [by rewrite Hs, Hd, dom_insert_L|].
  intros id'. destruct (decide (id' = id)) as [->|Hne]; [by rewrite lookup_insert_eq, Hi|].
  rewrite lookup_insert_ne, Ho by done. apply Hc.
Qed.

Lemma caches_delete r r' t id hb :
  registered id ∅ (set_at r ServerAllIDsKey ∖ {[id]}) hb r r' -> caches r t -> caches r' (delete id t).
Proof.
  intros [Hi Hs _ Ho _] [Hd Hc]. split; [by rewrite Hs, Hd, dom_delete_L|].
  intros id'. destruct (decide (id' = id)) as [->|Hne]; [by rewrite lookup_delete_eq, Hi|].
  rewrite lookup_delete_ne, Ho by done. apply Hc.
Qed.

Section monitoring.
Context {V} {srv : Host V} `{!HostLaws srv} `{!Reliable srv}.

Lemma monitoring_reads (e : entry) t (v : V) : caches (redis (view v)) t ->
  wp (stream_processMessage (brokerMsg e)) (fun _ v' => caches (redis (view v')) (read_one t (e_fields e))) v.
Proof.
  intros Hc. unfold stream_processMessage, read_one, effect_of, brokerMsg. cbn [Values].
  destruct (values_of (e_fields e) !! "event_type") as [ty|]; [|by apply wp_ret]. cbn [mbind option_bind].
  destruct (values_of (e_fields e) !! "payload") as [s|]; [|by apply wp_ret].
  cbn [mbind option_bind effect monitoring_reader]. unfold monitoring_effect.
  destruct (decode_payload s) as [p|]; [|by apply wp_ret]. cbn [mbind option_bind]. apply wp_bind.
  destruct (_ || _); [|destruct (String.eqb ty "ServerDeleted")].
  - eapply wp_mono; [apply sync_server_effect|]. cbn beta. intros _ v' (t0 & _ & Ha). apply wp_ret.
    unfold applied in Ha. rewrite bool_decide_eq_true_2 in Ha by (by left).
    eapply caches_write; [exact Ha|done|apply synced_shows|done].
  - eapply wp_mono; [apply forget_server_effect|]. cbn beta. intros _ v' Ha. apply wp_ret.
    change (registered (pl_ID p) ∅ (set_at (redis (view v)) ServerAllIDsKey ∖ {[pl_ID p]})
      (zset_at (redis (view v)) AgentHeartbeatZSetKey) (redis (view v)) (redis (view v'))) in Ha.
    eapply caches_delete; [exact Ha|done].
  - by apply wp_ret, wp_ret.
Qed.

Lemma monitoring_reads_all es (v : V) t : caches (redis (view v)) t ->
  wp (collect stream_processMessage (map brokerMsg es)) (fun _ v' => caches (redis (view v')) (read_all t (map e_fields es))) v.
Proof.
  revert v t. induction es as [|e es IH]; intros v t Hc; [by apply wp_ret|].
  cbn [map collect]. apply wp_bind. eapply wp_mono; [by apply monitoring_reads|]. cbn beta. intros r v1 H1.
  apply wp_bind. eapply wp_mono; [by apply IH|]. cbn beta. intros rs v2 H2. by apply wp_ret.
Qed.
End monitoring.

(** ** The registry, the outbox and the stream *)
Section flow.
Context {pg : Postgres} {Hpg : @PostgresLaws pg} (time_json : Z -> string).
Context (Htime : forall t, valid_utf8 (time_json t) = true).

(** What the handlers do (see [ManagementService] and [ManagementWorkers]);
    deletions by the text that the database prints. *)
Inductive handled (x x' : mstate) : Prop :=
  | handled_created new : created time_json new x x' -> handled x x'
  | handled_updated s : updated time_json s x x' -> handled x x'
  | handled_deleted id : parse_uuid id = Some id -> deleted id x x' -> handled x x'
  | handled_status : status_changed x x' -> handled x x'.

Definition pending (x : mstate) : list OutboxEvent := List.filter (fun e => negb (IsProcessed e)) (outbox x).

(** A reader that knows the messages [ms] and is told what is pending, but for
    the first [n] events, which are on the stream already, knows the registry. *)
Record in_step (n : nat) (x : mstate) (ms : list message) : Prop := {
  step_told : told x;
  step_published : n <= length (pending x);
  step_read : forall V (R : Reader V),
    read_all ∅ (ms ++ map event_fields (drop n (pending x))) = keeps <$> config_table (servers x);
}.

Lemma stored_unprocessed e e' : stored_event e = Some e' -> IsProcessed e' = IsProcessed e.
Proof. unfold stored_event. destruct (jsonb (Payload e)); [|done]. cbn. by intros [= <-]. Qed.

Lemma announced_new ty new evs : ty = EventServerCreated \/ ty = EventServerUpdated ->
  Forall2 (announces time_json ty) new evs -> forall es, mapM stored_event evs = Some es ->
  Forall (fun e => IsProcessed e = false) es /\ Forall legible es.
Proof.
  intros Hty Ha. induction Ha as [|s e new evs (_ & _ & Ht & _ & Hp) _ IH]; intros es Hm; [by injection Hm as <-|].
  apply mapM_Some, Forall2_cons_inv_l in Hm as (e' & es' & He & Hm%mapM_Some & ->).
  destruct (IH es' Hm) as [H1 H2]. split; constructor; [by rewrite (stored_unprocessed e e' He)|done| |done].
  intros Hd. apply stored_event_inv in He as (_ & Ht' & _). rewrite Ht', Ht in Hd. by destruct Hty; subst ty.
Qed.

Lemma handled_grows x x' : handled x x' ->
  canonical_step time_json x x' /\
  exists es, outbox x' = outbox x ++ es /\ Forall (fun e => IsProcessed e = false) es /\ Forall legible es.
Proof.
  intros [new H|s H|id Hu H|H].
  - split; [by eapply canonical_created|]. destruct H as (evs & x1 & _ & H1 & Ha & H2).
    apply insert_events_story in H2 as (es & Hm & _ & Ho). apply insert_servers_tables in H1 as [_ Ho1].
    exists es. rewrite Ho, Ho1. split; [done|]. apply (announced_new EventServerCreated new evs); [by left|done..].
  - split; [by eapply canonical_updated|]. destruct H as (now & old & e & n & x1 & H1 & _ & _ & _ & Ha & H2).
    apply insert_events_story in H2 as (es & Hm & _ & Ho). apply update_server_story in H1 as (_ & Ho1 & _ & _).
    exists es. rewrite Ho, Ho1. split; [done|].
    eapply (announced_new EventServerUpdated [_] [e]); [by right|by constructor|done].
  - split; [by eapply canonical_deleted|]. destruct H as (e & n & x1 & H1 & _ & Ha & H2).
    apply insert_events_story in H2 as (es & Hm & _ & Ho). unfold delete_server in H1. rewrite Hu in H1. simplify_eq.
    exists es. rewrite Ho. split; [done|]. cbn in Hm. destruct (stored_event e) as [e'|] eqn:He; [|done].
    injection Hm as <-. split; (constructor; [|constructor]).
    + rewrite (stored_unprocessed e e' He). apply Ha.
    + intros _. exists id. apply (delete_payload_document id); [by eapply parse_uuid_plain|].
      apply stored_event_inv in He as (Hj & _). destruct Ha as (_ & _ & _ & Hp & _). by rewrite <- Hp.
  - split; [by apply canonical_status|]. destruct H as (now & s & st & n & _ & H1).
    apply update_server_story in H1 as (_ & Ho & _ & _). exists []. by rewrite Ho, app_nil_r.
Qed.

(** *** The handlers *)
Lemma handled_pending x x' : handled x x' -> exists es, outbox x' = outbox x ++ es /\
  pending x' = pending x ++ es /\ Forall legible es /\ canonical_step time_json x x'.
Proof.
  intros Hx. destruct (handled_grows x x' Hx) as (Hc & es & Ho & Hp & Hl). exists es. split_and!; [done| |done|done].
  unfold pending. rewrite Ho, List.filter_app. f_equal. clear -Hp.
  induction Hp as [|e es He _ IH]; [done|]. cbn. by rewrite He, IH.
Qed.

Lemma handler_in_step n x x' ms : handled x x' -> in_step n x ms -> in_step n x' ms.
Proof.
  intros Hx [Ht Hn Hread]. destruct (handled_pending x x' Hx) as (es & Ho & Hp & Hl & Hc).
  pose proof (canonical_step_told time_json Htime x x' Hc Ht) as Ht'. split; [done|rewrite Hp, length_app; lia|].
  intros V R. rewrite Hp, drop_app_le, map_app, app_assoc, read_all_app, (Hread V R) by done. apply read_events; [done|].
  destruct Ht as [_ _ Hr1], Ht' as [_ _ Hr2]. rewrite Ho, replay_app, Hr1 in Hr2. done.
Qed.

Lemma handlers_in_step n x x' ms : rtc handled x x' -> in_step n x ms -> in_step n x' ms.
Proof. induction 1; eauto using handler_in_step. Qed.

Lemma handlers_pending x x' : rtc handled x x' -> exists es, pending x' = pending x ++ es.
Proof.
  induction 1 as [x|x y z Hx _ [es IH]]; [exists []; by rewrite app_nil_r|].
  destruct (handled_pending x y Hx) as (es' & _ & Hp & _). exists (es' ++ es). by rewrite IH, Hp, app_assoc.
Qed.

(** *** Publishing and marking *)
Lemma published_part n x ms : in_step 0 x ms ->
  in_step 0 x (ms ++ map event_fields (take n (pending x))).
Proof.
  intros [Ht Hn Hread]. split; [done|done|]. intros V R. specialize (Hread V R). rewrite drop_0 in *.
  rewrite <- firstn_map, !read_all_app in *. by rewrite read_again.
Qed.

Lemma published_all n x ms : in_step 0 x ms -> n <= length (pending x) ->
  in_step n x (ms ++ map event_fields (take n (pending x))).
Proof.
  intros [Ht _ Hread] Hn. split; [done|done|]. intros V R. specialize (Hread V R).
  by rewrite <- app_assoc, <- map_app, take_drop.
Qed.

Lemma unmarked eids l :
  List.filter (fun e => negb (IsProcessed e)) (map (mark_event eids) l) =
  List.filter (fun e => negb (bool_decide (ID e ∈ eids))) (List.filter (fun e => negb (IsProcessed e)) l).
Proof.
  induction l as [|e l IH]; [done|]. cbn [map List.filter]. rewrite IH. unfold mark_event.
  destruct (IsProcessed e) eqn:Hp, (bool_decide (ID e ∈ eids)) eqn:Hin; cbn; by rewrite ?Hp, ?Hin.
Qed.

Lemma filter_event_ids (f : OutboxEvent -> bool) l : NoDup (event_ids l) -> NoDup (event_ids (List.filter f l)).
Proof.
  induction l as [|e l IH]; intros Hn; [constructor|]. cbn in Hn |- *. inversion Hn as [|y k Hnot Hn' E]; subst.
  destruct (f e); cbn; [constructor|by apply IH]; [|by apply IH]. intros Hin. apply Hnot.
  unfold event_ids in *. apply list_elem_of_fmap in Hin as (e' & -> & Hin). apply list_elem_of_fmap. exists e'. split; [done|].
  apply list_elem_of_In, filter_In in Hin as [Hin _]. by apply list_elem_of_In.
Qed.

Lemma filter_taken n : forall p, NoDup (event_ids p) ->
  List.filter (fun e => negb (bool_decide (ID e ∈ event_ids (take n p)))) p = drop n p.
Proof.
  induction n as [|n IH]; intros p Hp.
  - apply forallb_filter_id, forallb_forall. intros e _. cbn. by rewrite bool_decide_eq_false_2 by apply not_elem_of_nil.
  - destruct p as [|e p]; [done|]. cbn in Hp. inversion Hp as [|y k Hnot Hp' E]; subst.
    cbn [take event_ids map drop List.filter]. rewrite bool_decide_eq_true_2 by left. cbn [negb].
    rewrite <- (IH p Hp'). apply List.filter_ext_in. intros e' Hin. f_equal. apply bool_decide_ext.
    rewrite elem_of_cons. split; [|by right]. intros [E|]; [|done]. destruct Hnot. rewrite <- E.
    apply list_elem_of_fmap. exists e'. split; [done|]. by apply list_elem_of_In.
Qed.

Definition marked_state (eids : list string) (x : mstate) : mstate :=
  MState (servers x) (map (mark_event eids) (outbox x)).

Lemma marked_pending n x : NoDup (event_ids (outbox x)) ->
  pending (marked_state (event_ids (take n (pending x))) x) = drop n (pending x).
Proof. intros Hn. unfold pending at 1. cbn [marked_state outbox]. rewrite unmarked. by apply filter_taken, filter_event_ids. Qed.

Lemma marked_in_step n x ms : in_step n x ms -> in_step 0 (marked_state (event_ids (take n (pending x))) x) ms.
Proof.
  intros [Ht Hn Hread]. split; [|lia|].
  - eapply canonical_step_told; [done|apply canonical_marked|exact Ht]. by eexists.
  - intros V R. rewrite drop_0, marked_pending by apply Ht. apply Hread.
Qed.
End flow.

(** ** The relay at work *)
Section relay.
Context {W} {srv : Host W} {db : Db W mstate} `{!HostLaws srv}.
Context {pg : Postgres} {Hpg : @PostgresLaws pg} (time_json : Z -> string).
Context (Htime : forall t, valid_utf8 (time_json t) = true).
(** Handlers change the tables between the statements of the relay. *)
Context `{!SharedLaws db (handled time_json)} `{!Frame srv (ManagementService.tables (db := db))}.
Context `{!Frame db (streams (srv := srv))} (maxLen : Z) (streamName : string) (batchSize : Z).

Definition stream_entries (r : rstate) : list entry := s_entries (stream_at r streamName).
Definition on_stream (r : rstate) : list message := map e_fields (stream_entries r).

(** Room on the stream for a batch, so that nothing that may not have been read
    is trimmed; the database returns the events as they were added. *)
Definition room (r : rstate) (x : mstate) : Prop :=
  (0 <= batchSize)%Z /\
  ((0 < maxLen)%Z -> (Z.of_nat (length (on_stream r)) + batchSize <= maxLen)%Z) /\
  forall x1, rtc (handled time_json) x x1 -> by_created_at (pending x1) = pending x1.

Lemma xadds_fields bound es st st' :
  xadds_spec bound es st st' ->
  (forall n, bound = Some n -> (Z.of_nat (length (s_entries st) + length es) <= Z.of_N n)%Z) ->
  map e_fields (s_entries st') = map e_fields (s_entries st) ++ es.
Proof.
  induction 1 as [st|e es st st1 st2 (keep & Hkeep & ->) _ IH]; intros Hb; [by rewrite app_nil_r|].
  assert (s_entries (append_entry keep e st) = s_entries st ++ [Entry (N.succ (s_last st)) e]) as E.
  { cbn. apply lastn_all. rewrite length_app. cbn. destruct Hkeep as [|(n & Hn & Hle)]; [lia|].
    specialize (Hb n Hn). cbn in Hb. lia. }
  rewrite IH, E, map_app, <- app_assoc; [done|]. intros n Hn. specialize (Hb n Hn). rewrite E, length_app. cbn in *. lia.
Qed.

Lemma appended_stream evs r r' :
  appended maxLen streamName evs r r' ->
  ((0 < maxLen)%Z -> (Z.of_nat (length (on_stream r) + length evs) <= maxLen)%Z) ->
  on_stream r' = on_stream r ++ map event_fields evs.
Proof.
  intros (st & Hst & ->) Hroom. unfold on_stream, stream_entries in *. rewrite stream_at_set_stream.
  eapply xadds_fields; [exact Hst|]. unfold stream_bound.
  intros n. destruct (Z.ltb_spec 0 maxLen) as [Hpos|]; [|done]. intros [= <-]. specialize (Hroom Hpos).
  rewrite length_map in *. lia.
Qed.

(** A batch is the beginning of what is pending. *)
Lemma batch_pending x : (0 <= batchSize)%Z -> by_created_at (pending x) = pending x ->
  batch batchSize x = take (Z.to_nat batchSize) (pending x).
Proof.
  intros Hpos E. unfold batch. fold (pending x). rewrite E. unfold limit_rows.
  by rewrite (proj2 (Z.ltb_ge batchSize 0)) by lia.
Qed.

Lemma take_all_of {A} n (l : list A) : take n l = take (n `min` length l) l.
Proof.
  destruct (Nat.min_spec n (length l)) as [[_ ->]|[Hle ->]]; [done|]. by rewrite firstn_all, firstn_all2.
Qed.

(** What is known between the cycles. *)
Definition steady (w : W) : Prop := exists x,
  ManagementService.tables w = DView x None /\ in_step 0 x (on_stream (streams w)).

Lemma relay_steady w x :
  ManagementService.tables w = DView x None -> room (streams w) x -> steady w ->
  wp (processOutboxEvents maxLen streamName batchSize) (fun _ w' => steady w') w.
Proof.
  intros Hv (Hpos & Hroom & Hord) (x0 & Hv0 & Hin). rewrite Hv in Hv0. injection Hv0 as <-.
  eapply wp_mono; [by apply (processOutboxEvents_spec (srv := srv) (db := db))|]. cbn beta.
  intros _ w' (x1 & x2 & Hx1 & Hx2 & Hcase & _). pose proof (batch_pending x1 Hpos (Hord x1 Hx1)) as Hb.
  set (n := Z.to_nat batchSize) in *.
  assert ((0 < maxLen)%Z -> (Z.of_nat (length (on_stream (streams w)) + n) <= maxLen)%Z) as Hfits.
  { intros Hm. specialize (Hroom Hm). unfold n. lia. }
  apply (handlers_in_step time_json Htime 0 x x1) in Hin; [|done]. destruct Hcase as [[Hv' Hs]|[Hv' Hs]].
  - exists x2. split; [done|]. apply (handlers_in_step time_json Htime 0 x1 x2); [done|]. destruct Hs as [->|[k Hs]]; [done|].
    apply appended_stream in Hs; [|intros Hm; specialize (Hfits Hm); rewrite length_take, Hb, length_take; lia].
    rewrite Hs, Hb, take_take. by apply published_part.
  - exists (marked_state (event_ids (batch batchSize x1)) x2). split; [done|].
    apply appended_stream in Hs; [|intros Hm; specialize (Hfits Hm); rewrite Hb, length_take; lia].
    rewrite Hs, Hb. destruct (handlers_pending time_json x1 x2 Hx2) as [es Hes]. rewrite take_all_of.
    set (m := n `min` length (pending x1)). assert (m <= length (pending x1)) as Hm by (unfold m; lia).
    assert (take m (pending x1) = take m (pending x2)) as E by (by rewrite Hes, take_app_le).
    rewrite E at 1. apply (marked_in_step time_json); [done|]. apply (handlers_in_step time_json Htime m x1 x2); [done|].
    by apply published_all.
Qed.

(** Handlers work between the cycles and during them; the relay is alone. *)
Inductive flow (w w' : W) : Prop :=
  | flow_handlers x x' :
      ManagementService.tables w = DView x None -> rtc (handled time_json) x x' ->
      ManagementService.tables w' = DView x' None -> streams w' = streams w -> flow w w'
  | flow_relay x :
      ManagementService.tables w = DView x None -> room (streams w) x ->
      w' = (processOutboxEvents maxLen streamName batchSize w).2 -> flow w w'.

Lemma flow_steady w w' : flow w w' -> steady w -> steady w'.
Proof.
  intros [x x' Hv Hx Hv' Hr|x Hv Hroom ->] Hin.
  - destruct Hin as (x0 & Hv0 & Hin). rewrite Hv in Hv0. injection Hv0 as <-. exists x'. split; [done|].
    rewrite Hr. by apply (handlers_in_step time_json Htime 0 x x').
  - pose proof (relay_steady w x Hv Hroom Hin) as H'. revert H'. unfold wp. by destruct (processOutboxEvents _ _ _ w).
Qed.
End relay.

(** *** Once everything is published *)
Section readers.
Context {pg : Postgres} {Hpg : @PostgresLaws pg} (time_json : Z -> string).
Context (Htime : forall t, valid_utf8 (time_json t) = true) (streamName : string).

(** Every replica of sms-reporting and every cache of sms-monitoring that has
    handled the stream from its beginning, with success, knows the servers
    [l]: the replica by name and address, the cache by what checks need.  (The
    consumer of sms-monitoring does not look at the answers of Redis, so here
    it is one that answers.) *)
Definition replica_knows (r : rstate) (l : list Server) : Prop :=
  forall V (wv : World V rtables) (rp : ReportStore) (v : V) (y : rtables),
    World.tables v = DView y None -> rservers y = [] ->
    wp (collect handleServerEvent (map brokerMsg (stream_entries streamName r)))
      (fun rs v' => exists y', World.tables v' = DView y' None /\
        (Forall (fun r => is_ok r = true) rs -> replica (rservers y') = known <$> config_table l)) v.

Definition cache_knows (r : rstate) (l : list Server) : Prop :=
  forall V (srv : Host V) (laws : HostLaws srv) (up : Reliable srv) (v : V),
    set_at (redis (view v)) ServerAllIDsKey = ∅ -> (forall id, hash_at (redis (view v)) (ServerInfoKey id) = ∅) ->
    wp (collect stream_processMessage (map brokerMsg (stream_entries streamName r)))
      (fun _ v' => caches (redis (view v')) (config_checks <$> config_table l)) v.

Definition readers_know (r : rstate) (l : list Server) : Prop := replica_knows r l /\ cache_knows r l.

Definition all_processed (x : mstate) : Prop := Forall (fun e => IsProcessed e = true) (outbox x).

Lemma all_processed_pending x : all_processed x <-> pending x = [].
Proof.
  unfold all_processed, pending. induction (outbox x) as [|e l IH]; [by split|]. cbn. rewrite Forall_cons, IH.
  destruct (IsProcessed e); cbn; [tauto|]. split; [by intros [? _]|done].
Qed.

Lemma in_step_readers r x : in_step 0 x (on_stream streamName r) -> all_processed x -> readers_know r (servers x).
Proof.
  intros [_ _ Hread] Hall. apply all_processed_pending in Hall. rewrite Hall in Hread. split.
  - intros V wv rp v y Hy Hempty. specialize (Hread _ reporting_reader). rewrite app_nil_r in Hread.
    eapply wp_mono; [apply (follow_all _ v y Hy); rewrite Hempty; constructor|]. cbn beta.
    intros rs v' (y' & Hv' & _ & _ & Hf). exists y'. split; [done|]. intros Hok. rewrite (Hf Hok), Hempty.
    change (@known) with (keeps (Reader := reporting_reader)). rewrite <- Hread.
    unfold on_stream. by rewrite read_all_follow.
  - intros V srv laws up v Hids Hinfo. specialize (Hread _ monitoring_reader). rewrite app_nil_r in Hread.
    eapply wp_mono; [apply (monitoring_reads_all _ _ ∅)|].
    + split; [by rewrite dom_empty_L|]. intros id. by rewrite lookup_empty.
    + cbn beta. intros _ v' Hc. change config_checks with (keeps (Reader := monitoring_reader)). by rewrite <- Hread.
Qed.

(** Room for everything that is pending. *)
Definition room_for_all (maxLen : Z) (r : rstate) (x : mstate) : Prop :=
  ((0 < maxLen)%Z -> (Z.of_nat (length (on_stream streamName r) + length (pending x)) <= maxLen)%Z) /\
  forall l, l `suffix_of` pending x -> by_created_at l = l.

(** While no handler is at work and everything answers, a cycle publishes and
    marks a batch, and enough cycles publish and mark what is pending. *)
Context {W} {wo : World W mstate} {Hans : Answers wo} (maxLen batchSize : Z).
#[local] Instance streams_frame : Frame world_db (streams (srv := world_host)).
Proof.
  intros A c w. pose proof (frame (srv := world_db) (get := view (Service := world_host)) A c w) as E.
  unfold streams. by rewrite E.
Qed.

Lemma relay_cycle w x : (0 < batchSize)%Z ->
  tables w = DView x None -> in_step 0 x (on_stream streamName (redis (host w))) -> room_for_all maxLen (redis (host w)) x ->
  wp (processOutboxEvents maxLen streamName batchSize) (fun _ w' => exists x', tables w' = DView x' None /\
    in_step 0 x' (on_stream streamName (redis (host w'))) /\ servers x' = servers x /\
    pending x' = drop (Z.to_nat batchSize) (pending x) /\ room_for_all maxLen (redis (host w')) x') w.
Proof.
  intros Hpos Hv Hin [Hroom Hord].
  assert (batch batchSize x = take (Z.to_nat batchSize) (pending x)) as Hb.
  { apply batch_pending; [lia|]. by apply Hord. }
  set (n := Z.to_nat batchSize) in *.
  eapply wp_mono; [by apply (processOutboxEvents_spec (srv := world_host) (db := world_db))|]. cbn beta.
  intros _ w' (x1 & x2 & ->%rtc_nobody & ->%rtc_nobody & Hcase & Hrel).
  change (streams (srv := world_host) w) with (redis (host w)) in *.
  change (streams (srv := world_host) w') with (redis (host w')) in *.
  assert (forall evs, evs = take (length evs) (pending x) ->
    appended maxLen streamName evs (redis (host w)) (redis (host w')) ->
    on_stream streamName (redis (host w')) = on_stream streamName (redis (host w)) ++ map event_fields evs) as Happ.
  { intros evs Hevs Hs. eapply appended_stream; [exact Hs|]. intros Hm. specialize (Hroom Hm).
    apply (f_equal length) in Hevs. rewrite length_take in Hevs. lia. }
  assert (relayed (srv := world_host) (db := world_db) maxLen streamName batchSize x x w w' -> exists x',
    tables w' = DView x' None /\ in_step 0 x' (on_stream streamName (redis (host w'))) /\ servers x' = servers x /\
    pending x' = drop n (pending x) /\ room_for_all maxLen (redis (host w')) x') as Hdone.
  { intros [Hv' Hs]. exists (marked_state (event_ids (batch batchSize x)) x). split; [exact Hv'|].
    apply Happ in Hs; [|rewrite Hb, length_take, <- take_all_of; done].
    assert (pending (marked_state (event_ids (batch batchSize x)) x) = drop n (pending x)) as Hp.
    { rewrite Hb. apply marked_pending. apply Hin. }
    split; [|split; [done|split; [done|split]]].
    - rewrite Hs, Hb, take_all_of. apply (marked_in_step time_json); [done|]. apply published_all; [done|lia].
    - intros Hm. specialize (Hroom Hm). rewrite Hs, Hp, length_app, length_map, Hb, length_take, length_drop. lia.
    - intros l Hl. apply Hord. rewrite Hp in Hl. transitivity (drop n (pending x)); [done|apply suffix_drop]. }
  destruct (decide (batch batchSize x = [])) as [E|E]; [|by apply Hdone, Hrel; [apply Hans|apply Hans|]].
  destruct Hcase as [[Hv' Hs]|]; [|auto]. exists x. split; [exact Hv'|].
  assert (drop n (pending x) = pending x) as ->.
  { rewrite Hb in E. rewrite <- (take_drop n (pending x)) at 2. by rewrite E. }
  assert (on_stream streamName (redis (host w')) = on_stream streamName (redis (host w))) as Eq.
  { destruct Hs as [Hs|[k Hs]]; [exact (f_equal (on_stream streamName) Hs)|]. rewrite E, take_nil in Hs. apply Happ in Hs; [by rewrite app_nil_r in Hs|done]. }
  unfold room_for_all. by rewrite Eq.
Qed.

Lemma relay_drains ticks : (0 < batchSize)%Z -> forall w x,
  tables w = DView x None -> in_step 0 x (on_stream streamName (redis (host w))) -> room_for_all maxLen (redis (host w)) x ->
  length (pending x) <= ticks * Z.to_nat batchSize ->
  wp (relay_loop maxLen streamName batchSize ticks) (fun _ w' => exists x',
    tables w' = DView x' None /\ servers x' = servers x /\ readers_know (redis (host w')) (servers x)) w.
Proof.
  intros Hpos. induction ticks as [|ticks IH]; intros w x Hv Hin Hroom Hlen.
  - apply wp_ret. exists x. split_and!; [done..|]. apply in_step_readers; [done|].
    apply all_processed_pending, length_zero_iff_nil. lia.
  - apply wp_bind. eapply wp_mono; [by apply relay_cycle|]. cbn beta. intros _ w1 (x1 & Hv1 & Hin1 & Hs1 & Hp1 & Hroom1).
    eapply wp_mono; [apply (IH w1 x1 Hv1 Hin1 Hroom1); rewrite Hp1, length_drop; lia|]. cbn beta. by rewrite Hs1.
Qed.
End readers.


(** Two servers are registered and the relay publishes an event; before it
    marks the event, one of the servers is deleted. *)
Definition events_stream : string := "server.events".
Abbreviation handlers := (handled (pg := strict_pg) now_json).
Definition fworld : Type := hview * ((dview mstate * list fault) * list (move handlers)).
Definition fhost : Host fworld := framed _ sure_host.
Definition fdb : Db fworld mstate := framed_r _ (crowd_db mstate handlers).
#[export] Instance fhost_frame : Frame fhost (ManagementService.tables (db := fdb)).
Proof. apply (framed_snd sure_host (fun w => w.1.1)). Qed.
#[export] Instance fdb_frame : Frame fdb (streams (srv := fhost)).
Proof. apply (framed_r_fst (crowd_db mstate handlers) redis). Qed.

Lemma handlers_register : handlers (MState [] []) story_created.
Proof.
  apply (handled_created _ _ _ [story_a; story_b]).
  exists (outbox story_created), (MState [story_a; story_b] []).
  split; [by repeat constructor|]. split; [by vm_compute|]. split; [by repeat constructor|by vm_compute].
Qed.

Lemma handlers_delete : handlers story_created story_deleted.
Proof.
  apply (handled_deleted _ _ _ "id-b"); [done|].
  exists (story_event "e3" "ServerDeleted" "id-b" (delete_payload "id-b")), 1%Z, (MState [story_a] (outbox story_created)).
  split; [by vm_compute|]. split; [done|]. split; [by repeat constructor|by vm_compute].
Qed.

Lemma deletes_handled x : rtc handlers x (deletes x).
Proof. unfold deletes. destruct (decide _) as [->|]; [apply rtc_once, handlers_delete|done]. Qed.

Definition flow_world (x : mstate) : fworld :=
  (HView 0 empty_redis, ((DView x None, []), [stay; move_by deletes deletes_handled])).
Definition after_story : fworld :=
  (processOutboxEvents (srv := fhost) (db := fdb) (pg := strict_pg) 1000 events_stream 1 (flow_world story_created)).2.

Lemma story_flows :
  rtc (flow (srv := fhost) (db := fdb) (pg := strict_pg) now_json 1000 events_stream 1)
    (flow_world (MState [] [])) after_story.
Proof.
  apply rtc_l with (flow_world story_created).
  { eapply flow_handlers; [done|apply rtc_once, handlers_register|done|done]. }
  apply rtc_once. eapply flow_relay; [done| |done]. split_and!; [done|done|done].
Qed.

(** The handlers pause. *)
Definition left_over : mstate := committed after_story.2.1.1.
Definition pause : hview * dview mstate := (after_story.1, after_story.2.1.1).
Definition drain_story : proc (hview * dview mstate) unit :=
  relay_loop (srv := calm_host mstate) (db := calm_db mstate) (pg := strict_pg) 1000 events_stream 1 2.


(** *** Two relays *)

(** A cycle of the relay, from the moment when it has read its batch. *)
Definition relay_after {W} {srv : Host W} {db : Db W mstate} `{pg : Postgres} (maxLen : Z) (streamName : string)
    (events : list OutboxEvent) : proc W unit :=
  if bool_decide (events = []) then mret tt
  else
    r <-- PublishOutboxBatch maxLen streamName events;
    match r with
    | Err _ => mret tt
    | Ok _ => MarkProcessed (event_ids events) ;;- mret tt
    end.

Lemma relay_in_two {W} {srv : Host W} {db : Db W mstate} `{pg : Postgres} (maxLen : Z) (streamName : string) (batchSize : Z) :
  processOutboxEvents maxLen streamName batchSize =
  (r <-- GetUnprocessed batchSize;
   match r with Err _ => mret tt | Ok events => relay_after maxLen streamName events end).
Proof. reflexivity. Qed.

(** What other clients make of the tables. *)
Definition new_tables (x : mstate) (w : hview * dview mstate) : hview * dview mstate := (w.1, DView x None).
Definition registered_story : hview * dview mstate := (HView 0 empty_redis, DView story_created None).

(** With two replicas of sms-management one relay may read a batch and publish
    it only after the other published it and what follows: here [late] is the
    batch that the first relay read before the other, [other_relay], published
    it, and before a server was deleted.  Everything is then marked, but the
    last word on the stream is that the deleted server exists. *)
Definition other_relay : proc (hview * dview mstate) unit :=
  processOutboxEvents (srv := calm_host mstate) (db := calm_db mstate) (pg := strict_pg) 1000 events_stream 10.
Definition late : list OutboxEvent := outbox story_created.
Definition published_once : hview * dview mstate := (other_relay registered_story).2.
Definition deleted_since : mstate :=
  MState [story_a] (outbox (committed published_once.2) ++
    [story_event "e3" "ServerDeleted" "id-b" (delete_payload "id-b")]).
Definition published_twice : hview * dview mstate :=
  (relay_after (srv := calm_host mstate) (db := calm_db mstate) (pg := strict_pg) 1000 events_stream late
    (other_relay (new_tables deleted_since published_once)).2).2.

Lemma two_relays_reorder :
  (GetUnprocessed (db := calm_db mstate) (pg := strict_pg) 10 registered_story).1 = Ok late /\
  deleted (pg := strict_pg) "id-b" (committed published_once.2) deleted_since /\
  exists x, tables (wo := calm mstate) published_twice = DView x None /\ all_processed x /\ servers x = [story_a] /\
    read_all ∅ (on_stream events_stream (redis published_twice.1)) =
    {["id-a" := ("web", "10.0.0.1"); "id-b" := ("db", "10.0.0.2")]}.
Proof.
  split; [by vm_compute|]. split.
  { exists (story_event "e3" "ServerDeleted" "id-b" (delete_payload "id-b")), 1%Z,
      (MState [story_a] (outbox (committed published_once.2))).
    split; [by vm_compute|]. split; [done|]. split; [by repeat constructor|by vm_compute]. }
  exists (committed published_twice.2). split_and!; [by vm_compute| |by vm_compute|by vm_compute].
  apply all_processed_pending. by vm_compute.
Qed.

(** *** Two writers of a row *)

(** The consumer of status reports, from the moment when it has read the row. *)
Definition status_after {W} {srv : Host W} {db : Db W mstate} `{pg : Postgres} (status : string) (server : Server) :
    proc W (res unit) :=
  if String.eqb (CurrentStatus server) status then mret (Ok tt)
  else
    _ <-? Server_Update (ManagementService.with_status status server);
    mret (Ok tt).

Lemma status_in_two {W} {srv : Host W} {db : Db W mstate} `{pg : Postgres} (msg : Message) (id status : string) :
  report msg = Some (id, status) -> id <> "" -> status <> "" ->
  status_processMessage msg =
  (r <-- GetByID id; match r with Err _ => mret (Ok tt) | Ok server => status_after status server end).
Proof.
  unfold report, status_processMessage, status_after. destruct (Values msg !! "event_type") as [ty|]; [|done].
  cbn [mbind option_bind]. destruct (Values msg !! "payload") as [p|]; [|by destruct (String.eqb ty _)].
  cbn [mbind option_bind]. destruct (String.eqb ty "ServerStatusChanged"); [|done]. cbn [negb].
  destruct (ManagementWorkers.decode_status p) as [[i s]|]; [|done]. cbn [mbind option_bind].
  intros [= -> ->] Hi%String.eqb_neq Hs%String.eqb_neq. by rewrite Hi, Hs.
Qed.

(** An edit between the two is lost in the registry, while its event stays in
    the outbox: the readers know a server that the registry does not have. *)
Definition renamed_story : hview * dview mstate :=
  (UpdateServer (srv := calm_host mstate) (db := calm_db mstate) (pg := strict_pg)
    (fun key => mret (Ok key)) (fun _ => true) now_json "id-a" rename registered_story).2.
Definition status_story : hview * dview mstate :=
  (status_after (srv := calm_host mstate) (db := calm_db mstate) (pg := strict_pg) "ONLINE" story_a renamed_story).2.

Lemma edit_lost :
  (GetByID (db := calm_db mstate) (pg := strict_pg) "id-a" registered_story).1 = Ok story_a /\
  map ServerName (servers (committed renamed_story.2)) = ["renamed"; "db"] /\
  map ServerName (servers (committed status_story.2)) = ["web"; "db"] /\
  cf_Name <$> (default ∅ (replay ∅ (outbox (committed status_story.2))) !! "id-a") = Some "renamed".
Proof. by vm_compute. Qed.
